(** * Clzip: the command-line driver (main.c)

    A shallow embedding of the driver of clzip: option processing, the
    per-file loop of [main], the member loops of [compress] and
    [decompress], and the helpers they call.  The LZMA codec, the range
    coder, the argument parser and the C library are outside main.c; they
    enter the development as explicit interfaces (records of functions),
    so every statement below holds for all of their implementations. *)

From Stdlib Require Import ZArith Lia Bool List String Ascii DecimalString.
From Stdlib Require Import Strings.Byte.
From stdpp Require Import base list strings.

Open Scope Z_scope.

(** ** Process-level results

    A C function either returns a value or leaves the process through
    [exit]; [Exit] carries the exit status. *)
Inductive outcome (A : Type) : Type :=
  | Return (a : A)
  | Exit (status : Z).
Arguments Return {A} a.
Arguments Exit {A} status.

#[global] Instance byte_eq_dec : EqDecision byte := Byte.byte_eq_dec.

(** ** Declarations of lzip.h used by the driver *)
Module Lzip.

(** Modelled from the spec: lzip.h is absent. Dictionary sizes range over
    4 KiB .. 512 MiB (2^12 .. 2^29) and match length limits over 5 .. 273,
    as the comments of [Lzma_options] and the help text of main.c say. *)
Definition min_dictionary_bits : Z := 12.
Definition max_dictionary_bits : Z := 29.
Definition min_dictionary_size : Z := Z.shiftl 1 min_dictionary_bits.
Definition max_dictionary_size : Z := Z.shiftl 1 max_dictionary_bits.
Definition min_match_len_limit : Z := 5.
Definition max_match_len : Z := 273.

(** Modelled from the spec: lzip.h is absent. A header is 6 bytes: the 4
    magic bytes "LZIP", a version byte and a dictionary-size byte. *)
Definition Lh_size : nat := 6.
Definition lzip_magic : list byte := ["L"; "Z"; "I"; "P"]%byte.

(** Modelled from the spec: lzip.h is absent. The magic is valid when the
    first four bytes of the header are "LZIP". *)
Definition Lh_verify_magic (header : list byte) : bool :=
  bool_decide (take 4 header = lzip_magic).

(** Modelled from the spec: lzip.h is absent. The version is the fifth
    byte of the header, and the only accepted value is 1. *)
Definition Lh_version (header : list byte) : Z :=
  match header !! 4%nat with
  | Some b => Z.of_N (Byte.to_N b)
  | None => 0
  end.

Definition Lh_verify_version (header : list byte) : bool :=
  Lh_version header =? 1.

(** Modelled from the spec: lzip.h is absent. A dictionary size is valid
    when it lies in [min_dictionary_size, max_dictionary_size]. *)
Definition isvalid_ds (dictionary_size : Z) : bool :=
  (min_dictionary_size <=? dictionary_size) &&
  (dictionary_size <=? max_dictionary_size).

(** Modelled from the spec: lzip.h is absent. [set_retval] merges a new
    status into an accumulated one; statuses are ordered by severity, and
    the larger one is kept. *)
Definition set_retval (retval new_val : Z) : Z :=
  if retval <? new_val then new_val else retval.

(** What lzip.h declares and neither main.c nor the spec pins down:
    the message constants, the two header tests applied to what follows
    a member, and the decoding of the dictionary-size byte. The header
    tests receive the bytes actually read (their number is the [size]
    argument of the C functions). *)
Record decls : Type := {
  mem_msg : string;
  bad_magic_msg : string;
  bad_dict_msg : string;
  corrupt_mm_msg : string;
  trailing_msg : string;
  Lh_verify_prefix : list byte -> bool;
  Lh_verify_corrupt : list byte -> bool;
  Lh_get_dictionary_size : list byte -> Z;
  (* the header with its dictionary-size byte set, or [None] for [false] *)
  Lh_set_dictionary_size : Z -> option (list byte);
}.

End Lzip.
Import Lzip.

(** ** The state shared by the driver and the codec *)

Definition program_name : string := "clzip".

(** The newline character, as a string. *)
Definition nl : string := String (ascii_of_nat 10) EmptyString.

Record Pretty_print : Type := {
  pp_name : string;
  pp_padded_name : string;
  pp_stdin_name : string;
  pp_longest_name : Z;
  pp_first_post : bool;
}.

(** What reaches stdout or stderr: text, one of the two lines whose
    numbers are printed in floating point (kept symbolic), or the fixed
    texts of [show_help] and [show_version]. *)
Inductive chunk : Type :=
  | Text (s : string)
  | Progress (pos csize : Z)
  | Ratio (in_size out_size : Z)
  | Help_text (invocation_name : string)
  | Version_text.

(** The static variables of [show_cprogress] and [show_dprogress]; [armed]
    stands for the two saved pointers being non-null. *)
Record progress : Type := {
  enabled : bool;
  csize : Z;
  psize : Z;
  armed : bool;
  counter : Z;
}.

Definition progress_init : progress :=
  {| enabled := true; csize := 0; psize := 0; armed := false; counter := 0 |}.

(** System calls of the driver that change the file system. *)
Inductive syscall : Type :=
  | Sys_open_out (path : string) (truncate : bool)
  | Sys_close (fd : Z)
  | Sys_remove (path : string)
  | Sys_set_attributes (path : string).

Record world : Type := {
  pp : Pretty_print;
  stdout : list chunk;
  stderr : list chunk;
  cprogress : progress;
  dprogress : progress;
  output_filename : string;
  outfd : Z;
  delete_output_on_interrupt : bool;
  syscalls : list syscall;
}.

Definition with_pp (p : Pretty_print) (w : world) : world :=
  {| pp := p; stdout := stdout w; stderr := stderr w; cprogress := cprogress w;
     dprogress := dprogress w; output_filename := output_filename w;
     outfd := outfd w;
     delete_output_on_interrupt := delete_output_on_interrupt w;
     syscalls := syscalls w |}.

Definition with_stdout (e : list chunk) (w : world) : world :=
  {| pp := pp w; stdout := e; stderr := stderr w; cprogress := cprogress w;
     dprogress := dprogress w; output_filename := output_filename w;
     outfd := outfd w;
     delete_output_on_interrupt := delete_output_on_interrupt w;
     syscalls := syscalls w |}.

Definition with_stderr (e : list chunk) (w : world) : world :=
  {| pp := pp w; stdout := stdout w; stderr := e; cprogress := cprogress w;
     dprogress := dprogress w; output_filename := output_filename w;
     outfd := outfd w;
     delete_output_on_interrupt := delete_output_on_interrupt w;
     syscalls := syscalls w |}.

Definition with_cprogress (p : progress) (w : world) : world :=
  {| pp := pp w; stdout := stdout w; stderr := stderr w; cprogress := p;
     dprogress := dprogress w; output_filename := output_filename w;
     outfd := outfd w;
     delete_output_on_interrupt := delete_output_on_interrupt w;
     syscalls := syscalls w |}.

Definition with_dprogress (p : progress) (w : world) : world :=
  {| pp := pp w; stdout := stdout w; stderr := stderr w; cprogress := cprogress w;
     dprogress := p; output_filename := output_filename w;
     outfd := outfd w;
     delete_output_on_interrupt := delete_output_on_interrupt w;
     syscalls := syscalls w |}.

Definition with_output_filename (n : string) (w : world) : world :=
  {| pp := pp w; stdout := stdout w; stderr := stderr w; cprogress := cprogress w;
     dprogress := dprogress w; output_filename := n;
     outfd := outfd w;
     delete_output_on_interrupt := delete_output_on_interrupt w;
     syscalls := syscalls w |}.

Definition with_outfd (fd : Z) (w : world) : world :=
  {| pp := pp w; stdout := stdout w; stderr := stderr w; cprogress := cprogress w;
     dprogress := dprogress w; output_filename := output_filename w;
     outfd := fd;
     delete_output_on_interrupt := delete_output_on_interrupt w;
     syscalls := syscalls w |}.

Definition with_delete_output_on_interrupt (b : bool) (w : world) : world :=
  {| pp := pp w; stdout := stdout w; stderr := stderr w; cprogress := cprogress w;
     dprogress := dprogress w; output_filename := output_filename w;
     outfd := outfd w;
     delete_output_on_interrupt := b;
     syscalls := syscalls w |}.

Definition with_syscalls (l : list syscall) (w : world) : world :=
  {| pp := pp w; stdout := stdout w; stderr := stderr w; cprogress := cprogress w;
     dprogress := dprogress w; output_filename := output_filename w;
     outfd := outfd w;
     delete_output_on_interrupt := delete_output_on_interrupt w;
     syscalls := l |}.

(** ** A state monad over [world] *)

Definition M (A : Type) : Type := world -> A * world.

Definition ret {A : Type} (a : A) : M A := fun w => (a, w).

Definition bind {A B : Type} (m : M A) (k : A -> M B) : M B :=
  fun w => let (a, w') := m w in k a w'.

Notation "x <-- m ;; k" := (bind m (fun x => k))
  (at level 100, m at next level, right associativity).
Notation "m ;;; k" := (bind m (fun _ => k))
  (at level 100, right associativity).

Definition get {A : Type} (f : world -> A) : M A := fun w => (f w, w).
Definition modify (f : world -> world) : M unit := fun w => (tt, f w).
Definition when (b : bool) (m : M unit) : M unit := if b then m else ret tt.

Definition fputs (s : string) : M unit :=
  modify (fun w => with_stderr (stderr w ++ [Text s]) w).

Definition emit (c : chunk) : M unit :=
  modify (fun w => with_stderr (stderr w ++ [c]) w).

Definition do_syscall (c : syscall) : M unit :=
  modify (fun w => with_syscalls (syscalls w ++ [c]) w).

(** ** The operating system and the C library

    Results of calls the driver cannot predict. Each one may depend on
    the state of the run so far, so that two calls need not agree. *)
Inductive open_result : Type :=
  | Opened (fd : Z)
  | Open_EEXIST
  | Open_error (errno : Z).

(** What [st_mode] says: a regular file, something else that can be read
    as a stream (block or character device, FIFO, socket), or neither. *)
Inductive file_kind : Type :=
  | Regular
  | Special
  | Other_kind.

Record os : Type := {
  strerror : Z -> string;
  stderr_isatty : world -> bool;
  (* remove() failed with an errno other than ENOENT *)
  remove_fails : string -> world -> bool;
  open_out : string -> bool -> world -> open_result;
  (* close(): 0, or the errno of the failure *)
  close_errno : Z -> world -> Z;
  isatty : Z -> world -> bool;
  (* fchown(): 0 on success, else errno; EPERM is told apart *)
  fchown_ok : world -> bool;
  fchown_EPERM : world -> bool;
  fchmod_ok : bool -> world -> bool;
  utime_ok : string -> world -> bool;
  (* open() of an input file *)
  open_in : string -> world -> open_result;
  fstat_ok : Z -> world -> bool;
  st_mode : Z -> world -> file_kind;
  st_size : Z -> world -> Z;
  (* strtoull(ptr, &tail, 0): the value, the number of characters before
     tail, and whether errno is set *)
  strtoull : string -> Z * nat * bool;
  (* strtol(ptr, &tail, 0): the value and the number of characters before
     tail *)
  strtol : string -> Z * nat;
  (* whether plain char is a signed type (implementation-defined) *)
  plain_char_signed : bool;
}.

(** ** Diagnostics *)
Section Diagnostics.

Variable sys : os.
Variable verbosity : Z.
Variable invocation_name : string.

(** [sizeof buf] characters hold at most [sizeof buf - 1] of the text. *)
Definition snprintf (size : nat) (s : string) : string :=
  string_of_list_ascii (take (size - 1) (list_ascii_of_string s)).

Definition dec (n : Z) : string :=
  NilEmpty.string_of_uint (N.to_uint (Z.to_N n)).

Definition set_first_post (b : bool) (p : Pretty_print) : Pretty_print :=
  {| pp_name := pp_name p; pp_padded_name := pp_padded_name p;
     pp_stdin_name := pp_stdin_name p;
     pp_longest_name := pp_longest_name p; pp_first_post := b |}.

(** A null [name] and an empty one are both the empty string. *)
Definition Pp_reset : M unit :=
  modify (fun w =>
    if bool_decide (pp_name (pp w) = "") then w
    else with_pp (set_first_post true (pp w)) w).

(** [msg] is [None] for a null pointer. *)
Definition Pp_show_msg (msg : option string) : M unit :=
  when (0 <=? verbosity)
    (first_post <-- get (fun w => pp_first_post (pp w)) ;;
     when first_post
       (modify (fun w => with_pp (set_first_post false (pp w)) w) ;;;
        padded_name <-- get (fun w => pp_padded_name (pp w)) ;;
        fputs padded_name) ;;;
     match msg with
     | Some m => fputs (m +:+ nl)
     | None => ret tt
     end).

Definition errcode_text (errcode : Z) : string :=
  if 0 <? errcode then ": " +:+ strerror sys errcode else "".

Definition show_error (msg : string) (errcode : Z) (help : bool) : M unit :=
  if verbosity <? 0 then ret tt
  else
    when (negb (bool_decide (msg = "")))
      (fputs (program_name +:+ ": " +:+ msg +:+ errcode_text errcode +:+ nl)) ;;;
    when help
      (fputs ("Try '" +:+ invocation_name +:+
              " --help' for more information." +:+ nl)).

Definition show_file_error (filename msg : string) (errcode : Z) : M unit :=
  when (0 <=? verbosity)
    (fputs (program_name +:+ ": " +:+ filename +:+ ": " +:+ msg +:+
            errcode_text errcode +:+ nl)).

Definition internal_error {A : Type} (msg : string) : M (outcome A) :=
  when (0 <=? verbosity)
    (fputs (program_name +:+ ": internal error: " +:+ msg +:+ nl)) ;;;
  ret (Exit 3).

(** Signal dispositions are not part of the state. *)
Definition cleanup_and_fail {A : Type} (retval : Z) : M (outcome A) :=
  doi <-- get delete_output_on_interrupt ;;
  when doi
    (modify (with_delete_output_on_interrupt false) ;;;
     name <-- get output_filename ;;
     when (0 <=? verbosity)
       (fputs (program_name +:+ ": Deleting output file '" +:+ name +:+
               "', if it exists." +:+ nl)) ;;;
     fd <-- get outfd ;;
     when (0 <=? fd) (do_syscall (Sys_close fd) ;;; modify (with_outfd (-1))) ;;;
     failed <-- get (remove_fails sys name) ;;
     do_syscall (Sys_remove name) ;;;
     when failed
       (show_error "WARNING: deletion of output file (apparently) failed."
                   0 false)) ;;;
  ret (Exit retval).

Definition bad_version (version : Z) : string :=
  snprintf 80 ("Version " +:+ dec version +:+
               " member format not supported.").

Definition xdigit (value : N) : ascii :=
  if (value <=? 9)%N then ascii_of_N (48 + value)
  else if (value <=? 15)%N then ascii_of_N (65 + value - 10)
  else zero.

(** In the C locale. *)
Definition isprint (b : byte) : bool :=
  ((32 <=? Byte.to_N b) && (Byte.to_N b <=? 126))%N.

Definition sizeof_buf : nat := 80.

Fixpoint hex_dump (data : list byte) (buf : list ascii) : list ascii :=
  match data with
  | [] => buf
  | d :: data' =>
      if bool_decide (length buf + 2 < sizeof_buf)%nat then
        hex_dump data'
          (buf ++ [xdigit (N.shiftr (Byte.to_N d) 4);
                   xdigit (N.land (Byte.to_N d) 15); " "%char])
      else buf
  end.

Fixpoint text_dump (data : list byte) (buf : list ascii) : list ascii :=
  match data with
  | [] => buf
  | d :: data' =>
      if bool_decide (length buf < sizeof_buf)%nat then
        text_dump data'
          (buf ++ [if isprint d then ascii_of_byte d else "."%char])
      else buf
  end.

Definition push_quote (buf : list ascii) : list ascii :=
  if bool_decide (length buf < sizeof_buf)%nat then buf ++ ["'"%char]
  else buf.

Definition trailing_data_line (data : list byte) (all : bool) : string :=
  let buf0 := list_ascii_of_string
                (snprintf sizeof_buf
                   ((if all then "" else "first bytes of ") +:+
                    "trailing data = ")) in
  let buf1 := push_quote (hex_dump data buf0) in
  let buf2 := push_quote (text_dump data buf1) in
  string_of_list_ascii (take (sizeof_buf - 1) buf2).

End Diagnostics.

(** ** The decoder (decoder.h, decoder.c)

    [LZd_decode_member] receives the dictionary size and the bytes that
    follow the member header; it yields its result (or the status with
    which it left the process) and the number of bytes it took from the
    input, and may write diagnostics and decoded data on its way. *)
Record decoder : Type := {
  Rd_init : world -> bool;
  LZd_init : Z -> list byte -> world -> bool;
  LZd_decode_member : Z -> list byte -> M (outcome Z * nat);
}.

(** Modelled from the spec: decoder.h is absent. The range decoder pulls
    from an input byte source; [Rd_read_data] hands out up to [size] bytes
    and [Rd_finished] holds once the source has no byte left. *)
Definition Rd_read_data (stream : list byte) (size : nat)
  : list byte * list byte := (take size stream, drop size stream).

Definition Rd_finished (stream : list byte) : bool :=
  bool_decide (stream = []).

Inductive step : Type :=
  | Break (retval : Z)
  | Leave (status : Z)
  | Next (stream : list byte) (partial_file_pos : Z).

Section Decompress.

Variable sys : os.
Variable L : Lzip.decls.
Variable D : decoder.
Variable verbosity : Z.
Variable invocation_name : string.

Definition show_trailing_data (data : list byte) (all : bool)
    (ignore_trailing : Z) : M bool :=
  when ((4 <=? verbosity) || (ignore_trailing <=? 0))
    (Pp_show_msg verbosity (Some (trailing_data_line data all)) ;;;
     when (ignore_trailing =? 0)
       (name <-- get (fun w => pp_name (pp w)) ;;
        show_file_error sys verbosity name (trailing_msg L) 0)) ;;;
  ret (0 <? ignore_trailing).

(** [p] tells whether the pointer arguments are non-null;
    [member_position] is what [Rd_member_position] returns for the
    decoder in use. *)
Definition show_dprogress (cfile_size partial_size : Z) (p : bool)
    (member_position : Z) : M unit :=
  dp <-- get dprogress ;;
  tty <-- get (stderr_isatty sys) ;;
  if negb (enabled dp) then ret tt
  else if p && ((verbosity <? 2) || negb tty) then
    modify (with_dprogress
      {| enabled := false; csize := csize dp; psize := psize dp;
         armed := armed dp; counter := counter dp |})
  else
    let dp1 := if p then {| enabled := true; csize := cfile_size;
                            psize := partial_size; armed := true;
                            counter := 0 |}
               else dp in
    if armed dp1 && (counter dp1 - 1 <=? 0) then
      modify (with_dprogress
        {| enabled := true; csize := csize dp1; psize := psize dp1;
           armed := true; counter := 7 |}) ;;;
      emit (Progress (psize dp1 + member_position) (csize dp1)) ;;;
      Pp_reset ;;;
      Pp_show_msg verbosity None
    else
      modify (with_dprogress
        {| enabled := true; csize := csize dp1; psize := psize dp1;
           armed := armed dp1;
           counter := if armed dp1 then counter dp1 - 1 else counter dp1 |}).

Section Loop.

Variable cfile_size : Z.
Variable ignore_trailing loose_trailing testing : bool.

Definition done_msg : string := (if testing then "ok" else "done") +:+ nl.

(** One iteration of the member loop of [decompress]. *)
Definition decompress_member (retval : Z) (first_member : bool)
    (stream : list byte) (partial_file_pos : Z) : M step :=
  let '(header, rest) := Rd_read_data stream Lh_size in
  let size := Z.of_nat (length header) in
  if Rd_finished rest then
    if first_member then
      name <-- get (fun w => pp_name (pp w)) ;;
      show_file_error sys verbosity name
        "File ends unexpectedly at member header." 0 ;;;
      ret (Break 2)
    else if Lh_verify_prefix L header then
      Pp_show_msg verbosity (Some "Truncated header in multimember file.") ;;;
      show_trailing_data header true (-1) ;;;
      ret (Break 2)
    else if 0 <? size then
      ignored <-- show_trailing_data header true (Z.b2z ignore_trailing) ;;
      ret (Break (if ignored then retval else 2))
    else ret (Break retval)
  else if negb (Lh_verify_magic header) then
    if first_member then
      name <-- get (fun w => pp_name (pp w)) ;;
      show_file_error sys verbosity name (bad_magic_msg L) 0 ;;;
      ret (Break 2)
    else if negb loose_trailing && Lh_verify_corrupt L header then
      Pp_show_msg verbosity (Some (corrupt_mm_msg L)) ;;;
      show_trailing_data header false (-1) ;;;
      ret (Break 2)
    else
      ignored <-- show_trailing_data header false (Z.b2z ignore_trailing) ;;
      ret (Break (if ignored then retval else 2))
  else if negb (Lh_verify_version header) then
    Pp_show_msg verbosity (Some (bad_version (Lh_version header))) ;;;
    ret (Break 2)
  else
    let dictionary_size := Lh_get_dictionary_size L header in
    if negb (isvalid_ds dictionary_size) then
      Pp_show_msg verbosity (Some (bad_dict_msg L)) ;;;
      ret (Break 2)
    else
      when ((2 <=? verbosity) || ((verbosity =? 1) && first_member))
        (Pp_show_msg verbosity None) ;;;
      allocated <-- get (LZd_init D dictionary_size rest) ;;
      if negb allocated then
        Pp_show_msg verbosity (Some (mem_msg L)) ;;;
        ret (Break 1)
      else
        show_dprogress cfile_size partial_file_pos true
          (Z.of_nat (length header)) ;;;
        r <-- LZd_decode_member D dictionary_size rest ;;
        let '(result, consumed) := r in
        match result with
        | Exit status => ret (Leave status)
        | Return result =>
            let partial_file_pos :=
              partial_file_pos + Z.of_nat (length header) +
              Z.of_nat (Nat.min consumed (length rest)) in
            if negb (result =? 0) then
              when ((0 <=? verbosity) && (result <=? 2))
                (Pp_show_msg verbosity None ;;;
                 fputs ((if result =? 2 then "File ends unexpectedly"
                         else "Decoder error") +:+
                        " at pos " +:+ dec partial_file_pos +:+ nl)) ;;;
              ret (Break 2)
            else
              when (2 <=? verbosity) (fputs done_msg ;;; Pp_reset) ;;;
              ret (Next (drop consumed rest) partial_file_pos)
        end.

(** The member loop. [None] means that the fuel ran out; it never does
    when the fuel exceeds the length of the input
    ([decompress_loop_terminates]). *)
Fixpoint decompress_loop (fuel : nat) (first_member : bool)
    (stream : list byte) (partial_file_pos : Z) : M (option (outcome Z)) :=
  match fuel with
  | O => ret None
  | S fuel' =>
      s <-- decompress_member 0 first_member stream partial_file_pos ;;
      match s with
      | Break retval => ret (Some (Return retval))
      | Leave status => ret (Some (Exit status))
      | Next stream' partial_file_pos' =>
          decompress_loop fuel' false stream' partial_file_pos'
      end
  end.

Definition decompress (stream : list byte) : M (option (outcome Z)) :=
  initialized <-- get (Rd_init D) ;;
  if negb initialized then
    show_error sys verbosity invocation_name (mem_msg L) 0 false ;;;
    r <-- cleanup_and_fail sys verbosity invocation_name 1 ;;
    ret (Some r)
  else
    r <-- decompress_loop (S (length stream)) true stream 0 ;;
    match r with
    | Some (Return retval) =>
        when ((verbosity =? 1) && (retval =? 0)) (fputs done_msg) ;;;
        ret r
    | _ => ret r
    end.

(** [decodes s p w s' p' w']: from the head of an iteration that is not
    the first, with input [s], file position [p] and state [w], the loop
    decodes zero or more members and reaches the head of an iteration with
    input [s'], position [p'] and state [w']. *)
Inductive decodes
  : list byte -> Z -> world -> list byte -> Z -> world -> Prop :=
  | decodes_nil s p w : decodes s p w s p w
  | decodes_cons s p w s1 p1 w1 s2 p2 w2 :
      decompress_member 0 false s p w = (Next s1 p1, w1) ->
      decodes s1 p1 w1 s2 p2 w2 ->
      decodes s p w s2 p2 w2.

(** The input [stream] starts with one or more members that decode
    without error, and [rest] is what follows them. *)
Definition after_members (stream : list byte) (w : world)
    (rest : list byte) (pos : Z) (w' : world) : Prop :=
  exists s1 p1 w1,
    decompress_member 0 true stream 0 w = (Next s1 p1, w1) /\
    decodes s1 p1 w1 rest pos w'.

(** The loop is at the head of an iteration: the first one, or one that
    follows members decoded without error. *)
Definition at_member (stream : list byte) (w : world) (first_member : bool)
    (rest : list byte) (pos : Z) (w' : world) : Prop :=
  if first_member then rest = stream /\ pos = 0 /\ w' = w
  else after_members stream w rest pos w'.

(** Bytes after the last member that the loop takes for plain trailing
    data: at the end of the input (no byte beyond a header's worth) they
    are not a prefix of a header; otherwise they do not start with the
    magic and, unless [loose_trailing], do not pass the corrupt-header
    test. *)
Definition plain_trailing_data (s : list byte) : bool :=
  if Rd_finished (drop Lh_size s) then
    negb (bool_decide (s = [])) && negb (Lh_verify_prefix L s)
  else
    negb (Lh_verify_magic (take Lh_size s)) &&
    (loose_trailing || negb (Lh_verify_corrupt L (take Lh_size s))).

(** What [decompress] does after the loop, given the loop's [retval]. *)
Definition decompress_epilogue (retval : Z) : M unit :=
  when ((verbosity =? 1) && (retval =? 0)) (fputs done_msg).

End Loop.
End Decompress.

(** ** Output files *)

Definition known_extensions : list (string * string) :=
  [(".lz", ""); (".tlz", ".tar")].

(** The first known extension, [known_extensions[0].from]. *)
Definition lz_ext : string := ".lz".

Section Files.

Variable sys : os.
Variable verbosity : Z.
Variable invocation_name : string.

Definition open_outstream (force protect : bool) : M bool :=
  name <-- get output_filename ;;
  r <-- get (open_out sys name force) ;;
  do_syscall (Sys_open_out name force) ;;;
  match r with
  | Opened fd =>
      modify (with_outfd fd) ;;;
      modify (with_delete_output_on_interrupt true) ;;;
      ret true
  | Open_EEXIST =>
      modify (with_outfd (-1)) ;;;
      when (0 <=? verbosity)
        (fputs (program_name +:+ ": Output file '" +:+ name +:+
                "' already exists, skipping." +:+ nl)) ;;;
      ret false
  | Open_error errno =>
      modify (with_outfd (-1)) ;;;
      when (0 <=? verbosity)
        (fputs (program_name +:+ ": Can't create output file '" +:+ name +:+
                "': " +:+ strerror sys errno +:+ nl)) ;;;
      ret false
  end.

(** Set permissions, owner, and times; [in_statsp] tells whether the
    pointer is non-null. The result is [Some status] when the process
    exits through [cleanup_and_fail]. *)
Definition close_and_set_permissions (in_statsp : bool) : M (option Z) :=
  chown <-- get (fchown_ok sys) ;;
  eperm <-- get (fchown_EPERM sys) ;;
  chmod <-- get (fchmod_ok sys chown) ;;
  let warning1 :=
    in_statsp &&
    (if chown then negb chmod else negb eperm || negb chmod) in
  fd <-- get outfd ;;
  errno <-- get (close_errno sys fd) ;;
  do_syscall (Sys_close fd) ;;;
  if negb (errno =? 0) then
    show_error sys verbosity invocation_name "Error closing output file"
      errno false ;;;
    r <-- cleanup_and_fail (A := unit) sys verbosity invocation_name 1 ;;
    ret (Some 1)
  else
    modify (with_outfd (-1)) ;;;
    modify (with_delete_output_on_interrupt false) ;;;
    name <-- get output_filename ;;
    utime <-- get (utime_ok sys name) ;;
    when in_statsp (do_syscall (Sys_set_attributes name)) ;;;
    let warning := warning1 || (in_statsp && negb utime) in
    when (warning && (1 <=? verbosity))
      (show_error sys verbosity invocation_name
         "Can't change output file attributes." 0 false) ;;;
    ret None.

(** The value of a plain [char] in a comparison: its code, less 256 for
    a code of 128 and above where plain [char] is signed. *)
Definition char_value (signed : bool) (c : ascii) : Z :=
  let code := Z.of_nat (nat_of_ascii c) in
  if signed && (128 <=? code) then code - 256 else code.

(** [++output_filename[i]]: the next code, modulo 256. A code 0 ends the
    string at [i]. *)
Definition increment_char (i : nat) (c : ascii) (name : list ascii)
  : list ascii :=
  let c' := ascii_of_nat (S (nat_of_ascii c)) in
  if Ascii.eqb c' zero then take i name else <[i := c']> name.

(** The loop of [next_filename]: [j] iterations are left and [i] is the
    index of the digit at hand. *)
Fixpoint next_filename_loop (signed : bool) (j : nat) (i : Z)
    (name : list ascii) : bool * list ascii :=
  match j with
  | O => (false, name)
  | S j' =>
      match name !! Z.to_nat i with
      | Some c =>
          if char_value signed c <? char_value signed "9" then
            (true, increment_char (Z.to_nat i) c name)
          else
            next_filename_loop signed j' (i - 1)
              (<[Z.to_nat i := "0"%char]> name)
      | None => (false, name)
      end
  end.

(** [next_filename] on the name it finds in [output_filename]: the
    result, and the name it leaves there. [signed] tells whether plain
    [char] is signed. *)
Definition next_filename_of (signed : bool) (name : string) : bool * string :=
  let chars := list_ascii_of_string name in
  let name_len := Z.of_nat (length chars) in
  let ext_len := Z.of_nat (String.length lz_ext) in
  if ext_len + 5 <=? name_len then
    let '(incremented, chars') :=
      next_filename_loop signed 5 (name_len - ext_len - 1) chars in
    (incremented, string_of_list_ascii chars')
  else (false, name).

Definition next_filename : M bool :=
  name <-- get output_filename ;;
  let '(incremented, name') :=
    next_filename_of (plain_char_signed sys) name in
  modify (with_output_filename name') ;;;
  ret incremented.

End Files.

(** ** The encoders (encoder_base.h, encoder.h, fast_encoder.h)

    [encoder_state] stands for the [Poly_encoder] and what it points to.
    [FLZe_init] and [LZe_init] include the allocation of the encoder, on
    the input at hand ([None]: not enough memory). After a member has
    been encoded, [data_position] and [member_position] are what
    [Mb_data_position] and [Re_member_position] return, and
    [data_finished] is what [Mb_data_finished] returns.

    The encoders read the input and write the output themselves. On a
    read or write error they print a message and leave the process
    through [cleanup_and_fail], which main.c exports for them; so each
    of these calls may change the state and may end the process. *)
Record encoded : Type := {
  encoded_ok : bool;
  data_position : Z;
  member_position : Z;
  data_finished : bool;
}.

Record encoder : Type := {
  encoder_state : Type;
  FLZe_init : list byte -> M (outcome (option encoder_state));
  LZe_init : Z -> Z -> list byte -> M (outcome (option encoder_state));
  Mb_data_position : encoder_state -> Z;
  FLZe_encode_member :
    Z -> encoder_state -> M (outcome (encoded * encoder_state));
  LZe_encode_member :
    Z -> encoder_state -> M (outcome (encoded * encoder_state));
  FLZe_reset : encoder_state -> encoder_state;
  LZe_reset : encoder_state -> encoder_state;
}.

(** One output file and the members written into it, the latest first:
    for each member, the size it was allowed and the size it has. *)
Record volume : Type := {
  volume_name : string;
  volume_members : list (Z * Z);
}.

Definition members_size (members : list (Z * Z)) : Z :=
  foldr (fun m total => m.2 + total) 0 members.

Definition volume_size_of (v : volume) : Z :=
  members_size (volume_members v).

Definition add_member (budget size : Z) (volumes : list volume)
  : list volume :=
  match volumes with
  | [] => []
  | v :: vs =>
      {| volume_name := volume_name v;
         volume_members := (budget, size) :: volume_members v |} :: vs
  end.

(** Arithmetic of [unsigned long long]. *)
Definition wrap64 (z : Z) : Z := z mod 2 ^ 64.

Record compress_state (S : Type) : Type := {
  in_size : Z;
  out_size : Z;
  partial_volume_size : Z;
  enc : S;
  (* ghost: the volume files written so far, the current one first *)
  volumes : list volume;
}.
Arguments in_size {S} _.
Arguments out_size {S} _.
Arguments partial_volume_size {S} _.
Arguments enc {S} _.
Arguments volumes {S} _.

Inductive cstep (S : Type) : Type :=
  | CBreak (retval : Z) (st : compress_state S)
  | CLeave (status : Z) (st : compress_state S)
  | CNext (st : compress_state S).
Arguments CBreak {S} retval st.
Arguments CLeave {S} status st.
Arguments CNext {S} st.

Section Compress.

Variable sys : os.
Variable L : Lzip.decls.
Variable E : encoder.
Variable verbosity : Z.
Variable invocation_name : string.

Definition show_cprogress (cfile_size partial_size : Z) (p : bool)
    (data_pos : Z) : M unit :=
  cp <-- get cprogress ;;
  tty <-- get (stderr_isatty sys) ;;
  if negb (enabled cp) then ret tt
  else if p && ((verbosity <? 2) || negb tty) then
    modify (with_cprogress
      {| enabled := false; csize := csize cp; psize := psize cp;
         armed := armed cp; counter := counter cp |})
  else
    let cp1 := if p then {| enabled := true; csize := cfile_size;
                            psize := partial_size; armed := true;
                            counter := counter cp |}
               else cp in
    modify (with_cprogress cp1) ;;;
    when (armed cp1)
      (emit (Progress (psize cp1 + data_pos) (csize cp1)) ;;;
       Pp_reset ;;;
       Pp_show_msg verbosity None).

Section Loop.

Variable cfile_size member_size volume_size : Z.
Variable in_statsp : bool.
Variable zero : bool.

(** One iteration of the member loop of [compress]. *)
Definition compress_member (st : compress_state (encoder_state E))
  : M (cstep (encoder_state E)) :=
  let size :=
    if 0 <? volume_size then
      Z.min member_size (wrap64 (volume_size - partial_volume_size st))
    else member_size in
  show_cprogress cfile_size (in_size st) true (Mb_data_position E (enc st)) ;;;
  r <-- (if zero then FLZe_encode_member E size (enc st)
         else LZe_encode_member E size (enc st)) ;;
  match r with
  | Exit status => ret (CLeave status st)
  | Return (m, e) =>
      if negb (encoded_ok m) then
        Pp_show_msg verbosity (Some "Encoder error.") ;;;
        ret (CBreak 1 st)
      else
        let st1 :=
          {| in_size := wrap64 (in_size st + data_position m);
             out_size := wrap64 (out_size st + member_position m);
             partial_volume_size := partial_volume_size st;
             enc := e;
             volumes := add_member size (member_position m) (volumes st) |} in
        if data_finished m then ret (CBreak 0 st1)
        else
          let continue (st2 : compress_state (encoder_state E))
            : M (cstep (encoder_state E)) :=
            ret (CNext {| in_size := in_size st2; out_size := out_size st2;
                          partial_volume_size := partial_volume_size st2;
                          enc := (if zero then FLZe_reset E else LZe_reset E) (enc st2);
                          volumes := volumes st2 |}) in
          if 0 <? volume_size then
            let partial :=
              wrap64 (partial_volume_size st1 + member_position m) in
            if wrap64 (volume_size - min_dictionary_size) <=? partial then
              let st2 :=
                {| in_size := in_size st1; out_size := out_size st1;
                   partial_volume_size := 0; enc := e;
                   volumes := volumes st1 |} in
              owned <-- get delete_output_on_interrupt ;;
              if owned then
                closed <-- close_and_set_permissions sys verbosity
                             invocation_name in_statsp ;;
                match closed with
                | Some status => ret (CLeave status st2)
                | None =>
                    incremented <-- next_filename sys ;;
                    if negb incremented then
                      Pp_show_msg verbosity (Some "Too many volume files.") ;;;
                      ret (CBreak 1 st2)
                    else
                      opened <-- open_outstream sys verbosity true in_statsp ;;
                      name <-- get output_filename ;;
                      let st3 :=
                        {| in_size := in_size st2; out_size := out_size st2;
                           partial_volume_size := 0; enc := e;
                           volumes :=
                             {| volume_name := name; volume_members := [] |}
                             :: volumes st2 |} in
                      if negb opened then ret (CBreak 1 st3)
                      else continue st3
                end
              else continue st2
            else
              continue
                {| in_size := in_size st1; out_size := out_size st1;
                   partial_volume_size := partial; enc := e;
                   volumes := volumes st1 |}
          else continue st1
  end.

(** The member loop; [None] when the fuel runs out. *)
Fixpoint compress_loop (fuel : nat) (st : compress_state (encoder_state E))
  : M (option (outcome Z * compress_state (encoder_state E))) :=
  match fuel with
  | O => ret None
  | S fuel' =>
      s <-- compress_member st ;;
      match s with
      | CBreak retval st' => ret (Some (Return retval, st'))
      | CLeave status st' => ret (Some (Exit status, st'))
      | CNext st' => compress_loop fuel' st'
      end
  end.

Variable encoder_options : Z * Z.

(** [compress] on the input [data], with at most [fuel] members. *)
Definition compress (fuel : nat) (data : list byte)
  : M (option (outcome Z * list volume)) :=
  when (1 <=? verbosity) (Pp_show_msg verbosity None) ;;;
  let '(dictionary_size, match_len_limit) := encoder_options in
  let arguments_ok :=
    zero ||
    (bool_decide (is_Some (Lh_set_dictionary_size L dictionary_size)) &&
     (min_match_len_limit <=? match_len_limit) &&
     (match_len_limit <=? max_match_len)) in
  if negb arguments_ok then
    r <-- internal_error verbosity "invalid argument to encoder." ;;
    ret (Some (r, []))
  else
    let header := default [] (Lh_set_dictionary_size L dictionary_size) in
    r <-- (if zero then FLZe_init E data
           else LZe_init E (Lh_get_dictionary_size L header)
                  match_len_limit data) ;;
    match r with
    | Exit status => ret (Some (Exit status, []))
    | Return None =>
        Pp_show_msg verbosity
          (Some "Not enough memory. Try a smaller dictionary size.") ;;;
        ret (Some (Return 1, []))
    | Return (Some e) =>
        name <-- get output_filename ;;
        r <-- compress_loop fuel
                {| in_size := 0; out_size := 0; partial_volume_size := 0;
                   enc := e;
                   volumes :=
                     [{| volume_name := name; volume_members := [] |}] |} ;;
        match r with
        | None => ret None
        | Some (Exit status, st) => ret (Some (Exit status, volumes st))
        | Some (Return retval, st) =>
            when ((retval =? 0) && (1 <=? verbosity))
              (if (in_size st =? 0) || (out_size st =? 0) then
                 fputs (" no data compressed." +:+ nl)
               else emit (Ratio (in_size st) (out_size st))) ;;;
            ret (Some (Return retval, volumes st))
        end
    end.

End Loop.
End Compress.

(** ** Option processing *)
Module Main.

Inductive Mode : Type := m_compress | m_decompress | m_list | m_test.

#[global] Instance Mode_eq_dec : EqDecision Mode.
Proof. solve_decision. Defined.

Record Lzma_options : Type := {
  dictionary_size : Z;    (* 4 KiB .. 512 MiB *)
  match_len_limit : Z;    (* 5 .. 273 *)
}.

(** Mapping from gzip/bzip2 style 1..9 compression modes to the
    corresponding LZMA compression modes. *)
Definition option_mapping : list Lzma_options :=
  [ {| dictionary_size := Z.shiftl 1 16; match_len_limit := 16 |};   (* -0 *)
    {| dictionary_size := Z.shiftl 1 20; match_len_limit := 5 |};    (* -1 *)
    {| dictionary_size := Z.shiftl 3 19; match_len_limit := 6 |};    (* -2 *)
    {| dictionary_size := Z.shiftl 1 21; match_len_limit := 8 |};    (* -3 *)
    {| dictionary_size := Z.shiftl 3 20; match_len_limit := 12 |};   (* -4 *)
    {| dictionary_size := Z.shiftl 1 22; match_len_limit := 20 |};   (* -5 *)
    {| dictionary_size := Z.shiftl 1 23; match_len_limit := 36 |};   (* -6 *)
    {| dictionary_size := Z.shiftl 1 24; match_len_limit := 68 |};   (* -7 *)
    {| dictionary_size := Z.shiftl 3 23; match_len_limit := 132 |};  (* -8 *)
    {| dictionary_size := Z.shiftl 1 25; match_len_limit := 273 |} ]. (* -9 *)

Definition default_options : Lzma_options :=
  {| dictionary_size := Z.shiftl 1 23; match_len_limit := 36 |}.

Definition max_member_size : Z := 0x0008000000000000.   (* 2 PiB *)
Definition max_volume_size : Z := 0x4000000000000000.   (* 4 EiB *)

(** One record of the argument parser (carg_parser.h): the code of an
    option and its argument; the code of a non-option is 0 and its
    argument is the non-option itself. *)
Record ap_record : Type := {
  code : Z;
  argument : string;
}.

(** The code of a short option is its character. *)
Definition chr (c : ascii) : Z := Z.of_nat (nat_of_ascii c).

Definition opt_lt : Z := 256.

(** The variables that the options set: locals of [main], and the global
    [verbosity]. *)
Record locals : Type := {
  encoder_options : Lzma_options;
  member_size : Z;
  volume_size : Z;
  default_output_filename : string;
  program_mode : Mode;
  force : bool;
  ignore_trailing : bool;
  keep_input_files : bool;
  loose_trailing : bool;
  recompress : bool;
  to_stdout : bool;
  zero : bool;
  verbosity : Z;
}.

Definition initial_locals : locals :=
  {| encoder_options := default_options;
     member_size := max_member_size;
     volume_size := 0;
     default_output_filename := "";
     program_mode := m_compress;
     force := false;
     ignore_trailing := true;
     keep_input_files := false;
     loose_trailing := false;
     recompress := false;
     to_stdout := false;
     zero := false;
     verbosity := 0 |}.

Definition set_level (z : bool) (o : Lzma_options) (l : locals) : locals :=
  {| encoder_options := o; member_size := member_size l;
     volume_size := volume_size l;
     default_output_filename := default_output_filename l;
     program_mode := program_mode l; force := force l;
     ignore_trailing := ignore_trailing l;
     keep_input_files := keep_input_files l;
     loose_trailing := loose_trailing l; recompress := recompress l;
     to_stdout := to_stdout l; zero := z; verbosity := verbosity l |}.

Definition set_member_size (n : Z) (l : locals) : locals :=
  {| encoder_options := encoder_options l; member_size := n;
     volume_size := volume_size l;
     default_output_filename := default_output_filename l;
     program_mode := program_mode l; force := force l;
     ignore_trailing := ignore_trailing l;
     keep_input_files := keep_input_files l;
     loose_trailing := loose_trailing l; recompress := recompress l;
     to_stdout := to_stdout l; zero := zero l; verbosity := verbosity l |}.

Definition set_volume_size (n : Z) (l : locals) : locals :=
  {| encoder_options := encoder_options l; member_size := member_size l;
     volume_size := n;
     default_output_filename := default_output_filename l;
     program_mode := program_mode l; force := force l;
     ignore_trailing := ignore_trailing l;
     keep_input_files := keep_input_files l;
     loose_trailing := loose_trailing l; recompress := recompress l;
     to_stdout := to_stdout l; zero := zero l; verbosity := verbosity l |}.

Definition set_default_output_filename (n : string) (l : locals) : locals :=
  {| encoder_options := encoder_options l; member_size := member_size l;
     volume_size := volume_size l;
     default_output_filename := n;
     program_mode := program_mode l; force := force l;
     ignore_trailing := ignore_trailing l;
     keep_input_files := keep_input_files l;
     loose_trailing := loose_trailing l; recompress := recompress l;
     to_stdout := to_stdout l; zero := zero l; verbosity := verbosity l |}.

Definition set_program_mode (m : Mode) (l : locals) : locals :=
  {| encoder_options := encoder_options l; member_size := member_size l;
     volume_size := volume_size l;
     default_output_filename := default_output_filename l;
     program_mode := m; force := force l;
     ignore_trailing := ignore_trailing l;
     keep_input_files := keep_input_files l;
     loose_trailing := loose_trailing l; recompress := recompress l;
     to_stdout := to_stdout l; zero := zero l; verbosity := verbosity l |}.

Definition set_force (b : bool) (l : locals) : locals :=
  {| encoder_options := encoder_options l; member_size := member_size l;
     volume_size := volume_size l;
     default_output_filename := default_output_filename l;
     program_mode := program_mode l; force := b;
     ignore_trailing := ignore_trailing l;
     keep_input_files := keep_input_files l;
     loose_trailing := loose_trailing l; recompress := recompress l;
     to_stdout := to_stdout l; zero := zero l; verbosity := verbosity l |}.

Definition set_ignore_trailing (b : bool) (l : locals) : locals :=
  {| encoder_options := encoder_options l; member_size := member_size l;
     volume_size := volume_size l;
     default_output_filename := default_output_filename l;
     program_mode := program_mode l; force := force l;
     ignore_trailing := b;
     keep_input_files := keep_input_files l;
     loose_trailing := loose_trailing l; recompress := recompress l;
     to_stdout := to_stdout l; zero := zero l; verbosity := verbosity l |}.

Definition set_keep_input_files (b : bool) (l : locals) : locals :=
  {| encoder_options := encoder_options l; member_size := member_size l;
     volume_size := volume_size l;
     default_output_filename := default_output_filename l;
     program_mode := program_mode l; force := force l;
     ignore_trailing := ignore_trailing l;
     keep_input_files := b;
     loose_trailing := loose_trailing l; recompress := recompress l;
     to_stdout := to_stdout l; zero := zero l; verbosity := verbosity l |}.

Definition set_loose_trailing (b : bool) (l : locals) : locals :=
  {| encoder_options := encoder_options l; member_size := member_size l;
     volume_size := volume_size l;
     default_output_filename := default_output_filename l;
     program_mode := program_mode l; force := force l;
     ignore_trailing := ignore_trailing l;
     keep_input_files := keep_input_files l;
     loose_trailing := b; recompress := recompress l;
     to_stdout := to_stdout l; zero := zero l; verbosity := verbosity l |}.

Definition set_recompress (b : bool) (l : locals) : locals :=
  {| encoder_options := encoder_options l; member_size := member_size l;
     volume_size := volume_size l;
     default_output_filename := default_output_filename l;
     program_mode := program_mode l; force := force l;
     ignore_trailing := ignore_trailing l;
     keep_input_files := keep_input_files l;
     loose_trailing := loose_trailing l; recompress := b;
     to_stdout := to_stdout l; zero := zero l; verbosity := verbosity l |}.

Definition set_to_stdout (b : bool) (l : locals) : locals :=
  {| encoder_options := encoder_options l; member_size := member_size l;
     volume_size := volume_size l;
     default_output_filename := default_output_filename l;
     program_mode := program_mode l; force := force l;
     ignore_trailing := ignore_trailing l;
     keep_input_files := keep_input_files l;
     loose_trailing := loose_trailing l; recompress := recompress l;
     to_stdout := b; zero := zero l; verbosity := verbosity l |}.

Definition set_verbosity (v : Z) (l : locals) : locals :=
  {| encoder_options := encoder_options l; member_size := member_size l;
     volume_size := volume_size l;
     default_output_filename := default_output_filename l;
     program_mode := program_mode l; force := force l;
     ignore_trailing := ignore_trailing l;
     keep_input_files := keep_input_files l;
     loose_trailing := loose_trailing l; recompress := recompress l;
     to_stdout := to_stdout l; zero := zero l; verbosity := v |}.

(** [encoder_options.match_len_limit = n; zero = false;] *)
Definition set_match_len_limit (n : Z) (l : locals) : locals :=
  set_level false
    {| dictionary_size := dictionary_size (encoder_options l);
       match_len_limit := n |} l.

(** [encoder_options.dictionary_size = n; zero = false;] *)
Definition set_dictionary_size (n : Z) (l : locals) : locals :=
  set_level false
    {| dictionary_size := n;
       match_len_limit := match_len_limit (encoder_options l) |} l.

Section Options.

Variable sys : os.
Variable invocation_name : string.

(** The loop of [getnum] over the multiplier: the scaled number, and
    whether it went out of range. *)
Fixpoint scale (exponent : nat) (factor ulimit result : Z) : Z * bool :=
  match exponent with
  | O => (result, false)
  | S exponent' =>
      if result <=? ulimit / factor then
        scale exponent' factor ulimit (result * factor)
      else (result, true)
  end.

Definition multiplier_exponent (c : ascii) (factor : Z) : nat :=
  if Ascii.eqb c "Y" then 8
  else if Ascii.eqb c "Z" then 7
  else if Ascii.eqb c "E" then 6
  else if Ascii.eqb c "P" then 5
  else if Ascii.eqb c "T" then 4
  else if Ascii.eqb c "G" then 3
  else if Ascii.eqb c "M" then 2
  else if Ascii.eqb c "K" then (if factor =? 1024 then 1 else 0)
  else if Ascii.eqb c "k" then (if factor =? 1000 then 1 else 0)
  else 0.

Definition getnum (verbosity : Z) (ptr : string) (llimit ulimit : Z)
  : M (outcome Z) :=
  let '(result, consumed, errno) := strtoull sys ptr in
  if bool_decide (consumed = 0%nat) then
    show_error sys verbosity invocation_name
      "Bad or missing numerical argument." 0 true ;;;
    ret (Exit 1)
  else
    let tail := list_ascii_of_string ptr in
    let tail := drop consumed tail in
    let scaled :=
      match tail with
      | c :: tail' =>
          if errno then Some (result, errno)
          else
            let factor :=
              match tail' with
              | c1 :: _ => if Ascii.eqb c1 "i" then 1024 else 1000
              | [] => 1000
              end in
            match multiplier_exponent c factor with
            | O => None     (* bad multiplier *)
            | exponent => Some (scale exponent factor ulimit result)
            end
      | [] => Some (result, errno)
      end in
    match scaled with
    | None =>
        show_error sys verbosity invocation_name
          "Bad multiplier in numerical argument." 0 true ;;;
        ret (Exit 1)
    | Some (result, errno) =>
        let errno :=
          errno || (result <? llimit) || (ulimit <? result) in
        if errno then
          show_error sys verbosity invocation_name
            "Numerical argument out of limits." 0 false ;;;
          ret (Exit 1)
        else ret (Return result)
    end.

Definition get_dict_size (verbosity : Z) (arg : string) : M (outcome Z) :=
  let '(bits, consumed) := strtol sys arg in
  if (min_dictionary_bits <=? bits) && (bits <=? max_dictionary_bits) &&
     bool_decide (drop consumed (list_ascii_of_string arg) = []) then
    ret (Return (Z.shiftl 1 bits))
  else getnum verbosity arg min_dictionary_size max_dictionary_size.

Definition set_mode (new_mode : Mode) (l : locals) : M (outcome locals) :=
  if negb (bool_decide (program_mode l = m_compress)) &&
     negb (bool_decide (program_mode l = new_mode)) then
    show_error sys (verbosity l) invocation_name
      "Only one operation can be specified." 0 true ;;;
    ret (Exit 1)
  else ret (Return (set_program_mode new_mode l)).

Definition show_help : M unit :=
  modify (fun w => with_stdout (stdout w ++ [Help_text invocation_name]) w).

Definition show_version : M unit :=
  modify (fun w => with_stdout (stdout w ++ [Version_text]) w).

Definition with_number (r : outcome Z) (f : Z -> locals) : outcome locals :=
  match r with
  | Return n => Return (f n)
  | Exit status => Exit status
  end.

(** The body of the [switch] over the code of an option. A [return] of
    [main] and a call of [exit] both end the process with a status. *)
Definition process_option (a : ap_record) (l : locals) : M (outcome locals) :=
  let code := code a in
  let arg := argument a in
  if (chr "0" <=? code) && (code <=? chr "9") then
    ret (Return
           (set_level (code =? chr "0")
              (default default_options
                 (option_mapping !! Z.to_nat (code - chr "0"))) l))
  else if code =? chr "a" then ret (Return (set_ignore_trailing false l))
  else if code =? chr "b" then
    r <-- getnum (verbosity l) arg 100000 max_member_size ;;
    ret (with_number r (fun n => set_member_size n l))
  else if code =? chr "c" then ret (Return (set_to_stdout true l))
  else if code =? chr "d" then set_mode m_decompress l
  else if code =? chr "f" then ret (Return (set_force true l))
  else if code =? chr "F" then ret (Return (set_recompress true l))
  else if code =? chr "h" then show_help ;;; ret (Exit 0)
  else if code =? chr "k" then ret (Return (set_keep_input_files true l))
  else if code =? chr "l" then set_mode m_list l
  else if code =? chr "m" then
    r <-- getnum (verbosity l) arg min_match_len_limit max_match_len ;;
    ret (with_number r (fun n => set_match_len_limit n l))
  else if code =? chr "n" then ret (Return l)
  else if code =? chr "o" then
    if bool_decide (arg = "-") then ret (Return (set_to_stdout true l))
    else ret (Return (set_default_output_filename arg l))
  else if code =? chr "q" then ret (Return (set_verbosity (-1) l))
  else if code =? chr "s" then
    r <-- get_dict_size (verbosity l) arg ;;
    ret (with_number r (fun n => set_dictionary_size n l))
  else if code =? chr "S" then
    r <-- getnum (verbosity l) arg 100000 max_volume_size ;;
    ret (with_number r (fun n => set_volume_size n l))
  else if code =? chr "t" then set_mode m_test l
  else if code =? chr "v" then
    ret (Return (if verbosity l <? 4 then set_verbosity (verbosity l + 1) l
                 else l))
  else if code =? chr "V" then show_version ;;; ret (Exit 0)
  else if code =? opt_lt then ret (Return (set_loose_trailing true l))
  else internal_error (verbosity l) "uncaught option.".

(** The loop over the options: it stops at the first non-option, and
    yields the variables and the arguments left. *)
Fixpoint process_options (args : list ap_record) (l : locals)
  : M (outcome (locals * list ap_record)) :=
  match args with
  | [] => ret (Return (l, []))
  | a :: args' =>
      if code a =? 0 then ret (Return (l, args))
      else
        r <-- process_option a l ;;
        match r with
        | Return l' => process_options args' l'
        | Exit status => ret (Exit status)
        end
  end.

End Options.

(** *** Names of input and output files *)

Definition ends_with (name ext : string) : bool :=
  let n := list_ascii_of_string name in
  let e := list_ascii_of_string ext in
  bool_decide (length e < length n)%nat &&
  bool_decide (drop (length n - length e) n = e).

(** The index of the first known extension that [name] ends with (and
    is longer than), or -1. *)
Fixpoint extension_index_from (eindex : Z) (exts : list (string * string))
    (name : string) : Z :=
  match exts with
  | [] => -1
  | (from, _) :: exts' =>
      if ends_with name from then eindex
      else extension_index_from (eindex + 1) exts' name
  end.

Definition extension_index (name : string) : Z :=
  extension_index_from 0 known_extensions name.

Definition set_c_outname (name : string)
    (filenames_given force_ext multifile : bool) : M unit :=
  let name1 := if multifile then name +:+ "00001" else name in
  let name2 :=
    if force_ext || multifile ||
       (negb filenames_given && (extension_index name1 <? 0))
    then name1 +:+ lz_ext else name1 in
  modify (with_output_filename name2).

Definition set_d_outname (verbosity : Z) (name : string) (eindex : Z)
  : M unit :=
  let replaced :=
    if 0 <=? eindex then
      match known_extensions !! Z.to_nat eindex with
      | Some (from, to) =>
          if (String.length from <? String.length name)%nat then
            Some (string_of_list_ascii
                    (take (String.length name - String.length from)
                       (list_ascii_of_string name)) +:+ to)
          else None
      | None => None
      end
    else None in
  match replaced with
  | Some outname => modify (with_output_filename outname)
  | None =>
      modify (with_output_filename (name +:+ ".out")) ;;;
      when (1 <=? verbosity)
        (fputs (program_name +:+ ": Can't guess original name for '" +:+
                name +:+ "' -- using '" +:+ name +:+ ".out'" +:+ nl))
  end.

(** *** The pretty printer of file names *)

Definition Pp_init (verbosity : Z) (filenames : list string) : Pretty_print :=
  let stdin_name := "(stdin)" in
  let stdin_name_len := Z.of_nat (String.length stdin_name) in
  let longest :=
    if verbosity <=? 0 then 0
    else
      let longest :=
        fold_left
          (fun longest s =>
             let len := if bool_decide (s = "-") then stdin_name_len
                        else Z.of_nat (String.length s) in
             if longest <? len then len else longest)
          filenames 0 in
      if longest =? 0 then stdin_name_len else longest in
  {| pp_name := ""; pp_padded_name := ""; pp_stdin_name := stdin_name;
     pp_longest_name := longest; pp_first_post := false |}.

Definition Pp_set_name (filename : string) : M unit :=
  modify (fun w =>
    let p := pp w in
    let name :=
      if negb (bool_decide (filename = "")) &&
         negb (bool_decide (filename = "-"))
      then filename else pp_stdin_name p in
    let name_len := Z.of_nat (String.length name) in
    let padded_name_len := Z.max name_len (pp_longest_name p) + 4 in
    let padded_name :=
      "  " +:+ name +:+ ":" +:+
      string_of_list_ascii
        (repeat " "%char (Z.to_nat (padded_name_len - name_len - 3))) in
    with_pp {| pp_name := name; pp_padded_name := padded_name;
               pp_stdin_name := pp_stdin_name p;
               pp_longest_name := pp_longest_name p;
               pp_first_post := true |} w).

(** ** The driver *)

Definition STDIN_FILENO : Z := 0.
Definition STDOUT_FILENO : Z := 1.

(** What [main] calls on the files: [list_files] (list.c), and
    [compress] and [decompress] on the input stream that was opened
    under the name given ("" for the standard input). Their other
    arguments are the global [verbosity] and those of the C functions,
    in their order; the result is the value returned, or the status with
    which the process was left. *)
Record codecs : Type := {
  list_files : Z -> list string -> bool -> bool -> M Z;
  compress_file :
    Z -> Z -> Z -> Z -> string -> Lzma_options -> bool -> bool ->
    M (outcome Z);
  decompress_file :
    Z -> Z -> string -> bool -> bool -> bool -> M (outcome Z);
}.

(** The variables of the loop over the files. [removed] and [given] are
    not in the program: they record the input files that [main] has
    removed and those whose stream it has handed to [compress] or
    [decompress], the latest first. *)
Record loop_state : Type := {
  retval : Z;
  failed_tests : Z;
  stdin_used : bool;
  removed : list string;
  given : list string;
}.

Definition with_retval (r : Z) (st : loop_state) : loop_state :=
  {| retval := r; failed_tests := failed_tests st;
     stdin_used := stdin_used st; removed := removed st;
     given := given st |}.

Inductive fstep : Type :=
  | Continue (st : loop_state)
  | Finish (status : Z) (st : loop_state).

Definition fstep_state (s : fstep) : loop_state :=
  match s with
  | Continue st | Finish _ st => st
  end.

Section Driver.

Variable sys : os.
Variable C : codecs.
Variable invocation_name : string.

Definition open_instream (verbosity : Z) (name : string)
    (one_to_one reg_only : bool) : M Z :=
  r <-- get (open_in sys name) ;;
  match r with
  | Opened infd =>
      fstat <-- get (fstat_ok sys infd) ;;
      mode <-- get (st_mode sys infd) ;;
      let is_reg := match mode with Regular => true | _ => false end in
      let is_special := match mode with Special => true | _ => false end in
      let can_read := fstat && negb reg_only && is_special in
      if negb fstat || (negb is_reg && (negb can_read || one_to_one)) then
        when (0 <=? verbosity)
          (fputs (program_name +:+ ": Input file '" +:+ name +:+
                  "' is not a regular file" +:+
                  (if can_read && one_to_one then
                     "," +:+ nl +:+
                     "       and neither '-c' nor '-o' were specified"
                   else "") +:+ "." +:+ nl)) ;;;
        do_syscall (Sys_close infd) ;;;
        ret (-1)
      else ret infd
  | Open_EEXIST =>
      show_file_error sys verbosity name "Can't open input file" 0 ;;;
      ret (-1)
  | Open_error errno =>
      show_file_error sys verbosity name "Can't open input file" errno ;;;
      ret (-1)
  end.

Definition open_instream2 (verbosity : Z) (name : string)
    (program_mode : Mode) (eindex : Z) (one_to_one recompress : bool) : M Z :=
  if bool_decide (program_mode = m_compress) && negb recompress &&
     (0 <=? eindex) then
    when (0 <=? verbosity)
      (fputs (program_name +:+ ": Input file '" +:+ name +:+
              "' already has '" +:+
              default "" (fst <$> known_extensions !! Z.to_nat eindex) +:+
              "' suffix." +:+ nl)) ;;;
    ret (-1)
  else open_instream verbosity name one_to_one false.

(** The result is [Return (ok, retval)], or [Exit] when the process is
    left through [cleanup_and_fail]. *)
Definition check_tty_in (verbosity : Z) (input_filename : string) (infd : Z)
    (program_mode : Mode) (retval : Z) : M (outcome (bool * Z)) :=
  tty <-- get (isatty sys infd) ;;
  if (bool_decide (program_mode = m_decompress) ||
      bool_decide (program_mode = m_test)) && tty then
    show_file_error sys verbosity input_filename
      "I won't read compressed data from a terminal." 0 ;;;
    do_syscall (Sys_close infd) ;;;
    let retval := set_retval retval 1 in
    if negb (bool_decide (program_mode = m_test)) then
      cleanup_and_fail sys verbosity invocation_name retval
    else ret (Return (false, retval))
  else ret (Return (true, retval)).

Definition check_tty_out (verbosity : Z) (program_mode : Mode) : M bool :=
  fd <-- get outfd ;;
  tty <-- get (isatty sys fd) ;;
  if bool_decide (program_mode = m_compress) && tty then
    name <-- get output_filename ;;
    show_file_error sys verbosity
      (if bool_decide (name = "") then "(stdout)" else name)
      "I won't write compressed data to a terminal." 0 ;;;
    ret false
  else ret true.

Section Files.

(** The variables set by the options, after the overrides of [main]. *)
Variable l : locals.
Variable filenames_given : bool.

Definition to_file : bool :=
  negb (to_stdout l) && negb (bool_decide (program_mode l = m_test)) &&
  negb (bool_decide (default_output_filename l = "")).

Definition one_to_one : bool :=
  negb (to_stdout l) && negb (bool_decide (program_mode l = m_test)) &&
  negb to_file.

(** The call of [compress] or [decompress] on the input at hand. *)
Definition call_codec (input_filename : string) (infd : Z) : M (outcome Z) :=
  let named := negb (bool_decide (input_filename = "")) in
  let in_statsp := named && one_to_one in
  mode <-- get (st_mode sys infd) ;;
  size <-- get (st_size sys infd) ;;
  let cfile_size :=
    if named && match mode with Regular => true | _ => false end
    then (size + 99) / 100 else 0 in
  if bool_decide (program_mode l = m_compress) then
    compress_file C (verbosity l) cfile_size (member_size l) (volume_size l)
      input_filename (encoder_options l) in_statsp (zero l)
  else
    decompress_file C (verbosity l) cfile_size input_filename
      (ignore_trailing l) (loose_trailing l)
      (bool_decide (program_mode l = m_test)).

(** Whether [main] removes the input file at the end of an iteration. *)
Definition removes_input (input_filename : string) : bool :=
  negb (bool_decide (input_filename = "")) && negb (keep_input_files l) &&
  one_to_one &&
  (negb (bool_decide (program_mode l = m_compress)) || (volume_size l =? 0)).

(** [close( infd )] after the codec has returned [tmp]: the value of
    [tmp] that results. *)
Definition close_input (infd tmp : Z) : M Z :=
  errno <-- get (close_errno sys infd) ;;
  do_syscall (Sys_close infd) ;;;
  name <-- get (fun w => pp_name (pp w)) ;;
  when (negb (errno =? 0))
    (show_file_error sys (verbosity l) name "Error closing input file"
       errno) ;;;
  ret (if negb (errno =? 0) then set_retval tmp 1 else tmp).

(** The end of an iteration, from the call of [compress] or
    [decompress] on. *)
Definition run_codec (input_filename : string) (infd : Z)
    (st : loop_state) : M fstep :=
  let in_statsp := negb (bool_decide (input_filename = "")) && one_to_one in
  let st :=
    {| retval := retval st; failed_tests := failed_tests st;
       stdin_used := stdin_used st; removed := removed st;
       given := input_filename :: given st |} in
  r <-- call_codec input_filename infd ;;
  match r with
  | Exit status => ret (Finish status st)
  | Return tmp =>
      tmp <-- close_input infd tmp ;;
      let st := with_retval (set_retval (retval st) tmp) st in
      if negb (tmp =? 0) && negb (bool_decide (program_mode l = m_test)) then
        r <-- cleanup_and_fail (A := unit) sys (verbosity l) invocation_name
                (retval st) ;;
        ret (Finish (retval st) st)
      else
        let st :=
          if negb (tmp =? 0) then
            {| retval := retval st; failed_tests := failed_tests st + 1;
               stdin_used := stdin_used st; removed := removed st;
               given := given st |}
          else st in
        owned <-- get delete_output_on_interrupt ;;
        closed <-- (if owned && one_to_one then
                      close_and_set_permissions sys (verbosity l)
                        invocation_name in_statsp
                    else ret None) ;;
        match closed with
        | Some status => ret (Finish status st)
        | None =>
            if removes_input input_filename then
              do_syscall (Sys_remove input_filename) ;;;
              ret (Continue
                     {| retval := retval st; failed_tests := failed_tests st;
                        stdin_used := stdin_used st;
                        removed := input_filename :: removed st;
                        given := given st |})
            else ret (Continue st)
        end
  end.

(** The part of an iteration between the opening of the input and the
    call of [compress] or [decompress]. *)
Definition prepare_output (input_filename : string) (infd : Z)
    (st : loop_state) : M fstep :=
  tty_ok <-- (if one_to_one then check_tty_out (verbosity l) (program_mode l)
              else ret true) ;;
  if negb tty_ok then
    ret (Finish (set_retval (retval st) 1)
           (with_retval (set_retval (retval st) 1) st))
  else
    fd <-- get outfd ;;
    if to_file && (fd <? 0) then
      (if bool_decide (program_mode l = m_compress) then
         set_c_outname (default_output_filename l) filenames_given false
           (0 <? volume_size l)
       else modify (with_output_filename (default_output_filename l))) ;;;
      opened <-- open_outstream sys (verbosity l) (force l) false ;;
      tty_ok <-- (if opened then check_tty_out (verbosity l) (program_mode l)
                  else ret false) ;;
      if negb opened || negb tty_ok then ret (Finish 1 st)
      else run_codec input_filename infd st
    else run_codec input_filename infd st.

(** One iteration of the loop over the files. *)
Definition main_file (filename : string) (st : loop_state) : M fstep :=
  Pp_set_name filename ;;;
  name <-- get (fun w => pp_name (pp w)) ;;
  if bool_decide (filename = "-") then
    if stdin_used st then ret (Continue st)
    else
      let st :=
        {| retval := retval st; failed_tests := failed_tests st;
           stdin_used := true; removed := removed st; given := given st |} in
      let infd := STDIN_FILENO in
      t <-- check_tty_in (verbosity l) name infd (program_mode l) (retval st) ;;
      match t with
      | Exit status => ret (Finish status (with_retval status st))
      | Return (false, retval) => ret (Continue (with_retval retval st))
      | Return (true, _) =>
          when one_to_one
            (modify (with_outfd STDOUT_FILENO) ;;;
             modify (with_output_filename "")) ;;;
          prepare_output "" infd st
      end
  else
    let input_filename := filename in
    let eindex := extension_index input_filename in
    infd <-- open_instream2 (verbosity l) input_filename (program_mode l)
               eindex one_to_one (recompress l) ;;
    if infd <? 0 then ret (Continue (with_retval (set_retval (retval st) 1) st))
    else
      t <-- check_tty_in (verbosity l) name infd (program_mode l) (retval st) ;;
      match t with
      | Exit status => ret (Finish status (with_retval status st))
      | Return (false, retval) => ret (Continue (with_retval retval st))
      | Return (true, _) =>
          if one_to_one then
            (if bool_decide (program_mode l = m_compress) then
               set_c_outname input_filename true true (0 <? volume_size l)
             else set_d_outname (verbosity l) input_filename eindex) ;;;
            opened <-- open_outstream sys (verbosity l) (force l) true ;;
            if negb opened then
              do_syscall (Sys_close infd) ;;;
              ret (Continue (with_retval (set_retval (retval st) 1) st))
            else prepare_output input_filename infd st
          else prepare_output input_filename infd st
      end.

(** The loop over the files. *)
Fixpoint main_files (filenames : list string) (st : loop_state) : M fstep :=
  match filenames with
  | [] => ret (Continue st)
  | filename :: filenames' =>
      s <-- main_file filename st ;;
      match s with
      | Continue st' => main_files filenames' st'
      | Finish status st' => ret (Finish status st')
      end
  end.

End Files.

(** The overrides that [main] applies to the variables set by the
    options. *)
Definition apply_overrides (l : locals) : locals :=
  let l := if bool_decide (program_mode l = m_compress) then l
           else set_volume_size 0 l in
  let l := if bool_decide (program_mode l = m_test) then set_to_stdout false l
           else l in
  if bool_decide (program_mode l = m_test) || to_stdout l
  then set_default_output_filename "" l else l.

(** The end of [main], after the loop over the files: the exit status. *)
Definition finish_main (l : locals) (filenames : list string)
    (st : loop_state) : M Z :=
  owned <-- get delete_output_on_interrupt ;;
  fd <-- get outfd ;;
  errno <-- get (close_errno sys fd) ;;
  closed <--
    (if owned then
       close_and_set_permissions sys (verbosity l) invocation_name false
     else if (0 <=? fd) && negb (errno =? 0) then
       do_syscall (Sys_close fd) ;;;
       show_error sys (verbosity l) invocation_name
         "Error closing stdout" errno false ;;;
       ret (Some (set_retval (retval st) 1))
     else
       when (0 <=? fd) (do_syscall (Sys_close fd)) ;;;
       ret None) ;;
  let '(gone, status) :=
    match closed with
    | Some status => (owned, status)
    | None => (false, retval st)
    end in
  if gone then ret status
  else
    when ((0 <? failed_tests st) && (1 <=? verbosity l) &&
          (1 <? Z.of_nat (length filenames)))
      (fputs (program_name +:+ ": warning: " +:+
              dec (failed_tests st) +:+ " " +:+
              (if failed_tests st =? 1 then "file" else "files")
              +:+ " failed the test." +:+ nl)) ;;;
    ret status.

(** [main], from the parsed arguments on: the exit status of the
    process, and the state of the loop over the files when it was
    reached. Signal handlers are not part of the state. *)
Definition main (args : list ap_record) : M (Z * option loop_state) :=
  r <-- process_options sys invocation_name args initial_locals ;;
  match r with
  | Exit status => ret (status, None)
  | Return (l, rest) =>
      let filenames :=
        match rest with
        | [] => ["-"]
        | _ => argument <$> rest
        end in
      let filenames_given :=
        negb (forallb (fun a => bool_decide (argument a = "-")) rest) in
      if bool_decide (program_mode l = m_list) then
        status <-- list_files C (verbosity l) filenames (ignore_trailing l)
                     (loose_trailing l) ;;
        ret (status, None)
      else if bool_decide (program_mode l = m_compress) &&
              (0 <? volume_size l) && negb (to_stdout l) &&
              negb (bool_decide (default_output_filename l = "")) &&
              (1 <? Z.of_nat (length filenames)) then
        show_error sys (verbosity l) invocation_name
          "Only can compress one file when using '-o' and '-S'." 0 true ;;;
        ret (1, None)
      else
        let l := apply_overrides l in
        modify (with_output_filename "") ;;;
        tty_ok <-- (if to_stdout l &&
                       negb (bool_decide (program_mode l = m_test)) then
                      modify (with_outfd STDOUT_FILENO) ;;;
                      check_tty_out (verbosity l) (program_mode l)
                    else modify (with_outfd (-1)) ;;; ret true) ;;
        if negb tty_ok then ret (1, None)
        else
          modify (with_pp (Pp_init (verbosity l) filenames)) ;;;
          s <-- main_files l filenames_given filenames
                  {| retval := 0; failed_tests := 0; stdin_used := false;
                     removed := []; given := [] |} ;;
          match s with
          | Finish status st => ret (status, Some st)
          | Continue st =>
              status <-- finish_main l filenames st ;;
              ret (status, Some st)
          end
  end.

End Driver.

End Main.

(** ** The codecs of main.c as [main] calls them

    [content] tells what each input holds. [decompress] always yields a
    result ([decompress_returns]), so that the status 3 below never
    shows. *)
Definition decompress_on (sys : os) (L : Lzip.decls) (D : decoder)
    (invocation_name : string) (content : string -> list byte)
    (verbosity cfile_size : Z) (input : string)
    (ignore_trailing loose_trailing testing : bool) : M (outcome Z) :=
  r <-- decompress sys L D verbosity invocation_name cfile_size
          ignore_trailing loose_trailing testing (content input) ;;
  ret (default (Exit 3) r).

(** [compress] goes on for as long as the encoder finds data; [fuel]
    bounds the number of members, and the status 3 below stands for a run
    that needs more. *)
Definition compress_on (sys : os) (L : Lzip.decls) (E : encoder)
    (invocation_name : string) (content : string -> list byte) (fuel : nat)
    (verbosity cfile_size member_size volume_size : Z) (input : string)
    (options : Main.Lzma_options) (in_statsp zero : bool) : M (outcome Z) :=
  r <-- compress sys L E verbosity invocation_name cfile_size member_size
          volume_size in_statsp zero
          (Main.dictionary_size options, Main.match_len_limit options)
          fuel (content input) ;;
  ret (default (Exit 3) (fst <$> r)).

(** What [main] calls, with [compress] and [decompress] of main.c over
    an encoder and a decoder; [list_files] is in list.c. *)
Definition codecs_of (sys : os) (L : Lzip.decls) (E : encoder) (D : decoder)
    (invocation_name : string) (content : string -> list byte) (fuel : nat)
    (list_files : Z -> list string -> bool -> bool -> M Z) : Main.codecs :=
  {| Main.list_files := list_files;
     Main.compress_file :=
       compress_on sys L E invocation_name content fuel;
     Main.decompress_file :=
       decompress_on sys L D invocation_name content |}.

(** ** Vocabulary of the statements about options *)

(** A compression level option, -0 .. -9. *)
Definition is_level (a : Main.ap_record) : bool :=
  (Main.chr "0" <=? Main.code a) && (Main.code a <=? Main.chr "9").

Definition is_option (c : ascii) (a : Main.ap_record) : bool :=
  Main.code a =? Main.chr c.

(** The shape of what the parser yields: the options come first, the
    non-options after them. *)
Fixpoint options_first (args : list Main.ap_record) : bool :=
  match args with
  | [] => true
  | a :: args' =>
      if Main.code a =? 0 then forallb (fun b => Main.code b =? 0) args'
      else options_first args'
  end.

(** The arguments without the options -n. *)
Definition without_threads (args : list Main.ap_record)
  : list Main.ap_record :=
  List.filter (fun a => negb (is_option "n" a)) args.

(** An encoder that is [E] where the encoder of [LZe_init] is set up
    with the dictionary size [ds] and the match length limit [mll], and
    is made of other functions everywhere else: for the fast encoder, and
    for [LZe_init] with other parameters. *)
Definition only_optimal_at (ds mll : Z) (E : encoder)
    (init : list byte -> M (outcome (option (encoder_state E))))
    (encode : Z -> encoder_state E ->
              M (outcome (encoded * encoder_state E)))
    (reset : encoder_state E -> encoder_state E)
    (other : Z -> Z -> list byte -> M (outcome (option (encoder_state E))))
  : encoder :=
  {| encoder_state := encoder_state E;
     FLZe_init := init;
     LZe_init := fun ds' mll' =>
       if (ds' =? ds) && (mll' =? mll) then LZe_init E ds' mll'
       else other ds' mll';
     Mb_data_position := Mb_data_position E;
     FLZe_encode_member := encode;
     LZe_encode_member := LZe_encode_member E;
     FLZe_reset := reset;
     LZe_reset := LZe_reset E |}.

(** ** Vocabulary of the statements about the driver *)

(** An iteration of the loop over the files leaves the variables of the
    loop alone, but for [stdin_used] and for a status 1 merged into
    [retval]; if it ends the process, the status is 1 or that [retval]. *)
Definition not_given (st : Main.loop_state) (s : Main.fstep) : Prop :=
  exists r,
    (r = Main.retval st \/ r = set_retval (Main.retval st) 1) /\
    Main.retval (Main.fstep_state s) = r /\
    Main.failed_tests (Main.fstep_state s) = Main.failed_tests st /\
    Main.removed (Main.fstep_state s) = Main.removed st /\
    Main.given (Main.fstep_state s) = Main.given st /\
    match s with
    | Main.Finish status _ =>
        status = 1 \/ status = set_retval (Main.retval st) 1
    | Main.Continue _ => True
    end.

(** An iteration of the loop over the files hands the input to the
    codec, under the name of the file or as the standard input, and ends
    as [run_codec] does. *)
Definition given_to_codec (sys : os) (C : Main.codecs)
    (invocation_name : string) (l : Main.locals) (filename : string)
    (st : Main.loop_state) (s : Main.fstep) (w' : world) : Prop :=
  exists name infd st0 w0,
    Main.run_codec sys C invocation_name l name infd st0 w0 = (s, w') /\
    (name = filename \/ name = "") /\
    Main.retval st0 = Main.retval st /\
    Main.failed_tests st0 = Main.failed_tests st /\
    Main.removed st0 = Main.removed st /\
    Main.given st0 = Main.given st.

(** ** Vocabulary of the statements about the loop over the files *)

(** The state in which [open_outstream] leaves [w] when [open] has
    created the file and returned the descriptor [fd]. *)
Definition output_opened (force : bool) (fd : Z) (w : world) : world :=
  with_delete_output_on_interrupt true
    (with_outfd fd
       (with_syscalls
          (syscalls w ++ [Sys_open_out (output_filename w) force]) w)).

(** In the state [w], [filename] names an input that [main] takes: it
    is not skipped for its extension, [open] returns the descriptor
    [infd] for it, and that is a regular file and not a terminal. *)
Definition input_ready (sys : os) (l : Main.locals) (filename : string)
    (infd : Z) (w : world) : Prop :=
  filename <> "" /\ filename <> "-" /\
  (Main.program_mode l = Main.m_compress ->
   Main.recompress l = true \/ Main.extension_index filename < 0) /\
  open_in sys filename w = Opened infd /\
  0 <= infd /\
  fstat_ok sys infd w = true /\
  st_mode sys infd w = Regular /\
  isatty sys infd w = false.

(** The state in which [main] names the output file: after the input
    file in a one-to-one run, else as -o says. *)
Definition output_named (l : Main.locals) (filenames_given : bool)
    (filename : string) (w : world) : world :=
  ((if Main.one_to_one l then
      if bool_decide (Main.program_mode l = Main.m_compress) then
        Main.set_c_outname filename true true (0 <? Main.volume_size l)
      else
        Main.set_d_outname (Main.verbosity l) filename
          (Main.extension_index filename)
    else
      if bool_decide (Main.program_mode l = Main.m_compress) then
        Main.set_c_outname (Main.default_output_filename l) filenames_given
          false (0 <? Main.volume_size l)
      else modify (with_output_filename (Main.default_output_filename l)))
     w).2.

(** From the state [w] at the head of an iteration of the loop over the
    files, [main] gets as far as calling the codec on [filename], in the
    state [w0]: the input is ready and, where an output file is to be
    opened (for each file of a one-to-one run, and for the first file
    with -o), [open] creates it and returns the descriptor [fd], which
    is not a terminal if the run compresses. *)
Definition ready (sys : os) (l : Main.locals) (filenames_given : bool)
    (filename : string) (infd : Z) (w w0 : world) : Prop :=
  let w1 := (Main.Pp_set_name filename w).2 in
  input_ready sys l filename infd w1 /\
  if Main.one_to_one l || (Main.to_file l && (outfd w1 <? 0)) then
    let w2 := output_named l filenames_given filename w1 in
    exists fd,
      open_out sys (output_filename w2) (Main.force l) w2 = Opened fd /\
      w0 = output_opened (Main.force l) fd w2 /\
      (Main.program_mode l = Main.m_compress -> isatty sys fd w0 = false)
  else w0 = w1.

(** The state of the loop over the files after the codec has been
    called on [filename]. *)
Definition given_file (filename : string) (st : Main.loop_state)
  : Main.loop_state :=
  {| Main.retval := Main.retval st;
     Main.failed_tests := Main.failed_tests st;
     Main.stdin_used := Main.stdin_used st;
     Main.removed := Main.removed st;
     Main.given := filename :: Main.given st |}.

(** The state in which [main] enters the loop over the files, from the
    state [w] in which the options have been read: no output file is
    named, and the output descriptor is the standard output if the run
    writes there, and none yet otherwise. *)
Definition loop_start (l : Main.locals) (filenames : list string) (w : world)
  : world :=
  with_pp (Main.Pp_init (Main.verbosity l) filenames)
    (with_outfd
       (if Main.to_stdout l &&
           negb (bool_decide (Main.program_mode l = Main.m_test))
        then Main.STDOUT_FILENO else -1)
       (with_output_filename "" w)).

(** The state of the loop over the files when [main] enters it. *)
Definition loop_state0 : Main.loop_state :=
  {| Main.retval := 0; Main.failed_tests := 0; Main.stdin_used := false;
     Main.removed := []; Main.given := [] |}.

(** The size of the input in hundredths, as [main] passes it on. *)
Definition cfile_size_of (sys : os) (filename : string) (infd : Z)
    (w : world) : Z :=
  if negb (bool_decide (filename = "")) &&
     match st_mode sys infd w with Regular => true | _ => false end
  then (st_size sys infd w + 99) / 100 else 0.

(** The dictionary size that [compress] hands to [LZe_init]: what the
    header makes of the size asked for. *)
Definition header_dictionary_size (L : Lzip.decls) (dictionary_size : Z) : Z :=
  Lh_get_dictionary_size L
    (default [] (Lh_set_dictionary_size L dictionary_size)).

(** ** Vocabulary of the statements about volumes *)

Definition is_digit (c : ascii) : bool :=
  (48 <=? nat_of_ascii c)%nat && (nat_of_ascii c <=? 57)%nat.

(** The number written by a string of decimal digits. *)
Definition dec_value (digits : list ascii) : Z :=
  fold_left (fun acc c => 10 * acc + (Z.of_nat (nat_of_ascii c) - 48))
    digits 0.

(** Every member of a volume was allowed the smaller of [member_size] and
    what was left of [volume_size] in the volume, and kept to it. *)
Fixpoint members_budgeted (member_size volume_size : Z)
    (members : list (Z * Z)) : Prop :=
  match members with
  | [] => True
  | (budget, size) :: earlier =>
      budget = Z.min member_size (volume_size - members_size earlier) /\
      0 <= size <= budget /\
      members_budgeted member_size volume_size earlier
  end.

(** The name of each volume is what [next_filename] makes of the name of
    the volume before it. *)
Fixpoint names_chained (signed : bool) (volumes : list volume) : Prop :=
  match volumes with
  | later :: (earlier :: _) as rest =>
      next_filename_of signed (volume_name earlier) =
        (true, volume_name later) /\
      names_chained signed rest
  | _ => True
  end.

(** The encoders keep a member within the size they are given. *)
Definition respects_size (E : encoder) : Prop :=
  forall size st w m st' w',
    FLZe_encode_member E size st w = (Return (m, st'), w') \/
    LZe_encode_member E size st w = (Return (m, st'), w') ->
    encoded_ok m = true ->
    0 <= member_position m <= size.

Definition volumes_ok (signed : bool) (member_size volume_size : Z)
    (volumes : list volume) : Prop :=
  Forall (fun v => members_budgeted member_size volume_size
                     (volume_members v)) volumes /\
  names_chained signed volumes.

(** What holds at the head of each iteration of the member loop of
    [compress] when the output goes to a file of the run. *)
Definition compress_inv {E : encoder} (signed : bool)
    (member_size volume_size : Z)
    (st : compress_state (encoder_state E)) (w : world) : Prop :=
  delete_output_on_interrupt w = true /\
  volumes_ok signed member_size volume_size (volumes st) /\
  exists v vs,
    volumes st = v :: vs /\
    volume_name v = output_filename w /\
    partial_volume_size st = volume_size_of v.

(** The name of the first volume written. *)
Definition oldest_name (volumes : list volume) : option string :=
  volume_name <$> last volumes.

Definition cstep_state {S : Type} (s : cstep S) : compress_state S :=
  match s with
  | CBreak _ st | CLeave _ st | CNext st => st
  end.

(** An iteration of the member loop that does not end the process. *)
Definition stays {S : Type} (s : cstep S) : bool :=
  match s with
  | CLeave _ _ => false
  | _ => true
  end.

(** The part of the state that concerns output files. *)
Definition files_of (w : world) : string * Z * bool * list syscall :=
  (output_filename w, outfd w, delete_output_on_interrupt w, syscalls w).

(** Whenever a function of the encoders returns, it has left the output
    file to the driver: the name, the descriptor and the ownership of
    the output are as before, and no system call on files was made. *)
Definition encoder_keeps_files (E : encoder) : Prop :=
  (forall data w r w',
     FLZe_init E data w = (Return r, w') -> files_of w' = files_of w) /\
  (forall dictionary_size match_len_limit data w r w',
     LZe_init E dictionary_size match_len_limit data w = (Return r, w') ->
     files_of w' = files_of w) /\
  (forall size st w r w',
     FLZe_encode_member E size st w = (Return r, w') \/
     LZe_encode_member E size st w = (Return r, w') ->
     files_of w' = files_of w).

(** When the run owns no output file, a function of the encoders that
    ends the process has left the output file alone as well (as
    [cleanup_and_fail] does, which then removes nothing). *)
Definition encoder_leaves_clean (E : encoder) : Prop :=
  (forall data w status w',
     delete_output_on_interrupt w = false ->
     FLZe_init E data w = (Exit status, w') -> files_of w' = files_of w) /\
  (forall dictionary_size match_len_limit data w status w',
     delete_output_on_interrupt w = false ->
     LZe_init E dictionary_size match_len_limit data w = (Exit status, w') ->
     files_of w' = files_of w) /\
  (forall size st w status w',
     delete_output_on_interrupt w = false ->
     FLZe_encode_member E size st w = (Exit status, w') \/
     LZe_encode_member E size st w = (Exit status, w') ->
     files_of w' = files_of w).

(** ** Vocabulary of the statements about exit statuses *)

(** In some state the decoder cannot get the memory of its dictionary. *)
Definition allocation_fails (D : decoder) : Prop :=
  exists dictionary_size rest w, LZd_init D dictionary_size rest w = false.

(** In some state the decoder itself leaves the process with [status]
    (decoder.c does so on a read or write error). *)
Definition decoder_exits (D : decoder) (status : Z) : Prop :=
  exists dictionary_size rest w,
    (LZd_decode_member D dictionary_size rest w).1.1 = Exit status.

(** In some state one of the functions of the encoders leaves the
    process with [status]. *)
Definition encoder_exits (E : encoder) (status : Z) : Prop :=
  (exists data w, (FLZe_init E data w).1 = Exit status) \/
  (exists dictionary_size match_len_limit data w,
     (LZe_init E dictionary_size match_len_limit data w).1 = Exit status) \/
  (exists size st w,
     (FLZe_encode_member E size st w).1 = Exit status \/
     (LZe_encode_member E size st w).1 = Exit status).

(** The header at the start of [s] announces a member: bytes follow it,
    and its magic bytes, its version and its dictionary size are valid. *)
Definition member_header_ok (L : Lzip.decls) (s : list byte) : bool :=
  negb (Rd_finished (drop Lh_size s)) &&
  Lh_verify_magic (take Lh_size s) &&
  Lh_verify_version (take Lh_size s) &&
  isvalid_ds (Lh_get_dictionary_size L (take Lh_size s)).

(** What the exit status contract tells apart in the input at the head
    of an iteration of the member loop of [decompress]: a member with a
    valid header; nothing, after the last member; after the last member,
    bytes that are not taken for a header; and anything else, which is
    no member at the start of the file or a header that is truncated,
    corrupt or not valid. *)
Inductive input_class : Type :=
  | Member
  | End_of_input
  | Trailing_data
  | Bad_input.

Definition classify (L : Lzip.decls) (loose_trailing first_member : bool)
    (s : list byte) : input_class :=
  if member_header_ok L s then Member
  else if first_member then Bad_input
  else if plain_trailing_data L loose_trailing s then Trailing_data
  else if bool_decide (s = []) && negb (Lh_verify_prefix L s)
  then End_of_input
  else Bad_input.

(** The states in which [decompress] sets up the decoder for a member
    and runs it, from the state [w] at the head of the iteration. *)
Definition before_init (verbosity : Z) (first_member : bool) (w : world)
  : world :=
  (when ((2 <=? verbosity) || ((verbosity =? 1) && first_member))
     (Pp_show_msg verbosity None) w).2.

Definition before_decode (sys : os) (verbosity cfile_size pos : Z)
    (first_member : bool) (w : world) : world :=
  (show_dprogress sys verbosity cfile_size pos true (Z.of_nat Lh_size)
     (before_init verbosity first_member w)).2.

(** A value returned to [main], or a status with which the process was
    left, is one of 0, 1, 2 and 3. *)
Definition status_in_range (r : outcome Z) : Prop :=
  match r with
  | Return retval => 0 <= retval <= 3
  | Exit status => 0 <= status <= 3
  end.

(** What [main] calls on the files keeps to the four statuses. *)
Definition codecs_in_range (C : Main.codecs) : Prop :=
  (forall verbosity filenames ignore_trailing loose_trailing w,
     0 <= (Main.list_files C verbosity filenames ignore_trailing
             loose_trailing w).1 <= 3) /\
  (forall verbosity cfile_size member_size volume_size input options
          in_statsp zero w,
     status_in_range
       (Main.compress_file C verbosity cfile_size member_size volume_size
          input options in_statsp zero w).1) /\
  (forall verbosity cfile_size input ignore_trailing loose_trailing
          testing w,
     status_in_range
       (Main.decompress_file C verbosity cfile_size input ignore_trailing
          loose_trailing testing w).1).

(** ** Vocabulary of the statements about the configuration *)

(** The operation that an option asks for, if it asks for one. *)
Definition mode_of_option (a : Main.ap_record) : option Main.Mode :=
  if Main.code a =? Main.chr "d" then Some Main.m_decompress
  else if Main.code a =? Main.chr "l" then Some Main.m_list
  else if Main.code a =? Main.chr "t" then Some Main.m_test
  else None.

(** The variables set by the options are within the limits that the
    comments of main.c and the calls of [getnum] give them. *)
Definition valid_configuration (l : Main.locals) : Prop :=
  isvalid_ds (Main.dictionary_size (Main.encoder_options l)) = true /\
  min_match_len_limit <= Main.match_len_limit (Main.encoder_options l)
    <= max_match_len /\
  100000 <= Main.member_size l <= Main.max_member_size /\
  (Main.volume_size l = 0 \/
   100000 <= Main.volume_size l <= Main.max_volume_size) /\
  -1 <= Main.verbosity l <= 4.

(** ** Vocabulary of the statements about the dump of trailing data *)

(** A byte in hexadecimal, as the dump shows it: two upper-case digits
    and a space. *)
Definition hex_of_byte (b : byte) : list ascii :=
  let digits := list_ascii_of_string "0123456789ABCDEF" in
  [nth (N.to_nat (Byte.to_N b / 16)) digits "?"%char;
   nth (N.to_nat (Byte.to_N b mod 16)) digits "?"%char;
   " "%char].

(** A byte as text, as the dump shows it: itself if printable, else a
    dot. *)
Definition text_of_byte (b : byte) : ascii :=
  if isprint b then ascii_of_byte b else "."%char.

(** ** Dictionary sizes in messages *)

Definition ds_prefixes : list string :=
  ["Ki"; "Mi"; "Gi"; "Ti"; "Pi"; "Ei"; "Zi"; "Yi"].

(** The conversion [%4u] of [printf]: at least four characters, padded
    with spaces on the left. *)
Definition pad4 (n : Z) : string :=
  string_of_list_ascii
    (repeat " "%char (4 - String.length (dec n))) +:+ dec n.

(** The loop of [format_ds] over the prefixes that are left: the number,
    the prefix and the padding to print. *)
Fixpoint format_ds_loop (prefixes : list string) (num : Z) (exact : bool)
    (p np : string) : Z * string * string :=
  match prefixes with
  | [] => (num, p, np)
  | prefix :: prefixes' =>
      if (9999 <? num) || (exact && (1024 <=? num)) then
        let num := num / 1024 in
        let exact := if negb (num mod 1024 =? 0) then false else exact in
        format_ds_loop prefixes' num exact prefix ""
      else (num, p, np)
  end.

(** [dictionary_size] is an [unsigned]. *)
Definition format_ds (dictionary_size : Z) : string :=
  let '(num, p, np) :=
    format_ds_loop ds_prefixes dictionary_size
      (dictionary_size mod 1024 =? 0) "" "  " in
  snprintf 16 (np +:+ pad4 num +:+ " " +:+ p +:+ "B").

Definition show_header (dictionary_size : Z) : M unit :=
  fputs ("dict " +:+ format_ds dictionary_size +:+ ", ").

(** The unit that the prefix number [i] stands for (none for 0, "Ki"
    for 1, ...). *)
Definition ds_unit_name (i : nat) : string :=
  match i with
  | O => ""
  | S j => default "" (ds_prefixes !! j)
  end.

(** ** Vocabulary of the statements about what a run does to files *)

(** From [w] to [w'] the only system calls made close descriptors. *)
Definition closes_only (w w' : world) : Prop :=
  exists fds, syscalls w' = syscalls w ++ (Sys_close <$> fds).

(** [compress] and [decompress], as [main] calls them, leave the output
    file and the record of system calls alone when the run owns no
    output file. *)
Definition codecs_keep_files (C : Main.codecs) : Prop :=
  (forall verbosity cfile_size member_size volume_size input options
          in_statsp zero w,
     delete_output_on_interrupt w = false ->
     files_of
       (Main.compress_file C verbosity cfile_size member_size volume_size
          input options in_statsp zero w).2 = files_of w) /\
  (forall verbosity cfile_size input ignore_trailing loose_trailing
          testing w,
     delete_output_on_interrupt w = false ->
     files_of
       (Main.decompress_file C verbosity cfile_size input ignore_trailing
          loose_trailing testing w).2 = files_of w).

(** From [w] to [w'] the output file is left alone: same name, same
    descriptor, same ownership, and no system call but closing
    descriptors. *)
Definition keeps_output (w w' : world) : Prop :=
  output_filename w' = output_filename w /\
  outfd w' = outfd w /\
  delete_output_on_interrupt w' = delete_output_on_interrupt w /\
  closes_only w w'.

(** ** Signals

    [sig] is not used. The dispositions set by [set_signals] are not
    part of the state; [signal_handler] is what runs when a signal
    arrives while they are set. *)
Definition signal_handler (sys : os) (verbosity : Z)
    (invocation_name : string) (sig : Z) : M (outcome unit) :=
  show_error sys verbosity invocation_name
    "Control-C or similar caught, quitting." 0 false ;;;
  cleanup_and_fail sys verbosity invocation_name 1.

(** ** Concrete collaborators

    Instances of the interfaces, used to run the driver on concrete
    inputs. *)
Module Sample.

(** Modelled from the spec: lzip.h is absent. The bytes read are a
    non-empty prefix of the magic (or start with all of it): a header cut
    short by the end of the input. *)
Definition Lh_verify_prefix (header : list byte) : bool :=
  negb (bool_decide (header = [])) &&
  bool_decide (take 4 header = take (length header) lzip_magic).

Fixpoint magic_matches (header magic : list byte) : nat :=
  match header, magic with
  | h :: header', m :: magic' =>
      ((if bool_decide (h = m) then 1 else 0) + magic_matches header' magic')%nat
  | _, _ => 0%nat
  end.

(** Modelled from the spec: lzip.h is absent. A header looks corrupt (a
    corrupt-looking header that could be a truncated subsequent member)
    when more than one but not all of the magic bytes are in place. *)
Definition Lh_verify_corrupt (header : list byte) : bool :=
  let matches := magic_matches header lzip_magic in
  bool_decide (1 < matches)%nat && bool_decide (matches < 4)%nat.

(** Modelled from the spec: lzip.h is absent. The low 5 bits of the
    dictionary-size byte give [bits], the high 3 bits give [frac], and
    the size is 2^bits - frac * 2^(bits-4). *)
Definition Lh_get_dictionary_size (header : list byte) : Z :=
  match header !! 5%nat with
  | Some b =>
      let v := Z.of_N (Byte.to_N b) in
      let bits := Z.land v 31 in
      let frac := Z.land (Z.shiftr v 5) 7 in
      Z.shiftl 1 bits - frac * (Z.shiftl 1 bits / 16)
  | None => 0
  end.

(** Modelled from the spec: lzip.h is absent. Valid sizes are stored in
    the header; only powers of two are stored here, as the exponent. *)
Definition Lh_set_dictionary_size (dictionary_size : Z)
  : option (list byte) :=
  if isvalid_ds dictionary_size then
    match Byte.of_N (Z.to_N (Z.log2_up dictionary_size)) with
    | Some b => Some (lzip_magic ++ [x01; b])
    | None => None
    end
  else None.

(** Modelled from the spec: lzip.h is absent. The texts stand for the
    message constants of lzip.h; no statement depends on them. *)
Definition lzip_h : Lzip.decls :=
  {| mem_msg := "Not enough memory.";
     bad_magic_msg := "Bad magic number (file not in lzip format).";
     bad_dict_msg := "Invalid dictionary size in member header.";
     corrupt_mm_msg := "Corrupt header in multimember file.";
     trailing_msg := "Trailing data not allowed.";
     Lzip.Lh_verify_prefix := Lh_verify_prefix;
     Lzip.Lh_verify_corrupt := Lh_verify_corrupt;
     Lzip.Lh_get_dictionary_size := Lh_get_dictionary_size;
     Lzip.Lh_set_dictionary_size := Lh_set_dictionary_size |}.

(** A stand-in for [strtoull] and [strtol] on decimal digits: the
    number written by the digits at the start of the string, and how
    many they are. *)
Fixpoint decimal_digits (s : string) (acc : Z) (n : nat) : Z * nat * bool :=
  match s with
  | String c s' =>
      if is_digit c then
        decimal_digits s' (10 * acc + (Z.of_nat (nat_of_ascii c) - 48)) (S n)
      else (acc, n, false)
  | EmptyString => (acc, n, false)
  end.

Definition decimal_prefix (s : string) : Z * nat * bool :=
  decimal_digits s 0 0%nat.

(** An operating system in which every call succeeds and no descriptor
    is a terminal. *)
Definition quiet_os : os :=
  {| strerror := fun _ => "error";
     stderr_isatty := fun _ => false;
     remove_fails := fun _ _ => false;
     open_out := fun _ _ _ => Opened 3;
     close_errno := fun _ _ => 0;
     isatty := fun _ _ => false;
     fchown_ok := fun _ => true;
     fchown_EPERM := fun _ => false;
     fchmod_ok := fun _ _ => true;
     utime_ok := fun _ _ => true;
     open_in := fun _ _ => Opened 4;
     fstat_ok := fun _ _ => true;
     st_mode := fun _ _ => Regular;
     st_size := fun _ _ => 0;
     strtoull := decimal_prefix;
     strtol := fun s => let '(v, n, _) := decimal_prefix s in (v, n);
     plain_char_signed := true |}.

(** A stand-in for the LZMA decoder: the payload of a member is a count
    byte followed by that many bytes. It returns 0 when the payload is
    complete and 2 when the input ends early. *)
Definition stored_decode_member (dictionary_size : Z) (rest : list byte)
  : M (outcome Z * nat) :=
  match rest with
  | [] => ret (Return 2, 0%nat)
  | k :: body =>
      let n := N.to_nat (Byte.to_N k) in
      if bool_decide (n <= length body)%nat then ret (Return 0, S n)
      else ret (Return 2, length rest)
  end.

Definition stored_decoder : decoder :=
  {| Rd_init := fun _ => true;
     LZd_init := fun _ _ _ => true;
     LZd_decode_member := stored_decode_member |}.

(** A stand-in for the encoders: a member stores up to 255 bytes of input
    after a count byte, within the size given, and the six bytes of the
    header are counted in; a size below seven bytes is an error. The
    state is the input left and the position in the member at hand. *)
Definition stored_encode_member (size : Z) (st : list byte * Z)
  : M (outcome (encoded * (list byte * Z))) :=
  let n := Z.max 0 (Z.min (Z.min 255 (Z.of_nat (length st.1))) (size - 7)) in
  ret (Return ({| encoded_ok := 7 <=? size; data_position := n;
                  member_position := 7 + n;
                  data_finished := bool_decide (drop (Z.to_nat n) st.1 = []) |},
               (drop (Z.to_nat n) st.1, n))).

Definition stored_encoder : encoder :=
  {| encoder_state := list byte * Z;
     FLZe_init := fun data => ret (Return (Some (data, 0)));
     LZe_init := fun _ _ data => ret (Return (Some (data, 0)));
     Mb_data_position := snd;
     FLZe_encode_member := stored_encode_member;
     LZe_encode_member := stored_encode_member;
     FLZe_reset := fun st => (st.1, 0);
     LZe_reset := fun st => (st.1, 0) |}.

Definition pp0 : Pretty_print :=
  {| pp_name := "in.lz"; pp_padded_name := "  in.lz: ";
     pp_stdin_name := "(stdin)"; pp_longest_name := 5;
     pp_first_post := true |}.

Definition world0 : world :=
  {| pp := pp0; stdout := []; stderr := []; cprogress := progress_init;
     dprogress := progress_init; output_filename := "";
     outfd := 1; delete_output_on_interrupt := false; syscalls := [] |}.

(** The state in which [main] calls [compress] for the first volume
    "out00001.lz" of an input "out". *)
Definition world1 : world :=
  {| pp := pp0; stdout := []; stderr := []; cprogress := progress_init;
     dprogress := progress_init; output_filename := "out00001.lz";
     outfd := 3; delete_output_on_interrupt := true; syscalls := [] |}.

(** A member accepted by [stored_decoder]: header "LZIP", version 1,
    dictionary-size byte 12 (4 KiB), and a payload of two bytes. *)
Definition member_ab : list byte :=
  ["L"; "Z"; "I"; "P"; x01; x0c; x02; "a"; "b"]%byte.

(** The input files of the examples: a good member, a member of
    version 2, a good member followed by a zero byte; any other file
    holds 300 letters. *)
Definition content (name : string) : list byte :=
  if bool_decide (name = "good.lz") then member_ab
  else if bool_decide (name = "v2.lz") then
    ["L"; "Z"; "I"; "P"; x02; x0c; x02; "a"; "b"]%byte
  else if bool_decide (name = "trail.lz") then member_ab ++ [x00]%byte
  else repeat "a"%byte 300.

(** [compress] and [decompress] with the stand-ins; no input has more
    than 300 bytes, and the encoder needs no more members than the input
    has bytes. *)
Definition codecs : Main.codecs :=
  codecs_of quiet_os lzip_h stored_encoder stored_decoder "clzip" content 301
    (fun _ _ _ _ => ret 0).

Definition arg (c : ascii) (a : string) : Main.ap_record :=
  {| Main.code := Main.chr c; Main.argument := a |}.

Definition file (name : string) : Main.ap_record :=
  {| Main.code := 0; Main.argument := name |}.

(** An operating system like [quiet_os] in which every descriptor is a
    terminal. *)
Definition terminal_os : os :=
  {| strerror := strerror quiet_os;
     stderr_isatty := fun _ => true;
     remove_fails := remove_fails quiet_os;
     open_out := open_out quiet_os;
     close_errno := close_errno quiet_os;
     isatty := fun _ _ => true;
     fchown_ok := fchown_ok quiet_os;
     fchown_EPERM := fchown_EPERM quiet_os;
     fchmod_ok := fchmod_ok quiet_os;
     utime_ok := utime_ok quiet_os;
     open_in := open_in quiet_os;
     fstat_ok := fstat_ok quiet_os;
     st_mode := st_mode quiet_os;
     st_size := st_size quiet_os;
     strtoull := strtoull quiet_os;
     strtol := strtol quiet_os;
     plain_char_signed := plain_char_signed quiet_os |}.

End Sample.

(** * Properties *)

(** Unfolding of the monad operations. *)
Ltac munfold :=
  unfold bind, ret, get, modify, when, fputs, emit, do_syscall in *.

Ltac split_run :=
  repeat match goal with
  | |- context [let (_, _) := ?m in _] => destruct m eqn:?
  | H : context [let (_, _) := ?m in _] |- _ => destruct m eqn:?
  | |- context [let '(_, _) := ?m in _] => destruct m eqn:?
  | H : context [let '(_, _) := ?m in _] |- _ => destruct m eqn:?
  end.

Section DecompressFacts.

Variable sys : os.
Variable L : Lzip.decls.
Variable D : decoder.
Variable verbosity : Z.
Variable invocation_name : string.
Variable cfile_size : Z.
Variable ignore_trailing loose_trailing testing : bool.

Abbreviation member := (decompress_member sys L D verbosity cfile_size
                          ignore_trailing loose_trailing testing).
Abbreviation loop := (decompress_loop sys L D verbosity cfile_size
                        ignore_trailing loose_trailing testing).

(** A member that lets the loop go on takes its header and at least one
    more byte from the input. *)
Lemma decompress_member_Next_shorter retval first_member stream pos w
    stream' pos' w' :
  member retval first_member stream pos w = (Next stream' pos', w') ->
  (length stream' + 6 <= length stream)%nat.
Proof.
  unfold decompress_member, Rd_read_data, Lh_size.
  intros H.
  destruct (Rd_finished (drop 6 stream)) eqn:Hfin.
  - munfold. repeat case_match; split_run; simplify_eq.
  - assert (drop 6 stream <> []) as Hne.
    { unfold Rd_finished in Hfin. by apply bool_decide_eq_false in Hfin. }
    assert (6 < length stream)%nat as Hlt.
    { destruct (decide (6 < length stream)%nat) as [|Hge]; [done|].
      exfalso. apply Hne. apply drop_ge. lia. }
    munfold. repeat case_match; split_run; simplify_eq.
    all: rewrite !length_drop; lia.
Qed.

Abbreviation decodes' := (decodes sys L D verbosity cfile_size
                        ignore_trailing loose_trailing testing).

Lemma decompress_loop_terminates fuel :
  forall first_member stream pos w,
  (length stream < fuel)%nat ->
  exists r, (loop fuel first_member stream pos w).1 = Some r.
Proof.
  induction fuel as [|fuel IH]; intros fm stream pos w Hlen; [lia|].
  cbn [decompress_loop]. unfold bind.
  destruct (member 0 fm stream pos w) as [s w'] eqn:Hm.
  destruct s as [r|st|s' p']; simpl; eauto.
  apply IH. apply decompress_member_Next_shorter in Hm. lia.
Qed.

Lemma decompress_loop_fuel fuel :
  forall fuel' first_member stream pos w,
  (length stream < fuel)%nat -> (length stream < fuel')%nat ->
  loop fuel first_member stream pos w = loop fuel' first_member stream pos w.
Proof.
  induction fuel as [|fuel IH]; intros fuel' fm stream pos w Hlen Hlen'; [lia|].
  destruct fuel' as [|fuel']; [lia|].
  cbn [decompress_loop]. unfold bind.
  destruct (member 0 fm stream pos w) as [s w'] eqn:Hm.
  destruct s as [r|st|s' p']; simpl; eauto.
  apply decompress_member_Next_shorter in Hm.
  apply IH; lia.
Qed.

Lemma decodes_shorter s p w s2 p2 w2 :
  decodes' s p w s2 p2 w2 -> (length s2 <= length s)%nat.
Proof.
  induction 1 as [|s p w s1 p1 w1 s2 p2 w2 Hm _ IH]; [lia|].
  apply decompress_member_Next_shorter in Hm. lia.
Qed.

Lemma decompress_loop_decodes s p w s2 p2 w2 :
  decodes' s p w s2 p2 w2 ->
  forall fuel, (length s < fuel)%nat ->
  loop fuel false s p w = loop (S (length s2)) false s2 p2 w2.
Proof.
  induction 1 as [s p w|s p w s1 p1 w1 s2 p2 w2 Hm _ IH]; intros fuel Hlen.
  - apply decompress_loop_fuel; lia.
  - destruct fuel as [|fuel]; [lia|].
    cbn [decompress_loop]. unfold bind at 1. rewrite Hm.
    apply IH. apply decompress_member_Next_shorter in Hm. lia.
Qed.

Lemma decompress_loop_at_member stream w first_member s pos w1 :
  at_member sys L D verbosity cfile_size ignore_trailing loose_trailing
    testing stream w first_member s pos w1 ->
  loop (S (length stream)) true stream 0 w =
  loop (S (length s)) first_member s pos w1.
Proof.
  unfold at_member. destruct first_member.
  - by intros (-> & -> & ->).
  - intros (s1 & p1 & w0 & Hm & Hd).
    cbn [decompress_loop]. unfold bind at 1. rewrite Hm.
    apply decompress_loop_decodes with (fuel := length stream) in Hd; [done|].
    apply decompress_member_Next_shorter in Hm. lia.
Qed.

(** [decompress] returns whatever the iteration that leaves the loop
    decides. *)
Lemma decompress_break stream w first_member s pos w1 retval w2 :
  Rd_init D w = true ->
  at_member sys L D verbosity cfile_size ignore_trailing loose_trailing
    testing stream w first_member s pos w1 ->
  member 0 first_member s pos w1 = (Break retval, w2) ->
  decompress sys L D verbosity invocation_name cfile_size ignore_trailing
    loose_trailing testing stream w =
  (Some (Return retval),
   (decompress_epilogue verbosity testing retval w2).2).
Proof.
  intros Hinit Hat Hm. unfold decompress.
  unfold bind at 1, get at 1. rewrite Hinit. cbn [negb].
  unfold bind at 1. rewrite (decompress_loop_at_member _ _ _ _ _ _ Hat).
  cbn [decompress_loop]. unfold bind at 1. rewrite Hm.
  unfold decompress_epilogue. munfold. by case_match.
Qed.

Abbreviation at_member' := (at_member sys L D verbosity cfile_size
                              ignore_trailing loose_trailing testing).
Abbreviation after_members' := (after_members sys L D verbosity cfile_size
                              ignore_trailing loose_trailing testing).
Abbreviation decompress' := (decompress sys L D verbosity invocation_name
                               cfile_size ignore_trailing loose_trailing
                               testing).

Lemma Rd_finished_false (s : list byte) :
  (6 < length s)%nat -> Rd_finished (drop Lh_size s) = false.
Proof.
  intros Hlen. unfold Rd_finished, Lh_size. apply bool_decide_eq_false.
  intros Heq. apply (f_equal length) in Heq. rewrite length_drop in Heq.
  simpl in Heq. lia.
Qed.

Lemma Rd_finished_true (s : list byte) :
  (length s <= 6)%nat -> Rd_finished (drop Lh_size s) = true.
Proof.
  intros Hlen. unfold Rd_finished, Lh_size. apply bool_decide_eq_true.
  apply drop_ge. lia.
Qed.

Lemma Pp_show_msg_stderr msg w :
  0 <= verbosity ->
  stderr (Pp_show_msg verbosity (Some msg) w).2 =
  stderr w ++
  (if pp_first_post (pp w) then [Text (pp_padded_name (pp w))] else []) ++
  [Text (msg +:+ nl)].
Proof.
  intros Hv. unfold Pp_show_msg. munfold.
  assert ((0 <=? verbosity) = true) as -> by lia.
  destruct (pp_first_post (pp w)); simpl; [|done].
  by rewrite <- app_assoc.
Qed.

Lemma bad_version_text (b : byte) :
  bad_version (Z.of_N (Byte.to_N b)) =
  "Version " +:+ dec (Z.of_N (Byte.to_N b)) +:+
  " member format not supported.".
Proof. destruct b; vm_compute; reflexivity. Qed.

Lemma Lh_version_text (header : list byte) :
  bad_version (Lh_version header) =
  "Version " +:+ dec (Lh_version header) +:+ " member format not supported.".
Proof.
  unfold Lh_version. destruct (header !! 4%nat) as [b|].
  - apply bad_version_text.
  - vm_compute; reflexivity.
Qed.

Lemma decompress_member_bad_version first_member s pos w :
  (6 < length s)%nat ->
  Lh_verify_magic (take 6 s) = true ->
  Lh_verify_version (take 6 s) = false ->
  member 0 first_member s pos w =
  (Break 2,
   (Pp_show_msg verbosity (Some (bad_version (Lh_version (take 6 s)))) w).2).
Proof.
  intros Hlen Hmagic Hver.
  unfold decompress_member, Rd_read_data.
  rewrite Rd_finished_false by done. unfold Lh_size.
  rewrite Hmagic, Hver. cbn [negb]. unfold bind, ret.
  by destruct (Pp_show_msg _ _ w).
Qed.

Lemma decompress_member_bad_dict first_member s pos w :
  (6 < length s)%nat ->
  Lh_verify_magic (take 6 s) = true ->
  Lh_verify_version (take 6 s) = true ->
  isvalid_ds (Lh_get_dictionary_size L (take 6 s)) = false ->
  member 0 first_member s pos w =
  (Break 2, (Pp_show_msg verbosity (Some (bad_dict_msg L)) w).2).
Proof.
  intros Hlen Hmagic Hver Hds.
  unfold decompress_member, Rd_read_data.
  rewrite Rd_finished_false by done. unfold Lh_size.
  rewrite Hmagic, Hver, Hds. cbn [negb]. unfold bind, ret.
  by destruct (Pp_show_msg _ _ w).
Qed.

(** C4. A member whose header has the magic but a version byte other
    than 1 makes [decompress] return 2; the only effect after the members
    decoded before it is the message "Version N member format not
    supported." (N the version byte) passed to [Pp_show_msg], so the
    decoder is never run on the member. *)
Theorem unsupported_version_rejected stream w first_member s pos w1 :
  Rd_init D w = true ->
  at_member' stream w first_member s pos w1 ->
  (6 < length s)%nat ->
  Lh_verify_magic (take 6 s) = true ->
  Lh_version (take 6 s) <> 1 ->
  let msg := "Version " +:+ dec (Lh_version (take 6 s)) +:+
             " member format not supported." in
  decompress' stream w =
    (Some (Return 2), (Pp_show_msg verbosity (Some msg) w1).2) /\
  (0 <= verbosity ->
   exists name, stderr (decompress' stream w).2 =
                stderr w1 ++ name ++ [Text (msg +:+ nl)]).
Proof.
  intros Hinit Hat Hlen Hmagic Hver msg.
  assert (decompress' stream w =
          (Some (Return 2), (Pp_show_msg verbosity (Some msg) w1).2)) as Heq.
  { rewrite (decompress_break _ _ _ _ _ _ 2
               (Pp_show_msg verbosity (Some msg) w1).2 Hinit Hat).
    - unfold decompress_epilogue, when.
      by rewrite andb_false_r.
    - subst msg. rewrite <- Lh_version_text.
      apply decompress_member_bad_version; [done..|].
      unfold Lh_verify_version. lia. }
  split; [done|]. intros Hv. rewrite Heq. cbn [snd].
  rewrite Pp_show_msg_stderr by done. eauto.
Qed.

(** C5. A member whose header carries a dictionary size below 4 KiB or
    above 512 MiB makes [decompress] return 2; the only effect after the
    members decoded before it is the message [bad_dict_msg] passed to
    [Pp_show_msg], so the decoder is never run on the member. *)
Theorem invalid_dictionary_size_rejected stream w first_member s pos w1 :
  Rd_init D w = true ->
  at_member' stream w first_member s pos w1 ->
  (6 < length s)%nat ->
  Lh_verify_magic (take 6 s) = true ->
  Lh_verify_version (take 6 s) = true ->
  (Lh_get_dictionary_size L (take 6 s) < 4096 \/
   512 * 1024 * 1024 < Lh_get_dictionary_size L (take 6 s)) ->
  isvalid_ds (Lh_get_dictionary_size L (take 6 s)) = false /\
  decompress' stream w =
    (Some (Return 2), (Pp_show_msg verbosity (Some (bad_dict_msg L)) w1).2).
Proof.
  intros Hinit Hat Hlen Hmagic Hver Hds.
  assert (isvalid_ds (Lh_get_dictionary_size L (take 6 s)) = false) as Hinv.
  { unfold isvalid_ds, min_dictionary_size, max_dictionary_size,
      min_dictionary_bits, max_dictionary_bits.
    change (Z.shiftl 1 12) with 4096.
    change (Z.shiftl 1 29) with (512 * 1024 * 1024). lia. }
  split; [done|].
  rewrite (decompress_break _ _ _ _ _ _ 2
             (Pp_show_msg verbosity (Some (bad_dict_msg L)) w1).2 Hinit Hat).
  - unfold decompress_epilogue, when. by rewrite andb_false_r.
  - by apply decompress_member_bad_dict.
Qed.

Lemma show_trailing_data_result data all ignore w :
  (show_trailing_data sys L verbosity data all ignore w).1 = (0 <? ignore).
Proof.
  unfold show_trailing_data. munfold. by split_run.
Qed.

Lemma show_trailing_data_silent data all w :
  verbosity < 4 ->
  show_trailing_data sys L verbosity data all 1 w = (true, w).
Proof.
  intros Hv. unfold show_trailing_data. munfold.
  assert ((4 <=? verbosity) = false) as -> by lia. done.
Qed.

Lemma show_trailing_data_ignored data all w :
  4 <= verbosity ->
  exists name,
    stderr (show_trailing_data sys L verbosity data all 1 w).2 =
    stderr w ++ name ++ [Text (trailing_data_line data all +:+ nl)].
Proof.
  intros Hv. unfold show_trailing_data, when.
  assert ((4 <=? verbosity) = true) as -> by lia.
  pose proof (Pp_show_msg_stderr (trailing_data_line data all) w) as Hs.
  cbn [orb]. unfold bind, ret.
  destruct (Pp_show_msg verbosity _ w) as [[] w2]. cbn [snd Z.eqb] in *.
  rewrite Hs by lia. eauto.
Qed.

Lemma decompress_member_trailing s pos w :
  plain_trailing_data L loose_trailing s = true ->
  member 0 false s pos w =
  (Break (if ignore_trailing then 0 else 2),
   (show_trailing_data sys L verbosity (take 6 s)
      (Rd_finished (drop 6 s)) (Z.b2z ignore_trailing) w).2).
Proof.
  unfold plain_trailing_data, decompress_member, Rd_read_data, Lh_size.
  intros Hplain.
  pose proof (show_trailing_data_result (take 6 s)
                (Rd_finished (drop 6 s)) (Z.b2z ignore_trailing) w) as Hres.
  destruct (Rd_finished (drop 6 s)) eqn:Hfin.
  - apply andb_true_iff in Hplain as [Hne Hpre].
    apply negb_true_iff in Hne, Hpre.
    apply bool_decide_eq_false in Hne.
    assert (take 6 s = s) as Htake.
    { unfold Rd_finished in Hfin. apply bool_decide_eq_true in Hfin.
      rewrite <- (take_drop 6 s) at 2. rewrite Hfin. by rewrite app_nil_r. }
    rewrite Htake in *. rewrite Hpre.
    assert ((0 <? Z.of_nat (length s)) = true) as ->.
    { apply Z.ltb_lt. destruct s; [done|]. rewrite length_cons. lia. }
    unfold bind, ret.
    destruct (show_trailing_data _ _ _ _ _ _ _) as [ignored w2].
    cbn [fst snd] in *. subst ignored. by destruct ignore_trailing.
  - apply andb_true_iff in Hplain as [Hmagic Hcor].
    rewrite Hmagic.
    assert ((negb loose_trailing && Lh_verify_corrupt L (take 6 s)) = false)
      as ->.
    { destruct loose_trailing; [done|]. simpl in *.
      by apply negb_true_iff in Hcor. }
    unfold bind, ret.
    destruct (show_trailing_data _ _ _ _ _ _ _) as [ignored w2].
    cbn [fst snd] in *. subst ignored. by destruct ignore_trailing.
Qed.

(** C2 (amended). After one or more members that decode without error,
    plain trailing data ([plain_trailing_data]) makes [decompress] return
    0 when [ignore_trailing] is set and 2 when it is not. With
    [ignore_trailing] set nothing is written below verbosity 4, and from
    verbosity 4 on the only thing written is the dump of the trailing
    bytes. *)
Theorem trailing_data_policy stream w s pos w1 :
  Rd_init D w = true ->
  after_members' stream w s pos w1 ->
  plain_trailing_data L loose_trailing s = true ->
  let all := Rd_finished (drop 6 s) in
  let w2 := (show_trailing_data sys L verbosity (take 6 s) all
               (Z.b2z ignore_trailing) w1).2 in
  let retval := if ignore_trailing then 0 else 2 in
  decompress' stream w =
    (Some (Return retval), (decompress_epilogue verbosity testing retval w2).2)
  /\ (ignore_trailing = true -> verbosity < 4 -> w2 = w1)
  /\ (ignore_trailing = true -> 4 <= verbosity ->
      exists name,
        stderr w2 =
        stderr w1 ++ name ++ [Text (trailing_data_line (take 6 s) all +:+ nl)]).
Proof.
  intros Hinit Hafter Hplain all w2 retval. split; [|split].
  - apply (decompress_break stream w false s pos w1); [done..|].
    by apply decompress_member_trailing.
  - intros -> Hv. subst w2. cbn [Z.b2z].
    by rewrite show_trailing_data_silent.
  - intros -> Hv. subst w2. cbn [Z.b2z].
    by apply show_trailing_data_ignored.
Qed.

(** C3 (amended). After one or more members that decode without error,
    more than six bytes that do not start with the magic but pass the
    corrupt-header test: without [loose_trailing], [decompress] returns 2
    after passing [corrupt_mm_msg] to [Pp_show_msg] and dumping the
    bytes; with [loose_trailing], the bytes are trailing data, and the
    result is 0 or 2 as [ignore_trailing] says. *)
Theorem corrupt_header_after_member stream w s pos w1 :
  Rd_init D w = true ->
  after_members' stream w s pos w1 ->
  (6 < length s)%nat ->
  Lh_verify_magic (take 6 s) = false ->
  Lh_verify_corrupt L (take 6 s) = true ->
  (loose_trailing = false ->
   decompress' stream w =
     (Some (Return 2),
      (show_trailing_data sys L verbosity (take 6 s) false (-1)
         (Pp_show_msg verbosity (Some (corrupt_mm_msg L)) w1).2).2)) /\
  (loose_trailing = true ->
   let retval := if ignore_trailing then 0 else 2 in
   decompress' stream w =
     (Some (Return retval),
      (decompress_epilogue verbosity testing retval
         (show_trailing_data sys L verbosity (take 6 s) false
            (Z.b2z ignore_trailing) w1).2).2)).
Proof.
  intros Hinit Hafter Hlen Hmagic Hcor. split; intros Hloose.
  - rewrite (decompress_break stream w false s pos w1 2
               (show_trailing_data sys L verbosity (take 6 s) false (-1)
                  (Pp_show_msg verbosity (Some (corrupt_mm_msg L)) w1).2).2
               Hinit Hafter).
    + unfold decompress_epilogue, when. by rewrite andb_false_r.
    + unfold decompress_member, Rd_read_data.
      rewrite (Rd_finished_false s Hlen). unfold Lh_size.
      rewrite Hmagic, Hcor, Hloose. cbn [negb andb].
      unfold bind, ret.
      destruct (Pp_show_msg _ _ w1) as [[] w2]. cbn [snd].
      by destruct (show_trailing_data _ _ _ _ _ _ w2).
  - cbn zeta.
    rewrite (decompress_break stream w false s pos w1
               (if ignore_trailing then 0 else 2)
               (show_trailing_data sys L verbosity (take 6 s) false
                  (Z.b2z ignore_trailing) w1).2 Hinit Hafter); [done|].
    pose proof (Rd_finished_false s Hlen) as Hfin. unfold Lh_size in Hfin.
    rewrite decompress_member_trailing.
    + by rewrite Hfin.
    + unfold plain_trailing_data, Lh_size. by rewrite Hfin, Hmagic, Hloose.
Qed.

End DecompressFacts.

Import Sample.

(** C2, counterexample. The single byte 'L' after a member that decodes
    without error does not start with the magic, yet with
    [ignore_trailing] set (and any [loose_trailing]) [decompress] returns
    2: the byte is taken for a header cut short. *)
Lemma trailing_data_policy_counterexample :
  let stream := member_ab ++ ["L"]%byte in
  (exists pos w1,
     after_members quiet_os lzip_h stored_decoder 0 0 true false false
       stream world0 ["L"]%byte pos w1) /\
  Lh_verify_magic ["L"]%byte = false /\
  (decompress quiet_os lzip_h stored_decoder 0 "clzip" 0 true false false
     stream world0).1 = Some (Return 2) /\
  (decompress quiet_os lzip_h stored_decoder 0 "clzip" 0 true true false
     stream world0).1 = Some (Return 2).
Proof.
  cbn zeta. split; [|split; [|split]]; [|vm_compute; reflexivity..].
  eexists _, _, _, _, _. split; [vm_compute; reflexivity|].
  apply decodes_nil.
Qed.

(** C3, counterexample. The five bytes "LZIxy" after a member that
    decodes without error do not start with the magic and pass the
    corrupt-header test, yet without [loose_trailing] [decompress]
    returns 0 and writes nothing: the input ends before a whole header
    and one more byte could be read, so the bytes are trailing data. *)
Lemma corrupt_header_after_member_counterexample :
  let trailing := ["L"; "Z"; "I"; "x"; "y"]%byte in
  let stream := member_ab ++ trailing in
  (exists pos w1,
     after_members quiet_os lzip_h stored_decoder 0 0 true false false
       stream world0 trailing pos w1) /\
  Lh_verify_magic trailing = false /\
  Lzip.Lh_verify_corrupt lzip_h trailing = true /\
  (decompress quiet_os lzip_h stored_decoder 0 "clzip" 0 true false false
     stream world0).1 = Some (Return 0) /\
  stderr (decompress quiet_os lzip_h stored_decoder 0 "clzip" 0 true false
            false stream world0).2 = [].
Proof.
  cbn zeta. split; [|split; [|split; [|split]]]; [|vm_compute; reflexivity..].
  eexists _, _, _, _, _. split; [vm_compute; reflexivity|].
  apply decodes_nil.
Qed.

(** Scenario E of the spec: a member whose version byte is 2. *)
Lemma unsupported_version_rejected_witness :
  let stream := ["L"; "Z"; "I"; "P"; x02; x0c; x02; "a"; "b"]%byte in
  let run := decompress quiet_os lzip_h stored_decoder 0 "clzip" 0 true
               false false stream world0 in
  run.1 = Some (Return 2) /\
  stderr run.2 = [Text "  in.lz: ";
                  Text ("Version 2 member format not supported." +:+ nl)].
Proof.
  cbn zeta.
  destruct (unsupported_version_rejected quiet_os lzip_h stored_decoder 0
              "clzip" 0 true false false
              ["L"; "Z"; "I"; "P"; x02; x0c; x02; "a"; "b"]%byte world0 true
              ["L"; "Z"; "I"; "P"; x02; x0c; x02; "a"; "b"]%byte 0 world0)
    as [Heq _].
  - reflexivity.
  - cbn. auto.
  - cbn. lia.
  - reflexivity.
  - vm_compute. discriminate.
  - rewrite Heq. split; reflexivity.
Defined.

(** A member whose dictionary-size byte is 11: 2 KiB. *)
Lemma invalid_dictionary_size_rejected_witness :
  let stream := ["L"; "Z"; "I"; "P"; x01; x0b; x02; "a"; "b"]%byte in
  let run := decompress quiet_os lzip_h stored_decoder 0 "clzip" 0 true
               false false stream world0 in
  run.1 = Some (Return 2) /\
  stderr run.2 = [Text "  in.lz: ";
                  Text ("Invalid dictionary size in member header." +:+ nl)].
Proof.
  cbn zeta.
  destruct (invalid_dictionary_size_rejected quiet_os lzip_h stored_decoder 0
              "clzip" 0 true false false
              ["L"; "Z"; "I"; "P"; x01; x0b; x02; "a"; "b"]%byte world0 true
              ["L"; "Z"; "I"; "P"; x01; x0b; x02; "a"; "b"]%byte 0 world0)
    as [_ Heq].
  - reflexivity.
  - cbn. auto.
  - cbn. lia.
  - reflexivity.
  - reflexivity.
  - left. vm_compute. reflexivity.
  - rewrite Heq. split; reflexivity.
Defined.

Lemma member_ab_then (ignore_trailing loose_trailing : bool)
    (trailing : list byte) :
  after_members quiet_os lzip_h stored_decoder 0 0 ignore_trailing
    loose_trailing false
    (member_ab ++ trailing) world0 trailing 9
    (with_dprogress
       {| enabled := false; csize := 0; psize := 0; armed := false;
          counter := 0 |} world0).
Proof.
  eexists _, _, _. split; [|apply decodes_nil].
  reflexivity.
Defined.

(** Scenario D of the spec: a member followed by the single byte 0. *)
Lemma trailing_data_policy_witness :
  let stream := member_ab ++ [x00]%byte in
  (decompress quiet_os lzip_h stored_decoder 0 "clzip" 0 true false false
     stream world0).1 = Some (Return 0) /\
  (decompress quiet_os lzip_h stored_decoder 0 "clzip" 0 false false false
     stream world0).1 = Some (Return 2).
Proof.
  cbn zeta. split.
  - destruct (trailing_data_policy quiet_os lzip_h stored_decoder 0 "clzip"
                0 true false false (member_ab ++ [x00]%byte) world0
                [x00]%byte 9 _ eq_refl (member_ab_then true false [x00]%byte)
                eq_refl)
      as [Heq _].
    rewrite Heq. reflexivity.
  - destruct (trailing_data_policy quiet_os lzip_h stored_decoder 0 "clzip"
                0 false false false (member_ab ++ [x00]%byte) world0
                [x00]%byte 9 _ eq_refl (member_ab_then false false [x00]%byte)
                eq_refl)
      as [Heq _].
    rewrite Heq. reflexivity.
Defined.

(** A member followed by seven bytes of which the first three are those
    of the magic. *)
Lemma corrupt_header_after_member_witness :
  let trailing := ["L"; "Z"; "I"; "x"; "y"; "z"; "0"]%byte in
  let stream := member_ab ++ trailing in
  let run := decompress quiet_os lzip_h stored_decoder 0 "clzip" 0 true
               false false stream world0 in
  run.1 = Some (Return 2) /\
  (decompress quiet_os lzip_h stored_decoder 0 "clzip" 0 true true false
     stream world0).1 = Some (Return 0).
Proof.
  cbn zeta. split.
  - destruct (corrupt_header_after_member quiet_os lzip_h stored_decoder 0
                "clzip" 0 true false false
                (member_ab ++ ["L"; "Z"; "I"; "x"; "y"; "z"; "0"]%byte) world0
                ["L"; "Z"; "I"; "x"; "y"; "z"; "0"]%byte 9 _ eq_refl
                (member_ab_then true false _)) as [Heq _].
    + cbn. lia.
    + reflexivity.
    + reflexivity.
    + rewrite Heq; reflexivity.
  - destruct (corrupt_header_after_member quiet_os lzip_h stored_decoder 0
                "clzip" 0 true true false
                (member_ab ++ ["L"; "Z"; "I"; "x"; "y"; "z"; "0"]%byte) world0
                ["L"; "Z"; "I"; "x"; "y"; "z"; "0"]%byte 9 _ eq_refl
                (member_ab_then true true _)) as [_ Heq].
    + cbn. lia.
    + reflexivity.
    + reflexivity.
    + rewrite Heq; reflexivity.
Defined.

(** ** Volumes *)

Lemma is_digit_code c :
  is_digit c = true <-> (48 <= nat_of_ascii c <= 57)%nat.
Proof.
  unfold is_digit. rewrite andb_true_iff, !Nat.leb_le. done.
Qed.

Lemma dec_value_snoc ds c :
  dec_value (ds ++ [c]) = 10 * dec_value ds + (Z.of_nat (nat_of_ascii c) - 48).
Proof. unfold dec_value. by rewrite fold_left_app. Qed.

Lemma dec_value_bound ds :
  Forall (fun c => is_digit c = true) ds ->
  0 <= dec_value ds < 10 ^ Z.of_nat (length ds).
Proof.
  induction ds as [|c ds IH] using rev_ind; intros Hd.
  - unfold dec_value. simpl. lia.
  - apply Forall_app in Hd as [Hds Hc]. apply Forall_inv in Hc.
    apply is_digit_code in Hc. specialize (IH Hds).
    rewrite dec_value_snoc, length_app. simpl length.
    replace (Z.of_nat (length ds + 1)) with (Z.succ (Z.of_nat (length ds)))
      by lia.
    rewrite Z.pow_succ_r by lia. lia.
Qed.

(** On the codes below 128, the digits among them, plain [char] reads
    the same signed or not. *)
Lemma char_value_low signed c :
  (nat_of_ascii c < 128)%nat -> char_value signed c = Z.of_nat (nat_of_ascii c).
Proof.
  intros Hc. unfold char_value.
  rewrite (proj2 (Z.leb_gt 128 (Z.of_nat (nat_of_ascii c)))) by lia.
  by rewrite andb_false_r.
Qed.

Lemma increment_char_low i c name :
  (nat_of_ascii c < 255)%nat ->
  increment_char i c name = <[i := ascii_of_nat (S (nat_of_ascii c))]> name.
Proof.
  intros Hc. unfold increment_char.
  destruct (Ascii.eqb_spec (ascii_of_nat (S (nat_of_ascii c))) zero)
    as [Hz|Hz]; [|done].
  apply (f_equal nat_of_ascii) in Hz.
  rewrite nat_ascii_embedding in Hz by lia. done.
Qed.

(** The loop of [next_filename] on [j] digits that end at index [i]:
    it adds one to the number they write, or finds them all nines and
    leaves zeros. *)
Lemma next_filename_loop_spec signed ds :
  forall before after,
  Forall (fun c => is_digit c = true) ds ->
  (exists ds',
     next_filename_loop signed (length ds)
       (Z.of_nat (length before + length ds) - 1) (before ++ ds ++ after) =
       (true, before ++ ds' ++ after) /\
     length ds' = length ds /\
     Forall (fun c => is_digit c = true) ds' /\
     dec_value ds' = dec_value ds + 1) \/
  (next_filename_loop signed (length ds)
     (Z.of_nat (length before + length ds) - 1) (before ++ ds ++ after) =
     (false, before ++ repeat "0"%char (length ds) ++ after) /\
   dec_value ds = 10 ^ Z.of_nat (length ds) - 1).
Proof.
  induction ds as [|c ds IH] using rev_ind; intros before after Hd.
  - right. simpl. split; [done|]. reflexivity.
  - apply Forall_app in Hd as [Hds Hc]. apply Forall_inv in Hc.
    pose proof Hc as Hcode. apply is_digit_code in Hcode.
    rewrite length_app. simpl length.
    replace (length ds + 1)%nat with (S (length ds)) by lia.
    cbn [next_filename_loop].
    replace (Z.to_nat (Z.of_nat (length before + S (length ds)) - 1))
      with (length (before ++ ds) + 0)%nat by (rewrite length_app; lia).
    replace (before ++ (ds ++ [c]) ++ after)
      with ((before ++ ds) ++ c :: after) by (by rewrite <- !app_assoc).
    rewrite lookup_app_r by lia.
    replace (length (before ++ ds) + 0 - length (before ++ ds))%nat
      with 0%nat by lia.
    cbn [lookup list_lookup].
    rewrite increment_char_low by lia.
    rewrite insert_app_r. cbn [insert list_insert].
    rewrite !char_value_low by (change (nat_of_ascii "9") with 57%nat; lia).
    change (Z.of_nat (nat_of_ascii "9")) with 57.
    destruct (Z.of_nat (nat_of_ascii c) <? 57) eqn:Hlt.
    + apply Z.ltb_lt in Hlt. left.
      exists (ds ++ [ascii_of_nat (S (nat_of_ascii c))]).
      assert (nat_of_ascii (ascii_of_nat (S (nat_of_ascii c))) =
              S (nat_of_ascii c)) as Hsucc.
      { apply nat_ascii_embedding. lia. }
      split; [by rewrite <- !app_assoc|].
      split; [rewrite !length_app; simpl; lia|].
      split.
      * apply Forall_app. split; [done|]. apply List.Forall_cons; [|apply List.Forall_nil].
        apply is_digit_code. lia.
      * rewrite !dec_value_snoc, Hsucc. lia.
    + apply Z.ltb_ge in Hlt.
      assert (nat_of_ascii c = 57)%nat as Hnine by lia.
      replace (Z.of_nat (length before + S (length ds)) - 1 - 1)
        with (Z.of_nat (length before + length ds) - 1) by lia.
      rewrite insert_app_r. cbn [insert list_insert].
      replace ((before ++ ds) ++ "0"%char :: after)
        with (before ++ ds ++ "0"%char :: after) by (by rewrite <- !app_assoc).
      destruct (IH before ("0"%char :: after) Hds)
        as [(ds' & Heq & Hlen & Hd' & Hval)|[Heq Hval]].
      * left. exists (ds' ++ ["0"%char]).
        split; [by rewrite Heq, <- !app_assoc|].
        split; [rewrite !length_app; simpl; lia|].
        split.
        -- apply Forall_app. split; [done|]. apply List.Forall_cons; [done|apply List.Forall_nil].
        -- rewrite !dec_value_snoc, Hval, Hnine.
           change (nat_of_ascii "0") with 48%nat. lia.
      * right. rewrite Heq. split.
        -- f_equal. f_equal.
           replace (S (length ds)) with (length ds + 1)%nat by lia.
           rewrite repeat_app. by rewrite <- app_assoc.
        -- rewrite dec_value_snoc, Hval, Hnine.
           replace (Z.of_nat (S (length ds)))
             with (Z.succ (Z.of_nat (length ds))) by lia.
           rewrite Z.pow_succ_r by lia. lia.
Qed.

Lemma list_ascii_of_string_app (a b : string) :
  list_ascii_of_string (a +:+ b) =
  list_ascii_of_string a ++ list_ascii_of_string b.
Proof. induction a as [|c a IH]; simpl; [done|]. by rewrite IH. Qed.

Lemma string_of_list_ascii_app (a b : list ascii) :
  string_of_list_ascii (a ++ b) =
  string_of_list_ascii a +:+ string_of_list_ascii b.
Proof. induction a as [|c a IH]; simpl; [done|]. by rewrite IH. Qed.

(** [next_filename] on a name that ends in five digits and ".lz": the
    number the digits write goes up by one, unless it is 99999. *)
Lemma next_filename_of_counter signed (base : string) (ds : list ascii) :
  length ds = 5%nat ->
  Forall (fun c => is_digit c = true) ds ->
  let name := base +:+ string_of_list_ascii ds +:+ lz_ext in
  (dec_value ds < 99999 ->
   exists ds',
     next_filename_of signed name =
       (true, base +:+ string_of_list_ascii ds' +:+ lz_ext) /\
     length ds' = 5%nat /\
     Forall (fun c => is_digit c = true) ds' /\
     dec_value ds' = dec_value ds + 1) /\
  (dec_value ds = 99999 ->
   next_filename_of signed name = (false, base +:+ "00000" +:+ lz_ext)).
Proof.
  intros Hlen Hd name.
  assert (list_ascii_of_string name =
          list_ascii_of_string base ++ ds ++ list_ascii_of_string lz_ext)
    as Hchars.
  { subst name. by rewrite !list_ascii_of_string_app,
      list_ascii_of_string_of_list_ascii. }
  assert (forall r, next_filename_loop signed (length ds)
            (Z.of_nat (length (list_ascii_of_string base) + length ds) - 1)
            (list_ascii_of_string base ++ ds ++ list_ascii_of_string lz_ext)
            = r ->
          next_filename_of signed name = (r.1, string_of_list_ascii r.2))
    as Hrun.
  { intros r Hr. unfold next_filename_of. rewrite Hchars.
    rewrite !length_app, Hlen. rewrite Hlen in Hr.
    change (length (list_ascii_of_string lz_ext)) with 3%nat.
    change (String.length lz_ext) with 3%nat.
    assert ((Z.of_nat 3 + 5 <=?
             Z.of_nat (length (list_ascii_of_string base) + (5 + 3))) = true)
      as -> by (apply Z.leb_le; lia).
    replace (Z.of_nat (length (list_ascii_of_string base) + (5 + 3)) -
             Z.of_nat 3 - 1)
      with (Z.of_nat (length (list_ascii_of_string base) + 5) - 1) by lia.
    rewrite Hr. by destruct r. }
  destruct (next_filename_loop_spec signed ds (list_ascii_of_string base)
              (list_ascii_of_string lz_ext) Hd)
    as [(ds' & Heq & Hlen' & Hd' & Hval)|[Heq Hval]].
  - split.
    + intros _. exists ds'. split; [|by rewrite Hlen', Hlen].
      rewrite (Hrun _ Heq). cbn [fst snd].
      by rewrite !string_of_list_ascii_app, !string_of_list_ascii_of_string.
    + intros Hmax.
      pose proof (dec_value_bound ds' Hd') as Hb. rewrite Hlen', Hlen in Hb.
      change (10 ^ Z.of_nat 5) with 100000 in Hb. lia.
  - rewrite Hlen in Hval. change (10 ^ Z.of_nat 5 - 1) with 99999 in Hval.
    split; [lia|]. intros _.
    rewrite (Hrun _ Heq). cbn [fst snd]. rewrite Hlen.
    by rewrite !string_of_list_ascii_app, !string_of_list_ascii_of_string.
Qed.

Lemma members_budgeted_size member_size volume_size members :
  0 < volume_size ->
  members_budgeted member_size volume_size members ->
  0 <= members_size members <= volume_size.
Proof.
  intros HV. induction members as [|[budget size] earlier IH]; simpl.
  - lia.
  - intros (Hb & Hs & Hrest). specialize (IH Hrest). lia.
Qed.

Ltac mrun :=
  repeat (munfold; repeat case_match; simplify_eq/=); try done.

Section Frames.

Variable sys : os.
Variable verbosity : Z.
Variable invocation_name : string.

Lemma Pp_show_msg_files msg w :
  files_of (Pp_show_msg verbosity msg w).2 = files_of w.
Proof.
  unfold Pp_show_msg. mrun.
Qed.

Lemma Pp_reset_files w : files_of (Pp_reset w).2 = files_of w.
Proof. unfold Pp_reset. mrun. Qed.

Lemma show_error_files msg errcode help w :
  files_of (show_error sys verbosity invocation_name msg errcode help w).2 =
  files_of w.
Proof. unfold show_error. mrun. Qed.

Lemma show_file_error_files name msg errcode w :
  files_of (show_file_error sys verbosity name msg errcode w).2 = files_of w.
Proof. unfold show_file_error. mrun. Qed.

Lemma show_cprogress_files cfile_size partial_size p data_pos w :
  files_of (show_cprogress sys verbosity cfile_size partial_size p data_pos
              w).2 = files_of w.
Proof.
  unfold show_cprogress, Pp_reset, Pp_show_msg. mrun.
Qed.

End Frames.

Section CompressFacts.

Variable sys : os.
Variable L : Lzip.decls.
Variable E : encoder.
Variable verbosity : Z.
Variable invocation_name : string.
Variable cfile_size member_size volume_size : Z.
Variable in_statsp : bool.
Variable zero : bool.

Lemma close_and_set_permissions_name stats r w w' :
  close_and_set_permissions sys verbosity invocation_name stats w = (r, w') ->
  output_filename w' = output_filename w.
Proof.
  unfold close_and_set_permissions, cleanup_and_fail.
  intros H. repeat (unfold show_error in *; mrun).
Qed.

Abbreviation signed := (plain_char_signed sys).

Lemma next_filename_run w :
  next_filename sys w =
  ((next_filename_of signed (output_filename w)).1,
   with_output_filename (next_filename_of signed (output_filename w)).2 w).
Proof.
  unfold next_filename. munfold.
  by destruct (next_filename_of signed (output_filename w)).
Qed.

Lemma open_outstream_run force protect opened w w' :
  open_outstream sys verbosity force protect w = (opened, w') ->
  output_filename w' = output_filename w /\
  (opened = true -> delete_output_on_interrupt w' = true).
Proof.
  unfold open_outstream. intros H. mrun.
Qed.

Lemma volumes_ok_add_member budget size v vs :
  volumes_ok signed member_size volume_size (v :: vs) ->
  budget = Z.min member_size (volume_size - volume_size_of v) ->
  0 <= size <= budget ->
  volumes_ok signed member_size volume_size (add_member budget size (v :: vs)).
Proof.
  intros [Hb Hn] Hbudget Hsize. split.
  - simpl. apply Forall_cons in Hb as [Hv Hvs].
    apply List.Forall_cons; [|done]. simpl. done.
  - simpl in *. by destruct vs.
Qed.

Abbreviation cmember := (compress_member sys E verbosity invocation_name
                           cfile_size member_size volume_size in_statsp zero).
(** The invariant of the member loop of [compress]. *)
Lemma compress_member_inv st w s w' :
  respects_size E ->
  encoder_keeps_files E ->
  0 < volume_size < 2 ^ 64 ->
  compress_inv signed member_size volume_size st w ->
  cmember st w = (s, w') ->
  oldest_name (volumes (cstep_state s)) = oldest_name (volumes st) /\
  match s with
  | CNext st' => compress_inv signed member_size volume_size st' w'
  | CBreak _ st' | CLeave _ st' =>
      volumes_ok signed member_size volume_size (volumes st')
  end.
Proof.
  intros Hresp (_ & _ & Hkeeps) HV
    (Howned & Hok & v & vs & Hvols & Hname & Hpartial) Hrun.
  pose proof Hok as [Hbudgeted _]. rewrite Hvols in Hbudgeted.
  apply Forall_cons in Hbudgeted as [Hv _].
  pose proof (members_budgeted_size _ _ _ (proj1 HV) Hv) as Hsize.
  fold (volume_size_of v) in Hsize.
  unfold compress_member in Hrun.
  assert ((0 <? volume_size) = true) as Hpos by (apply Z.ltb_lt; lia).
  rewrite Hpos in Hrun.
  assert (wrap64 (volume_size - partial_volume_size st) =
          volume_size - volume_size_of v) as Hleft.
  { unfold wrap64. rewrite Hpartial. apply Z.mod_small. lia. }
  rewrite Hleft in Hrun.
  unfold bind at 1 in Hrun.
  pose proof (show_cprogress_files sys verbosity cfile_size (in_size st) true
                (Mb_data_position E (enc st)) w) as Hframe.
  destruct (show_cprogress _ _ _ _ _ _ w) as [[] w1]. cbn [snd] in Hframe.
  set (size := Z.min member_size (volume_size - volume_size_of v)) in *.
  unfold bind at 1 in Hrun.
  destruct ((if zero then FLZe_encode_member E size (enc st)
             else LZe_encode_member E size (enc st)) w1)
    as [[[m e]|status] w2] eqn:Henc; [|by inversion Hrun; subst; cbn; auto].
  assert (files_of w2 = files_of w1) as Hframe2.
  { apply (Hkeeps size (enc st) w1 (m, e) w2). destruct zero; auto. }
  assert (oldest_name (add_member size (member_position m) (volumes st)) =
          oldest_name (volumes st)) as Hold1.
  { rewrite Hvols. unfold oldest_name. cbn [add_member].
    rewrite !last_cons. destruct (last vs); reflexivity. }
  assert (forall name,
            oldest_name ({| volume_name := name; volume_members := [] |}
                         :: add_member size (member_position m) (volumes st))
            = oldest_name (volumes st)) as Hold3.
  { intros name. rewrite <- Hold1. rewrite Hvols. unfold oldest_name.
    cbn [add_member]. by rewrite last_cons_cons. }
  assert (encoded_ok m = true -> 0 <= member_position m <= size) as Hm.
  { apply (Hresp size (enc st) w1 m e w2). destruct zero; auto. }
  destruct (encoded_ok m) eqn:Hencok; cbn [negb] in Hrun.
  2:{ unfold bind, ret in Hrun.
      destruct (Pp_show_msg _ _ _). by inversion Hrun; subst; cbn; auto. }
  specialize (Hm eq_refl).
  assert (volumes_ok signed member_size volume_size
            (add_member size (member_position m) (volumes st))) as Hok1.
  { rewrite Hvols. by apply volumes_ok_add_member; [rewrite <- Hvols|..]. }
  destruct (data_finished m); [by inversion Hrun; subst; cbn; auto|].
  cbn [partial_volume_size in_size out_size enc volumes] in Hrun.
  assert (wrap64 (partial_volume_size st + member_position m) =
          volume_size_of v + member_position m) as Hsum.
  { unfold wrap64. rewrite Hpartial. apply Z.mod_small. lia. }
  rewrite Hsum in Hrun.
  rewrite Hframe in Hframe2.
  injection Hframe2 as Hname2 _ Howned2 _.
  rewrite Howned in Howned2.
  destruct (wrap64 (volume_size - min_dictionary_size) <=?
            volume_size_of v + member_position m).
  - unfold bind at 1, get at 1 in Hrun.
    rewrite Howned2 in Hrun.
    unfold bind at 1 in Hrun.
    destruct (close_and_set_permissions _ _ _ _ w2) as [closed w3] eqn:Hclose.
    apply close_and_set_permissions_name in Hclose.
    destruct closed as [status|]; [by inversion Hrun; subst; cbn; auto|].
    unfold bind at 1 in Hrun. rewrite next_filename_run in Hrun.
    cbn [fst snd] in Hrun.
    destruct (next_filename_of signed (output_filename w3))
      as [incremented name'] eqn:Hnext.
    cbn [fst snd negb] in Hrun.
    destruct incremented; cbn [negb] in Hrun.
    2:{ unfold bind, ret in Hrun.
        destruct (Pp_show_msg _ _ _). by inversion Hrun; subst; cbn; auto. }
    unfold bind at 1 in Hrun.
    destruct (open_outstream _ _ _ _ _) as [opened w4] eqn:Hopen.
    apply open_outstream_run in Hopen as [Hname4 Howned4].
    cbn [output_filename with_output_filename] in Hname4.
    unfold bind at 1, get at 1 in Hrun.
    assert (volumes_ok signed member_size volume_size
              ({| volume_name := output_filename w4; volume_members := [] |}
               :: add_member size (member_position m) (volumes st)))
      as Hok3.
    { destruct Hok1 as [Hb1 Hn1]. split.
      - apply List.Forall_cons; [done|done].
      - rewrite Hvols in *. cbn [add_member names_chained volume_name].
        split; [|done]. rewrite Hname4.
        replace (volume_name v) with (output_filename w3); [done|].
        by rewrite Hclose, Hname2, Hname. }
    destruct opened; cbn [negb] in Hrun.
    + inversion Hrun; subst s w'. clear Hrun. split; [by apply Hold3|].
      split; [by apply Howned4|]. split; [done|].
      eexists _, _. cbn [volumes]. split; [done|]. done.
    + by inversion Hrun; subst; cbn; auto.
  - inversion Hrun; subst s w'. clear Hrun. split; [done|].
    split; [done|].
    split; [done|]. cbn [volumes partial_volume_size].
    rewrite Hvols. cbn [add_member].
    eexists _, _. split; [done|]. cbn [volume_name].
    split; [by rewrite Hname2|].
    unfold volume_size_of, members_size. cbn. lia.
Qed.

Abbreviation cloop := (compress_loop sys E verbosity invocation_name
                         cfile_size member_size volume_size in_statsp zero).

Lemma compress_loop_volumes fuel :
  forall st w r st' w',
  respects_size E ->
  encoder_keeps_files E ->
  0 < volume_size < 2 ^ 64 ->
  compress_inv signed member_size volume_size st w ->
  cloop fuel st w = (Some (r, st'), w') ->
  oldest_name (volumes st') = oldest_name (volumes st) /\
  volumes_ok signed member_size volume_size (volumes st').
Proof.
  induction fuel as [|fuel IH]; intros st w r st' w' Hresp Hkeeps HV Hinv Hrun;
    [done|].
  cbn [compress_loop] in Hrun. unfold bind at 1 in Hrun.
  destruct (cmember st w) as [s w1] eqn:Hstep.
  destruct (compress_member_inv st w s w1 Hresp Hkeeps HV Hinv Hstep)
    as [Hold Hs].
  destruct s as [retval st1|status st1|st1].
  - by inversion Hrun; subst.
  - by inversion Hrun; subst.
  - destruct (IH st1 w1 r st' w' Hresp Hkeeps HV Hs Hrun) as [Hold' Hok].
    split; [|done]. by rewrite Hold'.
Qed.

Variable encoder_options : Z * Z.

Abbreviation compress' := (compress sys L E verbosity invocation_name
                             cfile_size member_size volume_size in_statsp
                             zero encoder_options).

Lemma compress_volumes fuel data w r vols w' :
  respects_size E ->
  encoder_keeps_files E ->
  0 < volume_size < 2 ^ 64 ->
  delete_output_on_interrupt w = true ->
  compress' fuel data w = (Some (r, vols), w') ->
  volumes_ok signed member_size volume_size vols /\
  (vols = [] \/ oldest_name vols = Some (output_filename w)).
Proof.
  intros Hresp Hkeeps HV Howned. unfold compress.
  unfold bind at 1.
  pose proof (Pp_show_msg_files verbosity None w) as Hframe.
  assert (exists w1, files_of w1 = files_of w /\
            when (1 <=? verbosity) (Pp_show_msg verbosity None) w = (tt, w1))
    as (w1 & Hframe1 & ->).
  { unfold when. destruct (1 <=? verbosity).
    - destruct (Pp_show_msg verbosity None w) as [[] w1]. eauto.
    - by exists w. }
  injection Hframe1 as Hname1 _ Howned1 _.
  destruct encoder_options as [dictionary_size match_len_limit].
  assert (volumes_ok signed member_size volume_size []) as Hnil.
  { split; [apply List.Forall_nil|done]. }
  case_match.
  { unfold internal_error, bind, ret.
    destruct (when _ _ w1). intros H'. inversion H'; subst. auto. }
  unfold bind at 1.
  match goal with
  | |- context [let (_, _) := ?init w1 in _] =>
      destruct (init w1) as [[[e|]|status] w1'] eqn:Hinit
  end.
  2:{ unfold bind, ret. destruct (Pp_show_msg _ _ w1').
      intros H'. inversion H'; subst. auto. }
  2:{ unfold ret. intros H'. inversion H'; subst. auto. }
  assert (files_of w1' = files_of w1) as Hframe1'.
  { destruct Hkeeps as (Hf & Ho & _).
    destruct zero; [by eapply Hf|by eapply Ho]. }
  injection Hframe1' as Hname1' _ Howned1' _.
  unfold bind at 1, get at 1. unfold bind at 1.
  match goal with
  | |- context [compress_loop _ _ _ _ _ _ _ _ _ _ ?st0 w1'] =>
      set (st := st0)
  end.
  destruct (cloop fuel st w1') as [[[r' st']|] w2] eqn:Hloop; [|done].
  assert (compress_inv signed member_size volume_size st w1') as Hinv.
  { split; [by rewrite Howned1', Howned1|]. split.
    - split; [|done]. apply List.Forall_cons; [done|apply List.Forall_nil].
    - by eexists _, _. }
  destruct (compress_loop_volumes fuel st w1' r' st' w2 Hresp Hkeeps HV Hinv
              Hloop) as [Hold Hok].
  assert (oldest_name (volumes st') = Some (output_filename w)) as Hold'.
  { rewrite Hold. subst st. cbn. by rewrite Hname1', Hname1. }
  destruct r' as [retval|status].
  - unfold bind, ret. destruct (when _ _ w2).
    intros H'. inversion H'; subst. auto.
  - unfold ret. intros H'. inversion H'; subst. auto.
Qed.

Lemma volumes_ok_sizes vols v :
  0 < volume_size ->
  volumes_ok signed member_size volume_size vols ->
  v ∈ vols ->
  members_budgeted member_size volume_size (volume_members v) /\
  0 <= volume_size_of v <= volume_size.
Proof.
  intros HV [Hb _] Hin.
  rewrite Forall_forall in Hb. specialize (Hb v Hin).
  split; [done|]. by apply (members_budgeted_size member_size).
Qed.

(** The names of the volumes count up from the name of the first one. *)
Lemma names_chained_counter (base : string) (ds : list ascii) vols :
  length ds = 5%nat ->
  Forall (fun c => is_digit c = true) ds ->
  names_chained signed vols ->
  oldest_name vols = Some (base +:+ string_of_list_ascii ds +:+ lz_ext) ->
  forall i v,
    rev vols !! i = Some v ->
    exists ds',
      volume_name v = base +:+ string_of_list_ascii ds' +:+ lz_ext /\
      length ds' = 5%nat /\
      Forall (fun c => is_digit c = true) ds' /\
      dec_value ds' = dec_value ds + Z.of_nat i.
Proof.
  intros Hlen Hd.
  induction vols as [|later vols IH]; intros Hchain Hold i v Hi; [done|].
  destruct vols as [|earlier vols].
  - destruct i as [|i]; [|done]. simpl in Hi. injection Hi as <-.
    unfold oldest_name in Hold. simpl in Hold. injection Hold as Hname.
    exists ds. split; [done|]. split; [done|]. split; [done|]. lia.
  - destruct Hchain as [Hnext Hchain].
    assert (oldest_name (earlier :: vols) =
            Some (base +:+ string_of_list_ascii ds +:+ lz_ext)) as Hold'.
    { unfold oldest_name in *. by rewrite last_cons_cons in Hold. }
    specialize (IH Hchain Hold').
    change (rev (later :: earlier :: vols))
      with (rev (earlier :: vols) ++ [later]) in Hi.
    apply lookup_app_Some in Hi as [Hi|[Hge Hi]]; [by apply IH|].
    apply list_lookup_singleton_Some in Hi as [Hi <-].
    assert (i = length (rev (earlier :: vols))) as -> by lia.
    clear Hge Hi.
    destruct (IH (length (rev vols)) earlier) as (ds0 & Hn0 & Hl0 & Hd0 & Hv0).
    { simpl. rewrite lookup_app_r by lia.
      by replace (length (rev vols) - length (rev vols))%nat with 0%nat
        by lia. }
    destruct (next_filename_of_counter signed base ds0 Hl0 Hd0)
      as [Hinc Hmax].
    rewrite <- Hn0 in Hinc, Hmax.
    pose proof (dec_value_bound ds0 Hd0) as Hb. rewrite Hl0 in Hb.
    change (10 ^ Z.of_nat 5) with 100000 in Hb.
    destruct (decide (dec_value ds0 = 99999)) as [Hnines|Hless].
    { rewrite (Hmax Hnines) in Hnext. done. }
    destruct Hinc as (ds' & Heq & Hl' & Hd' & Hv'); [lia|].
    rewrite Heq in Hnext. injection Hnext as Hname.
    exists ds'. split; [done|]. split; [done|]. split; [done|].
    rewrite Hv', Hv0. simpl length. rewrite length_app. simpl. lia.
Qed.

Lemma close_and_set_permissions_ok stats w :
  (forall fd w0, close_errno sys fd w0 = 0) ->
  exists w',
    close_and_set_permissions sys verbosity invocation_name stats w =
      (None, w') /\
    output_filename w' = output_filename w /\
    syscalls w' =
      syscalls w ++ Sys_close (outfd w) ::
      (if stats then [Sys_set_attributes (output_filename w)] else []).
Proof.
  intros Hclose. unfold close_and_set_permissions.
  unfold bind at 1, get at 1. unfold bind at 1, get at 1.
  unfold bind at 1, get at 1. unfold bind at 1, get at 1.
  unfold bind at 1, get at 1. rewrite Hclose. cbn [Z.eqb negb].
  unfold show_error.
  destruct stats; mrun; eexists; (split; [done|]); cbn;
    rewrite <- ?app_assoc; done.
Qed.

Lemma open_outstream_syscalls force protect opened w w' :
  open_outstream sys verbosity force protect w = (opened, w') ->
  syscalls w' = syscalls w ++ [Sys_open_out (output_filename w) force].
Proof.
  unfold open_outstream. intros H. mrun.
Qed.

(** What one iteration of the member loop does when the volume at hand
    is full and the output is a file of the run. *)
Lemma compress_member_new_volume st w s w' m e w2 :
  let size := Z.min member_size
                (wrap64 (volume_size - partial_volume_size st)) in
  encoder_keeps_files E ->
  0 < volume_size ->
  (forall fd w0, close_errno sys fd w0 = 0) ->
  (if zero then FLZe_encode_member E size (enc st)
   else LZe_encode_member E size (enc st))
    (show_cprogress sys verbosity cfile_size (in_size st) true
       (Mb_data_position E (enc st)) w).2 = (Return (m, e), w2) ->
  encoded_ok m = true ->
  data_finished m = false ->
  wrap64 (volume_size - min_dictionary_size) <=
    wrap64 (partial_volume_size st + member_position m) ->
  delete_output_on_interrupt w = true ->
  cmember st w = (s, w') ->
  let next := next_filename_of signed (output_filename w) in
  output_filename w' = next.2 /\
  syscalls w' =
    syscalls w ++ Sys_close (outfd w) ::
    (if in_statsp then [Sys_set_attributes (output_filename w)] else []) ++
    (if next.1 then [Sys_open_out next.2 true] else []) /\
  if next.1 then
    exists st',
      (s = CNext st' \/ s = CBreak 1 st') /\
      partial_volume_size st' = 0 /\
      volumes st' =
        {| volume_name := next.2; volume_members := [] |}
        :: add_member size (member_position m) (volumes st) /\
      (s = CNext st' ->
       enc st' = (if zero then FLZe_reset E else LZe_reset E) e /\
       delete_output_on_interrupt w' = true)
  else
    exists st',
      s = CBreak 1 st' /\
      (0 <= verbosity ->
       exists before,
         stderr w' = before ++ [Text ("Too many volume files." +:+ nl)]).
Proof.
  intros size (_ & _ & Hkeeps) HV Hclose Henc Hencok Hfin Hcap Howned Hrun
    next.
  unfold compress_member in Hrun.
  assert ((0 <? volume_size) = true) as Hpos by (apply Z.ltb_lt; lia).
  rewrite Hpos in Hrun. fold size in Hrun.
  unfold bind at 1 in Hrun.
  pose proof (show_cprogress_files sys verbosity cfile_size (in_size st) true
                (Mb_data_position E (enc st)) w) as Hframe.
  destruct (show_cprogress _ _ _ _ _ _ w) as [[] w1].
  cbn [snd] in Hframe, Henc.
  unfold bind at 1 in Hrun. rewrite Henc in Hrun.
  assert (files_of w2 = files_of w1) as Hframe2.
  { apply (Hkeeps size (enc st) w1 (m, e) w2). destruct zero; auto. }
  rewrite Hframe in Hframe2.
  rewrite Hencok, Hfin in Hrun. cbn [negb] in Hrun.
  cbn [partial_volume_size in_size out_size enc volumes] in Hrun.
  apply Z.leb_le in Hcap. rewrite Hcap in Hrun.
  injection Hframe2 as Hname1 Hfd1 Howned1 Hsys1.
  unfold bind at 1, get at 1 in Hrun.
  assert (delete_output_on_interrupt w2 = true) as Howned2
    by (by rewrite Howned1).
  rewrite Howned2 in Hrun. unfold bind at 1 in Hrun.
  destruct (close_and_set_permissions_ok in_statsp w2 Hclose)
    as (w3 & Hc & Hname3 & Hsys3).
  rewrite Hc in Hrun.
  unfold bind at 1 in Hrun. rewrite next_filename_run in Hrun.
  cbn [fst snd] in Hrun.
  assert (output_filename w3 = output_filename w) as Hname3'
    by (by rewrite Hname3).
  rewrite Hname3' in Hrun. fold next in Hrun.
  assert (syscalls w3 =
          syscalls w ++ Sys_close (outfd w) ::
          (if in_statsp then [Sys_set_attributes (output_filename w)]
           else [])) as Hsys3'.
  { rewrite Hsys3. by rewrite Hsys1, Hfd1, Hname1. }
  destruct next as [incremented name'] eqn:Hnext. cbn [fst snd] in *.
  destruct incremented; cbn [negb] in Hrun.
  - unfold bind at 1 in Hrun.
    destruct (open_outstream _ _ _ _ _) as [opened w4] eqn:Hopen.
    pose proof (open_outstream_syscalls _ _ _ _ _ Hopen) as Hsys4.
    apply open_outstream_run in Hopen as [Hname4 Howned4].
    cbn in Hname4, Hsys4.
    unfold bind at 1, get at 1 in Hrun.
    assert (output_filename w' = name' /\ syscalls w' = syscalls w4) as [-> ->].
    { destruct opened; cbn in Hrun; by inversion Hrun; subst. }
    split; [done|]. split; [by rewrite Hsys4, Hsys3', <- app_assoc|].
    destruct opened; cbn [negb] in Hrun; inversion Hrun; subst s w'.
    + eexists. split; [by left|]. cbn. rewrite Hname4. auto.
    + eexists. split; [by right|]. cbn. rewrite Hname4.
      split; [done|]. split; [done|]. intros ?; done.
  - unfold bind at 1 in Hrun.
    pose proof (Pp_show_msg_stderr verbosity "Too many volume files."
                  (with_output_filename name' w3)) as Hmsg.
    pose proof (Pp_show_msg_files verbosity (Some "Too many volume files.")
                  (with_output_filename name' w3)) as Hfiles.
    destruct (Pp_show_msg _ _ _) as [[] w4]. cbn [snd] in *.
    inversion Hrun; subst s w'. clear Hrun.
    injection Hfiles as -> _ _ ->. cbn.
    split; [done|]. split; [by rewrite Hsys3', app_nil_r|].
    eexists. split; [done|].
    intros Hv. rewrite (Hmsg Hv). rewrite app_assoc. eauto.
Qed.

(** C6. With a volume size limit, when the output is a file of the run
    and the encoders keep each member within the size they are given:
    every member was given the smaller of [member_size] and what was left
    of [volume_size] in its volume, so that no volume exceeds
    [volume_size]; whole members only are entered in a volume; the
    volumes are named by counting up the five digits before ".lz". When
    a volume is full, the file is closed, [next_filename] gives the next
    name, the file of that name is opened and the loop goes on with the
    encoder reset, or it ends with 1 and "Too many volume files." when
    [next_filename] fails, which it does exactly on 99999. *)
Theorem volume_files_respect_cap :
  respects_size E ->
  encoder_keeps_files E ->
  0 < volume_size < 2 ^ 64 ->
  (forall fuel data w r vols w' (base : string) (ds : list ascii),
     delete_output_on_interrupt w = true ->
     output_filename w = base +:+ string_of_list_ascii ds +:+ lz_ext ->
     length ds = 5%nat ->
     Forall (fun c => is_digit c = true) ds ->
     compress' fuel data w = (Some (r, vols), w') ->
     (forall v, v ∈ vols ->
        members_budgeted member_size volume_size (volume_members v) /\
        0 <= volume_size_of v <= volume_size) /\
     (forall i v, rev vols !! i = Some v ->
        exists ds',
          volume_name v = base +:+ string_of_list_ascii ds' +:+ lz_ext /\
          length ds' = 5%nat /\
          Forall (fun c => is_digit c = true) ds' /\
          dec_value ds' = dec_value ds + Z.of_nat i)) /\
  (forall st w s w' m e w2,
     let size := Z.min member_size
                   (wrap64 (volume_size - partial_volume_size st)) in
     (forall fd w0, close_errno sys fd w0 = 0) ->
     (if zero then FLZe_encode_member E size (enc st)
      else LZe_encode_member E size (enc st))
       (show_cprogress sys verbosity cfile_size (in_size st) true
          (Mb_data_position E (enc st)) w).2 = (Return (m, e), w2) ->
     encoded_ok m = true ->
     data_finished m = false ->
     wrap64 (volume_size - min_dictionary_size) <=
       wrap64 (partial_volume_size st + member_position m) ->
     delete_output_on_interrupt w = true ->
     cmember st w = (s, w') ->
     let next := next_filename_of (plain_char_signed sys)
                   (output_filename w) in
     output_filename w' = next.2 /\
     syscalls w' =
       syscalls w ++ Sys_close (outfd w) ::
       (if in_statsp then [Sys_set_attributes (output_filename w)] else []) ++
       (if next.1 then [Sys_open_out next.2 true] else []) /\
     if next.1 then
       exists st',
         (s = CNext st' \/ s = CBreak 1 st') /\
         partial_volume_size st' = 0 /\
         volumes st' =
           {| volume_name := next.2; volume_members := [] |}
           :: add_member size (member_position m) (volumes st) /\
         (s = CNext st' ->
          enc st' = (if zero then FLZe_reset E else LZe_reset E) e /\
          delete_output_on_interrupt w' = true)
     else
       exists st',
         s = CBreak 1 st' /\
         (0 <= verbosity ->
          exists before,
            stderr w' = before ++ [Text ("Too many volume files." +:+ nl)])) /\
  (forall (base : string) (ds : list ascii),
     length ds = 5%nat ->
     Forall (fun c => is_digit c = true) ds ->
     (next_filename_of (plain_char_signed sys)
        (base +:+ string_of_list_ascii ds +:+ lz_ext)).1 =
     bool_decide (dec_value ds < 99999)).
Proof.
  intros Hresp Hkeeps HV. split; [|split].
  - intros fuel data w r vols w' base ds Howned Hname Hlen Hd Hrun.
    destruct (compress_volumes fuel data w r vols w' Hresp Hkeeps HV Howned
                Hrun) as [Hok Hold].
    split.
    + intros v Hin. apply (volumes_ok_sizes vols v); [lia|done..].
    + intros i v Hi. destruct Hold as [->|Hold]; [by destruct i|].
      rewrite Hname in Hold. destruct Hok as [_ Hchain].
      by apply (names_chained_counter base ds vols).
  - intros st w s w' m e w2 size Hclose Henc Hencok Hfin Hcap Howned Hrun.
    apply (compress_member_new_volume st w s w' m e w2); [done|lia|done..].
  - intros base ds Hlen Hd.
    destruct (next_filename_of_counter signed base ds Hlen Hd)
      as [Hinc Hmax].
    pose proof (dec_value_bound ds Hd) as Hb. rewrite Hlen in Hb.
    change (10 ^ Z.of_nat 5) with 100000 in Hb.
    destruct (decide (dec_value ds < 99999)) as [Hlt|Hge].
    + destruct (Hinc Hlt) as (ds' & -> & _). cbn.
      symmetry. by apply bool_decide_eq_true.
    + rewrite Hmax by lia. cbn. symmetry. by apply bool_decide_eq_false.
Qed.

End CompressFacts.

Lemma stored_encoder_respects_size : respects_size Sample.stored_encoder.
Proof.
  intros size st w m st' w' Hrun Hok.
  assert (Sample.stored_encode_member size st w = (Return (m, st'), w'))
    as Heq by (by destruct Hrun).
  unfold Sample.stored_encode_member, ret in Heq. injection Heq as <- _ _.
  cbn in *. apply Z.leb_le in Hok. lia.
Qed.

Lemma stored_encoder_keeps_files : encoder_keeps_files Sample.stored_encoder.
Proof.
  split; [|split].
  - intros data w r w' H. cbn in H. unfold ret in H. by injection H as _ <-.
  - intros ds mll data w r w' H. cbn in H. unfold ret in H.
    by injection H as _ <-.
  - intros size st w r w' H.
    assert (Sample.stored_encode_member size st w = (Return r, w')) as Heq
      by (by destruct H).
    unfold Sample.stored_encode_member, ret in Heq. by injection Heq as _ <-.
Qed.

(** 2000 bytes compressed with a member size of 4100 and a volume size
    of 4120 by the stand-in encoder: eight volumes. *)
Lemma volume_files_respect_cap_witness :
  exists r vols w',
    compress Sample.quiet_os Sample.lzip_h Sample.stored_encoder 0 "clzip" 0
      4100 4120 true false (8388608, 36) 100 (repeat "a"%byte 2000)
      Sample.world1 = (Some (r, vols), w') /\
    length vols = 8%nat /\
    forall v, v ∈ vols -> 0 <= volume_size_of v <= 4120.
Proof.
  destruct (compress Sample.quiet_os Sample.lzip_h Sample.stored_encoder 0
              "clzip" 0 4100 4120 true false (8388608, 36) 100
              (repeat "a"%byte 2000) Sample.world1)
    as [[[r vols]|] w'] eqn:Hrun; [|by vm_compute in Hrun].
  exists r, vols, w'. split; [done|]. split.
  - vm_compute in Hrun. by inversion Hrun.
  - destruct (volume_files_respect_cap Sample.quiet_os Sample.lzip_h
                Sample.stored_encoder 0 "clzip" 0 4100 4120 true false
                (8388608, 36) stored_encoder_respects_size
                stored_encoder_keeps_files) as [Hvols _].
    + lia.
    + destruct (Hvols 100%nat (repeat "a"%byte 2000) Sample.world1 r vols w'
                  "out"%string ["0"; "0"; "0"; "0"; "1"]%char)
        as [Hsizes _]; [done|done|done| |done|].
      * repeat constructor.
      * intros v Hin. by apply Hsizes.
Defined.

(** ** Options *)

Lemma bind_same_run {A B : Type} (m1 m2 : M A) (k : A -> M B) w :
  m1 w = m2 w -> bind m1 k w = bind m2 k w.
Proof. unfold bind. by intros ->. Qed.

Section OptionFacts.

Variable sys : os.
Variable invocation_name : string.

Abbreviation option' := (Main.process_option sys invocation_name).
Abbreviation options' := (Main.process_options sys invocation_name).

Lemma process_option_threads a l w :
  is_option "n" a = true -> option' a l w = (Return l, w).
Proof.
  unfold is_option. intros Hn. apply Z.eqb_eq in Hn.
  unfold Main.process_option. rewrite Hn. reflexivity.
Qed.

Lemma without_threads_non_options args :
  forallb (fun b => Main.code b =? 0) args = true ->
  without_threads args = args.
Proof.
  induction args as [|a args IH]; [done|]. simpl.
  intros [Ha Hargs]%andb_true_iff. apply Z.eqb_eq in Ha.
  unfold is_option. rewrite Ha. cbn. by rewrite IH.
Qed.

Lemma process_options_without_threads args :
  forall l w,
  options_first args = true ->
  options' (without_threads args) l w = options' args l w.
Proof.
  induction args as [|a args IH]; intros l w Hfirst; [done|].
  cbn [options_first] in Hfirst.
  destruct (Main.code a =? 0) eqn:Hcode.
  - apply Z.eqb_eq in Hcode.
    rewrite without_threads_non_options; [done|].
    simpl. rewrite Hfirst. by rewrite Hcode.
  - cbn [without_threads List.filter].
    destruct (is_option "n" a) eqn:Hn; cbn [negb].
    + fold (without_threads args). rewrite IH by done.
      cbn [Main.process_options]. rewrite Hcode. unfold bind.
      by rewrite process_option_threads.
    + fold (without_threads args).
      cbn [Main.process_options]. rewrite Hcode. unfold bind.
      destruct (option' a l w) as [[l'|status] w']; [|done].
      by apply IH.
Qed.

End OptionFacts.

(** C8. Two parsed command lines that differ only in options -n (their
    presence or their arguments) behave alike: [main] ends with the same
    status in the same state, whatever the files, the operating system
    and the codec do. *)
Theorem threads_option_ignored sys C invocation_name args1 args2 w :
  options_first args1 = true ->
  options_first args2 = true ->
  without_threads args1 = without_threads args2 ->
  (forall l w0,
     Main.process_options sys invocation_name args1 l w0 =
     Main.process_options sys invocation_name args2 l w0) /\
  Main.main sys C invocation_name args1 w =
  Main.main sys C invocation_name args2 w.
Proof.
  intros H1 H2 Heq.
  assert (forall l w0,
            Main.process_options sys invocation_name args1 l w0 =
            Main.process_options sys invocation_name args2 l w0) as Hopts.
  { intros l w0.
    rewrite <- (process_options_without_threads sys invocation_name args1)
      by done.
    rewrite <- (process_options_without_threads sys invocation_name args2)
      by done.
    by rewrite Heq. }
  split; [done|]. unfold Main.main. apply bind_same_run, Hopts.
Qed.

(** The command lines "-9 -n 4 file" and "-n 8 -9 file". *)
Lemma threads_option_ignored_witness :
  let a9 := {| Main.code := Main.chr "9"; Main.argument := "" |} in
  let n4 := {| Main.code := Main.chr "n"; Main.argument := "4" |} in
  let n8 := {| Main.code := Main.chr "n"; Main.argument := "8" |} in
  let file := {| Main.code := 0; Main.argument := "file" |} in
  Main.main Sample.quiet_os Sample.codecs "clzip" [a9; n4; file]
    Sample.world0 =
  Main.main Sample.quiet_os Sample.codecs "clzip" [n8; a9; file]
    Sample.world0.
Proof.
  intros a9 n4 n8 file.
  apply (threads_option_ignored Sample.quiet_os Sample.codecs "clzip"
           [a9; n4; file] [n8; a9; file] Sample.world0);
    vm_compute; reflexivity.
Defined.

Section EncoderChoice.

Variable sys : os.
Variable invocation_name : string.

Abbreviation option' := (Main.process_option sys invocation_name).
Abbreviation options' := (Main.process_options sys invocation_name).

Lemma process_option_level a l w :
  is_level a = true ->
  option' a l w =
  (Return (Main.set_level (Main.code a =? Main.chr "0")
             (default Main.default_options
                (Main.option_mapping !!
                   Z.to_nat (Main.code a - Main.chr "0"))) l), w).
Proof.
  unfold is_level, Main.process_option. by intros ->.
Qed.

(** An option other than a level option leaves [zero] alone or clears
    it; other than a level option and -m, it leaves the match length
    limit alone; other than a level option and -s, the dictionary size. *)
Lemma process_option_other a l w l' w' :
  is_level a = false ->
  option' a l w = (Return l', w') ->
  (Main.zero l' = Main.zero l \/
   Main.zero l' = false /\ (is_option "m" a = true \/ is_option "s" a = true))
  /\
  (is_option "m" a = false ->
   Main.match_len_limit (Main.encoder_options l') =
   Main.match_len_limit (Main.encoder_options l)) /\
  (is_option "s" a = false ->
   Main.dictionary_size (Main.encoder_options l') =
   Main.dictionary_size (Main.encoder_options l)).
Proof.
  unfold is_level, is_option. intros Hlevel Hrun.
  unfold Main.process_option in Hrun. rewrite Hlevel in Hrun.
  repeat match type of Hrun with
  | context [if Main.code a =? ?c then _ else _] =>
      destruct (Main.code a =? c) eqn:?
  end.
  all: unfold Main.set_mode, Main.with_number, Main.show_help,
         Main.show_version, internal_error in Hrun.
  all: try (munfold; repeat case_match; simplify_eq/=; by auto).
  - unfold bind, ret in Hrun.
    destruct (Main.getnum _ _ _ _ _ _ w) as [[n|status] w2];
      simplify_eq/=; (split; [auto|split; [done|auto]]).
  - unfold bind, ret in Hrun.
    destruct (Main.get_dict_size _ _ _ _ w) as [[n|status] w2];
      simplify_eq/=; (split; [auto|split; [auto|done]]).
Qed.

Lemma process_options_app pre :
  forall l0 w l1 w1 args,
  options' pre l0 w = (Return (l1, []), w1) ->
  options' (pre ++ args) l0 w = options' args l1 w1.
Proof.
  induction pre as [|a pre IH]; intros l0 w l1 w1 args Hpre.
  - by inversion Hpre.
  - cbn [Main.process_options app] in *.
    destruct (Main.code a =? 0); [by inversion Hpre|].
    unfold bind in *.
    destruct (option' a l0 w) as [[l'|status] w']; [|by inversion Hpre].
    by apply IH.
Qed.

Lemma process_options_other post :
  forall l w l' rest w',
  forallb (fun a => negb (is_level a)) post = true ->
  options' post l w = (Return (l', rest), w') ->
  (Main.zero l = false -> Main.zero l' = false) /\
  (forallb (fun a => negb (is_option "m" a)) post = true ->
   Main.match_len_limit (Main.encoder_options l') =
   Main.match_len_limit (Main.encoder_options l)) /\
  (forallb (fun a => negb (is_option "s" a)) post = true ->
   Main.dictionary_size (Main.encoder_options l') =
   Main.dictionary_size (Main.encoder_options l)).
Proof.
  induction post as [|a post IH]; intros l w l' rest w' Hlevels Hrun.
  - by inversion Hrun.
  - cbn [forallb] in Hlevels.
    apply andb_true_iff in Hlevels as [Hlevel Hlevels].
    apply negb_true_iff in Hlevel.
    cbn [Main.process_options] in Hrun.
    destruct (Main.code a =? 0); [by inversion Hrun|].
    unfold bind in Hrun.
    destruct (option' a l w) as [[l1|status] w1] eqn:Hstep;
      [|by inversion Hrun].
    destruct (process_option_other a l w l1 w1 Hlevel Hstep)
      as (Hzero & Hm & Hs).
    destruct (IH l1 w1 l' rest w' Hlevels Hrun) as (Hzero' & Hm' & Hs').
    split; [|split].
    + intros Hz. apply Hzero'. destruct Hzero as [->|[-> _]]; done.
    + cbn [forallb]. intros [Ha Hpost]%andb_true_iff.
      apply negb_true_iff in Ha. rewrite (Hm' Hpost). by apply Hm.
    + cbn [forallb]. intros [Ha Hpost]%andb_true_iff.
      apply negb_true_iff in Ha. rewrite (Hs' Hpost). by apply Hs.
Qed.

Lemma process_options_fast_again post :
  forall l w l' rest w',
  Main.zero l = false ->
  options' post l w = (Return (l', rest), w') ->
  Main.zero l' = true ->
  exists a, a ∈ post /\ Main.code a = Main.chr "0".
Proof.
  induction post as [|a post IH]; intros l w l' rest w' Hzero Hrun Hfast.
  - inversion Hrun; subst. congruence.
  - cbn [Main.process_options] in Hrun.
    destruct (Main.code a =? 0); [inversion Hrun; subst; congruence|].
    unfold bind in Hrun.
    destruct (option' a l w) as [[l1|status] w1] eqn:Hstep;
      [|by inversion Hrun].
    destruct (Main.code a =? Main.chr "0") eqn:Hcode.
    { exists a. split; [apply list_elem_of_here|]. by apply Z.eqb_eq. }
    assert (Main.zero l1 = false) as Hzero1.
    { destruct (is_level a) eqn:Hlevel.
      - rewrite process_option_level in Hstep by done.
        inversion Hstep; subst. cbn. done.
      - destruct (process_option_other a l w l1 w1 Hlevel Hstep)
          as ([->|[-> _]] & _); done. }
    destruct (IH l1 w1 l' rest w' Hzero1 Hrun Hfast) as (b & Hin & Hb).
    exists b. split; [by apply list_elem_of_further|done].
Qed.

End EncoderChoice.

Lemma bind_same_cont {A B : Type} (m : M A) (k1 k2 : A -> M B) w :
  (forall a w', k1 a w' = k2 a w') -> bind m k1 w = bind m k2 w.
Proof. unfold bind. intros H. by destruct (m w). Qed.

Lemma process_option_m sys invocation_name a l w :
  is_option "m" a = true ->
  Main.process_option sys invocation_name a l w =
  let (r, w') :=
    Main.getnum sys invocation_name (Main.verbosity l) (Main.argument a)
      min_match_len_limit max_match_len w in
  (Main.with_number r (fun n => Main.set_match_len_limit n l), w').
Proof.
  unfold is_option. intros Hc. apply Z.eqb_eq in Hc.
  unfold Main.process_option. rewrite Hc. reflexivity.
Qed.

Lemma process_option_s sys invocation_name a l w :
  is_option "s" a = true ->
  Main.process_option sys invocation_name a l w =
  let (r, w') :=
    Main.get_dict_size sys invocation_name (Main.verbosity l)
      (Main.argument a) w in
  (Main.with_number r (fun n => Main.set_dictionary_size n l), w').
Proof.
  unfold is_option. intros Hc. apply Z.eqb_eq in Hc.
  unfold Main.process_option. rewrite Hc. reflexivity.
Qed.

(** ** The driver *)

Section DriverFacts.

Variable sys : os.
Variable C : Main.codecs.
Variable invocation_name : string.
Variable l : Main.locals.
Variable filenames_given : bool.

Abbreviation run_codec' := (Main.run_codec sys C invocation_name l).
Abbreviation call_codec' := (Main.call_codec sys C l).
Abbreviation close_input' := (Main.close_input sys l).
Abbreviation main_file' := (Main.main_file sys C invocation_name l
                              filenames_given).
Abbreviation main_files' := (Main.main_files sys C invocation_name l
                               filenames_given).

Lemma main_files_Continue filename filenames st w st' w' :
  main_file' filename st w = (Main.Continue st', w') ->
  main_files' (filename :: filenames) st w = main_files' filenames st' w'.
Proof.
  intros H. cbn [Main.main_files]. unfold bind. by rewrite H.
Qed.

Lemma main_files_Finish filename filenames st w status st' w' :
  main_file' filename st w = (Main.Finish status st', w') ->
  main_files' (filename :: filenames) st w = (Main.Finish status st', w').
Proof.
  intros H. cbn [Main.main_files]. unfold bind. by rewrite H.
Qed.

Lemma cleanup_and_fail_run {A : Type} verbosity retval w :
  exists w',
    cleanup_and_fail (A := A) sys verbosity invocation_name retval w =
      (Exit retval, w') /\
    if delete_output_on_interrupt w then
      syscalls w' =
        syscalls w ++
        (if 0 <=? outfd w then [Sys_close (outfd w)] else []) ++
        [Sys_remove (output_filename w)] /\
      delete_output_on_interrupt w' = false
    else w' = w.
Proof.
  unfold cleanup_and_fail, show_error.
  destruct (delete_output_on_interrupt w) eqn:Howned.
  - mrun; eexists; (split; [done|]); cbn in *; rewrite <- ?app_assoc;
      try done; congruence.
  - mrun; eexists; split; reflexivity.
Qed.

Lemma close_input_result infd tmp w :
  (close_input' infd tmp w).1 =
  if close_errno sys infd w =? 0 then tmp else set_retval tmp 1.
Proof.
  unfold Main.close_input, show_file_error. mrun.
Qed.

Lemma set_retval_max a b : set_retval a b = Z.max a b.
Proof. unfold set_retval. case_match; lia. Qed.

Lemma one_to_one_not_test :
  Main.program_mode l = Main.m_test -> Main.one_to_one l = false.
Proof.
  unfold Main.one_to_one. intros ->. cbn. by rewrite andb_false_r.
Qed.

(** A failure in test mode: the end of the iteration. *)
Lemma run_codec_failure_test name infd st w tmp w1 tmp' w2 :
  Main.program_mode l = Main.m_test ->
  call_codec' name infd w = (Return tmp, w1) ->
  close_input' infd tmp w1 = (tmp', w2) ->
  tmp' <> 0 ->
  run_codec' name infd st w =
  (Main.Continue
     {| Main.retval := set_retval (Main.retval st) tmp';
        Main.failed_tests := Main.failed_tests st + 1;
        Main.stdin_used := Main.stdin_used st;
        Main.removed := Main.removed st;
        Main.given := name :: Main.given st |}, w2).
Proof.
  intros Hmode Hcall Hclose Htmp. unfold Main.run_codec.
  unfold bind at 1. rewrite Hcall. unfold bind at 1. rewrite Hclose.
  assert ((tmp' =? 0) = false) as -> by (by apply Z.eqb_neq).
  unfold Main.removes_input.
  rewrite (one_to_one_not_test Hmode), Hmode.
  rewrite !(bool_decide_eq_true_2 (Main.m_test = Main.m_test)) by done.
  cbn [negb andb]. unfold bind, get, ret.
  by rewrite !andb_false_r.
Qed.

(** A failure in another mode: the end of the process. *)
Lemma run_codec_failure_other name infd st w tmp w1 tmp' w2 :
  Main.program_mode l <> Main.m_test ->
  call_codec' name infd w = (Return tmp, w1) ->
  close_input' infd tmp w1 = (tmp', w2) ->
  tmp' <> 0 ->
  run_codec' name infd st w =
  (Main.Finish (set_retval (Main.retval st) tmp')
     {| Main.retval := set_retval (Main.retval st) tmp';
        Main.failed_tests := Main.failed_tests st;
        Main.stdin_used := Main.stdin_used st;
        Main.removed := Main.removed st;
        Main.given := name :: Main.given st |},
   (cleanup_and_fail (A := unit) sys (Main.verbosity l) invocation_name
      (set_retval (Main.retval st) tmp') w2).2).
Proof.
  intros Hmode Hcall Hclose Htmp. unfold Main.run_codec.
  unfold bind at 1. rewrite Hcall. unfold bind at 1. rewrite Hclose.
  assert ((tmp' =? 0) = false) as -> by (by apply Z.eqb_neq).
  rewrite (bool_decide_eq_false_2 (Main.program_mode l = Main.m_test))
    by done.
  cbn [negb andb]. unfold bind, ret.
  by destruct (cleanup_and_fail _ _ _ _ w2).
Qed.

Lemma close_and_set_permissions_status stats status w w' :
  forall verbosity,
  close_and_set_permissions sys verbosity invocation_name stats w =
    (Some status, w') ->
  status = 1.
Proof.
  intros verbosity. unfold close_and_set_permissions, cleanup_and_fail.
  intros H. repeat (unfold show_error in *; mrun).
Qed.

(** How an iteration ends once the input has been handed to the codec. *)
Lemma run_codec_cases name infd st w s w' :
  run_codec' name infd st w = (s, w') ->
  Main.given (Main.fstep_state s) = name :: Main.given st /\
  Main.stdin_used (Main.fstep_state s) = Main.stdin_used st /\
  ((exists status w1,
      call_codec' name infd w = (Exit status, w1) /\
      s = Main.Finish status
            {| Main.retval := Main.retval st;
               Main.failed_tests := Main.failed_tests st;
               Main.stdin_used := Main.stdin_used st;
               Main.removed := Main.removed st;
               Main.given := name :: Main.given st |}) \/
   (exists tmp w1 tmp' w2,
      call_codec' name infd w = (Return tmp, w1) /\
      close_input' infd tmp w1 = (tmp', w2) /\
      Main.retval (Main.fstep_state s) = set_retval (Main.retval st) tmp' /\
      Main.failed_tests (Main.fstep_state s) =
        Main.failed_tests st +
        (if negb (tmp' =? 0) &&
            bool_decide (Main.program_mode l = Main.m_test)
         then 1 else 0) /\
      (Main.removed (Main.fstep_state s) = Main.removed st \/
       Main.removed (Main.fstep_state s) = name :: Main.removed st /\
       Main.removes_input l name = true /\ tmp' = 0 /\
       exists st', s = Main.Continue st') /\
      match s with
      | Main.Finish status _ =>
          status = set_retval (Main.retval st) tmp' /\ tmp' <> 0 /\
          Main.program_mode l <> Main.m_test \/
          status = 1
      | Main.Continue _ => tmp' = 0 \/ Main.program_mode l = Main.m_test
      end)).
Proof.
  unfold Main.run_codec. unfold bind at 1.
  destruct (call_codec' name infd w) as [[tmp|status] w1] eqn:Hcall.
  2:{ intros H. inversion H; subst. cbn. split; [done|]. split; [done|].
      left. eauto. }
  unfold bind at 1.
  destruct (close_input' infd tmp w1) as [tmp' w2] eqn:Hclose.
  destruct (tmp' =? 0) eqn:Htmp; cbn [negb andb].
  - apply Z.eqb_eq in Htmp. subst tmp'.
    unfold bind at 1, get at 1. unfold bind at 1.
    match goal with
    | |- context [(if ?c then ?m else ret None) ?w0] =>
        destruct ((if c then m else ret None) w0) as [[status|] w3] eqn:Hperm
    end.
    + intros H. inversion H; subst. cbn -[set_retval].
      split; [done|]. split; [done|]. right.
      exists tmp, w1, 0, w2. split; [done|]. split; [done|].
      split; [done|]. split; [cbn; lia|]. split; [by left|].
      right. case_match; [|by inversion Hperm].
      by apply close_and_set_permissions_status in Hperm.
    + destruct (Main.removes_input l name) eqn:Hrm.
      * unfold bind, ret, do_syscall, modify.
        intros H. inversion H; subst. cbn -[set_retval].
        split; [done|]. split; [done|]. right.
        exists tmp, w1, 0, w2. split; [done|]. split; [done|].
        split; [done|]. split; [cbn; lia|]. split; [|by left].
        right. eauto.
      * unfold ret. intros H. inversion H; subst. cbn -[set_retval].
        split; [done|]. split; [done|]. right.
        exists tmp, w1, 0, w2. split; [done|]. split; [done|].
        split; [done|]. split; [cbn; lia|]. split; [by left|]. by left.
  - apply Z.eqb_neq in Htmp. intros Hrun.
    assert (run_codec' name infd st w = (s, w')) as Hrun'.
    { unfold Main.run_codec. unfold bind at 1. rewrite Hcall.
      unfold bind at 1. rewrite Hclose.
      apply Z.eqb_neq in Htmp. by rewrite Htmp. }
    clear Hrun.
    destruct (decide (Main.program_mode l = Main.m_test)) as [Hmode|Hmode].
    + rewrite (run_codec_failure_test name infd st w tmp w1 tmp' w2 Hmode
                 Hcall Hclose Htmp) in Hrun'.
      injection Hrun' as <- <-. cbn -[set_retval].
      split; [done|]. split; [done|]. right.
      exists tmp, w1, tmp', w2. split; [done|]. split; [done|].
      split; [done|]. split.
      { apply Z.eqb_neq in Htmp. rewrite Htmp.
        by rewrite bool_decide_eq_true_2. }
      split; [by left|]. by right.
    + rewrite (run_codec_failure_other name infd st w tmp w1 tmp' w2 Hmode
                 Hcall Hclose Htmp) in Hrun'.
      injection Hrun' as <- <-. cbn -[set_retval].
      split; [done|]. split; [done|]. right.
      exists tmp, w1, tmp', w2. split; [done|]. split; [done|].
      split; [done|]. split.
      { rewrite bool_decide_eq_false_2 by done.
        rewrite andb_false_r. lia. }
      split; [by left|]. by left.
Qed.

Lemma check_tty_in_result verbosity name infd mode retval w r w' :
  Main.check_tty_in sys invocation_name verbosity name infd mode retval w =
    (r, w') ->
  match r with
  | Exit status => status = set_retval retval 1
  | Return (false, retval') => retval' = set_retval retval 1
  | Return (true, retval') => retval' = retval
  end.
Proof.
  unfold Main.check_tty_in. unfold bind at 1, get at 1.
  case_match.
  - unfold bind at 1.
    destruct (show_file_error _ _ _ _ _ _) as [[] w1].
    unfold bind at 1.
    destruct (do_syscall _ w1) as [[] w2].
    case_match.
    + destruct (cleanup_and_fail_run (A := bool * Z) verbosity
                  (set_retval retval 1) w2) as (w3 & -> & _).
      by intros [= <- <-].
    + by intros [= <- <-].
  - by intros [= <- <-].
Qed.

Lemma prepare_output_cases filename name infd st0 st w s w' :
  Main.prepare_output sys C invocation_name l filenames_given name infd st0 w
    = (s, w') ->
  (name = filename \/ name = "") ->
  Main.retval st0 = Main.retval st ->
  Main.failed_tests st0 = Main.failed_tests st ->
  Main.removed st0 = Main.removed st ->
  Main.given st0 = Main.given st ->
  given_to_codec sys C invocation_name l filename st s w' \/ not_given st s.
Proof.
  intros Hrun Hname Hr Hf Hrm Hg.
  assert (forall w0, run_codec' name infd st0 w0 = (s, w') ->
                     given_to_codec sys C invocation_name l filename st s w')
    as Hgiven.
  { intros w0 Hc. by exists name, infd, st0, w0. }
  unfold Main.prepare_output in Hrun. unfold bind at 1 in Hrun.
  match type of Hrun with
  | context [(if Main.one_to_one l then ?m else ret true) w] =>
      destruct ((if Main.one_to_one l then m else ret true) w)
        as [tty_ok w1]
  end.
  destruct tty_ok; cbn [negb] in Hrun.
  2:{ injection Hrun as <- <-. right.
      exists (set_retval (Main.retval st) 1). cbn -[set_retval].
      rewrite Hr. auto 10. }
  unfold bind at 1, get at 1 in Hrun.
  case_match; [|by eauto].
  unfold bind at 1 in Hrun.
  match type of Hrun with
  | context [(if ?c then ?m1 else ?m2) w1] =>
      destruct ((if c then m1 else m2) w1) as [[] w2]
  end.
  unfold bind at 1 in Hrun.
  destruct (open_outstream _ _ _ _ w2) as [opened w3].
  unfold bind at 1 in Hrun.
  match type of Hrun with
  | context [(if opened then ?m else ret false) w3] =>
      destruct ((if opened then m else ret false) w3) as [tty_ok w4]
  end.
  case_match; [|by eauto].
  injection Hrun as <- <-. right.
  exists (Main.retval st). cbn. auto 10.
Qed.

Lemma main_file_cases filename st w s w' :
  main_file' filename st w = (s, w') ->
  given_to_codec sys C invocation_name l filename st s w' \/ not_given st s.
Proof.
  unfold Main.main_file. unfold bind at 1.
  destruct (Main.Pp_set_name filename w) as [[] w1].
  unfold bind at 1, get at 1.
  assert (not_given st (Main.Continue st)) as Hsame.
  { exists (Main.retval st). cbn. auto 10. }
  assert (not_given st
            (Main.Continue
               (Main.with_retval (set_retval (Main.retval st) 1) st)))
    as Hmerged.
  { exists (set_retval (Main.retval st) 1). cbn. auto 10. }
  case_match.
  - case_match; [intros [= <- <-]; by right|].
    unfold bind at 1.
    destruct (Main.check_tty_in _ _ _ _ _ _ _ w1) as [[[[] r]|status] w2]
      eqn:Htty; apply check_tty_in_result in Htty; cbn in Htty.
    + unfold bind at 1.
      destruct (when _ _ w2) as [[] w3].
      intros Hrun.
      apply (prepare_output_cases filename _ _ _ st) in Hrun; cbn; auto.
    + intros [= <- <-]. right.
      exists (set_retval (Main.retval st) 1). cbn -[set_retval].
      subst r. auto 10.
    + intros [= <- <-]. right.
      exists (set_retval (Main.retval st) 1). cbn -[set_retval].
      subst status. auto 10.
  - unfold bind at 1.
    destruct (Main.open_instream2 _ _ _ _ _ _ _ w1) as [infd w2].
    case_match; [intros [= <- <-]; by right|].
    unfold bind at 1.
    destruct (Main.check_tty_in _ _ _ _ _ _ _ w2) as [[[[] r]|status] w3]
      eqn:Htty; apply check_tty_in_result in Htty; cbn in Htty.
    + case_match.
      * unfold bind at 1.
        match goal with
        | |- context [(if ?c then ?m1 else ?m2) w3] =>
            destruct ((if c then m1 else m2) w3) as [[] w4]
        end.
        unfold bind at 1.
        destruct (open_outstream _ _ _ _ w4) as [opened w5].
        destruct opened; cbn [negb].
        -- intros Hrun.
           apply (prepare_output_cases filename _ _ _ st) in Hrun; cbn; auto.
        -- unfold bind, ret. destruct (do_syscall _ w5).
           intros [= <- <-]. by right.
      * intros Hrun.
        apply (prepare_output_cases filename _ _ _ st) in Hrun; cbn; auto.
    + intros [= <- <-]. right.
      exists (set_retval (Main.retval st) 1). cbn -[set_retval].
      subst r. auto 10.
    + intros [= <- <-]. right.
      exists (set_retval (Main.retval st) 1). cbn -[set_retval].
      subst status. auto 10.
Qed.

Lemma removes_input_spec name :
  Main.removes_input l name = true <->
  name <> "" /\ Main.keep_input_files l = false /\
  Main.one_to_one l = true /\
  (Main.program_mode l <> Main.m_compress \/ Main.volume_size l = 0).
Proof.
  unfold Main.removes_input.
  rewrite !andb_true_iff, orb_true_iff, !negb_true_iff,
    !bool_decide_eq_false, Z.eqb_eq. tauto.
Qed.

Lemma close_input_zero infd tmp w :
  (close_input' infd tmp w).1 = 0 -> tmp = 0.
Proof.
  rewrite close_input_result. case_match; [done|].
  rewrite set_retval_max. lia.
Qed.

Lemma close_input_nonzero infd tmp w :
  tmp <> 0 -> (close_input' infd tmp w).1 <> 0.
Proof.
  rewrite close_input_result. case_match; [done|].
  rewrite set_retval_max. lia.
Qed.

(** What one iteration does to the variables of the loop. *)
Lemma main_file_state filename st w s w' :
  main_file' filename st w = (s, w') ->
  let st' := Main.fstep_state s in
  (Main.removed st' = Main.removed st \/
   Main.removed st' = filename :: Main.removed st /\
   Main.removes_input l filename = true /\
   exists infd w0 w1, call_codec' filename infd w0 = (Return 0, w1)) /\
  match s with
  | Main.Continue _ =>
      Main.retval st <= Main.retval st' /\
      Main.failed_tests st <= Main.failed_tests st'
  | Main.Finish _ _ => True
  end.
Proof.
  intros Hrun st'. subst st'.
  destruct (main_file_cases filename st w s w' Hrun) as [Hgiven|Hnot].
  - destruct Hgiven as (name & infd & st0 & w0 & Hcodec & Hname & Hr & Hf &
                        Hrm & Hg).
    destruct (run_codec_cases name infd st0 w0 s w' Hcodec)
      as (_ & _ & [(status & w1 & Hcall & ->)|Hcases]).
    { cbn. split; [by left|done]. }
    destruct Hcases as (tmp & w1 & tmp' & w2 & Hcall & Hclose & Hretval &
                        Hfailed & Hremoved & Hs).
    split.
    + destruct Hremoved as [Hsame|(Hcons & Hremoves & Hzero & _)].
      * left. by rewrite Hsame.
      * right. pose proof Hremoves as Hnamed.
        apply removes_input_spec in Hnamed as [Hnamed _].
        destruct Hname as [->|Hempty]; [|done].
        split; [by rewrite Hcons, Hrm|]. split; [done|].
        exists infd, w0, w1. rewrite Hcall. do 2 f_equal.
        apply (close_input_zero infd tmp w1). by rewrite Hclose.
    + destruct s; [|done]. cbn in *.
      rewrite Hretval, Hfailed, Hr, Hf, set_retval_max.
      split; [lia|]. case_match; lia.
  - destruct Hnot as (r & Hr & Hretval & Hfailed & Hremoved & Hgiven & Hs).
    split; [by left|].
    destruct s; [|done]. cbn in *. rewrite Hretval.
    split; [|lia]. destruct Hr as [->| ->]; [lia|].
    rewrite set_retval_max. lia.
Qed.

Lemma main_files_state filenames :
  forall st w s w',
  main_files' filenames st w = (s, w') ->
  let st' := Main.fstep_state s in
  (forall name,
     name ∈ Main.removed st' ->
     name ∈ Main.removed st \/
     name ∈ filenames /\ Main.removes_input l name = true /\
     exists infd w0 w1, call_codec' name infd w0 = (Return 0, w1)) /\
  match s with
  | Main.Continue _ =>
      Main.retval st <= Main.retval st' /\
      Main.failed_tests st <= Main.failed_tests st'
  | Main.Finish _ _ => True
  end.
Proof.
  induction filenames as [|filename filenames IH]; intros st w s w' Hrun.
  - injection Hrun as <- <-. cbn. split; [by auto|lia].
  - cbn [Main.main_files] in Hrun. unfold bind in Hrun.
    destruct (main_file' filename st w) as [s1 w1] eqn:Hfile.
    destruct (main_file_state filename st w s1 w1 Hfile) as [Hrm Hmono].
    assert (forall name,
              name ∈ Main.removed (Main.fstep_state s1) ->
              name ∈ Main.removed st \/
              name ∈ filename :: filenames /\
              Main.removes_input l name = true /\
              exists infd w0 w2, call_codec' name infd w0 = (Return 0, w2))
      as Hstep.
    { intros name Hin. destruct Hrm as [Hsame|(Hcons & Hremoves & Hcall)].
      - left. by rewrite <- Hsame.
      - rewrite Hcons in Hin. apply elem_of_cons in Hin as [->|Hin].
        + right. split; [apply list_elem_of_here|done].
        + by left. }
    destruct s1 as [st1|status st1].
    + destruct (IH st1 w1 s w' Hrun) as [Hrm' Hmono'].
      split.
      * intros name Hin.
        destruct (Hrm' name Hin) as [Hin1|(Hin1 & Hrest)].
        -- by apply Hstep.
        -- right. split; [by apply list_elem_of_further|done].
      * destruct s; [|done]. cbn in *. lia.
    + injection Hrun as <- <-. split; [done|done].
Qed.

Lemma finish_main_status filenames st w :
  let status := (Main.finish_main sys invocation_name l filenames st w).1 in
  status = Main.retval st \/ status = set_retval (Main.retval st) 1 \/
  status = 1.
Proof.
  intros status.
  destruct (Main.finish_main sys invocation_name l filenames st w)
    as [r w'] eqn:Hrun.
  subst status. cbn [fst]. revert Hrun.
  unfold Main.finish_main. unfold bind at 1, get at 1.
  unfold bind at 1, get at 1. unfold bind at 1, get at 1. unfold bind at 1.
  destruct (delete_output_on_interrupt w) eqn:Howned.
  - destruct (close_and_set_permissions _ _ _ _ w) as [[status|] w1] eqn:Hc.
    + apply close_and_set_permissions_status in Hc as ->.
      intros [= <- <-]. auto.
    + unfold bind, ret. destruct (when _ _ w1). intros [= <- <-]. auto.
  - match goal with
    | |- context [(if ?c then ?m1 else ?m2) w] =>
        destruct ((if c then m1 else m2) w) as [closed w1] eqn:Hc
    end.
    assert (closed = None \/ closed = Some (set_retval (Main.retval st) 1))
      as Hclosed.
    { revert Hc. case_match.
      - unfold bind, ret. destruct (do_syscall _ w) as [[] w2].
        destruct (show_error _ _ _ _ _ _ w2). intros [= <- <-]. auto.
      - unfold bind, ret. destruct (when _ _ w). intros [= <- <-]. auto. }
    unfold bind, ret.
    destruct Hclosed as [->| ->]; destruct (when _ _ w1);
      intros [= <- <-]; auto.
Qed.

End DriverFacts.

(** ** From the head of the loop over the files to the codec *)

Section LoopFacts.

Variable sys : os.
Variable C : Main.codecs.
Variable invocation_name : string.
Variable l : Main.locals.
Variable filenames_given : bool.

Abbreviation run_codec' := (Main.run_codec sys C invocation_name l).
Abbreviation call_codec' := (Main.call_codec sys C l).
Abbreviation close_input' := (Main.close_input sys l).
Abbreviation main_file' := (Main.main_file sys C invocation_name l
                              filenames_given).
Abbreviation main_files' := (Main.main_files sys C invocation_name l
                               filenames_given).

Lemma open_outstream_opened verbosity force protect fd w :
  open_out sys (output_filename w) force w = Opened fd ->
  open_outstream sys verbosity force protect w =
  (true, output_opened force fd w).
Proof.
  intros Hopen. unfold open_outstream, output_opened. munfold.
  by rewrite Hopen.
Qed.

Lemma open_instream2_ready filename infd w :
  input_ready sys l filename infd w ->
  Main.open_instream2 sys (Main.verbosity l) filename (Main.program_mode l)
    (Main.extension_index filename) (Main.one_to_one l) (Main.recompress l) w
  = (infd, w).
Proof.
  intros (_ & _ & Hskip & Hopen & _ & Hfstat & Hmode & _).
  unfold Main.open_instream2.
  assert (bool_decide (Main.program_mode l = Main.m_compress) &&
          negb (Main.recompress l) &&
          (0 <=? Main.extension_index filename) = false) as ->.
  { case_bool_decide as Hm; [|done]. cbn [andb].
    destruct (Hskip Hm) as [->|Hext]; [done|].
    rewrite (proj2 (Z.leb_gt 0 (Main.extension_index filename))) by lia.
    by rewrite andb_false_r. }
  unfold Main.open_instream. munfold.
  by rewrite Hopen, Hfstat, Hmode.
Qed.

Lemma check_tty_in_ready filename name infd retval w :
  input_ready sys l filename infd w ->
  Main.check_tty_in sys invocation_name (Main.verbosity l) name infd
    (Main.program_mode l) retval w = (Return (true, retval), w).
Proof.
  intros (_ & _ & _ & _ & _ & _ & _ & Htty).
  unfold Main.check_tty_in. munfold. rewrite Htty.
  by rewrite andb_false_r.
Qed.

Lemma check_tty_out_ready w :
  (Main.program_mode l = Main.m_compress ->
   isatty sys (outfd w) w = false) ->
  Main.check_tty_out sys (Main.verbosity l) (Main.program_mode l) w =
  (true, w).
Proof.
  intros Htty. unfold Main.check_tty_out. munfold.
  case_bool_decide as Hm; [|done]. by rewrite (Htty Hm).
Qed.

(** The way of a named file from the head of an iteration to the call
    of the codec. *)
Lemma main_file_ready filename infd st w w0 :
  ready sys l filenames_given filename infd w w0 ->
  main_file' filename st w = run_codec' filename infd st w0.
Proof.
  unfold ready. cbv zeta. intros [Hin Hout].
  pose proof Hin as (_ & Hdash & _ & _ & Hfd & _).
  unfold Main.main_file. unfold bind at 1.
  destruct (Main.Pp_set_name filename w) as [[] w1]. cbn [snd] in *.
  unfold bind at 1, get at 1.
  rewrite (bool_decide_eq_false_2 (filename = "-")) by done.
  unfold bind at 1. rewrite (open_instream2_ready filename infd w1 Hin).
  rewrite (proj2 (Z.ltb_ge infd 0)) by lia.
  unfold bind at 1.
  rewrite (check_tty_in_ready filename (pp_name (pp w1)) infd
             (Main.retval st) w1 Hin).
  unfold output_named in Hout.
  destruct (Main.one_to_one l) eqn:H121; cbn [orb] in Hout.
  - destruct Hout as (fd & Hopen & -> & Htty).
    unfold bind at 1.
    match goal with
    | |- context [let (_, _) := ?m w1 in _] =>
        destruct (m w1) as [[] w2]
    end.
    cbn [snd] in *. unfold bind at 1.
    rewrite (open_outstream_opened _ _ _ fd w2 Hopen). cbn [negb].
    unfold Main.prepare_output. rewrite H121.
    unfold bind at 1. rewrite check_tty_out_ready by done. cbn [negb].
    unfold bind at 1, get at 1.
    assert (Main.to_file l = false) as ->.
    { unfold Main.one_to_one in H121.
      apply andb_true_iff in H121 as [_ H121].
      by apply negb_true_iff in H121. }
    done.
  - unfold Main.prepare_output. rewrite H121.
    unfold bind at 1, ret at 1. cbn [negb].
    unfold bind at 1, get at 1.
    destruct (Main.to_file l && (outfd w1 <? 0)); [|by subst w0].
    destruct Hout as (fd & Hopen & -> & Htty).
    unfold bind at 1.
    match goal with
    | |- context [let (_, _) := ?m w1 in _] =>
        destruct (m w1) as [[] w2]
    end.
    cbn [snd] in *. unfold bind at 1.
    rewrite (open_outstream_opened _ _ _ fd w2 Hopen).
    unfold bind at 1. rewrite check_tty_out_ready by done.
    done.
Qed.


Lemma close_input_ok infd tmp w :
  close_errno sys infd w = 0 ->
  close_input' infd tmp w =
  (tmp, with_syscalls (syscalls w ++ [Sys_close infd]) w).
Proof.
  intros Hclose. unfold Main.close_input. munfold. by rewrite Hclose.
Qed.

Lemma close_input_syscalls infd tmp w :
  syscalls (close_input' infd tmp w).2 = syscalls w ++ [Sys_close infd] /\
  output_filename (close_input' infd tmp w).2 = output_filename w /\
  outfd (close_input' infd tmp w).2 = outfd w /\
  delete_output_on_interrupt (close_input' infd tmp w).2 =
    delete_output_on_interrupt w.
Proof.
  unfold Main.close_input, show_file_error. munfold. cbn.
  destruct (close_errno sys infd w =? 0); cbn;
    by destruct (0 <=? Main.verbosity l).
Qed.

(** The end of an iteration on which the codec has returned 0, when
    closing does not fail: the system calls made. *)
Lemma run_codec_success name infd st w w1 :
  call_codec' name infd w = (Return 0, w1) ->
  (forall fd w0, close_errno sys fd w0 = 0) ->
  exists st' w',
    run_codec' name infd st w = (Main.Continue st', w') /\
    Main.retval st' = set_retval (Main.retval st) 0 /\
    Main.failed_tests st' = Main.failed_tests st /\
    syscalls w' =
      syscalls w1 ++ [Sys_close infd] ++
      (if delete_output_on_interrupt w1 && Main.one_to_one l then
         Sys_close (outfd w1) ::
         (if negb (bool_decide (name = "")) && Main.one_to_one l
          then [Sys_set_attributes (output_filename w1)] else [])
       else []) ++
      (if Main.removes_input l name then [Sys_remove name] else []).
Proof.
  intros Hcall Hclose. unfold Main.run_codec.
  unfold bind at 1. rewrite Hcall. unfold bind at 1.
  rewrite close_input_ok by apply Hclose. cbn [Z.eqb negb andb].
  unfold bind at 1, get at 1.
  cbn [delete_output_on_interrupt with_syscalls].
  set (w2 := with_syscalls (syscalls w1 ++ [Sys_close infd]) w1).
  unfold bind at 1.
  destruct (delete_output_on_interrupt w1 && Main.one_to_one l) eqn:Hown.
  - destruct (close_and_set_permissions_ok sys (Main.verbosity l)
                invocation_name
                (negb (bool_decide (name = "")) && Main.one_to_one l) w2
                Hclose) as (w3 & -> & Hname3 & Hsys3).
    destruct (Main.removes_input l name).
    + unfold bind, ret, do_syscall, modify. do 2 eexists.
      split; [reflexivity|]. cbn. split; [done|]. split; [done|].
      rewrite Hsys3. cbn. rewrite <- ?app_assoc. done.
    + unfold ret. do 2 eexists. split; [reflexivity|]. cbn.
      split; [done|]. split; [done|].
      rewrite Hsys3. cbn. rewrite ?app_nil_r, <- ?app_assoc. done.
  - unfold ret at 1.
    destruct (Main.removes_input l name).
    + unfold bind, ret, do_syscall, modify. do 2 eexists.
      split; [reflexivity|]. cbn. split; [done|]. split; [done|].
      rewrite <- ?app_assoc. done.
    + unfold ret. do 2 eexists. split; [reflexivity|]. cbn.
      split; [done|]. split; [done|]. rewrite ?app_nil_r. done.
Qed.

(** C10. The input file is removed by [main] itself, as the last thing
    in an iteration on which the codec has returned 0. For a named file
    that [main] hands to the codec, when closing does not fail, the
    system calls that follow the return of the codec are: closing the
    input; closing the output file and setting its attributes, in a
    one-to-one run that owns it; and removing the input exactly when
    [removes_input] holds, after which the loop goes on with the files
    left. [removes_input] holds exactly for a named file, with --keep
    not given, in a one-to-one run that does not compress or has no
    volume size; so that when compressing with a volume size no input
    file is removed. *)
Theorem input_kept_with_volumes :
  (forall filename filenames infd st w w0 w1,
     ready sys l filenames_given filename infd w w0 ->
     call_codec' filename infd w0 = (Return 0, w1) ->
     (forall fd w2, close_errno sys fd w2 = 0) ->
     exists st' w',
       main_files' (filename :: filenames) st w =
         main_files' filenames st' w' /\
       Main.retval st' = set_retval (Main.retval st) 0 /\
       Main.failed_tests st' = Main.failed_tests st /\
       syscalls w' =
         syscalls w1 ++ [Sys_close infd] ++
         (if delete_output_on_interrupt w1 && Main.one_to_one l then
            [Sys_close (outfd w1); Sys_set_attributes (output_filename w1)]
          else []) ++
         (if Main.removes_input l filename then [Sys_remove filename]
          else [])) /\
  (forall filename,
     Main.removes_input l filename = true <->
     filename <> "" /\ Main.keep_input_files l = false /\
     Main.one_to_one l = true /\
     (Main.program_mode l <> Main.m_compress \/ Main.volume_size l = 0)) /\
  (Main.program_mode l = Main.m_compress ->
   0 < Main.volume_size l ->
   forall filename, Main.removes_input l filename = false).
Proof.
  split; [|split].
  - intros filename filenames infd st w w0 w1 Hready Hcall Hclose.
    destruct (run_codec_success filename infd st w0 w1 Hcall Hclose)
      as (st' & w' & Hrun & Hret & Hfailed & Hsys).
    exists st', w'. split; [|split; [done|split; [done|]]].
    + apply main_files_Continue.
      by rewrite (main_file_ready filename infd st w w0 Hready).
    + rewrite Hsys. destruct Hready as [(Hnamed & _) _].
      rewrite (bool_decide_eq_false_2 (filename = "")) by done.
      cbn [negb andb].
      destruct (Main.one_to_one l); [done|].
      by rewrite andb_false_r.
  - apply removes_input_spec.
  - intros Hmode Hvol filename.
    destruct (Main.removes_input l filename) eqn:Hrm; [|done].
    apply removes_input_spec in Hrm as (_ & _ & _ & [Hm|Hv]); [done|lia].
Qed.

(** C7. A file on which the codec returns a failure ([tmp] is not 0),
    for a named file that [main] hands to the codec. In test mode the
    loop goes on with the files left: the failure is merged into
    [retval], [failed_tests] goes up by one, and nothing was done to
    files but closing the input; [retval] never goes down in the loop,
    so that [main] ends with a non-zero status. In the other modes the
    loop over the files ends there, whatever files are left: the process
    ends through [cleanup_and_fail] with [retval] as its status, and the
    output file is closed and removed exactly when the run has one of
    its own. *)
Theorem failure_policy :
  (forall filename filenames infd st w w0 tmp w1,
     Main.program_mode l = Main.m_test ->
     ready sys l filenames_given filename infd w w0 ->
     call_codec' filename infd w0 = (Return tmp, w1) ->
     tmp <> 0 ->
     exists tmp' w2,
       close_input' infd tmp w1 = (tmp', w2) /\ tmp' <> 0 /\
       syscalls w2 = syscalls w1 ++ [Sys_close infd] /\
       main_files' (filename :: filenames) st w =
       main_files' filenames
         {| Main.retval := set_retval (Main.retval st) tmp';
            Main.failed_tests := Main.failed_tests st + 1;
            Main.stdin_used := Main.stdin_used st;
            Main.removed := Main.removed st;
            Main.given := filename :: Main.given st |} w2) /\
  (forall filenames st w st' w',
     main_files' filenames st w = (Main.Continue st', w') ->
     Main.retval st <= Main.retval st' /\
     Main.failed_tests st <= Main.failed_tests st' /\
     (0 < Main.retval st ->
      0 < (Main.finish_main sys invocation_name l filenames st' w').1)) /\
  (forall filename filenames infd st w w0 tmp w1,
     Main.program_mode l <> Main.m_test ->
     ready sys l filenames_given filename infd w w0 ->
     call_codec' filename infd w0 = (Return tmp, w1) ->
     tmp <> 0 ->
     exists tmp' w2 w',
       close_input' infd tmp w1 = (tmp', w2) /\ tmp' <> 0 /\
       main_files' (filename :: filenames) st w =
       (Main.Finish (set_retval (Main.retval st) tmp')
          {| Main.retval := set_retval (Main.retval st) tmp';
             Main.failed_tests := Main.failed_tests st;
             Main.stdin_used := Main.stdin_used st;
             Main.removed := Main.removed st;
             Main.given := filename :: Main.given st |}, w') /\
       if delete_output_on_interrupt w1 then
         syscalls w' =
           syscalls w1 ++ [Sys_close infd] ++
           (if 0 <=? outfd w1 then [Sys_close (outfd w1)] else []) ++
           [Sys_remove (output_filename w1)] /\
         delete_output_on_interrupt w' = false
       else w' = w2).
Proof.
  split; [|split].
  - intros filename filenames infd st w w0 tmp w1 Hmode Hready Hcall Htmp.
    destruct (close_input' infd tmp w1) as [tmp' w2] eqn:Hclose.
    assert (tmp' <> 0) as Htmp'.
    { pose proof (close_input_nonzero sys l infd tmp w1 Htmp) as Hnz.
      by rewrite Hclose in Hnz. }
    exists tmp', w2. split; [done|]. split; [done|]. split.
    { pose proof (close_input_syscalls infd tmp w1) as [Hsys _].
      by rewrite Hclose in Hsys. }
    apply main_files_Continue.
    rewrite (main_file_ready filename infd st w w0 Hready).
    by apply (run_codec_failure_test sys C invocation_name l filename infd st
                w0 tmp w1).
  - intros filenames st w st' w' Hrun.
    destruct (main_files_state sys C invocation_name l filenames_given
                filenames st w _ w' Hrun) as [_ [Hr Hf]].
    cbn in Hr, Hf. split; [done|]. split; [done|].
    intros Hpos.
    destruct (finish_main_status sys invocation_name l filenames st' w')
      as [->|[->| ->]];
      rewrite ?set_retval_max; lia.
  - intros filename filenames infd st w w0 tmp w1 Hmode Hready Hcall Htmp.
    destruct (close_input' infd tmp w1) as [tmp' w2] eqn:Hclose.
    assert (tmp' <> 0) as Htmp'.
    { pose proof (close_input_nonzero sys l infd tmp w1 Htmp) as Hnz.
      by rewrite Hclose in Hnz. }
    destruct (cleanup_and_fail_run sys invocation_name (A := unit)
                (Main.verbosity l) (set_retval (Main.retval st) tmp') w2)
      as (w' & Hfail & Hw').
    exists tmp', w2, w'. split; [done|]. split; [done|]. split.
    + apply main_files_Finish.
      rewrite (main_file_ready filename infd st w w0 Hready).
      rewrite (run_codec_failure_other sys C invocation_name l filename infd
                 st w0 tmp w1 tmp' w2); try done.
      by rewrite Hfail.
    + pose proof (close_input_syscalls infd tmp w1)
        as (Hsys & Hname & Hfd & Hown).
      rewrite Hclose in Hsys, Hname, Hfd, Hown. cbn [snd] in *.
      rewrite Hown in Hw'.
      destruct (delete_output_on_interrupt w1); [|done].
      destruct Hw' as [Hsys' Hown']. split; [|done].
      by rewrite Hsys', Hsys, Hfd, Hname, <- !app_assoc.
Qed.

End LoopFacts.

(** The options -S 100000 on the file "data": the volume "data00001.lz"
    is written and closed, and "data" is kept; without the volume size
    it is removed. *)
Lemma input_kept_with_volumes_witness :
  let l := Main.set_volume_size 100000 Main.initial_locals in
  let st := {| Main.retval := 0; Main.failed_tests := 0;
               Main.stdin_used := false; Main.removed := [];
               Main.given := [] |} in
  (exists st' w',
     Main.main_files quiet_os codecs "clzip" l true ["data"] st world0 =
       (Main.Continue st', w') /\
     syscalls w' =
       [Sys_open_out "data00001.lz" false; Sys_close 4; Sys_close 3;
        Sys_set_attributes "data00001.lz"]) /\
  Main.removes_input l "data" = false /\
  syscalls (Main.main quiet_os codecs "clzip" [file "data"] world0).2 =
    [Sys_open_out "data.lz" false; Sys_close 4; Sys_close 3;
     Sys_set_attributes "data.lz"; Sys_remove "data"].
Proof.
  intros l st.
  destruct (input_kept_with_volumes quiet_os codecs "clzip" l true)
    as (Hsuccess & _ & Hkept).
  split; [|split; [by apply Hkept|vm_compute; reflexivity]].
  set (w0 := output_opened false 3
               (output_named l true "data"
                  (Main.Pp_set_name "data" world0).2)).
  destruct (Main.call_codec quiet_os codecs l "data" 4 w0) as [r w1]
    eqn:Hcall.
  pose proof Hcall as Hcall'. vm_compute in Hcall'.
  injection Hcall' as <- <-.
  assert (ready quiet_os l true "data" 4 world0 w0) as Hready.
  { split.
    - repeat split; try done. intros _. right. vm_compute. reflexivity.
    - exists 3. repeat split; done. }
  destruct (Hsuccess "data"%string [] 4 st world0 w0 _ Hready Hcall
              ltac:(done)) as (st' & w' & Hrun & _ & _ & Hsys).
  exists st', w'. split; [exact Hrun|]. rewrite Hsys. reflexivity.
Defined.

(** The member of version 2 before a good one: "-t v2.lz good.lz" goes
    on to the second file and ends with status 2 and one failed test;
    "-d v2.lz good.lz" ends at the first, with status 2, and removes the
    output file "v2" that it had created. *)
Lemma failure_policy_witness :
  let test := Main.set_program_mode Main.m_test Main.initial_locals in
  let decompress :=
    Main.set_program_mode Main.m_decompress Main.initial_locals in
  let st := {| Main.retval := 0; Main.failed_tests := 0;
               Main.stdin_used := false; Main.removed := [];
               Main.given := [] |} in
  (exists w2,
     Main.main_files quiet_os codecs "clzip" test true ["v2.lz"; "good.lz"]
       st world0 =
     Main.main_files quiet_os codecs "clzip" test true ["good.lz"]
       {| Main.retval := 2; Main.failed_tests := 1;
          Main.stdin_used := false; Main.removed := [];
          Main.given := ["v2.lz"] |} w2) /\
  (exists st' w',
     Main.main_files quiet_os codecs "clzip" decompress true
       ["v2.lz"; "good.lz"] st world0 = (Main.Finish 2 st', w') /\
     Main.given st' = ["v2.lz"] /\
     syscalls w' =
       [Sys_open_out "v2" false; Sys_close 4; Sys_close 3; Sys_remove "v2"]) /\
  let run := Main.main quiet_os codecs "clzip"
               [arg "t" ""; file "v2.lz"; file "good.lz"] world0 in
  run.1.1 = 2 /\
  (Main.failed_tests <$> run.1.2) = Some 1 /\
  (Main.given <$> run.1.2) = Some ["good.lz"; "v2.lz"].
Proof.
  intros test decompress st.
  split; [|split; [|vm_compute; by repeat split]].
  - destruct (failure_policy quiet_os codecs "clzip" test true)
      as (Htest & _).
    set (w0 := (Main.Pp_set_name "v2.lz" world0).2).
    destruct (Main.call_codec quiet_os codecs test "v2.lz" 4 w0) as [r w1]
      eqn:Hcall.
    pose proof Hcall as Hcall'. vm_compute in Hcall'.
    injection Hcall' as <- <-.
    assert (ready quiet_os test true "v2.lz" 4 world0 w0) as Hready.
    { split; [|reflexivity]. repeat split; done. }
    destruct (Htest "v2.lz"%string ["good.lz"%string] 4 st world0 w0 2 _
                eq_refl Hready Hcall ltac:(done))
      as (tmp' & w2 & Hclose & _ & _ & Hrun).
    vm_compute in Hclose. injection Hclose as <- <-.
    eexists. exact Hrun.
  - destruct (failure_policy quiet_os codecs "clzip" decompress true)
      as (_ & _ & Hother).
    set (w0 := output_opened false 3
                 (output_named decompress true "v2.lz"
                    (Main.Pp_set_name "v2.lz" world0).2)).
    destruct (Main.call_codec quiet_os codecs decompress "v2.lz" 4 w0)
      as [r w1] eqn:Hcall.
    pose proof Hcall as Hcall'. vm_compute in Hcall'.
    injection Hcall' as <- <-.
    assert (ready quiet_os decompress true "v2.lz" 4 world0 w0) as Hready.
    { split.
      - repeat split; done.
      - exists 3. repeat split; done. }
    destruct (Hother "v2.lz"%string ["good.lz"%string] 4 st world0 w0 2 _
                ltac:(done) Hready Hcall ltac:(done))
      as (tmp' & w2 & w' & Hclose & _ & Hrun & Hremoved).
    vm_compute in Hclose. injection Hclose as <- <-.
    cbn in Hremoved. destruct Hremoved as [Hsys _].
    eexists _, _. split; [exact Hrun|]. split; [reflexivity|exact Hsys].
Defined.

(** ** The encoder that a run uses *)

Section SameCodecs.

Variable sys : os.
Variable C C' : Main.codecs.
Variable invocation_name : string.
Variable l : Main.locals.
Variable filenames_given : bool.

(** [C] and [C'] agree where [compress] is called with the encoder
    options and the value of [zero] that the options have set, and
    wherever [decompress] is called. *)
Hypothesis same_compress :
  forall verbosity cfile_size member_size volume_size input in_statsp w,
    Main.compress_file C verbosity cfile_size member_size volume_size input
      (Main.encoder_options l) in_statsp (Main.zero l) w =
    Main.compress_file C' verbosity cfile_size member_size volume_size input
      (Main.encoder_options l) in_statsp (Main.zero l) w.
Hypothesis same_decompress :
  forall verbosity cfile_size input ignore_trailing loose_trailing testing w,
    Main.decompress_file C verbosity cfile_size input ignore_trailing
      loose_trailing testing w =
    Main.decompress_file C' verbosity cfile_size input ignore_trailing
      loose_trailing testing w.

Lemma call_codec_same name infd w :
  Main.call_codec sys C l name infd w = Main.call_codec sys C' l name infd w.
Proof.
  unfold Main.call_codec. munfold. case_match; [apply same_compress|].
  apply same_decompress.
Qed.

Lemma run_codec_same name infd st w :
  Main.run_codec sys C invocation_name l name infd st w =
  Main.run_codec sys C' invocation_name l name infd st w.
Proof.
  unfold Main.run_codec. apply bind_same_run. apply call_codec_same.
Qed.

Lemma prepare_output_same name infd st w :
  Main.prepare_output sys C invocation_name l filenames_given name infd st w =
  Main.prepare_output sys C' invocation_name l filenames_given name infd st w.
Proof.
  unfold Main.prepare_output.
  apply bind_same_cont. intros tty_ok w1.
  destruct (negb tty_ok); [done|].
  apply bind_same_cont. intros fd w2.
  destruct (Main.to_file l && (fd <? 0)); [|apply run_codec_same].
  apply bind_same_cont. intros [] w3.
  apply bind_same_cont. intros opened w4.
  apply bind_same_cont. intros tty_ok' w5.
  destruct (negb opened || negb tty_ok'); [done|apply run_codec_same].
Qed.

Lemma main_file_same filename st w :
  Main.main_file sys C invocation_name l filenames_given filename st w =
  Main.main_file sys C' invocation_name l filenames_given filename st w.
Proof.
  unfold Main.main_file.
  apply bind_same_cont. intros [] w1.
  apply bind_same_cont. intros name w2.
  case_bool_decide.
  - destruct (Main.stdin_used st); [done|].
    apply bind_same_cont. intros [[[] retval]|status] w3; [|done..].
    apply bind_same_cont. intros [] w4. apply prepare_output_same.
  - apply bind_same_cont. intros infd w3.
    destruct (infd <? 0); [done|].
    apply bind_same_cont. intros [[[] retval]|status] w4; [|done..].
    destruct (Main.one_to_one l); [|apply prepare_output_same].
    apply bind_same_cont. intros [] w5.
    apply bind_same_cont. intros opened w6.
    destruct (negb opened); [done|apply prepare_output_same].
Qed.

Lemma main_files_same filenames :
  forall st w,
  Main.main_files sys C invocation_name l filenames_given filenames st w =
  Main.main_files sys C' invocation_name l filenames_given filenames st w.
Proof.
  induction filenames as [|filename filenames IH]; intros st w; [done|].
  cbn [Main.main_files]. unfold bind. rewrite main_file_same.
  destruct (Main.main_file _ _ _ _ _ filename st w) as [[st1|status st1] w1];
    [apply IH|done].
Qed.

End SameCodecs.

Lemma apply_overrides_encoder l :
  Main.encoder_options (Main.apply_overrides l) = Main.encoder_options l /\
  Main.zero (Main.apply_overrides l) = Main.zero l.
Proof.
  unfold Main.apply_overrides. by repeat case_match.
Qed.

Lemma bind_same_at {A B : Type} (m : M A) (k1 k2 : A -> M B) w a w' :
  m w = (a, w') -> k1 a w' = k2 a w' -> bind m k1 w = bind m k2 w.
Proof. unfold bind. by intros ->. Qed.

(** [main] with codecs that agree on what it calls. *)
Lemma main_same sys C C' invocation_name args w l rest w1 :
  Main.process_options sys invocation_name args Main.initial_locals w =
    (Return (l, rest), w1) ->
  (forall verbosity filenames ignore_trailing loose_trailing w0,
     Main.list_files C verbosity filenames ignore_trailing loose_trailing w0 =
     Main.list_files C' verbosity filenames ignore_trailing loose_trailing
       w0) ->
  (forall verbosity cfile_size member_size volume_size input in_statsp w0,
     Main.compress_file C verbosity cfile_size member_size volume_size input
       (Main.encoder_options l) in_statsp (Main.zero l) w0 =
     Main.compress_file C' verbosity cfile_size member_size volume_size input
       (Main.encoder_options l) in_statsp (Main.zero l) w0) ->
  (forall verbosity cfile_size input ignore_trailing loose_trailing testing
          w0,
     Main.decompress_file C verbosity cfile_size input ignore_trailing
       loose_trailing testing w0 =
     Main.decompress_file C' verbosity cfile_size input ignore_trailing
       loose_trailing testing w0) ->
  Main.main sys C invocation_name args w =
  Main.main sys C' invocation_name args w.
Proof.
  intros Hopts Hlist Hc Hd. unfold Main.main.
  apply (bind_same_at _ _ _ _ _ _ Hopts).
  destruct (bool_decide (Main.program_mode l = Main.m_list)).
  { apply bind_same_run. apply Hlist. }
  destruct (_ && _ && _ && _ && _); [done|].
  destruct (apply_overrides_encoder l) as [Hopt Hzero].
  apply bind_same_cont. intros [] w2.
  apply bind_same_cont. intros tty_ok w3.
  destruct (negb tty_ok); [done|].
  apply bind_same_cont. intros [] w4.
  apply bind_same_run. apply main_files_same; [|done].
  rewrite Hopt, Hzero. exact Hc.
Qed.

Section OptimalOnly.

Variable sys : os.
Variable L : Lzip.decls.
Variable E : encoder.
Variable init : list byte -> M (outcome (option (encoder_state E))).
Variable encode :
  Z -> encoder_state E -> M (outcome (encoded * encoder_state E)).
Variable reset : encoder_state E -> encoder_state E.
Variable other :
  Z -> Z -> list byte -> M (outcome (option (encoder_state E))).
Variable verbosity : Z.
Variable invocation_name : string.
Variable cfile_size member_size volume_size : Z.
Variable in_statsp : bool.
Variable dictionary_size match_len_limit : Z.

Abbreviation E' :=
  (only_optimal_at (header_dictionary_size L dictionary_size) match_len_limit
     E init encode reset other).

Lemma compress_loop_optimal_only fuel st w :
  compress_loop sys E' verbosity invocation_name cfile_size member_size
    volume_size in_statsp false fuel st w =
  compress_loop sys E verbosity invocation_name cfile_size member_size
    volume_size in_statsp false fuel st w.
Proof.
  revert st w. induction fuel as [|fuel IH]; intros st w; [done|].
  cbn [compress_loop]. unfold bind.
  change (compress_member sys E' verbosity invocation_name cfile_size
            member_size volume_size in_statsp false st w)
    with (compress_member sys E verbosity invocation_name cfile_size
            member_size volume_size in_statsp false st w).
  destruct (compress_member _ _ _ _ _ _ _ _ _ _ _) as [[| |st'] w'];
    [done..|].
  apply IH.
Qed.

(** With [zero] cleared, [compress] depends on the encoders only through
    the optimal encoder that [LZe_init] sets up with the parameters
    given. *)
Lemma compress_optimal_only fuel data w :
  compress sys L E' verbosity invocation_name cfile_size member_size
    volume_size in_statsp false (dictionary_size, match_len_limit) fuel data
    w =
  compress sys L E verbosity invocation_name cfile_size member_size
    volume_size in_statsp false (dictionary_size, match_len_limit) fuel data
    w.
Proof.
  unfold compress.
  apply bind_same_cont. intros [] w1. cbn [orb].
  case_match; [done|].
  fold (header_dictionary_size L dictionary_size).
  cbn [LZe_init only_optimal_at]. rewrite !Z.eqb_refl. cbn [andb].
  apply bind_same_cont. intros [[e|]|status] w2; [|done..].
  apply bind_same_cont. intros name w3.
  apply bind_same_run. apply compress_loop_optimal_only.
Qed.

End OptimalOnly.



(** ** Exit statuses *)

Lemma internal_error_status {A : Type} verbosity msg w :
  (internal_error (A := A) verbosity msg w).1 = Exit 3.
Proof. unfold internal_error. munfold. by case_match. Qed.

Section DecompressStatus.

Variable sys : os.
Variable L : Lzip.decls.
Variable D : decoder.
Variable verbosity : Z.
Variable invocation_name : string.
Variable cfile_size : Z.
Variable ignore_trailing loose_trailing testing : bool.

(** What an iteration of the member loop decides: it leaves [retval]
    alone or sets it to 2, but for a failed allocation; it leaves the
    process only where the decoder does. *)
Lemma decompress_member_result retval first_member stream pos w s w' :
  decompress_member sys L D verbosity cfile_size ignore_trailing
    loose_trailing testing retval first_member stream pos w = (s, w') ->
  match s with
  | Break r => r = retval \/ r = 2 \/ r = 1 /\ allocation_fails D
  | Leave status => decoder_exits D status
  | Next _ _ => True
  end.
Proof.
  unfold decompress_member, Rd_read_data, allocation_fails, decoder_exits.
  intros H. munfold.
  repeat case_match; split_run; simplify_eq/=; auto.
  all: repeat match goal with
       | H : negb _ = true |- _ => apply negb_true_iff in H
       end.
  all: try (right; right; split; [done|]; eauto).
  all: try (do 3 eexists; match goal with
            | H : LZd_decode_member D _ _ _ = _ |- _ => by rewrite H
            end).
Qed.

Lemma decompress_loop_result fuel :
  forall first_member stream pos w r w',
  decompress_loop sys L D verbosity cfile_size ignore_trailing loose_trailing
    testing fuel first_member stream pos w = (Some r, w') ->
  match r with
  | Return retval =>
      retval = 0 \/ retval = 2 \/ retval = 1 /\ allocation_fails D
  | Exit status => decoder_exits D status
  end.
Proof.
  induction fuel as [|fuel IH]; intros fm stream pos w r w' Hrun; [done|].
  cbn [decompress_loop] in Hrun. unfold bind in Hrun.
  destruct (decompress_member _ _ _ _ _ _ _ _ _ _ _ _ w) as [s w1] eqn:Hm.
  apply decompress_member_result in Hm.
  destruct s as [retval|status|stream' pos']; [| |by eapply IH].
  - by injection Hrun as <- <-.
  - by injection Hrun as <- <-.
Qed.

(** [decompress] returns or leaves the process, whatever the input; it
    returns 0, 2 or, after a failed allocation, 1; it leaves the process
    with status 1 when the range decoder cannot be set up, and otherwise
    only where the decoder does. *)
Lemma decompress_returns stream w :
  exists r w',
    decompress sys L D verbosity invocation_name cfile_size ignore_trailing
      loose_trailing testing stream w = (Some r, w') /\
    match r with
    | Return retval =>
        retval = 0 \/ retval = 2 \/ retval = 1 /\ allocation_fails D
    | Exit status =>
        status = 1 /\ Rd_init D w = false \/ decoder_exits D status
    end.
Proof.
  unfold decompress. unfold bind at 1, get at 1.
  destruct (Rd_init D w) eqn:Hinit; cbn [negb].
  - unfold bind at 1.
    destruct (decompress_loop_terminates sys L D verbosity cfile_size
                ignore_trailing loose_trailing testing (S (length stream))
                true stream 0 w) as [r Hr]; [lia|].
    destruct (decompress_loop _ _ _ _ _ _ _ _ _ _ _ _ w)
      as [r0 w1] eqn:Hloop.
    simpl in Hr. subst r0.
    apply decompress_loop_result in Hloop.
    destruct r as [retval|status].
    + munfold. case_match; do 2 eexists; (split; [reflexivity|done]).
    + unfold ret. do 2 eexists. split; [reflexivity|by right].
  - unfold bind at 1.
    destruct (show_error _ _ _ _ _ _ w) as [[] w1].
    unfold bind at 1.
    destruct (cleanup_and_fail (A := Z) sys verbosity invocation_name 1 w1)
      as [r w2] eqn:Hfail.
    assert (r = Exit 1) as ->.
    { unfold cleanup_and_fail in Hfail. munfold.
      by repeat case_match; simplify_eq/=. }
    unfold ret. do 2 eexists. split; [reflexivity|by left].
Qed.

End DecompressStatus.

Section CompressStatus.

Variable sys : os.
Variable L : Lzip.decls.
Variable E : encoder.
Variable verbosity : Z.
Variable invocation_name : string.
Variable cfile_size member_size volume_size : Z.
Variable in_statsp zero : bool.

Lemma compress_member_result st w s w' :
  compress_member sys E verbosity invocation_name cfile_size member_size
    volume_size in_statsp zero st w = (s, w') ->
  match s with
  | CBreak retval _ => retval = 0 \/ retval = 1
  | CLeave status _ => status = 1 \/ encoder_exits E status
  | CNext _ => True
  end.
Proof.
  unfold compress_member, encoder_exits. intros Hrun.
  unfold bind at 1 in Hrun.
  destruct (show_cprogress _ _ _ _ _ _ w) as [[] w1].
  unfold bind at 1 in Hrun.
  match type of Hrun with
  | context [let (_, _) := ?enc0 w1 in _] =>
      destruct (enc0 w1) as [[[m e]|status] w2] eqn:Henc
  end.
  - munfold.
    repeat (case_match; simplify_eq/=; auto).
    all: split_run; simplify_eq/=; auto.
    all: try (left; by eapply close_and_set_permissions_status).
  - unfold ret in Hrun. injection Hrun as <- <-. right. right. right.
    do 3 eexists. destruct zero; [left|right]; by rewrite Henc.
Qed.

Lemma compress_loop_result fuel :
  forall st w r st' w',
  compress_loop sys E verbosity invocation_name cfile_size member_size
    volume_size in_statsp zero fuel st w = (Some (r, st'), w') ->
  match r with
  | Return retval => retval = 0 \/ retval = 1
  | Exit status => status = 1 \/ encoder_exits E status
  end.
Proof.
  induction fuel as [|fuel IH]; intros st w r st' w' Hrun; [done|].
  cbn [compress_loop] in Hrun. unfold bind in Hrun.
  destruct (compress_member _ _ _ _ _ _ _ _ _ st w) as [s w1] eqn:Hm.
  apply compress_member_result in Hm.
  destruct s as [retval st1|status st1|st1]; [| |by eapply IH].
  - by injection Hrun as <- <- <-.
  - by injection Hrun as <- <- <-.
Qed.

(** [compress] returns 0 or 1; it leaves the process with status 3 on
    arguments that the encoder does not take, with status 1 when a
    volume cannot be closed, and otherwise only where an encoder does. *)
Lemma compress_result encoder_options fuel data w r vols w' :
  compress sys L E verbosity invocation_name cfile_size member_size
    volume_size in_statsp zero encoder_options fuel data w =
    (Some (r, vols), w') ->
  match r with
  | Return retval => retval = 0 \/ retval = 1
  | Exit status => status = 1 \/ status = 3 \/ encoder_exits E status
  end.
Proof.
  unfold compress. destruct encoder_options as [ds mll]. intros Hrun.
  unfold bind at 1 in Hrun.
  destruct (when _ _ w) as [[] w1].
  destruct (negb _).
  - unfold bind in Hrun.
    destruct (internal_error (A := Z) verbosity _ w1) as [r0 w2] eqn:Hie.
    pose proof (internal_error_status (A := Z) verbosity
                  "invalid argument to encoder." w1) as Hs.
    rewrite Hie in Hs. simpl in Hs. subst r0.
    unfold ret in Hrun. injection Hrun as <- <- <-. auto.
  - unfold bind at 1 in Hrun.
    match type of Hrun with
    | context [let (_, _) := ?init w1 in _] =>
        destruct (init w1) as [[[e|]|status] w1'] eqn:Hinit
    end.
    + unfold bind at 1, get at 1 in Hrun. unfold bind at 1 in Hrun.
      destruct (compress_loop _ _ _ _ _ _ _ _ _ _ _ w1')
        as [[[r0 st']|] w2] eqn:Hloop; [|done].
      apply compress_loop_result in Hloop.
      destruct r0 as [retval|status].
      * munfold. repeat case_match; simplify_eq/=; auto.
      * unfold ret in Hrun. injection Hrun as <- <- <-.
        destruct Hloop; auto.
    + munfold. repeat case_match; simplify_eq/=; auto.
    + unfold ret in Hrun. injection Hrun as <- <- <-. right. right.
      unfold encoder_exits. destruct zero.
      * left. do 2 eexists. by rewrite Hinit.
      * right. left. do 4 eexists. by rewrite Hinit.
Qed.

End CompressStatus.

Section OptionStatus.

Variable sys : os.
Variable invocation_name : string.

Lemma getnum_exit verbosity ptr llimit ulimit w status w' :
  Main.getnum sys invocation_name verbosity ptr llimit ulimit w =
    (Exit status, w') ->
  status = 1.
Proof.
  unfold Main.getnum. intros Hrun. munfold.
  by repeat (case_match; simplify_eq/=).
Qed.

Lemma get_dict_size_exit verbosity arg w status w' :
  Main.get_dict_size sys invocation_name verbosity arg w = (Exit status, w') ->
  status = 1.
Proof.
  unfold Main.get_dict_size. intros Hrun.
  destruct (strtol sys arg) as [bits consumed].
  destruct (_ && _); [by inversion Hrun|].
  by eapply getnum_exit.
Qed.

Lemma set_mode_exit new_mode l w status w' :
  Main.set_mode sys invocation_name new_mode l w = (Exit status, w') ->
  status = 1.
Proof.
  unfold Main.set_mode. intros Hrun. munfold.
  by repeat (case_match; simplify_eq/=).
Qed.

(** An option ends the process with status 0 (help, version), 1 (a bad
    argument, a second operation) or 3 (an option that the switch does
    not know). *)
Lemma process_option_exit a l w status w' :
  Main.process_option sys invocation_name a l w = (Exit status, w') ->
  status = 0 \/ status = 1 \/ status = 3.
Proof.
  intros Hrun. unfold Main.process_option in Hrun.
  repeat match type of Hrun with
  | context [if ?c then _ else _] => destruct c eqn:?
  end.
  all: try (by inversion Hrun).
  all: try (apply set_mode_exit in Hrun; auto).
  all: try (unfold bind, ret in Hrun;
            match type of Hrun with
            | context [Main.getnum ?s ?i ?v ?p ?lo ?hi ?w0] =>
                destruct (Main.getnum s i v p lo hi w0)
                  as [[n|status0] w1] eqn:Hnum;
                [by inversion Hrun|];
                apply getnum_exit in Hnum; simplify_eq/=; auto
            | context [Main.get_dict_size ?s ?i ?v ?p ?w0] =>
                destruct (Main.get_dict_size s i v p w0)
                  as [[n|status0] w1] eqn:Hnum;
                [by inversion Hrun|];
                apply get_dict_size_exit in Hnum; simplify_eq/=; auto
            end).
  all: try (unfold Main.show_help, Main.show_version in Hrun; munfold;
            simplify_eq/=; auto).
  pose proof (internal_error_status (A := Main.locals) (Main.verbosity l)
                "uncaught option." w) as Hs.
  rewrite Hrun in Hs. simpl in Hs. injection Hs as ->. auto.
Qed.

Lemma process_options_exit args :
  forall l w status w',
  Main.process_options sys invocation_name args l w = (Exit status, w') ->
  status = 0 \/ status = 1 \/ status = 3.
Proof.
  induction args as [|a args IH]; intros l w status w' Hrun; [done|].
  cbn [Main.process_options] in Hrun.
  destruct (Main.code a =? 0); [done|].
  unfold bind in Hrun.
  destruct (Main.process_option _ _ a l w) as [[l'|status0] w1] eqn:Hopt.
  - by eapply IH.
  - unfold ret in Hrun. injection Hrun as <- <-.
    by eapply process_option_exit.
Qed.

End OptionStatus.

Section DriverStatus.

Variable sys : os.
Variable C : Main.codecs.
Variable invocation_name : string.

Hypothesis codecs_ok : codecs_in_range C.

Lemma call_codec_in_range l name infd w :
  status_in_range (Main.call_codec sys C l name infd w).1.
Proof.
  destruct codecs_ok as (_ & Hc & Hd).
  unfold Main.call_codec. munfold. case_match; [apply Hc|apply Hd].
Qed.

Lemma run_codec_in_range l name infd st w s w' :
  Main.run_codec sys C invocation_name l name infd st w = (s, w') ->
  0 <= Main.retval st <= 3 ->
  0 <= Main.retval (Main.fstep_state s) <= 3 /\
  match s with
  | Main.Finish status _ => 0 <= status <= 3
  | Main.Continue _ => True
  end.
Proof.
  intros Hrun Hst.
  apply run_codec_cases in Hrun as (_ & _ & Hcases).
  destruct Hcases as [(status & w1 & Hcall & ->)
                     |(tmp & w1 & tmp' & w2 & Hcall & Hclose & Hret & _ & _
                       & Hs)].
  - pose proof (call_codec_in_range l name infd w) as Hr.
    rewrite Hcall in Hr. simpl in *. lia.
  - pose proof (call_codec_in_range l name infd w) as Hr.
    rewrite Hcall in Hr. simpl in Hr.
    pose proof (close_input_result sys l infd tmp w1) as Htmp.
    rewrite Hclose in Htmp. simpl in Htmp.
    assert (0 <= tmp' <= 3) as Htmp'.
    { rewrite Htmp. rewrite set_retval_max. case_match; lia. }
    rewrite Hret. rewrite set_retval_max.
    split; [lia|].
    destruct s as [st'|status st']; [done|].
    rewrite set_retval_max in Hs. lia.
Qed.

Lemma main_file_in_range l filenames_given filename st w s w' :
  Main.main_file sys C invocation_name l filenames_given filename st w =
    (s, w') ->
  0 <= Main.retval st <= 3 ->
  0 <= Main.retval (Main.fstep_state s) <= 3 /\
  match s with
  | Main.Finish status _ => 0 <= status <= 3
  | Main.Continue _ => True
  end.
Proof.
  intros Hrun Hst.
  apply main_file_cases in Hrun
    as [(name & infd & st0 & w0 & Hrun & _ & Hret & _)
       |(r & Hr & Hret & _ & _ & _ & Hs)].
  - apply run_codec_in_range in Hrun; [done|]. by rewrite Hret.
  - rewrite set_retval_max in Hr. rewrite Hret. split; [lia|].
    destruct s as [st'|status st']; [done|].
    rewrite set_retval_max in Hs. lia.
Qed.

Lemma main_files_in_range l filenames_given filenames :
  forall st w s w',
  Main.main_files sys C invocation_name l filenames_given filenames st w =
    (s, w') ->
  0 <= Main.retval st <= 3 ->
  0 <= Main.retval (Main.fstep_state s) <= 3 /\
  match s with
  | Main.Finish status _ => 0 <= status <= 3
  | Main.Continue _ => True
  end.
Proof.
  induction filenames as [|filename filenames IH]; intros st w s w' Hrun Hst.
  - unfold Main.main_files, ret in Hrun. by injection Hrun as <- <-.
  - cbn [Main.main_files] in Hrun. unfold bind in Hrun.
    destruct (Main.main_file _ _ _ _ _ filename st w) as [s1 w1] eqn:Hfile.
    apply main_file_in_range in Hfile; [|done].
    destruct s1 as [st1|status st1].
    + eapply IH; [exact Hrun|apply Hfile].
    + unfold ret in Hrun. by injection Hrun as <- <-.
Qed.

(** The exit status of the process is one of 0, 1, 2 and 3. *)
Lemma main_in_range args w :
  0 <= (Main.main sys C invocation_name args w).1.1 <= 3.
Proof.
  destruct (Main.main sys C invocation_name args w) as [[status ost] w']
    eqn:Hmain.
  cbn [fst]. unfold Main.main in Hmain. unfold bind at 1 in Hmain.
  destruct (Main.process_options _ _ args _ w) as [[[l rest]|status0] w1]
    eqn:Hopts.
  - destruct (bool_decide (Main.program_mode l = Main.m_list)).
    { unfold bind, ret in Hmain. destruct codecs_ok as (Hl & _).
      match type of Hmain with
      | context [Main.list_files C ?v ?f ?i ?t ?w0] =>
          specialize (Hl v f i t w0);
          destruct (Main.list_files C v f i t w0) as [status1 w2]
      end.
      injection Hmain as <- _ _. simpl in Hl. lia. }
    case_match.
    { unfold bind in Hmain. destruct (show_error _ _ _ _ _ _ w1) as [[] w2].
      unfold ret in Hmain. injection Hmain as <- _ _. lia. }
    unfold bind at 1 in Hmain. destruct (modify _ w1) as [[] w2].
    unfold bind at 1 in Hmain.
    match type of Hmain with
    | context [let (_, _) := ?m w2 in _] =>
        destruct (m w2) as [tty_ok w3]
    end.
    destruct (negb tty_ok);
      [unfold ret in Hmain; injection Hmain as <- _ _; lia|].
    unfold bind at 1 in Hmain. destruct (modify _ w3) as [[] w4].
    unfold bind at 1 in Hmain.
    destruct (Main.main_files _ _ _ _ _ _ _ w4) as [s w5] eqn:Hfiles.
    apply main_files_in_range in Hfiles; [|simpl; lia].
    destruct s as [st|status1 st].
    + unfold bind, ret in Hmain.
      pose proof (finish_main_status sys invocation_name
                    (Main.apply_overrides l)
                    match rest with
                    | [] => ["-"]
                    | _ :: _ => Main.argument <$> rest
                    end st w5) as Hfin.
      cbv zeta in Hfin.
      destruct (Main.finish_main _ _ _ _ st w5) as [status1 w6].
      injection Hmain as <- _ _.
      simpl in *. rewrite set_retval_max in Hfin. lia.
    + unfold ret in Hmain. injection Hmain as <- _ _. simpl in *. lia.
  - unfold ret in Hmain. injection Hmain as <- _ _.
    apply process_options_exit in Hopts. lia.
Qed.

End DriverStatus.

Section Verdict.

Variable sys : os.
Variable L : Lzip.decls.
Variable D : decoder.
Variable verbosity : Z.
Variable invocation_name : string.
Variable cfile_size : Z.
Variable ignore_trailing loose_trailing testing : bool.

Abbreviation member := (decompress_member sys L D verbosity cfile_size
                          ignore_trailing loose_trailing testing).
Abbreviation at_member' := (at_member sys L D verbosity cfile_size
                              ignore_trailing loose_trailing testing).
Abbreviation decodes' := (decodes sys L D verbosity cfile_size
                            ignore_trailing loose_trailing testing).
Abbreviation decompress' := (decompress sys L D verbosity invocation_name
                               cfile_size ignore_trailing loose_trailing
                               testing).

(** The member loop comes to an iteration that leaves it. *)
Lemma last_iteration_after fuel :
  forall s p w,
  (length s < fuel)%nat ->
  exists s2 p2 w2 step w3,
    decodes' s p w s2 p2 w2 /\
    member 0 false s2 p2 w2 = (step, w3) /\
    (forall s' p', step <> Next s' p').
Proof.
  induction fuel as [|fuel IH]; intros s p w Hlen; [lia|].
  destruct (member 0 false s p w) as [step w1] eqn:Hm.
  destruct step as [r|status|s1 p1].
  - exists s, p, w, (Break r), w1. split; [apply decodes_nil|done].
  - exists s, p, w, (Leave status), w1. split; [apply decodes_nil|done].
  - destruct (IH s1 p1 w1) as (s2 & p2 & w2 & step & w3 & Hd & Hstep & Hn).
    { apply decompress_member_Next_shorter in Hm. lia. }
    exists s2, p2, w2, step, w3. split; [|done].
    by apply (decodes_cons _ _ _ _ _ _ _ _ _ _ _ s1 p1 w1).
Qed.

Lemma last_iteration stream w :
  exists first_member s pos w1 step w2,
    at_member' stream w first_member s pos w1 /\
    member 0 first_member s pos w1 = (step, w2) /\
    (forall s' p', step <> Next s' p').
Proof.
  destruct (member 0 true stream 0 w) as [step w1] eqn:Hm.
  destruct step as [r|status|s1 p1].
  - exists true, stream, 0, w, (Break r), w1. by repeat split.
  - exists true, stream, 0, w, (Leave status), w1. by repeat split.
  - destruct (last_iteration_after (S (length s1)) s1 p1 w1)
      as (s2 & p2 & w2 & step & w3 & Hd & Hstep & Hn); [lia|].
    exists false, s2, p2, w2, step, w3. split; [|done].
    by exists s1, p1, w1.
Qed.

Lemma decompress_leave stream w first_member s pos w1 status w2 :
  Rd_init D w = true ->
  at_member' stream w first_member s pos w1 ->
  member 0 first_member s pos w1 = (Leave status, w2) ->
  decompress' stream w = (Some (Exit status), w2).
Proof.
  intros Hinit Hat Hm. unfold decompress.
  unfold bind at 1, get at 1. rewrite Hinit. cbn [negb].
  unfold bind at 1.
  rewrite (decompress_loop_at_member _ _ _ _ _ _ _ _ _ _ _ _ _ _ Hat).
  cbn [decompress_loop]. unfold bind at 1. by rewrite Hm.
Qed.

(** What the iteration that leaves the loop decides, by the class of the
    input at its head. *)
Lemma member_verdict first_member s pos w step w' :
  member 0 first_member s pos w = (step, w') ->
  (forall s' p', step <> Next s' p') ->
  let ds := Lzip.Lh_get_dictionary_size L (take Lh_size s) in
  match classify L loose_trailing first_member s with
  | Member =>
      if LZd_init D ds (drop Lh_size s) (before_init verbosity first_member w)
      then
        match (LZd_decode_member D ds (drop Lh_size s)
                 (before_decode sys verbosity cfile_size pos first_member
                    w)).1.1 with
        | Return r => r <> 0 /\ step = Break 2
        | Exit status => step = Leave status
        end
      else step = Break 1
  | End_of_input => step = Break 0
  | Trailing_data => step = Break (if ignore_trailing then 0 else 2)
  | Bad_input => step = Break 2
  end.
Proof.
  intros Hm Hnext ds.
  unfold decompress_member, Rd_read_data in Hm. cbv beta iota zeta in Hm.
  unfold classify, member_header_ok, plain_trailing_data.
  destruct (Rd_finished (drop Lh_size s)) eqn:Hfin; cbn [negb andb] in Hm |- *.
  - assert (take Lh_size s = s) as Htake.
    { unfold Rd_finished in Hfin. apply bool_decide_eq_true in Hfin.
      apply take_ge. apply (f_equal length) in Hfin.
      rewrite length_drop in Hfin. simpl in Hfin. lia. }
    rewrite Htake in Hm.
    destruct first_member.
    { revert Hm. unfold bind, get, ret.
      destruct (show_file_error _ _ _ _ _ _). by intros [= <- _]. }
    destruct (Lzip.Lh_verify_prefix L s) eqn:Hprefix.
    { rewrite !andb_false_r. revert Hm. unfold bind, ret.
      destruct (Pp_show_msg _ _ _). destruct (show_trailing_data _ _ _ _ _ _ _).
      by intros [= <- _]. }
    cbn [negb]. rewrite !andb_true_r.
    destruct s as [|b s]; cbn [bool_decide negb] in *.
    + rewrite bool_decide_eq_true_2 by done. cbn [negb].
      revert Hm. cbn. unfold ret. by intros [= <- _].
    + rewrite bool_decide_eq_false_2 by done. cbn [negb].
      revert Hm.
      assert ((0 <? Z.of_nat (length (b :: s))) = true) as ->
        by (apply Z.ltb_lt; simpl; lia).
      unfold bind, ret.
      assert (forall data all w0,
                (show_trailing_data sys L verbosity data all
                   (Z.b2z ignore_trailing) w0).1 = ignore_trailing) as Hig.
      { intros data all w0. unfold show_trailing_data, bind, ret.
        destruct (when _ _ w0). cbn. by destruct ignore_trailing. }
      specialize (Hig (b :: s) true w).
      destruct (show_trailing_data _ _ _ _ _ _ _) as [ignored w1].
      cbn in Hig. subst ignored. by intros [= <- _].
  - destruct (Lh_verify_magic (take Lh_size s)) eqn:Hmagic; cbn [negb andb] in Hm |- *.
    2:{ destruct first_member.
        { revert Hm. unfold bind, get, ret.
          destruct (show_file_error _ _ _ _ _ _). by intros [= <- _]. }
        destruct (negb loose_trailing &&
                  Lzip.Lh_verify_corrupt L (take Lh_size s)) eqn:Hcorrupt.
        - assert (loose_trailing ||
                  negb (Lzip.Lh_verify_corrupt L (take Lh_size s)) = false)
            as ->.
          { apply andb_true_iff in Hcorrupt as [Hl Hc].
            apply negb_true_iff in Hl. by rewrite Hl, Hc. }
          assert (bool_decide (s = []) = false) as ->.
          { apply bool_decide_eq_false. intros ->. by cbn in Hfin. }
          cbn [andb]. revert Hm. unfold bind, ret.
          destruct (Pp_show_msg _ _ _).
          destruct (show_trailing_data _ _ _ _ _ _ _).
          by intros [= <- _].
        - assert (loose_trailing ||
                  negb (Lzip.Lh_verify_corrupt L (take Lh_size s)) = true)
            as ->.
          { apply andb_false_iff in Hcorrupt as [Hl|Hc].
            - apply negb_false_iff in Hl. by rewrite Hl.
            - rewrite Hc. by rewrite orb_true_r. }
          revert Hm. unfold bind, ret.
          assert ((show_trailing_data sys L verbosity (take Lh_size s) false
                     (Z.b2z ignore_trailing) w).1 = ignore_trailing) as Hig.
          { unfold show_trailing_data, bind, ret.
            destruct (when _ _ w). cbn. by destruct ignore_trailing. }
          destruct (show_trailing_data _ _ _ _ _ _ _) as [ignored w1].
          cbn in Hig. subst ignored. by intros [= <- _]. }
    assert (bool_decide (s = []) = false) as Hne.
    { apply bool_decide_eq_false. intros ->. by cbn in Hfin. }
    destruct (Lh_verify_version (take Lh_size s)) eqn:Hver; cbn [negb andb] in Hm |- *.
    2:{ rewrite Hne. cbn [andb]. revert Hm. unfold bind, ret.
        destruct (Pp_show_msg _ _ _).
        destruct first_member; by intros [= <- _]. }
    fold ds in Hm |- *.
    destruct (isvalid_ds ds) eqn:Hds; cbn [negb andb] in Hm |- *.
    2:{ rewrite Hne. cbn [andb]. revert Hm. unfold bind, ret.
        destruct (Pp_show_msg _ _ _).
        destruct first_member; by intros [= <- _]. }
    unfold before_decode, before_init.
    revert Hm. unfold bind at 1.
    destruct (when _ _ w) as [[] w1]. cbn [snd].
    unfold bind at 1, get at 1.
    destruct (LZd_init D ds (drop Lh_size s) w1); cbn [negb].
    2:{ unfold bind, ret. destruct (Pp_show_msg _ _ _). by intros [= <- _]. }
    unfold bind at 1.
    assert (length (take Lh_size s) = Lh_size) as Hhead.
    { rewrite length_take. unfold Rd_finished in Hfin.
      apply bool_decide_eq_false in Hfin.
      destruct (decide (Lh_size <= length s)%nat) as [|Hshort]; [lia|].
      exfalso. apply Hfin. apply drop_ge. lia. }
    rewrite Hhead.
    destruct (show_dprogress _ _ _ _ _ _ w1) as [[] w2]. cbn [snd].
    unfold bind at 1.
    destruct (LZd_decode_member D ds (drop Lh_size s) w2)
      as [[[result|status] consumed] w3]; cbn [fst].
    + destruct (result =? 0) eqn:Hres; cbn [negb].
      * unfold bind, ret. destruct (when _ _ w3).
        intros [= <- _]. by edestruct Hnext.
      * apply Z.eqb_neq in Hres. unfold bind, ret. destruct (when _ _ w3).
        by intros [= <- _].
    + unfold ret. by intros [= <- _].
Qed.

End Verdict.
Lemma decompress_no_range_decoder sys L D verbosity invocation_name cfile_size
    ignore_trailing loose_trailing testing stream w :
  Rd_init D w = false ->
  (decompress sys L D verbosity invocation_name cfile_size ignore_trailing
     loose_trailing testing stream w).1 = Some (Exit 1).
Proof.
  intros Hinit. unfold decompress. unfold bind at 1, get at 1.
  rewrite Hinit. cbn [negb]. unfold bind at 1.
  destruct (show_error _ _ _ _ _ _ w) as [[] w1].
  unfold bind at 1.
  destruct (cleanup_and_fail_run sys invocation_name (A := Z) verbosity 1 w1)
    as (w2 & -> & _).
  done.
Qed.

Section Boundary.

Variable sys : os.
Variable C : Main.codecs.
Variable invocation_name : string.

Hypothesis closes : forall fd w, close_errno sys fd w = 0.

(** When closing does not fail, [main] ends with [retval] as its status. *)
Lemma finish_main_ok l filenames st w :
  (Main.finish_main sys invocation_name l filenames st w).1 = Main.retval st.
Proof.
  unfold Main.finish_main.
  unfold bind at 1, get at 1. unfold bind at 1, get at 1.
  unfold bind at 1, get at 1. rewrite closes. cbn [Z.eqb negb].
  rewrite andb_false_r. unfold bind at 1.
  destruct (delete_output_on_interrupt w).
  - destruct (close_and_set_permissions_ok sys (Main.verbosity l)
                invocation_name false w closes) as (w' & -> & _).
    unfold bind, ret. by destruct (when _ _ w').
  - unfold bind at 1. destruct (when _ _ w) as [[] w'].
    unfold ret at 1. unfold bind, ret. by destruct (when _ _ w').
Qed.

(** The loop over one file that [main] hands to the codec: the status
    with which it ends the process, or the [retval] with which it comes
    to its end, is what the codec has returned or left with. *)
Lemma main_files_one l filenames_given filename infd w w0 r w1 :
  ready sys l filenames_given filename infd w w0 ->
  Main.call_codec sys C l filename infd w0 = (r, w1) ->
  match r with Return retval => 0 <= retval | Exit _ => True end ->
  exists s w',
    Main.main_files sys C invocation_name l filenames_given [filename]
      loop_state0 w = (s, w') /\
    match s with
    | Main.Finish status _ => status
    | Main.Continue st => Main.retval st
    end = match r with Return retval => retval | Exit status => status end.
Proof.
  intros Hready Hcall Hr.
  destruct (Main.main_file sys C invocation_name l filenames_given filename
              loop_state0 w) as [s w'] eqn:Hfile.
  exists s, w'. split.
  { cbn [Main.main_files]. unfold bind. rewrite Hfile.
    by destruct s. }
  rewrite (main_file_ready sys C invocation_name l filenames_given filename
             infd loop_state0 w w0 Hready) in Hfile.
  destruct r as [tmp|status].
  2:{ revert Hfile. unfold Main.run_codec. unfold bind at 1. rewrite Hcall.
      unfold ret. by intros [= <- _]. }
  pose proof (close_input_ok sys l infd tmp w1 (closes infd w1)) as Hclose.
  destruct (decide (tmp = 0)) as [->|Htmp].
  - destruct (run_codec_success sys C invocation_name l filename infd
                loop_state0 w0 w1 Hcall closes)
      as (st' & w2 & Hrun & Hret & _).
    rewrite Hrun in Hfile. injection Hfile as <- _. by rewrite Hret.
  - destruct (decide (Main.program_mode l = Main.m_test)) as [Hmode|Hmode].
    + rewrite (run_codec_failure_test sys C invocation_name l filename infd
                 loop_state0 w0 tmp w1 tmp _ Hmode Hcall Hclose Htmp)
        in Hfile.
      injection Hfile as <- _. cbn. rewrite set_retval_max. lia.
    + rewrite (run_codec_failure_other sys C invocation_name l filename infd
                 loop_state0 w0 tmp w1 tmp _ Hmode Hcall Hclose Htmp)
        in Hfile.
      injection Hfile as <- _. cbn. rewrite set_retval_max. lia.
Qed.

(** [main] on a command line with one file, but for --list, when the
    standard output is not a terminal: the loop over the files, and the
    end of [main] after it. *)
Lemma main_enter args l0 a w w1 :
  Main.process_options sys invocation_name args Main.initial_locals w =
    (Return (l0, [a]), w1) ->
  Main.program_mode l0 <> Main.m_list ->
  (forall w', isatty sys Main.STDOUT_FILENO w' = false) ->
  let l := Main.apply_overrides l0 in
  let filename := Main.argument a in
  Main.main sys C invocation_name args w =
  (s <-- Main.main_files sys C invocation_name l
           (negb (bool_decide (filename = "-"))) [filename] loop_state0 ;;
   match s with
   | Main.Finish status st => ret (status, Some st)
   | Main.Continue st =>
       status <-- Main.finish_main sys invocation_name l [filename] st ;;
       ret (status, Some st)
   end) (loop_start l [filename] w1).
Proof.
  intros Hopts Hmode Htty l filename. unfold Main.main.
  unfold bind at 1. rewrite Hopts.
  rewrite (bool_decide_eq_false_2 _ Hmode).
  cbn [length fmap list_fmap forallb]. cbn [Z.of_nat Pos.of_succ_nat Z.ltb Z.compare Pos.compare Pos.compare_cont].
  rewrite !andb_false_r, andb_true_r.
  fold l. unfold bind at 1, modify at 1.
  unfold bind at 1.
  destruct (Main.to_stdout l &&
            negb (bool_decide (Main.program_mode l = Main.m_test))) eqn:Hout.
  - unfold bind at 1, modify at 1. unfold Main.check_tty_out.
    unfold bind at 1, get at 1. unfold bind at 1, get at 1.
    cbn [outfd with_outfd]. rewrite Htty. rewrite andb_false_r.
    unfold ret at 1. cbn [negb].
    unfold bind at 1, modify at 1. unfold loop_start. by rewrite Hout.
  - unfold bind at 1, modify at 1. unfold ret at 1. cbn [negb].
    unfold bind at 1, modify at 1. unfold loop_start. by rewrite Hout.
Qed.

(** The exit status of a run on one file that [main] hands to the codec
    is what the codec has returned or left with. *)
Lemma main_status_one args l0 a w w1 infd w0 r w2 :
  let l := Main.apply_overrides l0 in
  let filename := Main.argument a in
  Main.process_options sys invocation_name args Main.initial_locals w =
    (Return (l0, [a]), w1) ->
  Main.program_mode l0 <> Main.m_list ->
  (forall w', isatty sys Main.STDOUT_FILENO w' = false) ->
  ready sys l true filename infd (loop_start l [filename] w1) w0 ->
  Main.call_codec sys C l filename infd w0 = (r, w2) ->
  match r with Return retval => 0 <= retval | Exit _ => True end ->
  (Main.main sys C invocation_name args w).1.1 =
  match r with Return retval => retval | Exit status => status end.
Proof.
  intros l filename Hopts Hmode Htty Hready Hcall Hr.
  rewrite (main_enter args l0 a w w1 Hopts Hmode Htty).
  fold l filename.
  assert (filename <> "-") as Hdash by (by destruct Hready as [(_ & ? & _) _]).
  rewrite (bool_decide_eq_false_2 _ Hdash). cbn [negb].
  destruct (main_files_one l true filename infd _ w0 r w2 Hready Hcall Hr)
    as (s & w' & Hrun & Hs).
  unfold bind at 1. rewrite Hrun.
  destruct s as [st|status st].
  - unfold bind, ret.
    pose proof (finish_main_ok l [filename] st w') as Hfin.
    destruct (Main.finish_main _ _ _ _ st w') as [status w3].
    cbn in *. congruence.
  - done.
Qed.

End Boundary.

Section CodecsOf.

Variable sys : os.
Variable L : Lzip.decls.
Variable E : encoder.
Variable D : decoder.
Variable invocation_name : string.
Variable content : string -> list byte.
Variable fuel : nat.
Variable list_files : Z -> list string -> bool -> bool -> M Z.

Abbreviation C := (codecs_of sys L E D invocation_name content fuel list_files).

(** The call of the codec by [main], with [compress] and [decompress]
    of main.c. *)
Lemma call_codec_of l filename infd w :
  filename <> "" ->
  Main.call_codec sys C l filename infd w =
  if bool_decide (Main.program_mode l = Main.m_compress) then
    compress_on sys L E invocation_name content fuel (Main.verbosity l)
      (cfile_size_of sys filename infd w) (Main.member_size l)
      (Main.volume_size l) filename (Main.encoder_options l)
      (Main.one_to_one l) (Main.zero l) w
  else
    decompress_on sys L D invocation_name content (Main.verbosity l)
      (cfile_size_of sys filename infd w) filename (Main.ignore_trailing l)
      (Main.loose_trailing l)
      (bool_decide (Main.program_mode l = Main.m_test)) w.
Proof.
  intros Hname. unfold Main.call_codec, cfile_size_of.
  rewrite (bool_decide_eq_false_2 _ Hname). cbn [negb andb].
  unfold bind at 1, get at 1. unfold bind at 1, get at 1.
  by destruct (bool_decide (Main.program_mode l = Main.m_compress)).
Qed.

Lemma codecs_of_in_range :
  (forall verbosity filenames ignore_trailing loose_trailing w,
     0 <= (list_files verbosity filenames ignore_trailing loose_trailing w).1
       <= 3) ->
  (forall status,
     encoder_exits E status \/ decoder_exits D status -> 0 <= status <= 3) ->
  codecs_in_range C.
Proof.
  intros Hlist Hexits. split; [|split].
  - intros. apply Hlist.
  - intros verbosity cfile_size member_size volume_size input options
      in_statsp zero w.
    cbn [Main.compress_file codecs_of]. unfold compress_on.
    unfold bind.
    destruct (compress _ _ _ _ _ _ _ _ _ _ _ _ _ w) as [[[r vols]|] w1]
      eqn:Hrun; [|cbn; lia].
    apply compress_result in Hrun. cbn.
    destruct r as [retval|status]; cbn; [lia|].
    destruct Hrun as [->| [->|Hexit]]; [lia|lia|].
    apply Hexits. by left.
  - intros verbosity cfile_size input ignore_trailing loose_trailing
      testing w.
    cbn [Main.decompress_file codecs_of]. unfold decompress_on.
    unfold bind.
    destruct (decompress_returns sys L D verbosity invocation_name cfile_size
                ignore_trailing loose_trailing testing (content input) w)
      as (r & w1 & Hrun & Hr).
    rewrite Hrun. cbn.
    destruct r as [retval|status]; cbn; [lia|].
    destruct Hr as [[-> _]|Hexit]; [lia|].
    apply Hexits. by right.
Qed.

End CodecsOf.

(** C1. The exit status of the process, with [compress] and [decompress]
    of main.c as the codecs of [main]. [internal_error] always ends the
    process with status 3. [decompress] always comes to an end, and its
    result is decided where the member loop ends: it leaves with status
    1 when the range decoder cannot be set up; else there is a last head
    of the member loop, and by the class of the input there the result
    is 0 at the end of the input after the last member, 0 or 2 on
    trailing data, as --ignore-trailing says, 2 on any other input that
    is not a member with a valid header, and on such a member 1 when the
    decoder cannot be set up, 2 when the decoder returns an error, and
    the status of the decoder when that leaves the process. The status
    of [main] is one of 0, 1, 2 and 3 whenever those of list.c, of the
    encoder and of the decoder are. And at the process boundary, on a
    command line with one file that [main] hands to the codec, when
    closing does not fail and the standard output is not a terminal,
    the exit status is what [compress] or [decompress] returns or
    leaves with, in each mode. *)
Theorem exit_status_contract sys L E D invocation_name content fuel
    list_files :
  let C := codecs_of sys L E D invocation_name content fuel list_files in
  (forall (A : Type) verbosity msg w,
     (internal_error (A := A) verbosity msg w).1 = Exit 3) /\
  (forall verbosity cfile_size ignore_trailing loose_trailing testing
          stream w,
     let result :=
       (decompress sys L D verbosity invocation_name cfile_size
          ignore_trailing loose_trailing testing stream w).1 in
     if Rd_init D w then
       exists first_member s pos w1,
         at_member sys L D verbosity cfile_size ignore_trailing
           loose_trailing testing stream w first_member s pos w1 /\
         let ds := Lzip.Lh_get_dictionary_size L (take Lh_size s) in
         match classify L loose_trailing first_member s with
         | Member =>
             if LZd_init D ds (drop Lh_size s)
                  (before_init verbosity first_member w1)
             then
               match (LZd_decode_member D ds (drop Lh_size s)
                        (before_decode sys verbosity cfile_size pos
                           first_member w1)).1.1 with
               | Return r => r <> 0 /\ result = Some (Return 2)
               | Exit status => result = Some (Exit status)
               end
             else result = Some (Return 1)
         | End_of_input => result = Some (Return 0)
         | Trailing_data =>
             result = Some (Return (if ignore_trailing then 0 else 2))
         | Bad_input => result = Some (Return 2)
         end
     else result = Some (Exit 1)) /\
  ((forall verbosity filenames ignore_trailing loose_trailing w,
      0 <= (list_files verbosity filenames ignore_trailing loose_trailing
              w).1 <= 3) ->
   (forall status,
      encoder_exits E status \/ decoder_exits D status ->
      0 <= status <= 3) ->
   forall args w, 0 <= (Main.main sys C invocation_name args w).1.1 <= 3) /\
  (forall args a l0 w w1 infd w0,
     let l := Main.apply_overrides l0 in
     let filename := Main.argument a in
     let cfile_size := cfile_size_of sys filename infd w0 in
     Main.process_options sys invocation_name args Main.initial_locals w =
       (Return (l0, [a]), w1) ->
     Main.program_mode l0 <> Main.m_list ->
     ready sys l true filename infd (loop_start l [filename] w1) w0 ->
     (forall fd w', close_errno sys fd w' = 0) ->
     (forall w', isatty sys Main.STDOUT_FILENO w' = false) ->
     let result :=
       if bool_decide (Main.program_mode l = Main.m_compress) then
         fst <$>
         (compress sys L E (Main.verbosity l) invocation_name cfile_size
            (Main.member_size l) (Main.volume_size l) (Main.one_to_one l)
            (Main.zero l)
            (Main.dictionary_size (Main.encoder_options l),
             Main.match_len_limit (Main.encoder_options l))
            fuel (content filename) w0).1
       else
         (decompress sys L D (Main.verbosity l) invocation_name cfile_size
            (Main.ignore_trailing l) (Main.loose_trailing l)
            (bool_decide (Main.program_mode l = Main.m_test))
            (content filename) w0).1 in
     forall r,
       result = Some r ->
       (Main.main sys C invocation_name args w).1.1 =
       match r with Return retval => retval | Exit status => status end).
Proof.
  intros C.
  split; [intros A verbosity msg w; apply internal_error_status|].
  split; [|split].
  - intros verbosity cfile_size ignore_trailing loose_trailing testing
      stream w result.
    destruct (Rd_init D w) eqn:Hinit;
      [|by apply decompress_no_range_decoder].
    destruct (last_iteration sys L D verbosity cfile_size ignore_trailing
                loose_trailing testing stream w)
      as (first_member & s & pos & w1 & step & w2 & Hat & Hm & Hnext).
    exists first_member, s, pos, w1. split; [done|].
    pose proof (member_verdict sys L D verbosity cfile_size ignore_trailing
                  loose_trailing testing first_member s pos w1 step w2 Hm
                  Hnext) as Hverdict.
    cbv zeta in Hverdict |- *.
    assert (forall r, step = Break r -> result = Some (Return r)) as Hbreak.
    { intros r ->. subst result.
      by rewrite (decompress_break sys L D verbosity invocation_name
                    cfile_size ignore_trailing loose_trailing testing stream w
                    first_member s pos w1 r w2 Hinit Hat Hm). }
    assert (forall status, step = Leave status ->
                           result = Some (Exit status)) as Hleave.
    { intros status ->. subst result.
      by rewrite (decompress_leave sys L D verbosity invocation_name
                    cfile_size ignore_trailing loose_trailing testing stream w
                    first_member s pos w1 status w2 Hinit Hat Hm). }
    destruct (classify L loose_trailing first_member s); auto.
    destruct (LZd_init D _ _ _); [|auto].
    destruct (LZd_decode_member D _ _ _).1.1 as [r|status]; [|auto].
    destruct Hverdict as [Hr ->]. auto.
  - intros Hlist Hexits args w.
    apply main_in_range. by apply codecs_of_in_range.
  - intros args a l0 w w1 infd w0 l filename cfile_size Hopts Hmode Hready
      Hclose Htty result r Hresult.
    assert (filename <> "") as Hname
      by (by destruct Hready as [(? & _) _]).
    destruct (Main.call_codec sys C l filename infd w0) as [r' w2] eqn:Hcall.
    assert (r' = r /\
            match r with Return retval => 0 <= retval | Exit _ => True end)
      as [-> Hr].
    { unfold C in Hcall. rewrite call_codec_of in Hcall by done.
      subst result. fold cfile_size in Hcall.
      destruct (bool_decide (Main.program_mode l = Main.m_compress)).
      - unfold compress_on, bind, ret in Hcall.
        destruct (Main.encoder_options l) as [ds mll] eqn:Hoptions.
        cbn [Main.dictionary_size Main.match_len_limit] in *.
        destruct (compress _ _ _ _ _ _ _ _ _ _ _ _ _ w0)
          as [[[r0 vols]|] w3] eqn:Hrun; [|done].
        cbn in Hresult, Hcall. injection Hresult as ->.
        injection Hcall as <- _. split; [done|].
        apply compress_result in Hrun. destruct r; [lia|done].
      - unfold decompress_on, bind, ret in Hcall.
        destruct (decompress_returns sys L D (Main.verbosity l)
                    invocation_name cfile_size (Main.ignore_trailing l)
                    (Main.loose_trailing l)
                    (bool_decide (Main.program_mode l = Main.m_test))
                    (content filename) w0) as (r0 & w3 & Hrun & Hr0).
        rewrite Hrun in Hresult, Hcall. cbn in Hresult, Hcall.
        injection Hresult as ->. injection Hcall as <- _.
        split; [done|]. destruct r; [lia|done]. }
    by apply (main_status_one sys C invocation_name Hclose args l0 a w w1
                infd w0 r w2).
Qed.

Lemma stored_decoder_stays status :
  decoder_exits Sample.stored_decoder status -> False.
Proof.
  intros (ds & rest & w & Hexit).
  cbn in Hexit. unfold Sample.stored_decode_member in Hexit.
  destruct rest as [|k body]; [done|].
  by destruct (bool_decide _).
Qed.

Lemma stored_encoder_stays status :
  encoder_exits Sample.stored_encoder status -> False.
Proof.
  intros [(data & w & Hexit)|[(ds & mll & data & w & Hexit)
                             |(size & st & w & [Hexit|Hexit])]]; done.
Qed.

Ltac one_file_run Hone name to_file result :=
  match goal with
  | |- (Main.main _ _ _ ?args ?w).1.1 = _ =>
      let Hopts := fresh "Hopts" in
      let Hopts' := fresh "Hopts" in
      destruct (Main.process_options Sample.quiet_os "clzip" args
                  Main.initial_locals w) as [r0 w1] eqn:Hopts;
      pose proof Hopts as Hopts'; vm_compute in Hopts';
      injection Hopts' as <- <-;
      match type of Hopts with
      | _ = (Return (?l0, _), ?w1) =>
          let ws := constr:((Main.Pp_set_name name
                               (loop_start (Main.apply_overrides l0) [name]
                                  w1)).2) in
          let w0 :=
            match to_file with
            | true =>
                constr:(output_opened false 3
                          (output_named (Main.apply_overrides l0) true name
                             ws))
            | false => ws
            end in
          refine (Hone args (Sample.file name) l0 w w1 4 w0 Hopts _ _ _ _
                    result _);
          [vm_compute; discriminate
          |split;
           [repeat split; try done; intros _; right; vm_compute; reflexivity
           |first [reflexivity|exists 3; repeat split; done]]
          |done
          |done
          |vm_compute; reflexivity]
      end
  end.

(** The statuses of the process with the stand-ins for the encoder and
    the decoder: they are among 0, 1, 2 and 3 on every command line;
    "-d v2.lz" and "-t v2.lz", on a member of version 2, end with status
    2; "-t good.lz" and the compression of "data" end with status 0. *)
Lemma exit_status_contract_witness :
  (forall args w,
     0 <= (Main.main Sample.quiet_os Sample.codecs "clzip" args w).1.1 <= 3) /\
  (Main.main Sample.quiet_os Sample.codecs "clzip"
     [Sample.arg "d" ""; Sample.file "v2.lz"] Sample.world0).1.1 = 2 /\
  (Main.main Sample.quiet_os Sample.codecs "clzip"
     [Sample.arg "t" ""; Sample.file "v2.lz"] Sample.world0).1.1 = 2 /\
  (Main.main Sample.quiet_os Sample.codecs "clzip"
     [Sample.arg "t" ""; Sample.file "good.lz"] Sample.world0).1.1 = 0 /\
  (Main.main Sample.quiet_os Sample.codecs "clzip"
     [Sample.file "data"] Sample.world0).1.1 = 0.
Proof.
  destruct (exit_status_contract Sample.quiet_os Sample.lzip_h
              Sample.stored_encoder Sample.stored_decoder "clzip"
              Sample.content 301%nat (fun _ _ _ _ => ret 0))
    as (_ & _ & Hrange & Hone).
  split; [|split; [|split; [|split]]].
  - apply Hrange.
    + intros. cbn. lia.
    + intros status [Hexit|Hexit].
      * by apply stored_encoder_stays in Hexit.
      * by apply stored_decoder_stays in Hexit.
  - one_file_run Hone "v2.lz"%string true (Return (A := Z) 2).
  - one_file_run Hone "v2.lz"%string false (Return (A := Z) 2).
  - one_file_run Hone "good.lz"%string false (Return (A := Z) 0).
  - one_file_run Hone "data"%string true (Return (A := Z) 0).
Defined.

(** * More of main.c *)

(** ** Numerical arguments *)

(** The multiplier loop of [getnum] either multiplies [exponent] times or
    stops with an error, and it stops only when the product would exceed
    the limit. *)
Lemma scale_spec exponent factor ulimit :
  forall result,
  0 < factor -> 0 <= result ->
  let '(r, err) := Main.scale exponent factor ulimit result in
  if err then ulimit < result * factor ^ Z.of_nat exponent
  else r = result * factor ^ Z.of_nat exponent.
Proof.
  induction exponent as [|e IH]; intros result Hf Hr.
  - cbn [Main.scale]. rewrite Z.pow_0_r. lia.
  - cbn [Main.scale].
    replace (factor ^ Z.of_nat (S e)) with (factor * factor ^ Z.of_nat e)
      by (rewrite Nat2Z.inj_succ, Z.pow_succ_r; lia).
    assert (1 <= factor ^ Z.of_nat e) as Hpow
      by (pose proof (Z.pow_pos_nonneg factor (Z.of_nat e)); lia).
    destruct (result <=? ulimit / factor) eqn:Hle.
    + specialize (IH (result * factor) Hf ltac:(nia)).
      destruct (Main.scale e factor ulimit (result * factor)) as [r err].
      destruct err; lia.
    + apply Z.leb_gt in Hle.
      assert (ulimit < result * factor) as Hlt.
      { pose proof (Z.mul_succ_div_gt ulimit factor Hf). nia. }
      nia.
Qed.

Section NumberFacts.

Variable sys : os.
Variable invocation_name : string.

Abbreviation getnum' := (Main.getnum sys invocation_name).

Lemma getnum_cases verbosity ptr llimit ulimit w r w' :
  getnum' verbosity ptr llimit ulimit w = (r, w') ->
  match r with
  | Return n => llimit <= n <= ulimit /\ w' = w
  | Exit status => status = 1 /\ (verbosity < 0 -> w' = w)
  end.
Proof.
  unfold Main.getnum, show_error. intros Hrun. munfold.
  repeat (case_match; simplify_eq/=); try (split; [done|]; intros; lia).
  all: try (split; [lia|done]).
  all: try (split; [done|]; intros Hq;
            repeat match goal with
            | H : (_ <? _) = false |- _ => apply Z.ltb_ge in H
            end; lia).
Qed.

(** X1. Whatever [strtoull] makes of the text, a number that [getnum]
    returns lies within the limits given, and then nothing was written;
    otherwise the process ends with status 1, silently when quiet. *)
Theorem getnum_within_limits verbosity ptr llimit ulimit w :
  let run := Main.getnum sys invocation_name verbosity ptr llimit ulimit w in
  match run.1 with
  | Return n => llimit <= n <= ulimit /\ run.2 = w
  | Exit status => status = 1 /\ (verbosity < 0 -> run.2 = w)
  end.
Proof.
  cbn zeta.
  destruct (getnum' verbosity ptr llimit ulimit w) as [r w'] eqn:Hrun.
  apply getnum_cases in Hrun. by destruct r.
Qed.

(** X2. A number followed by a multiplier: [getnum] returns the number
    times 1000 or 1024 (with an [i] after the letter) to the power the
    letter stands for if the product is within the limits, and ends the
    process with status 1 if it is not; the product is formed without
    ever passing the upper limit. *)
Theorem getnum_multiplier verbosity ptr llimit ulimit v consumed c rest w :
  strtoull sys ptr = (v, consumed, false) ->
  consumed <> 0%nat ->
  drop consumed (list_ascii_of_string ptr) = c :: rest ->
  0 <= v ->
  let factor := match rest with
                | c1 :: _ => if Ascii.eqb c1 "i" then 1024 else 1000
                | [] => 1000
                end in
  let exponent := Main.multiplier_exponent c factor in
  exponent <> 0%nat ->
  let n := v * factor ^ Z.of_nat exponent in
  if (llimit <=? n) && (n <=? ulimit) then
    getnum' verbosity ptr llimit ulimit w = (Return n, w)
  else (getnum' verbosity ptr llimit ulimit w).1 = Exit 1.
Proof.
  intros Hparse Hcons Htail Hv factor exponent Hexp n.
  assert (0 < factor) as Hf.
  { subst factor. destruct rest as [|c1 ?]; [lia|]. by destruct (Ascii.eqb _ _). }
  pose proof (scale_spec exponent factor ulimit v Hf Hv) as Hscale.
  unfold Main.getnum. rewrite Hparse.
  rewrite bool_decide_eq_false_2 by done.
  rewrite Htail. fold factor. fold exponent.
  subst n. clearbody exponent. clearbody factor.
  destruct exponent as [|e]; [done|].
  set (n := v * factor ^ Z.of_nat (S e)) in *.
  destruct (Main.scale (S e) factor ulimit v) as [r err].
  destruct err.
  - assert ((llimit <=? n) && (n <=? ulimit) = false) as ->.
    { apply andb_false_iff. right. apply Z.leb_gt. lia. }
    cbn [orb]. unfold bind, ret.
    by destruct (show_error _ _ _ _ _ _ w).
  - subst r. cbn [orb].
    destruct (llimit <=? n) eqn:Hl, (n <=? ulimit) eqn:Hu; cbn [andb].
    + apply Z.leb_le in Hl, Hu.
      rewrite (proj2 (Z.ltb_ge n llimit)), (proj2 (Z.ltb_ge ulimit n)) by lia.
      done.
    + apply Z.leb_gt in Hu. rewrite (proj2 (Z.ltb_lt ulimit n)) by lia.
      rewrite orb_true_r.
      unfold bind, ret. by destruct (show_error _ _ _ _ _ _ w).
    + apply Z.leb_gt in Hl. rewrite (proj2 (Z.ltb_lt n llimit)) by lia.
      cbn [orb].
      unfold bind, ret. by destruct (show_error _ _ _ _ _ _ w).
    + apply Z.leb_gt in Hl. rewrite (proj2 (Z.ltb_lt n llimit)) by lia.
      cbn [orb].
      unfold bind, ret. by destruct (show_error _ _ _ _ _ _ w).
Qed.

(** The two ways through [get_dict_size]: a number of bits, or a size
    checked by [getnum]. *)
Lemma get_dict_size_cases verbosity arg w :
  (forall n w',
     Main.get_dict_size sys invocation_name verbosity arg w = (Return n, w') ->
     isvalid_ds n = true /\ w' = w) /\
  (forall bits consumed,
     strtol sys arg = (bits, consumed) ->
     12 <= bits <= 29 ->
     drop consumed (list_ascii_of_string arg) = [] ->
     Main.get_dict_size sys invocation_name verbosity arg w =
       (Return (2 ^ bits), w)).
Proof.
  split.
  - intros n w' Hrun. unfold Main.get_dict_size in Hrun.
    destruct (strtol sys arg) as [bits consumed].
    destruct (_ && _) eqn:Hbits.
    + unfold ret in Hrun. injection Hrun as <- <-. split; [|done].
      apply andb_true_iff in Hbits as [Hbits _].
      apply andb_true_iff in Hbits as [Hlo Hhi].
      unfold min_dictionary_bits, max_dictionary_bits in *.
      unfold isvalid_ds, min_dictionary_size, max_dictionary_size,
        min_dictionary_bits, max_dictionary_bits.
      rewrite !Z.shiftl_1_l.
      apply andb_true_iff. split; apply Z.leb_le;
        apply Z.pow_le_mono_r; lia.
    + apply getnum_cases in Hrun. cbn in Hrun.
      destruct Hrun as [Hn ->]. split; [|done].
      unfold isvalid_ds. apply andb_true_iff. split; apply Z.leb_le; lia.
  - intros bits consumed Hparse Hbits Htail.
    unfold Main.get_dict_size. rewrite Hparse, Htail.
    unfold min_dictionary_bits, max_dictionary_bits.
    rewrite bool_decide_eq_true_2 by done.
    assert ((12 <=? bits) && (bits <=? 29) = true) as -> by lia.
    cbn [andb]. by rewrite Z.shiftl_1_l.
Qed.

(** X3. A dictionary size that [get_dict_size] returns is valid: a number
    of bits from 12 to 29 that fills the argument stands for that power
    of two, and anything else goes through [getnum] with the limits of
    the format. *)
Theorem get_dict_size_valid verbosity arg w :
  (forall n w',
     Main.get_dict_size sys invocation_name verbosity arg w = (Return n, w') ->
     isvalid_ds n = true /\ w' = w) /\
  (forall bits consumed,
     strtol sys arg = (bits, consumed) ->
     12 <= bits <= 29 ->
     drop consumed (list_ascii_of_string arg) = [] ->
     Main.get_dict_size sys invocation_name verbosity arg w =
       (Return (2 ^ bits), w)).
Proof.
  exact (get_dict_size_cases verbosity arg w).
Qed.

End NumberFacts.

Lemma getnum_within_limits_witness :
  let run := Main.getnum quiet_os "clzip" (-1) "abc" 0 100 world0 in
  run.1 = Exit 1 /\ run.2 = world0.
Proof.
  intros run.
  pose proof (getnum_within_limits quiet_os "clzip" (-1) "abc" 0 100 world0)
    as H.
  cbn zeta in H. fold run in H.
  assert (run.1 = Exit 1) as E by (vm_compute; reflexivity).
  rewrite E in H. destruct H as [_ H]. split; [done|]. apply H. lia.
Defined.

(** "4Ki" is 4096 and "64k" is 64000; "1Gi" is beyond a limit of
    2^29. *)
Lemma getnum_multiplier_witness :
  Main.getnum quiet_os "clzip" 0 "4Ki" 4096 (2 ^ 29) world0 =
    (Return 4096, world0) /\
  Main.getnum quiet_os "clzip" 0 "64k" 4096 (2 ^ 29) world0 =
    (Return 64000, world0) /\
  (Main.getnum quiet_os "clzip" 0 "1Gi" 4096 (2 ^ 29) world0).1 = Exit 1.
Proof.
  split; [|split].
  - apply (getnum_multiplier quiet_os "clzip" 0 "4Ki" 4096 (2 ^ 29) 4 1%nat
             "K"%char ["i"%char] world0); [reflexivity|lia|reflexivity|lia|].
    vm_compute. lia.
  - apply (getnum_multiplier quiet_os "clzip" 0 "64k" 4096 (2 ^ 29) 64 2%nat
             "k"%char [] world0); [reflexivity|lia|reflexivity|lia|].
    vm_compute. lia.
  - apply (getnum_multiplier quiet_os "clzip" 0 "1Gi" 4096 (2 ^ 29) 1 1%nat
             "G"%char ["i"%char] world0); [reflexivity|lia|reflexivity|lia|].
    vm_compute. lia.
Defined.

(** "-s 16" is 64 KiB. *)
Lemma get_dict_size_valid_witness :
  Main.get_dict_size quiet_os "clzip" 0 "16" world0 = (Return 65536, world0) /\
  isvalid_ds 65536 = true.
Proof.
  destruct (get_dict_size_valid quiet_os "clzip" 0 "16" world0)
    as [Hvalid Hbits].
  assert (Main.get_dict_size quiet_os "clzip" 0 "16" world0 =
          (Return 65536, world0)) as Heq.
  { apply (Hbits 16 2%nat); [reflexivity|lia|reflexivity]. }
  split; [done|]. by destruct (Hvalid _ _ Heq).
Defined.

(** ** The configuration that the options leave *)

Section ConfigurationFacts.

Variable sys : os.
Variable invocation_name : string.

Abbreviation option' := (Main.process_option sys invocation_name).
Abbreviation options' := (Main.process_options sys invocation_name).

Lemma option_mapping_valid n o :
  Main.option_mapping !! n = Some o ->
  isvalid_ds (Main.dictionary_size o) = true /\
  min_match_len_limit <= Main.match_len_limit o <= max_match_len.
Proof.
  unfold Main.option_mapping.
  do 10 (destruct n as [|n]; [intros [= <-]; by vm_compute|]).
  done.
Qed.

Lemma process_option_valid a l w l' w' :
  valid_configuration l ->
  option' a l w = (Return l', w') ->
  valid_configuration l'.
Proof.
  unfold valid_configuration.
  intros (Hds & Hml & Hms & Hvs & Hv) Hrun.
  unfold Main.process_option in Hrun.
  repeat match type of Hrun with
  | context [if ?c then _ else _] => destruct c eqn:?
  end.
  all: try (unfold ret in Hrun; injection Hrun as <- <-; cbn; done).
  all: try (unfold Main.set_mode in Hrun; munfold;
            repeat case_match; simplify_eq/=; done).
  all: try (unfold bind, ret in Hrun;
            match type of Hrun with
            | context [Main.getnum ?s ?i ?v ?p ?lo ?hi ?w0] =>
                destruct (Main.getnum s i v p lo hi w0)
                  as [[n|status0] w1] eqn:Hnum;
                [|by inversion Hrun];
                apply getnum_cases in Hnum as [Hn _];
                injection Hrun as <- <-; cbn; repeat split; auto; lia
            | context [Main.get_dict_size ?s ?i ?v ?p ?w0] =>
                destruct (Main.get_dict_size s i v p w0)
                  as [[n|status0] w1] eqn:Hnum;
                [|by inversion Hrun];
                apply (get_dict_size_cases s i v p w0) in Hnum as [Hn _];
                injection Hrun as <- <-; cbn; repeat split; auto; lia
            end).
  all: try (unfold Main.show_help, Main.show_version in Hrun; munfold;
            by simplify_eq).
  all: try (pose proof (internal_error_status (A := Main.locals)
                          (Main.verbosity l) "uncaught option." w) as Hs;
            by rewrite Hrun in Hs).
  all: unfold ret in Hrun; injection Hrun as <- <-; cbn.
  all: try (repeat split; auto; lia).
  destruct (Main.option_mapping !! _) as [o|] eqn:Ho; cbn.
  - apply option_mapping_valid in Ho. by destruct Ho.
  - done.
Qed.

(** The loop over the options consumes the options up to the first
    non-option, one call of [process_option] each. *)
Lemma process_options_split args :
  forall l w l' rest w',
  options' args l w = (Return (l', rest), w') ->
  exists pre,
    args = pre ++ rest /\
    Forall (fun a => Main.code a <> 0) pre /\
    options' pre l w = (Return (l', []), w').
Proof.
  induction args as [|a args IH]; intros l w l' rest w' Hrun.
  - injection Hrun as <- <- <-. by exists [].
  - cbn [Main.process_options] in Hrun.
    destruct (Main.code a =? 0) eqn:Hcode.
    + injection Hrun as <- <- <-. by exists [].
    + unfold bind in Hrun.
      destruct (option' a l w) as [[l1|status] w1] eqn:Hopt; [|done].
      apply IH in Hrun as (pre & -> & Hpre & Hrun).
      exists (a :: pre). split; [done|]. split.
      * constructor; [|done]. by apply Z.eqb_neq.
      * cbn [Main.process_options]. rewrite Hcode. unfold bind.
        by rewrite Hopt.
Qed.

Lemma process_options_valid args :
  forall l w l' rest w',
  valid_configuration l ->
  options' args l w = (Return (l', rest), w') ->
  valid_configuration l'.
Proof.
  induction args as [|a args IH]; intros l w l' rest w' Hl Hrun.
  - by injection Hrun as <- <- <-.
  - cbn [Main.process_options] in Hrun.
    destruct (Main.code a =? 0); [by injection Hrun as <- <- <-|].
    unfold bind in Hrun.
    destruct (option' a l w) as [[l1|status] w1] eqn:Hopt; [|done].
    eapply IH; [|exact Hrun]. by eapply process_option_valid.
Qed.

Lemma initial_locals_valid : valid_configuration Main.initial_locals.
Proof.
  unfold valid_configuration. cbn.
  repeat split; try reflexivity; try (by left); vm_compute; discriminate.
Qed.

(** X4. Whatever the options are, the variables that [main] gets from
    them are within their limits: a valid dictionary size, a match
    length limit from 5 to 273, a member size from 100000 to 2 PiB, a
    volume size that is 0 or from 100000 to 4 EiB, and a verbosity from
    -1 to 4. So [compress] is never called with a match length limit or
    a dictionary size that the format excludes. *)
Theorem options_leave_valid_configuration args w l rest w' :
  options' args Main.initial_locals w = (Return (l, rest), w') ->
  valid_configuration l.
Proof. apply process_options_valid, initial_locals_valid. Qed.

Lemma process_option_mode a l w l' w' :
  option' a l w = (Return l', w') ->
  match mode_of_option a with
  | Some m =>
      Main.program_mode l' = m /\
      (Main.program_mode l = Main.m_compress \/ Main.program_mode l = m)
  | None => Main.program_mode l' = Main.program_mode l
  end.
Proof.
  intros Hrun. unfold mode_of_option.
  unfold Main.process_option in Hrun.
  destruct ((Main.chr "0" <=? Main.code a) && (Main.code a <=? Main.chr "9"))
    eqn:Hlevel.
  { assert (48 <= Main.code a <= 57) as Hcode.
    { apply andb_true_iff in Hlevel as [H1 H2].
      apply Z.leb_le in H1, H2.
      change (Main.chr "0") with 48 in H1.
      change (Main.chr "9") with 57 in H2. lia. }
    repeat match goal with
    | |- context [Main.code a =? Main.chr ?c] =>
        let H := fresh in
        destruct (Main.code a =? Main.chr c) eqn:H;
        [apply Z.eqb_eq in H;
         (let v := eval vm_compute in (Main.chr c) in
          change (Main.chr c) with v in H); lia|clear H]
    end.
    unfold ret in Hrun. by injection Hrun as <- <-. }
  repeat match type of Hrun with
  | context [if Main.code a =? ?c then _ else _] =>
      let H := fresh "Hc" in
      destruct (Main.code a =? c) eqn:H;
      [apply Z.eqb_eq in H; rewrite H in *|]
  end.
  all: repeat match goal with
       | |- context [?x =? ?y] =>
           let H := fresh in
           destruct (x =? y) eqn:H;
           [apply Z.eqb_eq in H; try (by vm_compute in H)|clear H]
       end.
  all: try (unfold ret in Hrun; by injection Hrun as <- <-).
  all: try (unfold Main.set_mode in Hrun; munfold;
            repeat (case_match; simplify_eq/=);
            repeat match goal with
            | H : bool_decide _ = true |- _ => apply bool_decide_eq_true in H
            | H : negb _ = false |- _ => apply negb_false_iff in H
            | H : _ && _ = false |- _ => apply andb_false_iff in H as [H|H]
            end; by auto).
  all: try (unfold bind, ret in Hrun;
            match type of Hrun with
            | context [Main.getnum ?s ?i ?v ?p ?lo ?hi ?w0] =>
                destruct (Main.getnum s i v p lo hi w0) as [[n|status0] w1];
                by simplify_eq/=
            | context [Main.get_dict_size ?s ?i ?v ?p ?w0] =>
                destruct (Main.get_dict_size s i v p w0)
                  as [[n|status0] w1];
                by simplify_eq/=
            end).
  all: try (unfold Main.show_help, Main.show_version in Hrun; munfold;
            by simplify_eq).
  all: try (unfold ret in Hrun; injection Hrun as <- <-; by case_match).
  pose proof (internal_error_status (A := Main.locals) (Main.verbosity l)
                "uncaught option." w) as Hs.
  by rewrite Hrun in Hs.
Qed.

Lemma mode_of_option_not_compress a m :
  mode_of_option a = Some m -> m <> Main.m_compress.
Proof. unfold mode_of_option. by repeat case_match; intros [= <-]. Qed.

Lemma process_options_modes pre :
  forall l w l' w',
  options' pre l w = (Return (l', []), w') ->
  (forall a m, a ∈ pre -> mode_of_option a = Some m ->
               Main.program_mode l' = m) /\
  (Main.program_mode l <> Main.m_compress ->
   Main.program_mode l' = Main.program_mode l) /\
  ((forall a, a ∈ pre -> mode_of_option a = None) ->
   Main.program_mode l' = Main.program_mode l).
Proof.
  induction pre as [|a pre IH]; intros l w l' w' Hrun.
  - injection Hrun as <- <-. split; [|done].
    intros a m Hin. by apply elem_of_nil in Hin.
  - cbn [Main.process_options] in Hrun.
    destruct (Main.code a =? 0); [done|].
    unfold bind in Hrun.
    destruct (option' a l w) as [[l1|status] w1] eqn:Hopt; [|done].
    apply process_option_mode in Hopt.
    destruct (IH _ _ _ _ Hrun) as (IH1 & IH2 & IH3).
    split; [|split].
    + intros a0 m [->|Hin]%elem_of_cons Hm; [|by eapply IH1].
      rewrite Hm in Hopt. destruct Hopt as [<- _].
      apply IH2. by eapply mode_of_option_not_compress.
    + intros Hl. rewrite IH2.
      * destruct (mode_of_option a); [|done]. destruct Hopt as [-> [?|?]]; done.
      * destruct (mode_of_option a); [|by rewrite Hopt].
        destruct Hopt as [-> [?|?]]; [done|by subst].
    + intros Hnone. rewrite IH3.
      * rewrite (Hnone a) in Hopt; [done|]. apply list_elem_of_here.
      * intros a0 Hin. apply Hnone. by apply list_elem_of_further.
Qed.

(** X5. Only one operation can be specified: when the options are
    accepted, every one of -d, -t and -l among them asks for the mode
    that results, and without any of them the mode is left as it was
    (compress, at the start). *)
Theorem one_operation args l w l' rest w' :
  options' args l w = (Return (l', rest), w') ->
  exists pre,
    args = pre ++ rest /\
    Forall (fun a => Main.code a <> 0) pre /\
    (forall a m, a ∈ pre -> mode_of_option a = Some m ->
                 Main.program_mode l' = m) /\
    ((forall a, a ∈ pre -> mode_of_option a = None) ->
     Main.program_mode l' = Main.program_mode l).
Proof.
  intros Hrun.
  apply process_options_split in Hrun as (pre & -> & Hpre & Hrun).
  exists pre. split; [done|]. split; [done|].
  apply process_options_modes in Hrun as (H1 & _ & H3). by split.
Qed.

End ConfigurationFacts.

(** The options "-s 16 -m 20" before a file name. *)
Lemma options_leave_valid_configuration_witness :
  exists l w',
    Main.process_options quiet_os "clzip"
      [arg "s" "16"; arg "m" "20"; file "x"] Main.initial_locals world0 =
      (Return (l, [file "x"]), w') /\
    Main.dictionary_size (Main.encoder_options l) = 65536 /\
    Main.match_len_limit (Main.encoder_options l) = 20 /\
    valid_configuration l.
Proof.
  destruct (Main.process_options quiet_os "clzip"
              [arg "s" "16"; arg "m" "20"; file "x"] Main.initial_locals
              world0) as [r w'] eqn:Hrun.
  assert (exists l, r = Return (l, [file "x"]) /\
                    Main.dictionary_size (Main.encoder_options l) = 65536 /\
                    Main.match_len_limit (Main.encoder_options l) = 20)
    as (l & -> & Hds & Hml).
  { vm_compute in Hrun. injection Hrun as <- _. by eexists. }
  exists l, w'. split; [done|]. split; [done|]. split; [done|].
  exact (options_leave_valid_configuration quiet_os "clzip" _ _ _ _ _ Hrun).
Defined.

(** The options "-t -v -t" are accepted, and ask for a test. *)
Lemma one_operation_witness :
  exists l w',
    Main.process_options quiet_os "clzip"
      [arg "t" ""; arg "v" ""; arg "t" ""; file "x"] Main.initial_locals
      world0 = (Return (l, [file "x"]), w') /\
    Main.program_mode l = Main.m_test.
Proof.
  destruct (Main.process_options quiet_os "clzip"
              [arg "t" ""; arg "v" ""; arg "t" ""; file "x"]
              Main.initial_locals world0) as [r w'] eqn:Hrun.
  assert (exists l, r = Return (l, [file "x"])) as (l & ->).
  { vm_compute in Hrun. injection Hrun as <- _. by eexists. }
  exists l, w'. split; [done|].
  destruct (one_operation quiet_os "clzip" _ _ _ _ _ _ Hrun)
    as (pre & Happ & _ & Hmode & _).
  assert (pre = [arg "t" ""; arg "v" ""; arg "t" ""]) as ->.
  { change [arg "t" ""; arg "v" ""; arg "t" ""; file "x"]
      with ([arg "t" ""; arg "v" ""; arg "t" ""] ++ [file "x"]) in Happ.
    by apply app_inv_tail in Happ. }
  apply (Hmode (arg "t" "")); [apply list_elem_of_here|reflexivity].
Defined.

(** ** Names of output files *)

Lemma string_length_list (s : string) :
  String.length s = length (list_ascii_of_string s).
Proof. induction s as [|c s IH]; simpl; [done|]. by rewrite IH. Qed.

Lemma string_app_inj_l (a b c : string) : a +:+ b = a +:+ c -> b = c.
Proof. induction a as [|x a IH]; simpl; [done|]. intros [= H]. by apply IH. Qed.

Lemma string_app_length (a b : string) :
  String.length (a +:+ b) = (String.length a + String.length b)%nat.
Proof. induction a as [|x a IH]; simpl; [done|]. by rewrite IH. Qed.

(** [name] ends with [ext] and is longer than it. *)
Lemma ends_with_spec name ext :
  Main.ends_with name ext = true <->
  exists base, base <> "" /\ name = base +:+ ext.
Proof.
  unfold Main.ends_with. rewrite andb_true_iff, !bool_decide_eq_true. split.
  - intros [Hlen Hdrop].
    exists (string_of_list_ascii
              (take (length (list_ascii_of_string name) -
                     length (list_ascii_of_string ext))
                 (list_ascii_of_string name))).
    split.
    + intros Hempty.
      apply (f_equal String.length) in Hempty.
      rewrite string_length_list, list_ascii_of_string_of_list_ascii,
        length_take in Hempty. simpl in Hempty. lia.
    + pose proof (take_drop (length (list_ascii_of_string name) -
                             length (list_ascii_of_string ext))
                    (list_ascii_of_string name)) as H.
      rewrite Hdrop in H.
      apply (f_equal string_of_list_ascii) in H.
      by rewrite string_of_list_ascii_of_string, string_of_list_ascii_app,
        string_of_list_ascii_of_string in H.
  - intros (base & Hbase & ->).
    rewrite list_ascii_of_string_app, length_app. split.
    + destruct base; [done|]. simpl. lia.
    + replace (length (list_ascii_of_string base) +
               length (list_ascii_of_string ext) -
               length (list_ascii_of_string ext))%nat
        with (length (list_ascii_of_string base)) by lia.
      by rewrite drop_app_length.
Qed.

(** What each value of [extension_index] says about the name. *)
Lemma extension_index_cases name :
  (Main.extension_index name = 0 <->
   exists base, base <> "" /\ name = base +:+ ".lz") /\
  (Main.extension_index name = 1 <->
   exists base, base <> "" /\ name = base +:+ ".tlz") /\
  (Main.extension_index name = 0 \/ Main.extension_index name = 1 \/
   Main.extension_index name = -1).
Proof.
  unfold Main.extension_index, known_extensions. cbn [Main.extension_index_from].
  pose proof (ends_with_spec name ".lz") as Hlz.
  pose proof (ends_with_spec name ".tlz") as Htlz.
  destruct (Main.ends_with name ".lz") eqn:E0.
  - split; [|split]; [tauto| |auto].
    split; [done|]. intros (base & _ & Hname).
    destruct (proj1 Hlz eq_refl) as (base' & _ & Hname').
    exfalso. subst name.
    apply (f_equal list_ascii_of_string) in Hname'.
    rewrite !list_ascii_of_string_app in Hname'.
    change (list_ascii_of_string ".tlz") with (["."; "t"]%char ++
      list_ascii_of_string "lz") in Hname'.
    change (list_ascii_of_string ".lz") with (["."]%char ++
      list_ascii_of_string "lz") in Hname'.
    rewrite !app_assoc in Hname'. apply app_inv_tail in Hname'.
    apply (f_equal last) in Hname'.
    replace (list_ascii_of_string base ++ ["."; "t"]%char)
      with ((list_ascii_of_string base ++ ["."]%char) ++ ["t"]%char)
      in Hname' by (by rewrite <- app_assoc).
    by rewrite !last_snoc in Hname'.
  - cbn [Z.add]. destruct (Main.ends_with name ".tlz") eqn:E1.
    + split; [|split]; [|tauto|auto].
      split; [done|]. intros H. apply Hlz in H. done.
    + split; [|split]; [| |auto].
      * split; [done|]. intros H. apply Hlz in H. done.
      * split; [done|]. intros H. apply Htlz in H. done.
Qed.

(** X6. [extension_index] tells the known extensions apart: it is 0
    exactly for a name that is some non-empty text followed by ".lz", 1
    exactly for one followed by ".tlz", and -1 for every other name. *)
Theorem extension_index_spec name :
  (Main.extension_index name = 0 <->
   exists base, base <> "" /\ name = base +:+ ".lz") /\
  (Main.extension_index name = 1 <->
   exists base, base <> "" /\ name = base +:+ ".tlz") /\
  (Main.extension_index name = 0 \/ Main.extension_index name = 1 \/
   Main.extension_index name = -1).
Proof.
  exact (extension_index_cases name).
Qed.

Lemma string_app_empty_r (s : string) : s +:+ "" = s.
Proof.
  induction s as [|c s IH]; [done|].
  change (String c (s +:+ "") = String c s). by f_equal.
Qed.

(** [set_d_outname] on a name with a known extension replaces the
    extension, and writes nothing. *)
Lemma set_d_outname_known verbosity base eindex from to w :
  known_extensions !! Z.to_nat eindex = Some (from, to) ->
  0 <= eindex ->
  base <> "" ->
  Main.set_d_outname verbosity (base +:+ from) eindex w =
    (tt, with_output_filename (base +:+ to) w).
Proof.
  intros Hext Hindex Hbase. unfold Main.set_d_outname.
  rewrite (proj2 (Z.leb_le 0 eindex) Hindex), Hext.
  rewrite string_app_length.
  assert ((String.length from <? String.length base + String.length from)%nat
          = true) as ->.
  { apply Nat.ltb_lt. destruct base; [done|]. simpl. lia. }
  replace (String.length base + String.length from - String.length from)%nat
    with (length (list_ascii_of_string base))
    by (rewrite <- string_length_list; lia).
  rewrite list_ascii_of_string_app, take_app_length.
  by rewrite string_of_list_ascii_of_string.
Qed.

(** X7. The names round-trip: compressing [name] one-to-one writes to
    [name] followed by ".lz", and decompressing that file writes back to
    [name], without a warning; a ".tlz" file is decompressed to the same
    name with ".tar". *)
Theorem outname_round_trip name filenames_given verbosity w w' :
  name <> "" ->
  let cname :=
    output_filename (Main.set_c_outname name filenames_given true false w).2 in
  cname = name +:+ ".lz" /\
  Main.set_d_outname verbosity cname (Main.extension_index cname) w' =
    (tt, with_output_filename name w') /\
  Main.set_d_outname verbosity (name +:+ ".tlz")
    (Main.extension_index (name +:+ ".tlz")) w' =
    (tt, with_output_filename (name +:+ ".tar") w').
Proof.
  intros Hname cname.
  assert (cname = name +:+ ".lz") as -> by reflexivity.
  destruct (extension_index_cases (name +:+ ".lz")) as ((_ & H0) & _ & _).
  destruct (extension_index_cases (name +:+ ".tlz")) as (_ & (_ & H1) & _).
  rewrite H0, H1 by eauto.
  split; [done|]. split.
  - rewrite (set_d_outname_known verbosity name 0 ".lz" "" w') by done.
    by rewrite string_app_empty_r.
  - by rewrite (set_d_outname_known verbosity name 1 ".tlz" ".tar" w').
Qed.

(** X8. One-to-one, the output file is never the input file: the name
    that [set_c_outname] makes is longer than the input's, and the one
    that [set_d_outname] makes for the index that [extension_index]
    gives is shorter, longer, or ends in ".tar" where the input's ends
    in ".tlz". *)
Theorem outname_differs name multifile verbosity w :
  output_filename (Main.set_c_outname name true true multifile w).2 <> name /\
  output_filename
    (Main.set_d_outname verbosity name (Main.extension_index name) w).2
    <> name.
Proof.
  split.
  - unfold Main.set_c_outname, modify. cbn.
    intros Heq. apply (f_equal String.length) in Heq.
    destruct multifile; rewrite !string_app_length in Heq; simpl in Heq; lia.
  - destruct (extension_index_cases name) as ((H0 & _) & (H1 & _) & Hcases).
    destruct Hcases as [E|[E|E]].
    + destruct (H0 E) as (base & Hbase & ->). rewrite E.
      rewrite (set_d_outname_known verbosity base 0 ".lz" "" w) by done.
      cbn. intros Heq. apply (f_equal String.length) in Heq.
      rewrite !string_app_length in Heq. simpl in Heq. lia.
    + destruct (H1 E) as (base & Hbase & ->). rewrite E.
      rewrite (set_d_outname_known verbosity base 1 ".tlz" ".tar" w) by done.
      cbn. intros Heq. by apply string_app_inj_l in Heq.
    + rewrite E. unfold Main.set_d_outname. cbn [Z.leb Z.compare].
      munfold. case_match; cbn; intros Heq;
        apply (f_equal String.length) in Heq;
        rewrite !string_app_length in Heq; simpl in Heq; lia.
Qed.

(** "data" gives "data.lz", which gives "data" back; "a.tlz" gives
    "a.tar". *)
Lemma outname_round_trip_witness :
  output_filename (Main.set_c_outname "data" true true false world0).2 =
    "data.lz" /\
  Main.set_d_outname 0 "data.lz" (Main.extension_index "data.lz") world0 =
    (tt, with_output_filename "data" world0) /\
  Main.set_d_outname 0 "a.tlz" (Main.extension_index "a.tlz") world0 =
    (tt, with_output_filename "a.tar" world0).
Proof.
  destruct (outname_round_trip "data" true 0 world0 world0) as (H1 & H2 & _);
    [done|].
  destruct (outname_round_trip "a" true 0 world0 world0) as (_ & _ & H3);
    [done|].
  split; [exact H1|]. split; [exact H2|exact H3].
Defined.

(** ** The dump of trailing data *)

Lemma hex_dump_bounded data :
  forall buf,
  (length buf <= sizeof_buf)%nat ->
  (length buf <= length (hex_dump data buf) <= sizeof_buf)%nat.
Proof.
  unfold sizeof_buf.
  induction data as [|d data IH]; intros buf Hlen; cbn [hex_dump]; [lia|].
  case_bool_decide as Hroom; [|lia].
  unfold sizeof_buf in Hroom.
  specialize (IH (buf ++ [xdigit (N.shiftr (Byte.to_N d) 4);
                          xdigit (N.land (Byte.to_N d) 15); " "%char])).
  rewrite length_app in IH. cbn [length] in IH. lia.
Qed.

Lemma text_dump_bounded data :
  forall buf,
  (length buf <= sizeof_buf)%nat ->
  (length buf <= length (text_dump data buf) <= sizeof_buf)%nat.
Proof.
  unfold sizeof_buf.
  induction data as [|d data IH]; intros buf Hlen; cbn [text_dump]; [lia|].
  case_bool_decide as Hroom; [|lia].
  unfold sizeof_buf in Hroom.
  specialize (IH (buf ++ [if isprint d then ascii_of_byte d else "."%char])).
  rewrite length_app in IH. cbn [length] in IH. lia.
Qed.

Lemma push_quote_bounded buf :
  (length buf <= sizeof_buf)%nat ->
  (length buf <= length (push_quote buf) <= sizeof_buf)%nat.
Proof.
  unfold push_quote, sizeof_buf. intros Hlen.
  case_bool_decide; [|lia]. rewrite length_app. cbn [length]. lia.
Qed.

(** X9. The dump of trailing data stays within its buffer of 80
    characters whatever the number of bytes: neither the hexadecimal
    part, nor the text part, nor the quotes are written past it, and the
    line printed has at most 79 characters. *)
Theorem trailing_dump_within_buffer (data : list byte) (all : bool) :
  let buf0 := list_ascii_of_string
                (snprintf sizeof_buf
                   ((if all then "" else "first bytes of ") +:+
                    "trailing data = ")) in
  let buf1 := push_quote (hex_dump data buf0) in
  let buf2 := push_quote (text_dump data buf1) in
  (length (hex_dump data buf0) <= 80)%nat /\
  (length buf1 <= 80)%nat /\
  (length (text_dump data buf1) <= 80)%nat /\
  (length buf2 <= 80)%nat /\
  (String.length (trailing_data_line data all) <= 79)%nat.
Proof.
  intros buf0 buf1 buf2.
  assert (length buf0 <= sizeof_buf)%nat as H0.
  { subst buf0. destruct all; vm_compute; lia. }
  pose proof (hex_dump_bounded data buf0 H0) as H1.
  pose proof (push_quote_bounded _ (proj2 H1)) as H2.
  pose proof (text_dump_bounded data _ (proj2 H2)) as H3.
  pose proof (push_quote_bounded _ (proj2 H3)) as H4.
  change sizeof_buf with 80%nat in *. subst buf1 buf2.
  split; [lia|]. split; [lia|]. split; [lia|]. split; [lia|].
  unfold trailing_data_line.
  rewrite string_length_list, list_ascii_of_string_of_list_ascii, length_take.
  unfold sizeof_buf. lia.
Qed.

Lemma hex_of_byte_spec b :
  [xdigit (N.shiftr (Byte.to_N b) 4); xdigit (N.land (Byte.to_N b) 15);
   " "%char] = hex_of_byte b.
Proof. by destruct b. Qed.

Lemma hex_dump_fits data :
  forall buf,
  (length buf + 3 * length data <= sizeof_buf)%nat ->
  hex_dump data buf = buf ++ flat_map hex_of_byte data.
Proof.
  unfold sizeof_buf.
  induction data as [|d data IH]; intros buf Hlen; cbn [hex_dump flat_map].
  - by rewrite app_nil_r.
  - cbn [length] in Hlen.
    rewrite bool_decide_eq_true_2 by (unfold sizeof_buf; lia).
    rewrite IH by (rewrite length_app; cbn [length]; lia).
    by rewrite hex_of_byte_spec, <- app_assoc.
Qed.

Lemma text_dump_fits data :
  forall buf,
  (length buf + length data <= sizeof_buf)%nat ->
  text_dump data buf = buf ++ map text_of_byte data.
Proof.
  unfold sizeof_buf.
  induction data as [|d data IH]; intros buf Hlen; cbn [text_dump map].
  - by rewrite app_nil_r.
  - cbn [length] in Hlen.
    rewrite bool_decide_eq_true_2 by (unfold sizeof_buf; lia).
    rewrite IH by (rewrite length_app; cbn [length]; lia).
    by rewrite <- app_assoc.
Qed.

Lemma string_app_assoc (a b c : string) :
  (a +:+ b) +:+ c = a +:+ (b +:+ c).
Proof.
  induction a as [|x a IH]; [done|].
  change (String x ((a +:+ b) +:+ c) = String x (a +:+ (b +:+ c))).
  by f_equal.
Qed.

Lemma flat_map_hex_length data :
  length (flat_map hex_of_byte data) = (3 * length data)%nat.
Proof. induction data as [|d data IH]; cbn; [done|]. rewrite IH. lia. Qed.

(** X10. Up to eleven bytes of trailing data (the member loop never
    passes more than six) are dumped whole: each byte as two upper-case
    hexadecimal digits and a space, then, between quotes, each byte as
    itself if printable and as a dot if not. *)
Theorem trailing_dump_complete (data : list byte) (all : bool) :
  (length data <= 11)%nat ->
  trailing_data_line data all =
  (if all then "" else "first bytes of ") +:+ "trailing data = " +:+
  string_of_list_ascii
    (flat_map hex_of_byte data ++ ["'"%char] ++
     map text_of_byte data ++ ["'"%char]).
Proof.
  intros Hlen. unfold trailing_data_line.
  set (prefix := (if all then "" else "first bytes of ") +:+
                 "trailing data = ").
  assert (snprintf sizeof_buf prefix = prefix) as ->
    by (subst prefix; destruct all; vm_compute; reflexivity).
  assert (length (list_ascii_of_string prefix) <= 31)%nat as Hp
    by (subst prefix; destruct all; vm_compute; lia).
  rewrite hex_dump_fits by (unfold sizeof_buf; lia).
  unfold push_quote at 2.
  rewrite bool_decide_eq_true_2
    by (rewrite length_app, flat_map_hex_length; unfold sizeof_buf; lia).
  rewrite text_dump_fits
    by (rewrite !length_app, flat_map_hex_length; cbn [length];
        unfold sizeof_buf; lia).
  unfold push_quote.
  rewrite bool_decide_eq_true_2
    by (rewrite !length_app, flat_map_hex_length, length_map; cbn [length];
        unfold sizeof_buf; lia).
  rewrite take_ge
    by (rewrite !length_app, flat_map_hex_length, length_map; cbn [length];
        unfold sizeof_buf; lia).
  rewrite <- !app_assoc, string_of_list_ascii_app.
  rewrite string_of_list_ascii_of_string. subst prefix.
  by rewrite string_app_assoc.
Qed.

(** The dump of the bytes 'L', 0 and 255. *)
Lemma trailing_dump_complete_witness :
  trailing_data_line ["L"; x00; xff]%byte true =
  "trailing data = 4C 00 FF 'L..'".
Proof.
  rewrite (trailing_dump_complete ["L"; x00; xff]%byte true)
    by (cbn; lia).
  reflexivity.
Defined.

(** ** Dictionary sizes in messages *)

Lemma dec_length_le4 n :
  0 <= n <= 9999 -> (String.length (dec n) <= 4)%nat.
Proof.
  intros Hn.
  assert (forallb (fun k => (String.length (dec (Z.of_nat k)) <=? 4)%nat)
            (seq 0 (Z.to_nat 10000)) = true) as Hall
    by (vm_compute; reflexivity).
  rewrite forallb_forall in Hall.
  specialize (Hall (Z.to_nat n)).
  rewrite Z2Nat.id in Hall by lia.
  apply Nat.leb_le, Hall, in_seq. lia.
Qed.

Lemma pad4_length n :
  0 <= n <= 9999 -> String.length (pad4 n) = 4%nat.
Proof.
  intros Hn. pose proof (dec_length_le4 n Hn) as Hlen.
  unfold pad4. rewrite string_app_length, string_length_list,
    list_ascii_of_string_of_list_ascii, repeat_length. lia.
Qed.

(** The loop of [format_ds] divides by 1024 once per prefix it passes,
    and stops at a number of at most four digits. *)
Lemma format_ds_loop_spec prefixes :
  forall num exact p np i0 ds,
  0 <= ds ->
  num = ds / 1024 ^ Z.of_nat i0 ->
  num < 10000 * 1024 ^ Z.of_nat (length prefixes) ->
  exists k,
    (k <= length prefixes)%nat /\
    let n' := ds / 1024 ^ Z.of_nat (i0 + k) in
    0 <= n' <= 9999 /\
    format_ds_loop prefixes num exact p np =
      match k with
      | O => (n', p, np)
      | S j => (n', default "" (prefixes !! j), "")
      end /\
    (k = 0%nat <-> num <= 9999 /\ (exact = false \/ num < 1024) \/
                   prefixes = []).
Proof.
  induction prefixes as [|prefix prefixes IH];
    intros num exact p np i0 ds Hds Hnum Hbound.
  - exists 0%nat. rewrite Nat.add_0_r, <- Hnum. cbn in *.
    assert (0 <= num) by (subst num; apply Z.div_pos; lia).
    split; [done|]. split; [lia|]. split; [done|]. tauto.
  - assert (0 <= num) as Hpos by (subst num; apply Z.div_pos; lia).
    cbn [format_ds_loop].
    destruct ((9999 <? num) || (exact && (1024 <=? num))) eqn:Hgo.
    + destruct (IH (num / 1024)
                  (if negb (num / 1024 mod 1024 =? 0) then false else exact)
                  prefix "" (S i0) ds Hds) as (k & Hk & Hn & Heq & _).
      * subst num. rewrite Z.div_div by lia.
        f_equal. rewrite Nat2Z.inj_succ, Z.pow_succ_r by lia. lia.
      * cbn [length] in Hbound.
        rewrite Nat2Z.inj_succ, Z.pow_succ_r in Hbound by lia.
        apply Z.div_lt_upper_bound; lia.
      * exists (S k). split; [cbn [length]; lia|].
        replace (i0 + S k)%nat with (S i0 + k)%nat by lia.
        split; [done|]. split.
        -- rewrite Heq. destruct k as [|j]; [done|].
           cbn [lookup list_lookup]. done.
        -- split; [done|]. intros [[Hle Hex]|?]; [|done].
           apply orb_true_iff in Hgo as [Hgo|Hgo]; [lia|].
           apply andb_true_iff in Hgo as [-> Hgo]. destruct Hex; [done|lia].
    + exists 0%nat. rewrite Nat.add_0_r, <- Hnum.
      apply orb_false_iff in Hgo as [Hle Hex].
      split; [lia|]. split; [lia|]. split; [done|].
      split; [|done]. intros _. left. split; [lia|].
      apply andb_false_iff in Hex as [->|Hlt]; [by left|right; lia].
Qed.

Lemma snprintf_short size s :
  (String.length s < size)%nat -> snprintf size s = s.
Proof.
  intros Hlen. unfold snprintf.
  rewrite take_ge by (rewrite <- string_length_list; lia).
  apply string_of_list_ascii_of_string.
Qed.

(** X11. [format_ds] shows a dictionary size as a number of at most
    four digits and a unit: the size divided (rounding down) by 1024 as
    many times as the prefix says; the text always has 8 characters, so
    that columns line up; and the size is shown in bytes exactly when it
    is below 10000 and not a multiple of 1024 that is at least 1024. *)
Theorem format_ds_spec ds :
  0 <= ds < 2 ^ 32 ->
  exists i,
    (i <= 8)%nat /\
    let num := ds / 1024 ^ Z.of_nat i in
    0 <= num <= 9999 /\
    format_ds ds =
      (match i with O => "  " | S _ => "" end) +:+ pad4 num +:+ " " +:+
      ds_unit_name i +:+ "B" /\
    String.length (format_ds ds) = 8%nat /\
    (i = 0%nat <-> ds <= 9999 /\ (ds mod 1024 <> 0 \/ ds < 1024)).
Proof.
  intros Hds.
  destruct (format_ds_loop_spec ds_prefixes ds (ds mod 1024 =? 0) "" "  "
              0%nat ds) as (k & Hk & Hn & Heq & Hzero).
  - lia.
  - by rewrite Z.pow_0_r, Z.div_1_r.
  - change (10000 * 1024 ^ Z.of_nat (length ds_prefixes))
      with (10000 * 1024 ^ 8). lia.
  - cbn [Nat.add] in *. exists k. split; [done|].
    cbv zeta. split; [done|].
    pose proof (pad4_length _ Hn) as Hpad.
    assert (String.length (ds_unit_name k) =
            match k with O => 0%nat | S _ => 2%nat end) as Hunit.
    { destruct k as [|j]; [done|]. cbn [ds_unit_name].
      cbn [length ds_prefixes] in Hk.
      do 8 (destruct j as [|j]; [done|]). lia. }
    assert (format_ds ds =
            (match k with O => "  " | S _ => "" end) +:+
            pad4 (ds / 1024 ^ Z.of_nat k) +:+ " " +:+
            ds_unit_name k +:+ "B") as Hfmt.
    { unfold format_ds. rewrite Heq.
      destruct k as [|j]; cbn [ds_unit_name];
        (rewrite snprintf_short; [done|]);
        rewrite !string_app_length, Hpad; cbn [ds_unit_name] in Hunit;
        rewrite ?Hunit; cbn; lia. }
    split; [done|]. split.
    + rewrite Hfmt, !string_app_length, Hpad, Hunit.
      destruct k; cbn; lia.
    + rewrite Hzero. split.
      * intros [[Hle Hex]|?]; [|done]. split; [done|].
        destruct Hex as [Hex|?]; [left|by right]. by apply Z.eqb_neq.
      * intros [Hle Hex]. left. split; [done|].
        destruct Hex as [Hex|?]; [left|by right]. by apply Z.eqb_neq.
Qed.

(** 4 KiB, 8 MiB (the default) and 1.5 MiB in the unit chosen; 4000
    bytes in bytes. *)
Lemma format_ds_spec_witness :
  format_ds 4096 = "   4 KiB" /\ format_ds 8388608 = "   8 MiB" /\
  format_ds 1572864 = "1536 KiB" /\ format_ds 4000 = "  4000 B" /\
  String.length (format_ds 1572864) = 8%nat.
Proof.
  destruct (format_ds_spec 1572864) as (i & _ & _ & _ & Hlen & _); [lia|].
  do 4 (split; [vm_compute; reflexivity|]). exact Hlen.
Defined.

(** ** The names of the files in messages *)

Lemma longest_name_bound (len : string -> Z) filenames :
  forall acc f,
  f ∈ filenames ->
  let longest :=
    fold_left (fun longest s => if longest <? len s then len s else longest)
      filenames acc in
  len f <= longest /\ acc <= longest.
Proof.
  induction filenames as [|g filenames IH]; intros acc f Hin.
  - by apply elem_of_nil in Hin.
  - cbn [fold_left].
    assert (forall acc0,
              acc0 <= fold_left (fun longest s =>
                                   if longest <? len s then len s else longest)
                        filenames acc0) as Hmono.
    { clear. induction filenames as [|h filenames IH]; intros acc0; [done|].
      cbn [fold_left]. etransitivity; [|apply IH]. case_match; lia. }
    apply elem_of_cons in Hin as [->|Hin].
    + split.
      * etransitivity; [|apply Hmono]. case_match; lia.
      * etransitivity; [|apply Hmono]. case_match; lia.
    + destruct (IH (if acc <? len g then len g else acc) f Hin) as [H1 H2].
      split; [done|]. etransitivity; [|exact H2]. case_match; lia.
Qed.

Lemma string_of_list_ascii_length (l : list ascii) :
  String.length (string_of_list_ascii l) = length l.
Proof.
  by rewrite string_length_list, list_ascii_of_string_of_list_ascii.
Qed.

(** X12. At verbosity 1 and above the names line up: for each file of
    the run, the name that [Pp_set_name] prepares for the messages is
    two spaces, the name ("(stdin)" for "-"), a colon and spaces up to
    the length of the longest name of the run plus 4. *)
Theorem padded_names_line_up verbosity filenames f w :
  0 < verbosity ->
  f ∈ filenames ->
  f <> "" ->
  let start := with_pp (Main.Pp_init verbosity filenames) w in
  let p := pp (Main.Pp_set_name f start).2 in
  pp_name p = (if bool_decide (f = "-") then "(stdin)" else f) /\
  (exists n, pp_padded_name p =
             "  " +:+ pp_name p +:+ ":" +:+
             string_of_list_ascii (repeat " "%char (S n))) /\
  Z.of_nat (String.length (pp_padded_name p)) =
    pp_longest_name (pp start) + 4 /\
  pp_first_post p = true.
Proof.
  intros Hv Hin Hf start p.
  set (len := fun s : string =>
                if bool_decide (s = "-") then Z.of_nat (String.length "(stdin)")
                else Z.of_nat (String.length s)).
  assert (pp_longest_name (pp start) =
          let longest := fold_left
                           (fun longest s =>
                              if longest <? len s then len s else longest)
                           filenames 0 in
          if longest =? 0 then 7 else longest) as Hlongest.
  { subst start. cbn. unfold Main.Pp_init. cbn.
    rewrite (proj2 (Z.leb_gt verbosity 0)) by lia. done. }
  pose proof (longest_name_bound len filenames 0 f Hin) as [Hlen _].
  cbv zeta in Hlen, Hlongest.
  set (longest := fold_left _ filenames 0) in *.
  assert (pp_name p = if bool_decide (f = "-") then "(stdin)" else f) as Hname.
  { subst p start. cbn. rewrite (bool_decide_eq_false_2 (f = "")) by done.
    cbn. by case_bool_decide. }
  assert (0 < len f) as Hpos.
  { subst len. cbn. case_bool_decide; [lia|]. destruct f; [done|]. cbn. lia. }
  assert (Z.of_nat (String.length (pp_name p)) = len f) as Hnlen.
  { rewrite Hname. subst len. cbn. by case_bool_decide. }
  assert (pp_padded_name p =
          "  " +:+ pp_name p +:+ ":" +:+
          string_of_list_ascii
            (repeat " "%char
               (Z.to_nat (Z.max (Z.of_nat (String.length (pp_name p)))
                                (pp_longest_name (pp start)) + 4 -
                          Z.of_nat (String.length (pp_name p)) - 3)))) as Hpad.
  { subst p start. cbn.
    rewrite (bool_decide_eq_false_2 (f = "")) by done. cbn [negb andb].
    reflexivity. }
  assert (pp_first_post p = true) as Hfp by done.
  split; [done|]. rewrite Hpad. rewrite Hnlen in *.
  clearbody longest len p start.
  assert (pp_longest_name (pp start) = longest) as ->.
  { rewrite Hlongest.
    destruct (longest =? 0) eqn:E; [apply Z.eqb_eq in E; lia|done]. }
  split; [|split; [|done]].
  - exists (Z.to_nat (Z.max (len f) longest + 4 - len f - 4)).
    replace (Z.to_nat (Z.max (len f) longest + 4 - len f - 3))
      with (S (Z.to_nat (Z.max (len f) longest + 4 - len f - 4))) by lia.
    done.
  - rewrite !string_app_length, string_of_list_ascii_length, repeat_length.
    cbn [String.length]. lia.
Qed.

Lemma padded_names_line_up_witness :
  let start := with_pp (Main.Pp_init 1 ["a.lz"; "-"; "longer.lz"]) world0 in
  pp_padded_name (pp (Main.Pp_set_name "a.lz" start).2) = "  a.lz:      " /\
  pp_padded_name (pp (Main.Pp_set_name "-" start).2) = "  (stdin):   " /\
  String.length (pp_padded_name (pp (Main.Pp_set_name "-" start).2)) =
    13%nat.
Proof.
  intros start.
  destruct (padded_names_line_up 1 ["a.lz"; "-"; "longer.lz"] "-" world0)
    as (_ & _ & Hlen & _); [lia| |done|].
  - apply list_elem_of_further, list_elem_of_here.
  - do 2 (split; [vm_compute; reflexivity|]).
    fold start in Hlen. apply Nat2Z.inj. rewrite Hlen.
    vm_compute. reflexivity.
Defined.

(** X13. The name of a file heads its messages once: after
    [Pp_set_name] the first message is preceded by the padded name and
    the next ones are not, until [Pp_reset] arms the name again (for a
    name that is not empty); below verbosity 0 nothing is written. *)
Theorem name_shown_once verbosity f msg1 msg2 msg3 w :
  let run :=
    Main.Pp_set_name f ;;;
    Pp_show_msg verbosity (Some msg1) ;;;
    Pp_show_msg verbosity (Some msg2) ;;;
    Pp_reset ;;;
    Pp_show_msg verbosity (Some msg3) in
  let p := pp (Main.Pp_set_name f w).2 in
  stderr (run w).2 =
  stderr w ++
  if verbosity <? 0 then []
  else
    [Text (pp_padded_name p); Text (msg1 +:+ nl); Text (msg2 +:+ nl)] ++
    (if bool_decide (pp_name p = "") then [] else [Text (pp_padded_name p)])
    ++ [Text (msg3 +:+ nl)].
Proof.
  cbv zeta. unfold Pp_show_msg, Pp_reset, Main.Pp_set_name. munfold.
  destruct (0 <=? verbosity) eqn:Hv.
  - rewrite (proj2 (Z.ltb_ge verbosity 0)) by lia. cbn.
    case_bool_decide; cbn; by rewrite <- !app_assoc.
  - rewrite (proj2 (Z.ltb_lt verbosity 0)) by lia. cbn.
    case_bool_decide; cbn; by rewrite app_nil_r.
Qed.

(** ** More on [decompress] *)

Section DecompressMore.

Variable sys : os.
Variable L : Lzip.decls.
Variable D : decoder.
Variable verbosity : Z.
Variable invocation_name : string.
Variable cfile_size : Z.
Variable ignore_trailing loose_trailing testing : bool.

Abbreviation member := (decompress_member sys L D verbosity cfile_size
                          ignore_trailing loose_trailing testing).
Abbreviation decompress' := (decompress sys L D verbosity invocation_name
                               cfile_size ignore_trailing loose_trailing
                               testing).
Abbreviation after_members' := (after_members sys L D verbosity cfile_size
                                  ignore_trailing loose_trailing testing).

Lemma at_first_member stream w :
  at_member sys L D verbosity cfile_size ignore_trailing loose_trailing
    testing stream w true stream 0 w.
Proof. done. Qed.

(** X14. An input that does not begin with a member is rejected
    whatever the options: if it has at most six bytes (it may be empty),
    [decompress] returns 2 after "File ends unexpectedly at member
    header."; if it is longer and does not begin with the magic bytes,
    [decompress] returns 2 after [bad_magic_msg]. Nothing else is done:
    the decoder is not run. *)
Theorem first_member_rejected stream w :
  Rd_init D w = true ->
  ((length stream <= 6)%nat ->
   decompress' stream w =
     (Some (Return 2),
      (show_file_error sys verbosity (pp_name (pp w))
         "File ends unexpectedly at member header." 0 w).2)) /\
  ((6 < length stream)%nat ->
   Lh_verify_magic (take 6 stream) = false ->
   decompress' stream w =
     (Some (Return 2),
      (show_file_error sys verbosity (pp_name (pp w)) (bad_magic_msg L) 0
         w).2)).
Proof.
  intros Hinit. split.
  - intros Hlen.
    rewrite (decompress_break sys L D verbosity invocation_name cfile_size
               ignore_trailing loose_trailing testing stream w true stream 0
               w 2
               (show_file_error sys verbosity (pp_name (pp w))
                  "File ends unexpectedly at member header." 0 w).2
               Hinit (at_first_member stream w)).
    + unfold decompress_epilogue, when. by rewrite andb_false_r.
    + unfold decompress_member, Rd_read_data.
      rewrite (Rd_finished_true stream Hlen). munfold.
      by destruct (show_file_error _ _ _ _ _ w).
  - intros Hlen Hmagic.
    rewrite (decompress_break sys L D verbosity invocation_name cfile_size
               ignore_trailing loose_trailing testing stream w true stream 0
               w 2
               (show_file_error sys verbosity (pp_name (pp w))
                  (bad_magic_msg L) 0 w).2
               Hinit (at_first_member stream w)).
    + unfold decompress_epilogue, when. by rewrite andb_false_r.
    + unfold decompress_member, Rd_read_data.
      rewrite (Rd_finished_false stream Hlen). unfold Lh_size.
      rewrite Hmagic. cbn [negb]. munfold.
      by destruct (show_file_error _ _ _ _ _ w).
Qed.

(** X15. An input that ends right after its last member is accepted:
    after one or more members that decode without error and no byte
    more, [decompress] returns 0, and at verbosity 1 it ends the line
    with "ok" when testing and "done" otherwise. *)
Theorem members_then_end stream w pos w1 :
  Rd_init D w = true ->
  Lzip.Lh_verify_prefix L [] = false ->
  after_members' stream w [] pos w1 ->
  decompress' stream w =
    (Some (Return 0),
     if verbosity =? 1
     then with_stderr
            (stderr w1 ++ [Text ((if testing then "ok" else "done") +:+ nl)])
            w1
     else w1).
Proof.
  intros Hinit Hprefix Hafter.
  rewrite (decompress_break sys L D verbosity invocation_name cfile_size
             ignore_trailing loose_trailing testing stream w false [] pos
             w1 0 w1 Hinit Hafter).
  - unfold decompress_epilogue, when, done_msg. cbn [Z.eqb].
    rewrite andb_true_r. by destruct (verbosity =? 1).
  - unfold decompress_member, Rd_read_data. cbn. by rewrite Hprefix.
Qed.

(** X16. A header cut short at the end of the input is an error whatever
    the options: after one or more members that decode without error, one
    to six bytes that pass [Lh_verify_prefix] make [decompress] return 2,
    with or without [ignore_trailing] and [loose_trailing], after the
    message "Truncated header in multimember file." and the dump of
    the bytes. *)
Theorem truncated_header_rejected stream w s pos w1 :
  Rd_init D w = true ->
  after_members' stream w s pos w1 ->
  (length s <= 6)%nat ->
  Lzip.Lh_verify_prefix L s = true ->
  decompress' stream w =
    (Some (Return 2),
     (show_trailing_data sys L verbosity s true (-1)
        (Pp_show_msg verbosity
           (Some "Truncated header in multimember file.") w1).2).2).
Proof.
  intros Hinit Hafter Hlen Hprefix.
  assert (take 6 s = s) as Htake by (apply take_ge; lia).
  rewrite (decompress_break sys L D verbosity invocation_name cfile_size
             ignore_trailing loose_trailing testing stream w false s pos
             w1 2
             (show_trailing_data sys L verbosity s true (-1)
                (Pp_show_msg verbosity
                   (Some "Truncated header in multimember file.") w1).2).2
             Hinit Hafter).
  - unfold decompress_epilogue, when. by rewrite andb_false_r.
  - unfold decompress_member, Rd_read_data.
    rewrite (Rd_finished_true s Hlen). unfold Lh_size.
    rewrite Htake, Hprefix. unfold bind, ret.
    destruct (Pp_show_msg _ _ w1) as [[] w2]. cbn [snd].
    by destruct (show_trailing_data _ _ _ _ _ _ w2).
Qed.

End DecompressMore.

(** The empty input, and a text file. *)
Lemma first_member_rejected_witness :
  (decompress quiet_os lzip_h stored_decoder 0 "clzip" 0 true true false
     [] world0).1 = Some (Return 2) /\
  (decompress quiet_os lzip_h stored_decoder 0 "clzip" 0 true true false
     ["p"; "l"; "a"; "i"; "n"; " "; "t"; "e"; "x"; "t"]%byte world0).1 =
    Some (Return 2).
Proof.
  split.
  - destruct (first_member_rejected quiet_os lzip_h stored_decoder 0 "clzip"
                0 true true false [] world0 eq_refl) as [H _].
    rewrite H by (cbn; lia). reflexivity.
  - destruct (first_member_rejected quiet_os lzip_h stored_decoder 0 "clzip"
                0 true true false
                ["p"; "l"; "a"; "i"; "n"; " "; "t"; "e"; "x"; "t"]%byte
                world0 eq_refl) as [_ H].
    rewrite H; [reflexivity|cbn; lia|reflexivity].
Defined.

(** One member and nothing more, at verbosity 1. *)
Lemma members_then_end_witness :
  exists w',
    decompress quiet_os lzip_h stored_decoder 1 "clzip" 0 true false false
      (member_ab ++ []) world0 = (Some (Return 0), w') /\
    stderr w' = [Text "  in.lz: "; Text ("done" +:+ nl)].
Proof.
  assert (after_members quiet_os lzip_h stored_decoder 1 0 true false false
            (member_ab ++ []) world0 [] 9
            (with_stderr [Text "  in.lz: "]
               (with_pp (set_first_post false pp0)
                  (with_dprogress
                     {| enabled := false; csize := 0; psize := 0;
                        armed := false; counter := 0 |} world0))))
    as Hafter.
  { eexists _, _, _. split; [|apply decodes_nil]. vm_compute. reflexivity. }
  eexists. split.
  - apply (members_then_end quiet_os lzip_h stored_decoder 1 "clzip" 0 true
             false false (member_ab ++ []) world0 9 _ eq_refl eq_refl Hafter).
  - reflexivity.
Defined.

(** A member followed by the single byte 'L'. *)
Lemma truncated_header_rejected_witness :
  (decompress quiet_os lzip_h stored_decoder 0 "clzip" 0 true true false
     (member_ab ++ ["L"]%byte) world0).1 = Some (Return 2).
Proof.
  rewrite (truncated_header_rejected quiet_os lzip_h stored_decoder 0 "clzip"
             0 true true false (member_ab ++ ["L"]%byte) world0 ["L"]%byte 9
             _ eq_refl (member_ab_then true true ["L"]%byte)).
  - reflexivity.
  - cbn. lia.
  - reflexivity.
Defined.

Section Quiet.

Variable sys : os.
Variable L : Lzip.decls.
Variable D : decoder.
Variable verbosity : Z.
Variable invocation_name : string.
Variable cfile_size : Z.
Variable ignore_trailing loose_trailing testing : bool.

Hypothesis quiet : verbosity < 0.
Hypothesis decoder_quiet :
  forall dictionary_size rest w,
    stderr (LZd_decode_member D dictionary_size rest w).2 = stderr w.

Ltac quiet_tests :=
  repeat match goal with
  | |- context [0 <=? verbosity] =>
      rewrite (proj2 (Z.leb_gt 0 verbosity)) by lia
  | |- context [1 <=? verbosity] =>
      rewrite (proj2 (Z.leb_gt 1 verbosity)) by lia
  | |- context [2 <=? verbosity] =>
      rewrite (proj2 (Z.leb_gt 2 verbosity)) by lia
  | |- context [4 <=? verbosity] =>
      rewrite (proj2 (Z.leb_gt 4 verbosity)) by lia
  | |- context [verbosity <? 0] =>
      rewrite (proj2 (Z.ltb_lt verbosity 0)) by lia
  | |- context [verbosity <? 2] =>
      rewrite (proj2 (Z.ltb_lt verbosity 2)) by lia
  | |- context [verbosity =? 1] =>
      rewrite (proj2 (Z.eqb_neq verbosity 1)) by lia
  end.

Lemma Pp_show_msg_quiet msg w : Pp_show_msg verbosity msg w = (tt, w).
Proof. unfold Pp_show_msg. by quiet_tests. Qed.

Lemma show_error_quiet msg errcode help w :
  show_error sys verbosity invocation_name msg errcode help w = (tt, w).
Proof. unfold show_error. by quiet_tests. Qed.

Lemma show_file_error_quiet name msg errcode w :
  show_file_error sys verbosity name msg errcode w = (tt, w).
Proof. unfold show_file_error. by quiet_tests. Qed.

Lemma show_trailing_data_quiet data all ignore w :
  (show_trailing_data sys L verbosity data all ignore w).2 = w.
Proof.
  unfold show_trailing_data. quiet_tests. cbn [orb]. unfold when.
  destruct (ignore <=? 0); [|done].
  unfold bind. rewrite Pp_show_msg_quiet.
  destruct (ignore =? 0); [|done].
  unfold get. by rewrite show_file_error_quiet.
Qed.

Lemma show_dprogress_quiet partial_size member_position w :
  stderr (show_dprogress sys verbosity cfile_size partial_size true
            member_position w).2 = stderr w.
Proof.
  unfold show_dprogress. quiet_tests. munfold. by repeat case_match.
Qed.

Lemma cleanup_and_fail_quiet {A : Type} retval w :
  stderr (cleanup_and_fail (A := A) sys verbosity invocation_name retval w).2
  = stderr w.
Proof.
  unfold cleanup_and_fail. quiet_tests. munfold.
  destruct (delete_output_on_interrupt w); [|done].
  repeat (case_match; cbn in *); rewrite ?show_error_quiet in *.
  all: unfold ret in *; simplify_eq; by cbn.
Qed.

Ltac quiet_step :=
  match goal with
  | H : show_file_error sys verbosity _ _ _ _ = _ |- _ =>
      rewrite show_file_error_quiet in H
  | H : Pp_show_msg verbosity _ _ = _ |- _ =>
      rewrite Pp_show_msg_quiet in H
  | H : show_error sys verbosity invocation_name _ _ _ _ = _ |- _ =>
      rewrite show_error_quiet in H
  | H : show_trailing_data sys L verbosity ?d ?a ?i ?w0 = _ |- _ =>
      let Hq := fresh in
      pose proof (show_trailing_data_quiet d a i w0) as Hq;
      rewrite H in Hq; cbn [snd] in Hq; clear H
  | H : show_dprogress sys verbosity cfile_size ?p true ?m ?w0 = _ |- _ =>
      let Hq := fresh in
      pose proof (show_dprogress_quiet p m w0) as Hq;
      rewrite H in Hq; cbn [snd] in Hq; clear H
  | H : LZd_decode_member D ?ds ?rest ?w0 = _ |- _ =>
      let Hq := fresh in
      pose proof (decoder_quiet ds rest w0) as Hq;
      rewrite H in Hq; cbn [snd] in Hq; clear H
  | H : cleanup_and_fail sys verbosity invocation_name ?r ?w0 = _ |- _ =>
      let Hq := fresh in
      pose proof (cleanup_and_fail_quiet r w0) as Hq;
      rewrite H in Hq; cbn [snd] in Hq; clear H
  end.

Lemma decompress_member_quiet retval first_member stream pos w :
  stderr (decompress_member sys L D verbosity cfile_size ignore_trailing
            loose_trailing testing retval first_member stream pos w).2 =
  stderr w.
Proof.
  unfold decompress_member, Rd_read_data. quiet_tests.
  unfold bind, ret, get, when.
  repeat case_match; try done.
  all: cbn [andb orb] in *.
  all: repeat quiet_step.
  all: unfold ret in *; simplify_eq/=; congruence.
Qed.

Lemma decompress_loop_quiet fuel :
  forall first_member stream pos w,
  stderr (decompress_loop sys L D verbosity cfile_size ignore_trailing
            loose_trailing testing fuel first_member stream pos w).2 =
  stderr w.
Proof.
  induction fuel as [|fuel IH]; intros fm stream pos w; [done|].
  cbn [decompress_loop]. unfold bind.
  pose proof (decompress_member_quiet 0 fm stream pos w) as Hm.
  destruct (decompress_member _ _ _ _ _ _ _ _ _ _ _ _ w) as [s w1].
  cbn [snd] in Hm. destruct s as [r|status|stream' pos']; cbn; [done..|].
  by rewrite IH.
Qed.

(** X17. With -q (a negative verbosity) [decompress] writes nothing to
    stderr, whatever the input and whatever goes wrong, as long as the
    decoder itself writes nothing. *)
Theorem decompress_quiet stream w :
  stderr (decompress sys L D verbosity invocation_name cfile_size
            ignore_trailing loose_trailing testing stream w).2 = stderr w.
Proof.
  unfold decompress. unfold bind, get, ret.
  destruct (negb (Rd_init D w)).
  - rewrite show_error_quiet.
    pose proof (cleanup_and_fail_quiet (A := Z) 1 w) as Hq.
    by destruct (cleanup_and_fail _ _ _ _ w).
  - pose proof (decompress_loop_quiet (S (length stream)) true stream 0 w)
      as Hq.
    destruct (decompress_loop _ _ _ _ _ _ _ _ _ _ _ _ w) as [r w1].
    cbn [snd] in Hq. unfold when. quiet_tests.
    by destruct r as [[retval|status]|].
Qed.

End Quiet.

(** The empty input and a version 2 member, with -q. *)
Lemma decompress_quiet_witness :
  stderr (decompress quiet_os lzip_h stored_decoder (-1) "clzip" 0 true
            false false [] world0).2 = [] /\
  stderr (decompress quiet_os lzip_h stored_decoder (-1) "clzip" 0 true
            false false (content "v2.lz") world0).2 = [].
Proof.
  assert (forall ds rest w,
            stderr (LZd_decode_member stored_decoder ds rest w).2 = stderr w)
    as Hdec.
  { intros ds rest w. cbn. unfold stored_decode_member.
    by repeat case_match. }
  split.
  - apply (decompress_quiet quiet_os lzip_h stored_decoder (-1) "clzip" 0
             true false false ltac:(lia) Hdec [] world0).
  - apply (decompress_quiet quiet_os lzip_h stored_decoder (-1) "clzip" 0
             true false false ltac:(lia) Hdec (content "v2.lz") world0).
Defined.

(** ** The progress indicators *)

Section ProgressFacts.

Variable sys : os.
Variable verbosity : Z.

(** X18. Progress is shown only at verbosity 2 and above on a terminal:
    otherwise the first initializing call of [show_dprogress] or
    [show_cprogress] writes nothing and switches the indicator off, and
    once it is off no call does anything, whatever its arguments. On a
    terminal at verbosity 2 and above the initializing call of
    [show_dprogress] shows the position at once. *)
Theorem progress_only_verbose_on_terminal cfile_size partial_size position w :
  (verbosity < 2 \/ stderr_isatty sys w = false ->
   let wd := (show_dprogress sys verbosity cfile_size partial_size true
                position w).2 in
   let wc := (show_cprogress sys verbosity cfile_size partial_size true
                position w).2 in
   stderr wd = stderr w /\ enabled (dprogress wd) = false /\
   stderr wc = stderr w /\ enabled (cprogress wc) = false) /\
  (forall csize psize p pos w',
     (enabled (dprogress w') = false ->
      show_dprogress sys verbosity csize psize p pos w' = (tt, w')) /\
     (enabled (cprogress w') = false ->
      show_cprogress sys verbosity csize psize p pos w' = (tt, w'))) /\
  (2 <= verbosity -> stderr_isatty sys w = true ->
   enabled (dprogress w) = true ->
   exists more,
     stderr (show_dprogress sys verbosity cfile_size partial_size true
               position w).2 =
     stderr w ++ Progress (partial_size + position) cfile_size :: more).
Proof.
  split; [|split].
  - intros Hoff. cbv zeta.
    assert ((verbosity <? 2) || negb (stderr_isatty sys w) = true) as Hcond.
    { destruct Hoff as [Hv| ->]; [|by rewrite orb_true_r].
      by rewrite (proj2 (Z.ltb_lt verbosity 2)). }
    unfold show_dprogress, show_cprogress. munfold.
    rewrite Hcond. cbn [andb].
    destruct (enabled (dprogress w)) eqn:Hd, (enabled (cprogress w)) eqn:Hc;
      cbn; by rewrite ?Hd, ?Hc.
  - intros csize psize p pos w'. split; intros Hoff;
      unfold show_dprogress, show_cprogress; munfold; by rewrite Hoff.
  - intros Hv Htty Hon.
    unfold show_dprogress, Pp_reset, Pp_show_msg. munfold.
    rewrite Hon, Htty. rewrite (proj2 (Z.ltb_ge verbosity 2)) by lia.
    rewrite (proj2 (Z.leb_le 0 verbosity)) by lia. cbn.
    repeat case_match; cbn; rewrite <- ?app_assoc; cbn; eauto.
    all: munfold; simplify_eq/=; rewrite <- ?app_assoc; eexists;
      reflexivity.
Qed.

End ProgressFacts.

Lemma progress_only_verbose_on_terminal_witness :
  stderr (show_dprogress quiet_os 2 100 0 true 6 world0).2 = [] /\
  enabled (dprogress (show_dprogress quiet_os 2 100 0 true 6 world0).2)
    = false.
Proof.
  destruct (progress_only_verbose_on_terminal quiet_os 2 100 0 6 world0)
    as (Hoff & _ & _).
  destruct Hoff as (H1 & H2 & _); [by right|]. by split.
Defined.

(** ** Input and output streams *)

Section StreamFacts.

Variable sys : os.
Variable verbosity : Z.
Variable invocation_name : string.

(** X19. Compressed data never goes through a terminal: when
    [check_tty_out] lets a compression go on, the output descriptor is
    not a terminal, and when [check_tty_in] lets a decompression or a
    test go on, the input descriptor is not one; a compression may read
    from a terminal. When [check_tty_in] refuses, the input has been
    closed and the status is at least 1. *)
Theorem no_compressed_data_on_terminal name infd mode retval w :
  ((Main.check_tty_out sys verbosity mode w).1 = true ->
   mode = Main.m_compress -> isatty sys (outfd w) w = false) /\
  (mode = Main.m_compress ->
   Main.check_tty_in sys invocation_name verbosity name infd mode retval w =
     (Return (true, retval), w)) /\
  (forall r w',
     Main.check_tty_in sys invocation_name verbosity name infd mode retval w
       = (r, w') ->
     match r with
     | Return (true, retval') =>
         retval' = retval /\ w' = w /\
         (mode = Main.m_decompress \/ mode = Main.m_test ->
          isatty sys infd w = false)
     | Return (false, retval') =>
         mode = Main.m_test /\ 1 <= retval' /\
         syscalls w' = syscalls w ++ [Sys_close infd]
     | Exit status =>
         mode = Main.m_decompress /\ 1 <= status /\
         exists more, syscalls w' = syscalls w ++ Sys_close infd :: more
     end).
Proof.
  split; [|split].
  - intros Hok ->. unfold Main.check_tty_out in Hok. munfold.
    rewrite bool_decide_eq_true_2 in Hok by done. cbn [andb] in Hok.
    destruct (isatty sys (outfd w) w); [|done].
    unfold show_file_error in Hok. munfold.
    by repeat (case_match; simplify_eq/=).
  - intros ->. unfold Main.check_tty_in. munfold. by cbn.
  - intros r w' Hrun. unfold Main.check_tty_in in Hrun.
    unfold bind at 1, get at 1 in Hrun.
    pose proof (set_retval_max retval 1) as Hmax.
    destruct ((bool_decide (mode = Main.m_decompress) ||
               bool_decide (mode = Main.m_test)) && isatty sys infd w)
      eqn:Hcond.
    + apply andb_true_iff in Hcond as [Hmode Htty].
      unfold bind at 1 in Hrun.
      pose proof (show_file_error_files sys verbosity name
                    "I won't read compressed data from a terminal." 0 w)
        as Hfiles.
      destruct (show_file_error _ _ _ _ _ w) as [[] w1].
      cbn [snd] in Hfiles. injection Hfiles as _ _ _ Hsys.
      unfold bind at 1, do_syscall at 1, modify at 1 in Hrun.
      destruct (bool_decide (mode = Main.m_test)) eqn:Htest; cbn [negb] in Hrun.
      * apply bool_decide_eq_true in Htest.
        unfold ret in Hrun. injection Hrun as <- <-. cbn.
        split; [done|]. split; [lia|]. by rewrite Hsys.
      * rewrite orb_false_r in Hmode. apply bool_decide_eq_true in Hmode.
        destruct (cleanup_and_fail_run sys invocation_name (A := bool * Z)
                    verbosity (set_retval retval 1)
                    (with_syscalls (syscalls w1 ++ [Sys_close infd]) w1))
          as (w2 & Hfail & Hclean).
        rewrite Hfail in Hrun. injection Hrun as <- <-.
        split; [done|]. split; [lia|].
        cbn in Hclean. destruct (delete_output_on_interrupt w1).
        -- destruct Hclean as [-> _]. rewrite Hsys, <- app_assoc. cbn. eauto.
        -- subst w2. cbn. rewrite Hsys. eauto.
    + unfold ret in Hrun. injection Hrun as <- <-.
      split; [done|]. split; [done|]. intros Hmode.
      apply andb_false_iff in Hcond as [Hcond|Hcond]; [|done].
      apply orb_false_iff in Hcond as [H1 H2].
      apply bool_decide_eq_false in H1, H2. by destruct Hmode.
Qed.

(** X20. [open_instream] accepts a regular file always, and a device,
    FIFO or socket only when the output does not take its name from the
    input and [reg_only] is not set; anything else, and any file whose
    [fstat] fails, is refused. An accepted descriptor is returned with
    nothing else done; a refused one has been closed and -1 is
    returned; a file that cannot be opened gives -1 with no descriptor
    to close. *)
Theorem open_instream_accepts name one_to_one reg_only w :
  let run := Main.open_instream sys verbosity name one_to_one reg_only w in
  match open_in sys name w with
  | Opened fd =>
      if fstat_ok sys fd w &&
         match st_mode sys fd w with
         | Regular => true
         | Special => negb reg_only && negb one_to_one
         | Other_kind => false
         end
      then run = (fd, w)
      else run.1 = -1 /\ syscalls run.2 = syscalls w ++ [Sys_close fd]
  | _ => run.1 = -1 /\ syscalls run.2 = syscalls w
  end.
Proof.
  cbv zeta. unfold Main.open_instream, show_file_error. munfold.
  destruct (open_in sys name w) as [fd| |errno].
  - destruct (fstat_ok sys fd w), (st_mode sys fd w), reg_only, one_to_one;
      cbn; repeat case_match; munfold; by simplify_eq/=.
  - by destruct (0 <=? verbosity).
  - by destruct (0 <=? verbosity).
Qed.

(** X21. A file that already has a known extension is not compressed
    again unless -F is given: in compress mode without [recompress]
    [open_instream2] returns -1 for a name that ends in ".lz" or ".tlz"
    without opening anything; with [recompress], or in another mode, it
    does what [open_instream] does. *)
Theorem compressed_input_skipped name mode one_to_one recompress w :
  let eindex := Main.extension_index name in
  let run := Main.open_instream2 sys verbosity name mode eindex one_to_one
               recompress w in
  (mode = Main.m_compress -> recompress = false ->
   (exists base, base <> "" /\
                 (name = base +:+ ".lz" \/ name = base +:+ ".tlz")) ->
   run.1 = -1 /\ syscalls run.2 = syscalls w /\
   (verbosity < 0 -> run.2 = w)) /\
  (mode <> Main.m_compress \/ recompress = true \/ eindex = -1 ->
   run = Main.open_instream sys verbosity name one_to_one false w).
Proof.
  cbv zeta. unfold Main.open_instream2.
  destruct (extension_index_cases name) as ((_ & H0) & (_ & H1) & Hcases).
  split.
  - intros -> -> (base & Hbase & Hname).
    assert (0 <= Main.extension_index name) as Hindex.
    { destruct Hname as [->| ->]; [rewrite H0|rewrite H1]; eauto; lia. }
    rewrite bool_decide_eq_true_2 by done. cbn [negb andb].
    rewrite (proj2 (Z.leb_le _ _) Hindex). munfold.
    destruct (0 <=? verbosity) eqn:Hv; cbn; [|done].
    split; [done|]. split; [done|]. lia.
  - intros Hother.
    destruct (bool_decide (mode = Main.m_compress)) eqn:Hmode; [|done].
    apply bool_decide_eq_true in Hmode.
    destruct recompress; [done|]. cbn [negb andb].
    destruct Hother as [?|[?|Hm]]; [done|done|]. by rewrite Hm.
Qed.

Lemma cleanup_and_fail_name {A : Type} retval w :
  output_filename
    (cleanup_and_fail (A := A) sys verbosity invocation_name retval w).2 =
  output_filename w.
Proof. unfold cleanup_and_fail, show_error. mrun. Qed.

(** X22. [close_and_set_permissions] never leaves an output file
    half-done: if the descriptor closes, the file is no longer owned by
    the run, it is not removed, its attributes are set exactly when the
    input's are known, and a failure to set them is only reported at
    verbosity 1 and above; if the descriptor does not close, the process
    ends with status 1 and an output file that was owned has been
    removed. *)
Theorem output_closed_or_removed in_statsp w :
  let run := close_and_set_permissions sys verbosity invocation_name in_statsp
               w in
  delete_output_on_interrupt run.2 = false /\
  output_filename run.2 = output_filename w /\
  if close_errno sys (outfd w) w =? 0 then
    run.1 = None /\ outfd run.2 = -1 /\
    syscalls run.2 =
      syscalls w ++ Sys_close (outfd w) ::
      (if in_statsp then [Sys_set_attributes (output_filename w)] else []) /\
    (verbosity < 1 -> stderr run.2 = stderr w)
  else
    run.1 = Some 1 /\
    (delete_output_on_interrupt w = true ->
     exists pre, syscalls run.2 = pre ++ [Sys_remove (output_filename w)]).
Proof.
  cbv zeta.
  destruct (close_and_set_permissions sys verbosity invocation_name in_statsp
              w) as [r w'] eqn:Hrun.
  cbn [fst snd]. unfold close_and_set_permissions in Hrun.
  unfold bind at 1, get at 1 in Hrun. unfold bind at 1, get at 1 in Hrun.
  unfold bind at 1, get at 1 in Hrun. unfold bind at 1, get at 1 in Hrun.
  unfold bind at 1, get at 1 in Hrun.
  unfold bind at 1, do_syscall at 1, modify at 1 in Hrun.
  destruct (close_errno sys (outfd w) w =? 0) eqn:Hclose; cbn [negb] in Hrun.
  - unfold show_error in Hrun.
    repeat (munfold; repeat case_match; simplify_eq/=).
    all: rewrite <- ?app_assoc; repeat split; try done.
    all: try (intros Hv;
      repeat match goal with
      | H : _ && _ = true |- _ => apply andb_true_iff in H as [? ?]
      | H : (1 <=? verbosity) = true |- _ => apply Z.leb_le in H
      | H : (verbosity <? 0) = false |- _ => apply Z.ltb_ge in H
      end; lia).
  - unfold bind at 1 in Hrun.
    pose proof (show_error_files sys verbosity invocation_name
                  "Error closing output file" (close_errno sys (outfd w) w)
                  false
                  (with_syscalls (syscalls w ++ [Sys_close (outfd w)]) w))
      as Hfiles.
    destruct (show_error _ _ _ _ _ _ _) as [[] w1].
    cbn in Hfiles. injection Hfiles as Hname Hfd Hown Hsys.
    unfold bind at 1 in Hrun.
    pose proof (cleanup_and_fail_name (A := unit) 1 w1) as Hname2.
    destruct (cleanup_and_fail_run sys invocation_name (A := unit) verbosity
                1 w1) as (w2 & Hfail & Hclean).
    rewrite Hfail in *. unfold ret in Hrun. injection Hrun as <- <-.
    cbn in *. rewrite Hown in Hclean. rewrite Hname2, Hname.
    destruct (delete_output_on_interrupt w) eqn:Howned.
    + destruct Hclean as [Hsys2 Hflag]. do 3 (split; [done|]).
      intros _. rewrite Hsys2, Hname, app_assoc. eauto.
    + subst w2. rewrite Hown. by do 3 (split; [done|]).
Qed.

End StreamFacts.

(** Testing from a terminal: the input is closed and the status is 1. *)
Lemma no_compressed_data_on_terminal_witness :
  exists w',
    Main.check_tty_in terminal_os "clzip" 0 "(stdin)" 0 Main.m_test 0 world0 =
      (Return (false, 1), w') /\
    syscalls w' = [Sys_close 0].
Proof.
  destruct (Main.check_tty_in terminal_os "clzip" 0 "(stdin)" 0 Main.m_test 0
              world0) as [r w'] eqn:Hrun.
  destruct (no_compressed_data_on_terminal terminal_os 0 "clzip" "(stdin)" 0
              Main.m_test 0 world0) as (_ & _ & Hin).
  specialize (Hin r w' Hrun).
  assert (r = Return (false, 1)) as -> by (vm_compute in Hrun; congruence).
  exists w'. split; [done|]. by destruct Hin as (_ & _ & ->).
Defined.

(** "a.lz" is not compressed again. *)
Lemma compressed_input_skipped_witness :
  let run := Main.open_instream2 quiet_os 0 "a.lz" Main.m_compress
               (Main.extension_index "a.lz") true false world0 in
  run.1 = -1 /\ syscalls run.2 = [].
Proof.
  destruct (compressed_input_skipped quiet_os 0 "a.lz" Main.m_compress true
              false world0) as [Hskip _].
  destruct Hskip as (H1 & H2 & _); [done|done| |by split].
  exists "a". split; [done|]. by left.
Defined.

(** The first volume of a run is closed and gets the attributes of the
    input. *)
Lemma output_closed_or_removed_witness :
  let run := close_and_set_permissions quiet_os 0 "clzip" true world1 in
  run.1 = None /\
  syscalls run.2 = [Sys_close 3; Sys_set_attributes "out00001.lz"] /\
  delete_output_on_interrupt run.2 = false.
Proof.
  destruct (output_closed_or_removed quiet_os 0 "clzip" true world1)
    as (Hflag & _ & Hok).
  destruct Hok as (Hr & _ & Hsys & _). by split.
Defined.

(** ** More on [main] *)

(** The destination and the volume size that [apply_overrides] leaves. *)
Lemma apply_overrides_destination l :
  let l' := Main.apply_overrides l in
  Z.b2z (bool_decide (Main.program_mode l' = Main.m_test)) +
  Z.b2z (Main.to_stdout l') + Z.b2z (Main.to_file l') +
  Z.b2z (Main.one_to_one l') = 1 /\
  (Main.program_mode l' <> Main.m_compress -> Main.volume_size l' = 0) /\
  Main.program_mode l' = Main.program_mode l.
Proof.
  destruct l as [opts ms vs name mode f it k lt rc out z v].
  unfold Main.apply_overrides, Main.one_to_one, Main.to_file. cbn.
  destruct mode, out; cbn;
    repeat (case_bool_decide; simplify_eq/=);
    repeat split; try done; try (intros; congruence).
Qed.

(** X23. After the overrides of [main] the output has exactly one
    destination: none (test), the standard output, the one file given
    with -o, or one file per input; a volume size is kept only for
    compression; and the overrides never change the mode. *)
Theorem output_destination l :
  let l' := Main.apply_overrides l in
  Z.b2z (bool_decide (Main.program_mode l' = Main.m_test)) +
  Z.b2z (Main.to_stdout l') + Z.b2z (Main.to_file l') +
  Z.b2z (Main.one_to_one l') = 1 /\
  (Main.program_mode l' <> Main.m_compress -> Main.volume_size l' = 0) /\
  Main.program_mode l' = Main.program_mode l.
Proof.
  exact (apply_overrides_destination l).
Qed.

Section MainFacts.

Variable sys : os.
Variable C : Main.codecs.
Variable invocation_name : string.

Abbreviation options' := (Main.process_options sys invocation_name).
Abbreviation main' := (Main.main sys C invocation_name).

(** X24. -h and -V end the process at once with status 0: the options
    before them are processed, the help or the version is written to
    stdout, and whatever follows on the command line, options or
    files, is not looked at. *)
Theorem help_and_version_exit_at_once pre a rest w l w1 :
  options' pre Main.initial_locals w = (Return (l, []), w1) ->
  Main.code a = Main.chr "h" \/ Main.code a = Main.chr "V" ->
  main' (pre ++ a :: rest) w =
    ((0, None),
     with_stdout
       (stdout w1 ++
        [if Main.code a =? Main.chr "h" then Help_text invocation_name
         else Version_text]) w1).
Proof.
  intros Hpre Hcode. unfold Main.main. unfold bind at 1.
  rewrite (process_options_app sys invocation_name pre _ _ _ _ (a :: rest)
             Hpre).
  cbn [Main.process_options].
  destruct Hcode as [Hcode|Hcode].
  - assert ((Main.code a =? 0) = false) as -> by (rewrite Hcode; done).
    unfold bind at 1. unfold Main.process_option.
    rewrite Hcode. cbn. reflexivity.
  - assert ((Main.code a =? 0) = false) as -> by (rewrite Hcode; done).
    unfold bind at 1. unfold Main.process_option.
    rewrite Hcode. cbn. reflexivity.
Qed.

(** X25. Volumes go with one output name per input: compressing more
    than one file with both -S and -o is refused with status 1 before
    any file is touched. *)
Theorem one_file_with_output_and_volumes args w l rest w1 :
  options' args Main.initial_locals w = (Return (l, rest), w1) ->
  Main.program_mode l = Main.m_compress ->
  0 < Main.volume_size l ->
  Main.to_stdout l = false ->
  Main.default_output_filename l <> "" ->
  (1 < length rest)%nat ->
  main' args w =
    ((1, None),
     (show_error sys (Main.verbosity l) invocation_name
        "Only can compress one file when using '-o' and '-S'." 0 true w1).2).
Proof.
  intros Hopts Hmode Hvol Hout Hname Hrest.
  unfold Main.main. unfold bind at 1. rewrite Hopts.
  rewrite Hmode, Hout. cbn [negb andb].
  rewrite (bool_decide_eq_false_2 (Main.m_compress = Main.m_list)) by done.
  rewrite bool_decide_eq_true_2 by done.
  rewrite (proj2 (Z.ltb_lt 0 (Main.volume_size l)) Hvol).
  rewrite (bool_decide_eq_false_2 _ Hname). cbn [negb andb].
  destruct rest as [|r1 [|r2 rest]]; [cbn in Hrest; lia..|].
  assert ((1 <? Z.of_nat (length (Main.argument <$> r1 :: r2 :: rest))) = true)
    as ->.
  { apply Z.ltb_lt. rewrite length_fmap. cbn [length]. lia. }
  unfold bind, ret. by destruct (show_error _ _ _ _ _ _ w1).
Qed.

End MainFacts.

(** "-d -c" writes to the standard output; "-t -o x" tests only. *)
Lemma output_destination_witness :
  let dc := Main.apply_overrides
              (Main.set_to_stdout true
                 (Main.set_program_mode Main.m_decompress
                    Main.initial_locals)) in
  let t := Main.apply_overrides
             (Main.set_default_output_filename "x"
                (Main.set_program_mode Main.m_test Main.initial_locals)) in
  (Main.to_stdout dc = true /\ Main.to_file dc = false /\
   Main.one_to_one dc = false) /\
  (Main.to_stdout t = false /\ Main.to_file t = false /\
   Main.one_to_one t = false /\ Main.volume_size t = 0).
Proof.
  intros dc t.
  destruct (output_destination
              (Main.set_default_output_filename "x"
                 (Main.set_program_mode Main.m_test Main.initial_locals)))
    as (_ & Hvol & _).
  fold t in Hvol.
  split; [by vm_compute|]. do 3 (split; [by vm_compute|]).
  apply Hvol. by vm_compute.
Defined.

(** "-v -h file": the help, and nothing else. *)
Lemma help_and_version_exit_at_once_witness :
  Main.main quiet_os codecs "clzip" [arg "v" ""; arg "h" ""; file "x"] world0 =
  ((0, None), with_stdout [Help_text "clzip"] world0).
Proof.
  apply (help_and_version_exit_at_once quiet_os codecs "clzip" [arg "v" ""]
           (arg "h" "") [file "x"] world0
           (Main.set_verbosity 1 Main.initial_locals) world0).
  - reflexivity.
  - by left.
Defined.

(** "-S 100000 -o out a b". *)
Lemma one_file_with_output_and_volumes_witness :
  (Main.main quiet_os codecs "clzip"
     [arg "S" "100000"; arg "o" "out"; file "a"; file "b"] world0).1 =
  (1, None).
Proof.
  destruct (Main.process_options quiet_os "clzip"
              [arg "S" "100000"; arg "o" "out"; file "a"; file "b"]
              Main.initial_locals world0) as [r w1] eqn:Hopts.
  assert (exists l, r = Return (l, [file "a"; file "b"]) /\
                    Main.program_mode l = Main.m_compress /\
                    Main.volume_size l = 100000 /\
                    Main.to_stdout l = false /\
                    Main.default_output_filename l = "out")
    as (l & -> & Hmode & Hvol & Hout & Hname).
  { vm_compute in Hopts. injection Hopts as <- _. by eexists. }
  rewrite (one_file_with_output_and_volumes quiet_os codecs "clzip" _ world0
             l [file "a"; file "b"] w1 Hopts Hmode).
  - reflexivity.
  - lia.
  - done.
  - by rewrite Hname.
  - cbn. lia.
Defined.

(** ** What the codecs do to files *)

Lemma fputs_files s w : files_of (fputs s w).2 = files_of w.
Proof. done. Qed.

Lemma emit_files c w : files_of (emit c w).2 = files_of w.
Proof. done. Qed.

Section CodecFiles.

Variable sys : os.
Variable L : Lzip.decls.
Variable verbosity : Z.
Variable invocation_name : string.

Lemma show_trailing_data_files data all ignore w :
  files_of (show_trailing_data sys L verbosity data all ignore w).2 =
  files_of w.
Proof.
  unfold show_trailing_data, Pp_show_msg, show_file_error. mrun.
Qed.

Lemma show_dprogress_files cfile_size partial_size p position w :
  files_of (show_dprogress sys verbosity cfile_size partial_size p position
              w).2 = files_of w.
Proof.
  unfold show_dprogress, Pp_reset, Pp_show_msg. mrun.
Qed.

(** When the run owns no output file, [cleanup_and_fail] only ends the
    process. *)
Lemma cleanup_and_fail_not_owned {A : Type} retval w :
  delete_output_on_interrupt w = false ->
  cleanup_and_fail (A := A) sys verbosity invocation_name retval w =
    (Exit retval, w).
Proof. intros Hown. unfold cleanup_and_fail. munfold. by rewrite Hown. Qed.

Ltac frame_step :=
  match goal with
  | H : fputs ?s ?w0 = _ |- _ =>
      let Hq := fresh in
      pose proof (fputs_files s w0) as Hq;
      rewrite H in Hq; cbn [snd] in Hq; clear H
  | H : Pp_reset ?w0 = _ |- _ =>
      let Hq := fresh in
      pose proof (Pp_reset_files w0) as Hq;
      rewrite H in Hq; cbn [snd] in Hq; clear H
  | H : Pp_show_msg ?v ?m ?w0 = _ |- _ =>
      let Hq := fresh in
      pose proof (Pp_show_msg_files v m w0) as Hq;
      rewrite H in Hq; cbn [snd] in Hq; clear H
  | H : show_file_error ?s ?v ?n ?m ?e ?w0 = _ |- _ =>
      let Hq := fresh in
      pose proof (show_file_error_files s v n m e w0) as Hq;
      rewrite H in Hq; cbn [snd] in Hq; clear H
  | H : show_error ?s ?v ?i ?m ?e ?h ?w0 = _ |- _ =>
      let Hq := fresh in
      pose proof (show_error_files s v i m e h w0) as Hq;
      rewrite H in Hq; cbn [snd] in Hq; clear H
  | H : show_trailing_data sys L verbosity ?d ?a ?i ?w0 = _ |- _ =>
      let Hq := fresh in
      pose proof (show_trailing_data_files d a i w0) as Hq;
      rewrite H in Hq; cbn [snd] in Hq; clear H
  | H : show_dprogress sys verbosity ?c ?p ?b ?m ?w0 = _ |- _ =>
      let Hq := fresh in
      pose proof (show_dprogress_files c p b m w0) as Hq;
      rewrite H in Hq; cbn [snd] in Hq; clear H
  | H : show_cprogress sys verbosity ?c ?p ?b ?m ?w0 = _ |- _ =>
      let Hq := fresh in
      pose proof (show_cprogress_files sys verbosity c p b m w0) as Hq;
      rewrite H in Hq; cbn [snd] in Hq; clear H
  end.

Section Decoder.

Variable D : decoder.
Variable cfile_size : Z.
Variable ignore_trailing loose_trailing testing : bool.

Hypothesis decoder_keeps_files :
  forall dictionary_size rest w,
    files_of (LZd_decode_member D dictionary_size rest w).2 = files_of w.

Lemma decompress_member_files retval first_member stream pos w :
  files_of (decompress_member sys L D verbosity cfile_size ignore_trailing
              loose_trailing testing retval first_member stream pos w).2 =
  files_of w.
Proof.
  unfold decompress_member, Rd_read_data.
  unfold bind, ret, get, when.
  repeat case_match; try done.
  all: repeat first
         [ frame_step
         | match goal with
           | H : LZd_decode_member D ?ds ?rest ?w0 = _ |- _ =>
               let Hq := fresh in
               pose proof (decoder_keeps_files ds rest w0) as Hq;
               rewrite H in Hq; cbn [snd] in Hq; clear H
           end ].
  all: unfold ret, files_of in *; simplify_eq/=; congruence.
Qed.

Lemma decompress_loop_files fuel :
  forall first_member stream pos w,
  files_of (decompress_loop sys L D verbosity cfile_size ignore_trailing
              loose_trailing testing fuel first_member stream pos w).2 =
  files_of w.
Proof.
  induction fuel as [|fuel IH]; intros fm stream pos w; [done|].
  cbn [decompress_loop]. unfold bind.
  pose proof (decompress_member_files 0 fm stream pos w) as Hm.
  destruct (decompress_member _ _ _ _ _ _ _ _ _ _ _ _ w) as [s w1].
  cbn [snd] in Hm. destruct s as [r|status|stream' pos']; cbn; [done..|].
  by rewrite IH.
Qed.

Lemma decompress_files stream w :
  Rd_init D w = true \/ delete_output_on_interrupt w = false ->
  files_of (decompress sys L D verbosity invocation_name cfile_size
              ignore_trailing loose_trailing testing stream w).2 =
  files_of w.
Proof.
  intros Hcond. unfold decompress. unfold bind at 1, get at 1.
  destruct (Rd_init D w) eqn:Hinit; cbn [negb].
  - unfold bind.
    pose proof (decompress_loop_files (S (length stream)) true stream 0 w)
      as Hloop.
    destruct (decompress_loop _ _ _ _ _ _ _ _ _ _ _ _ w) as [r w1].
    cbn [snd] in Hloop.
    destruct r as [[retval|status]|]; [|done..].
    unfold when. by destruct (_ && _).
  - destruct Hcond as [?|Hown]; [done|].
    unfold bind.
    pose proof (show_error_files sys verbosity invocation_name (mem_msg L) 0
                  false w) as Hfiles.
    destruct (show_error _ _ _ _ _ _ w) as [[] w1]. cbn [snd] in Hfiles.
    rewrite cleanup_and_fail_not_owned; [done|].
    injection Hfiles as _ _ -> _. done.
Qed.

(** X26. [decompress] leaves the output file to its caller: it makes no
    system call on files and changes neither the output name, nor the
    output descriptor, nor the ownership of the output, unless the range
    decoder cannot be set up while the run owns an output file (which is
    then removed by [cleanup_and_fail]). The decoder is taken to do the
    same. *)
Theorem decompress_keeps_files stream w :
  Rd_init D w = true \/ delete_output_on_interrupt w = false ->
  files_of (decompress sys L D verbosity invocation_name cfile_size
              ignore_trailing loose_trailing testing stream w).2 =
  files_of w.
Proof. apply decompress_files. Qed.

End Decoder.

Section Encoder.

Variable E : encoder.
Variable cfile_size member_size volume_size : Z.
Variable in_statsp zero : bool.

Hypothesis encoder_ok : encoder_keeps_files E.

Lemma encode_member_keeps size st w r w' :
  (if zero then FLZe_encode_member E size st
   else LZe_encode_member E size st) w = (Return r, w') ->
  files_of w' = files_of w.
Proof.
  destruct encoder_ok as (_ & _ & Hkeeps).
  intros Hrun. apply (Hkeeps size st w r w'). destruct zero; auto.
Qed.

Lemma encode_member_leaves size st w status w' :
  encoder_leaves_clean E ->
  delete_output_on_interrupt w = false ->
  (if zero then FLZe_encode_member E size st
   else LZe_encode_member E size st) w = (Exit status, w') ->
  files_of w' = files_of w.
Proof.
  intros (_ & _ & Hclean) Hown Hrun.
  apply (Hclean size st w status w' Hown). destruct zero; auto.
Qed.

Lemma compress_member_files st w s w' :
  compress_member sys E verbosity invocation_name cfile_size member_size
    volume_size in_statsp zero st w = (s, w') ->
  volume_size <= 0 \/ delete_output_on_interrupt w = false ->
  stays s = true \/
  delete_output_on_interrupt w = false /\ encoder_leaves_clean E ->
  files_of w' = files_of w.
Proof.
  intros Hrun Hcond Hcase. unfold compress_member in Hrun.
  unfold bind at 1 in Hrun.
  pose proof (show_cprogress_files sys verbosity cfile_size (in_size st) true
                (Mb_data_position E (enc st)) w) as Hframe.
  destruct (show_cprogress _ _ _ _ _ _ w) as [[] w1]. cbn [snd] in Hframe.
  unfold bind at 1 in Hrun.
  match type of Hrun with
  | context [let (_, _) := ?enc0 w1 in _] =>
      destruct (enc0 w1) as [[[m e]|status] w2] eqn:Henc
  end.
  - apply encode_member_keeps in Henc. rewrite Hframe in Henc.
    clear Hframe Hcase. revert Hrun.
    unfold bind, ret, get, when.
    repeat case_match; intros Hrun.
    all: repeat frame_step.
    all: unfold ret, modify, files_of in *; simplify_eq/=.
    all: try congruence.
    all: destruct Hcond as [Hvol|Hown]; [|congruence].
    all: repeat match goal with
         | H : (0 <? volume_size) = true |- _ => apply Z.ltb_lt in H
         end; lia.
  - unfold ret in Hrun. injection Hrun as <- <-.
    destruct Hcase as [?|[Hown Hclean]]; [done|].
    rewrite <- Hframe.
    eapply encode_member_leaves; [exact Hclean| |exact Henc].
    unfold files_of in Hframe. by injection Hframe as _ _ -> _.
Qed.

Lemma compress_loop_files fuel :
  forall st w r w',
  compress_loop sys E verbosity invocation_name cfile_size member_size
    volume_size in_statsp zero fuel st w = (r, w') ->
  volume_size <= 0 \/ delete_output_on_interrupt w = false ->
  (exists retval st', r = Some (Return retval, st')) \/
  delete_output_on_interrupt w = false /\ encoder_leaves_clean E ->
  files_of w' = files_of w.
Proof.
  induction fuel as [|fuel IH]; intros st w r w' Hrun Hcond Hcase.
  { by injection Hrun as _ <-. }
  cbn [compress_loop] in Hrun. unfold bind in Hrun.
  destruct (compress_member _ _ _ _ _ _ _ _ _ st w) as [s w1] eqn:Hm.
  assert (stays s = true \/
          delete_output_on_interrupt w = false /\ encoder_leaves_clean E)
    as Hcase1.
  { destruct Hcase as [(retval & st' & ->)|?]; [|by right].
    left. destruct s; [done| |done]. by injection Hrun. }
  pose proof (compress_member_files st w s w1 Hm Hcond Hcase1) as Hfiles.
  destruct s as [retval st1|status st1|st1];
    [by injection Hrun as _ <-..|].
  rewrite <- Hfiles. apply (IH st1 w1 r w' Hrun).
  - destruct Hcond as [?|Hown]; [by left|right].
    unfold files_of in Hfiles. by injection Hfiles as _ _ -> _.
  - destruct Hcase as [?|[Hown ?]]; [by left|right]. split; [|done].
    unfold files_of in Hfiles. by injection Hfiles as _ _ -> _.
Qed.

Lemma compress_files encoder_options fuel data w r w' :
  compress sys L E verbosity invocation_name cfile_size member_size
    volume_size in_statsp zero encoder_options fuel data w = (r, w') ->
  volume_size <= 0 \/ delete_output_on_interrupt w = false ->
  (exists retval vols, r = Some (Return retval, vols)) \/
  delete_output_on_interrupt w = false /\ encoder_leaves_clean E ->
  files_of w' = files_of w.
Proof.
  intros Hrun Hcond Hcase. unfold compress in Hrun.
  destruct encoder_options as [ds mll].
  unfold bind at 1 in Hrun.
  assert (files_of (when (1 <=? verbosity) (Pp_show_msg verbosity None) w).2
          = files_of w) as Hfirst.
  { unfold when. destruct (1 <=? verbosity); [apply Pp_show_msg_files|done]. }
  destruct (when _ _ w) as [[] w1]. cbn [snd] in Hfirst.
  rewrite <- Hfirst.
  assert (delete_output_on_interrupt w1 = delete_output_on_interrupt w)
    as Hown1.
  { unfold files_of in Hfirst. by injection Hfirst as _ _ -> _. }
  rewrite <- Hown1 in Hcond, Hcase. clear Hfirst Hown1.
  destruct (negb _).
  { revert Hrun. unfold bind, internal_error, when, ret, fputs, modify.
    destruct (0 <=? verbosity); by intros [= _ <-]. }
  unfold bind at 1 in Hrun.
  match type of Hrun with
  | context [let (_, _) := ?init w1 in _] =>
      destruct (init w1) as [[[e|]|status] w2] eqn:Hinit
  end.
  - assert (files_of w2 = files_of w1) as Hframe.
    { destruct encoder_ok as (Hf & Ho & _).
      destruct zero; [by eapply Hf|by eapply Ho]. }
    rewrite <- Hframe.
    assert (delete_output_on_interrupt w2 = delete_output_on_interrupt w1)
      as Hown2.
    { unfold files_of in Hframe. by injection Hframe as _ _ -> _. }
    rewrite <- Hown2 in Hcond, Hcase. clear Hframe Hown2 Hinit.
    unfold bind at 1, get at 1 in Hrun. unfold bind at 1 in Hrun.
    match type of Hrun with
    | context [compress_loop ?s ?e0 ?v ?i ?c ?m ?vs ?st ?z ?f ?st0 w2] =>
        destruct (compress_loop s e0 v i c m vs st z f st0 w2)
          as [r0 w3] eqn:Hloop
    end.
    apply compress_loop_files in Hloop; [|done|].
    + rewrite <- Hloop. revert Hrun.
      destruct r0 as [[[retval|status] st']|]; [|by intros [= _ <-]..].
      unfold bind, when, ret. repeat case_match; intros Hrun.
      all: repeat first
             [ frame_step
             | match goal with
               | H : emit ?c ?w0 = _ |- _ =>
                   let Hq := fresh in
                   pose proof (emit_files c w0) as Hq;
                   rewrite H in Hq; cbn [snd] in Hq; clear H
               end ].
      all: unfold ret, files_of in *; simplify_eq/=; congruence.
    + destruct Hcase as [(retval & vols & ->)|?]; [|by right].
      left. destruct r0 as [[[retval0|status] st']|]; [by eauto|..].
      * by injection Hrun.
      * by injection Hrun.
  - revert Hrun. unfold bind, ret.
    pose proof (Pp_show_msg_files verbosity
                  (Some "Not enough memory. Try a smaller dictionary size.")
                  w2) as Hq.
    destruct (Pp_show_msg _ _ w2) as [[] w3]. cbn [snd] in *.
    intros [= _ <-]. rewrite Hq.
    destruct encoder_ok as (Hf & Ho & _).
    destruct zero; [by eapply Hf|by eapply Ho].
  - unfold ret in Hrun. injection Hrun as <- <-.
    destruct Hcase as [(retval & vols & [=])|[Hown (Hf & Ho & _)]].
    destruct zero; [by eapply Hf|by eapply Ho].
Qed.

(** X27. [compress] leaves the output file to its caller, where the
    encoders do so whenever they return. When it returns a value, with
    no volume size or in a run that owns no output file (as with -c), it
    has made no system call on files and has changed neither the output
    name, nor the output descriptor, nor the ownership of the output.
    The same holds however it ends in a run that owns no output file, if
    an encoder that ends the process then leaves the files alone too; an
    encoder that ends the process while the run owns its output removes
    that file itself. *)
Theorem compress_keeps_files encoder_options fuel data w :
  let run := compress sys L E verbosity invocation_name cfile_size
               member_size volume_size in_statsp zero encoder_options fuel
               data w in
  (volume_size <= 0 \/ delete_output_on_interrupt w = false ->
   forall retval vols,
     run.1 = Some (Return retval, vols) -> files_of run.2 = files_of w) /\
  (delete_output_on_interrupt w = false ->
   encoder_leaves_clean E ->
   files_of run.2 = files_of w).
Proof.
  cbn zeta.
  destruct (compress _ _ _ _ _ _ _ _ _ _ _ _ _ w) as [r w'] eqn:Hrun.
  cbn [fst snd]. split.
  - intros Hcond retval vols ->.
    apply (compress_files _ _ _ _ _ _ Hrun Hcond). left. eauto.
  - intros Hown Hclean.
    apply (compress_files _ _ _ _ _ _ Hrun); [by right|by right].
Qed.

End Encoder.

End CodecFiles.

Lemma stored_decoder_keeps_files dictionary_size rest w :
  files_of (LZd_decode_member stored_decoder dictionary_size rest w).2 =
  files_of w.
Proof. cbn. unfold stored_decode_member. by repeat case_match. Qed.

Lemma stored_encoder_leaves_clean : encoder_leaves_clean stored_encoder.
Proof.
  split; [|split].
  - by intros data w status w' _ H.
  - by intros ds mll data w status w' _ H.
  - by intros size st w status w' _ [H|H].
Qed.

Lemma sample_codecs_keep_files : codecs_keep_files codecs.
Proof.
  split.
  - intros verbosity cfile_size member_size volume_size input options
      in_statsp zero w Hown.
    cbn [Main.compress_file codecs codecs_of]. unfold compress_on.
    unfold bind.
    destruct (compress _ _ _ _ _ _ _ _ _ _ _ _ _ w) as [r w'] eqn:Hrun.
    cbn [snd].
    apply (compress_files _ _ _ _ _ _ _ _ _ _ stored_encoder_keeps_files _ _
             _ _ _ _ Hrun); [by right|].
    right. split; [done|apply stored_encoder_leaves_clean].
  - intros verbosity cfile_size input ignore_trailing loose_trailing testing
      w Hown.
    cbn [Main.decompress_file codecs codecs_of]. unfold decompress_on.
    unfold bind.
    pose proof (decompress_files quiet_os lzip_h verbosity "clzip"
                  stored_decoder cfile_size ignore_trailing loose_trailing
                  testing stored_decoder_keeps_files (content input) w
                  (or_intror Hown)) as Hfiles.
    by destruct (decompress _ _ _ _ _ _ _ _ _ _ w).
Qed.

(** Decompressing into an output file that the run owns. *)
Lemma decompress_keeps_files_witness :
  files_of (decompress quiet_os lzip_h stored_decoder 0 "clzip" 0 true false
              false member_ab world1).2 =
  ("out00001.lz", 3, true, []).
Proof.
  rewrite (decompress_keeps_files quiet_os lzip_h 0 "clzip" stored_decoder 0
             true false false stored_decoder_keeps_files member_ab world1).
  - reflexivity.
  - by left.
Defined.

(** Compressing with a volume size to the standard output. *)
Lemma compress_keeps_files_witness :
  files_of (compress quiet_os lzip_h stored_encoder 0 "clzip" 0 4100 4120
              true false (8388608, 36) 100 (repeat "a"%byte 2000) world0).2 =
  ("", 1, false, []).
Proof.
  destruct (compress_keeps_files quiet_os lzip_h 0 "clzip" stored_encoder 0
              4100 4120 true false stored_encoder_keeps_files (8388608, 36)
              100 (repeat "a"%byte 2000) world0) as [_ Hclean].
  rewrite Hclean.
  - reflexivity.
  - reflexivity.
  - apply stored_encoder_leaves_clean.
Defined.

(** ** Runs that write to no file *)

Lemma keeps_output_refl w : keeps_output w w.
Proof. repeat split. exists []. by rewrite app_nil_r. Qed.

Lemma keeps_output_trans w1 w2 w3 :
  keeps_output w1 w2 -> keeps_output w2 w3 -> keeps_output w1 w3.
Proof.
  intros (Hn1 & Hf1 & Ho1 & fds1 & Hs1) (Hn2 & Hf2 & Ho2 & fds2 & Hs2).
  repeat split; [congruence..|].
  exists (fds1 ++ fds2). by rewrite Hs2, Hs1, fmap_app, app_assoc.
Qed.

Lemma keeps_output_files w w' : files_of w' = files_of w -> keeps_output w w'.
Proof.
  unfold files_of. intros [= Hn Hf Ho Hs]. repeat split; try done.
  exists []. by rewrite app_nil_r.
Qed.

Lemma keeps_output_close w fd :
  keeps_output w (do_syscall (Sys_close fd) w).2.
Proof. repeat split. by exists [fd]. Qed.

Section DriverFiles.

Variable sys : os.
Variable C : Main.codecs.
Variable invocation_name : string.

Hypothesis codecs_ok : codecs_keep_files C.

Lemma open_instream_keeps verbosity name one_to_one reg_only w :
  keeps_output w
    (Main.open_instream sys verbosity name one_to_one reg_only w).2.
Proof.
  unfold Main.open_instream, show_file_error. munfold.
  repeat (munfold; repeat case_match; simplify_eq/=);
    try (apply keeps_output_refl);
    try (by apply keeps_output_files).
  all: do 3 (split; [done|]); by eexists (cons _ nil).
Qed.

Lemma open_instream2_keeps verbosity name mode eindex one_to_one recompress w :
  keeps_output w
    (Main.open_instream2 sys verbosity name mode eindex one_to_one recompress
       w).2.
Proof.
  unfold Main.open_instream2. case_match; [|apply open_instream_keeps].
  repeat (munfold; repeat case_match; simplify_eq/=);
    by apply keeps_output_files.
Qed.

Lemma check_tty_in_keeps verbosity name infd mode retval w :
  delete_output_on_interrupt w = false ->
  keeps_output w
    (Main.check_tty_in sys invocation_name verbosity name infd mode retval
       w).2.
Proof.
  intros Hown. unfold Main.check_tty_in. unfold bind at 1, get at 1.
  case_match; [|apply keeps_output_refl].
  unfold bind at 1.
  pose proof (show_file_error_files sys verbosity name
                "I won't read compressed data from a terminal." 0 w) as Hf.
  destruct (show_file_error _ _ _ _ _ w) as [[] w1]. cbn [snd] in Hf.
  unfold bind at 1.
  apply keeps_output_trans with w1; [by apply keeps_output_files|].
  pose proof (keeps_output_close w1 infd) as Hclose.
  destruct (do_syscall _ w1) as [[] w2] eqn:Hsys. cbn [snd] in Hclose.
  case_match; [|done].
  rewrite cleanup_and_fail_not_owned; [done|].
  destruct Hclose as (_ & _ & -> & _).
  unfold files_of in Hf. by injection Hf as _ _ -> _.
Qed.

Lemma check_tty_out_files verbosity mode w :
  files_of (Main.check_tty_out sys verbosity mode w).2 = files_of w.
Proof.
  unfold Main.check_tty_out, show_file_error.
  repeat (munfold; repeat case_match; simplify_eq/=); done.
Qed.

Lemma owned_of_keeps w w' :
  keeps_output w w' ->
  delete_output_on_interrupt w = false ->
  delete_output_on_interrupt w' = false.
Proof. intros (_ & _ & -> & _). done. Qed.

Section Files.

Variable l : Main.locals.
Variable filenames_given : bool.

Hypothesis not_one_to_one : Main.one_to_one l = false.
Hypothesis not_to_file : Main.to_file l = false.

Lemma call_codec_keeps name infd w :
  delete_output_on_interrupt w = false ->
  keeps_output w (Main.call_codec sys C l name infd w).2.
Proof.
  intros Hown. destruct codecs_ok as [Hc Hd].
  unfold Main.call_codec. munfold.
  case_match; apply keeps_output_files; [by apply Hc|by apply Hd].
Qed.

Lemma close_input_keeps infd tmp w :
  keeps_output w (Main.close_input sys l infd tmp w).2.
Proof.
  unfold Main.close_input, show_file_error.
  repeat (munfold; repeat case_match; simplify_eq/=).
  all: do 3 (split; [done|]); by eexists (cons _ nil).
Qed.

Lemma run_codec_keeps name infd st w :
  delete_output_on_interrupt w = false ->
  keeps_output w (Main.run_codec sys C invocation_name l name infd st w).2.
Proof.
  intros Hown. unfold Main.run_codec. unfold bind at 1.
  pose proof (call_codec_keeps name infd w Hown) as Hcall.
  destruct (Main.call_codec sys C l name infd w) as [[tmp|status] w1];
    [|done].
  cbn [snd] in Hcall. unfold bind at 1.
  pose proof (close_input_keeps infd tmp w1) as Hclose.
  destruct (Main.close_input sys l infd tmp w1) as [tmp' w2].
  cbn [snd] in Hclose.
  pose proof (keeps_output_trans _ _ _ Hcall Hclose) as Hboth.
  pose proof (owned_of_keeps _ _ Hboth Hown) as Hown2.
  case_match.
  - unfold bind. rewrite cleanup_and_fail_not_owned by done. done.
  - unfold bind at 1, get at 1. rewrite Hown2. cbn [andb].
    unfold bind at 1, ret at 1.
    unfold Main.removes_input. rewrite not_one_to_one.
    rewrite andb_false_r. cbn [andb]. done.
Qed.

Lemma prepare_output_keeps name infd st w :
  delete_output_on_interrupt w = false ->
  keeps_output w
    (Main.prepare_output sys C invocation_name l filenames_given name infd st
       w).2.
Proof.
  intros Hown. unfold Main.prepare_output.
  rewrite not_one_to_one, not_to_file. cbn [andb negb].
  unfold bind at 1, ret at 1. cbn [negb].
  unfold bind at 1, get at 1. by apply run_codec_keeps.
Qed.

Lemma main_file_keeps filename st w :
  delete_output_on_interrupt w = false ->
  keeps_output w
    (Main.main_file sys C invocation_name l filenames_given filename st w).2.
Proof.
  intros Hown. unfold Main.main_file.
  unfold bind at 1, Main.Pp_set_name at 1, modify at 1.
  unfold bind at 1, get at 1.
  set (w0 := with_pp _ w).
  assert (keeps_output w w0) as H0 by (by apply keeps_output_files).
  assert (delete_output_on_interrupt w0 = false) as Hown0 by done.
  clearbody w0. apply keeps_output_trans with w0; [done|].
  case_bool_decide.
  - destruct (Main.stdin_used st); [apply keeps_output_refl|].
    unfold bind at 1.
    pose proof (check_tty_in_keeps (Main.verbosity l) (pp_name (pp w0))
                  Main.STDIN_FILENO (Main.program_mode l) (Main.retval st) w0
                  Hown0) as Htty.
    cbn [Main.retval] in *.
    destruct (Main.check_tty_in _ _ _ _ _ _ _ w0) as [[[[] rv]|status] w1];
      cbn [snd] in Htty; try done.
    rewrite not_one_to_one. unfold when, bind at 1, ret at 1.
    eapply keeps_output_trans; [exact Htty|].
    apply prepare_output_keeps. by eapply owned_of_keeps.
  - unfold bind at 1.
    pose proof (open_instream2_keeps (Main.verbosity l) filename
                  (Main.program_mode l) (Main.extension_index filename)
                  (Main.one_to_one l) (Main.recompress l) w0) as Hopen.
    destruct (Main.open_instream2 _ _ _ _ _ _ _ w0) as [infd w1].
    cbn [snd] in Hopen.
    pose proof (owned_of_keeps _ _ Hopen Hown0) as Hown1.
    case_match; [done|].
    unfold bind at 1.
    pose proof (check_tty_in_keeps (Main.verbosity l) (pp_name (pp w0))
                  infd (Main.program_mode l) (Main.retval st) w1 Hown1)
      as Htty.
    destruct (Main.check_tty_in _ _ _ _ _ _ _ w1) as [[[[] rv]|status] w2];
      cbn [snd] in Htty;
      try (by eapply keeps_output_trans).
    rewrite not_one_to_one.
    eapply keeps_output_trans; [exact Hopen|].
    eapply keeps_output_trans; [exact Htty|].
    apply prepare_output_keeps. by eapply owned_of_keeps.
Qed.

Lemma main_files_keeps filenames :
  forall st w,
  delete_output_on_interrupt w = false ->
  keeps_output w
    (Main.main_files sys C invocation_name l filenames_given filenames st
       w).2.
Proof.
  induction filenames as [|filename filenames IH]; intros st w Hown.
  - apply keeps_output_refl.
  - cbn [Main.main_files]. unfold bind.
    pose proof (main_file_keeps filename st w Hown) as Hfile.
    destruct (Main.main_file _ _ _ _ _ filename st w) as [[st1|status st1] w1];
      cbn [snd] in Hfile; [|done].
    eapply keeps_output_trans; [exact Hfile|].
    apply IH. by eapply owned_of_keeps.
Qed.

Lemma finish_main_closes filenames st w :
  delete_output_on_interrupt w = false ->
  keeps_output w (Main.finish_main sys invocation_name l filenames st w).2.
Proof.
  intros Hown. unfold Main.finish_main, show_error.
  unfold bind at 1, get at 1. rewrite Hown.
  repeat (munfold; repeat case_match; simplify_eq/=);
    try (apply keeps_output_refl);
    try (by apply keeps_output_files).
  all: do 3 (split; [done|]); by eexists (cons _ nil).
Qed.

End Files.

Lemma getnum_files verbosity ptr llimit ulimit w :
  files_of (Main.getnum sys invocation_name verbosity ptr llimit ulimit w).2 =
  files_of w.
Proof. unfold Main.getnum, show_error. mrun. Qed.

Lemma get_dict_size_files verbosity arg w :
  files_of (Main.get_dict_size sys invocation_name verbosity arg w).2 =
  files_of w.
Proof.
  unfold Main.get_dict_size. repeat case_match; [done|apply getnum_files].
Qed.

Lemma process_option_files a l w :
  files_of (Main.process_option sys invocation_name a l w).2 = files_of w.
Proof.
  unfold Main.process_option.
  repeat match goal with
  | |- context [if ?c then _ else _] => destruct c
  end; try done.
  all: try (unfold Main.set_mode, show_error; mrun).
  all: try (unfold bind, ret;
            match goal with
            | |- context [Main.getnum ?s ?i ?v ?p ?lo ?hi ?w0] =>
                pose proof (getnum_files v p lo hi w0);
                by destruct (Main.getnum s i v p lo hi w0)
            | |- context [Main.get_dict_size ?s ?i ?v ?p ?w0] =>
                pose proof (get_dict_size_files v p w0);
                by destruct (Main.get_dict_size s i v p w0)
            end).
  all: try match goal with
           | H : Main.getnum ?s ?i ?v ?p ?lo ?hi ?w0 = _ |- _ =>
               let Hq := fresh in
               pose proof (getnum_files v p lo hi w0) as Hq;
               rewrite H in Hq; exact Hq
           | H : Main.get_dict_size ?s ?i ?v ?p ?w0 = _ |- _ =>
               let Hq := fresh in
               pose proof (get_dict_size_files v p w0) as Hq;
               rewrite H in Hq; exact Hq
           end.
  all: unfold internal_error; mrun.
Qed.

Lemma process_options_files args :
  forall l w,
  files_of (Main.process_options sys invocation_name args l w).2 = files_of w.
Proof.
  induction args as [|a args IH]; intros l w; [done|].
  cbn [Main.process_options]. case_match; [done|].
  unfold bind. pose proof (process_option_files a l w) as Hopt.
  destruct (Main.process_option _ _ a l w) as [[l1|status] w1];
    cbn [snd] in Hopt; [|done].
  by rewrite IH.
Qed.

(** X28. Testing, and writing to the standard output, touch no file:
    when the options ask for a test, or for output to stdout in compress
    or decompress mode, [main] never creates a file, never removes one
    and never sets file attributes; the only system calls it makes close
    descriptors. This holds for any behaviour of the operating system,
    provided the run starts without an output file of its own and the
    codecs leave files alone in that case. *)
Theorem test_and_stdout_touch_no_file args w l rest w1 :
  delete_output_on_interrupt w = false ->
  Main.process_options sys invocation_name args Main.initial_locals w =
    (Return (l, rest), w1) ->
  Main.program_mode l = Main.m_test \/
  Main.to_stdout l = true /\ Main.program_mode l <> Main.m_list ->
  let w' := (Main.main sys C invocation_name args w).2 in
  closes_only w w' /\ delete_output_on_interrupt w' = false.
Proof.
  intros Hown Hopts Hmode. cbv zeta.
  pose proof (process_options_files args Main.initial_locals w) as Hfiles.
  destruct (Main.main sys C invocation_name args w) as [res w'] eqn:Hmain.
  cbn [snd]. unfold Main.main in Hmain. unfold bind at 1 in Hmain.
  rewrite Hopts in *. cbn [snd] in Hfiles.
  assert (syscalls w1 = syscalls w /\ delete_output_on_interrupt w1 = false)
    as [Hsys1 Hown1].
  { unfold files_of in Hfiles. injection Hfiles as _ _ -> ->. done. }
  assert (forall w0 w2,
            syscalls w0 = syscalls w ->
            delete_output_on_interrupt w0 = false ->
            keeps_output w0 w2 ->
            closes_only w w2 /\ delete_output_on_interrupt w2 = false)
    as Hdone.
  { intros w0 w2 Hs Ho (_ & _ & Hflag & fds & Hcl).
    split; [|congruence]. exists fds. by rewrite Hcl, Hs. }
  rewrite (bool_decide_eq_false_2 (Main.program_mode l = Main.m_list))
    in Hmain by (by destruct Hmode as [->|[_ ?]]).
  destruct (_ && _ && _ && _ && _) in Hmain.
  { unfold bind, ret in Hmain.
    pose proof (show_error_files sys (Main.verbosity l) invocation_name
                  "Only can compress one file when using '-o' and '-S'." 0
                  true w1) as Herr.
    destruct (show_error _ _ _ _ _ _ w1) as [[] w2]. cbn [snd] in *.
    injection Hmain as _ <-.
    apply (Hdone w1); [done..|]. by apply keeps_output_files. }
  destruct (apply_overrides_destination l) as (Hone & _ & Hsame).
  assert (Main.one_to_one (Main.apply_overrides l) = false /\
          Main.to_file (Main.apply_overrides l) = false) as [H121 Htf].
  { cbv zeta in Hone.
    destruct (decide (Main.program_mode l = Main.m_test)) as [Hm|Hm].
    - rewrite Hsame in Hone.
      rewrite bool_decide_eq_true_2 in Hone by done.
      destruct (Main.to_stdout (Main.apply_overrides l)),
        (Main.to_file (Main.apply_overrides l)),
        (Main.one_to_one (Main.apply_overrides l));
        cbn [Z.b2z] in Hone; try done; lia.
    - destruct Hmode as [?|[Hs _]]; [done|].
      assert (Main.to_stdout (Main.apply_overrides l) = true) as Hs'.
      { unfold Main.apply_overrides.
        repeat (case_bool_decide; simplify_eq/=); cbn;
          rewrite ?Hs; cbn; congruence. }
      rewrite Hs' in Hone.
      destruct (bool_decide _),
        (Main.to_file (Main.apply_overrides l)),
        (Main.one_to_one (Main.apply_overrides l));
        cbn [Z.b2z] in Hone; try done; lia. }
  set (l' := Main.apply_overrides l) in *. clearbody l'.
  unfold bind at 1, modify at 1 in Hmain.
  unfold bind at 1 in Hmain.
  match type of Hmain with
  | context [let (_, _) := ?m ?w0 in _] =>
      destruct (m w0) as [tty_ok w3] eqn:Htty
  end.
  assert (syscalls w3 = syscalls w /\ delete_output_on_interrupt w3 = false)
    as [Hsys3 Hown3].
  { destruct (_ && _) in Htty.
    - unfold bind at 1, modify at 1 in Htty.
      match type of Htty with
      | Main.check_tty_out ?s ?v ?m ?w0 = _ =>
          pose proof (check_tty_out_files v m w0) as Hout
      end.
      rewrite Htty in Hout. unfold files_of in Hout. cbn in Hout.
      injection Hout as _ _ -> ->. done.
    - unfold bind, modify, ret in Htty. injection Htty as _ <-. done. }
  destruct (negb tty_ok).
  { unfold ret in Hmain. injection Hmain as _ <-.
    split; [|done]. exists []. by rewrite app_nil_r. }
  unfold bind at 1, modify at 1 in Hmain. unfold bind at 1 in Hmain.
  match type of Hmain with
  | context [Main.main_files ?s ?c ?i ?l0 ?fg ?fs ?st ?w0] =>
      pose proof (main_files_keeps l0 fg H121 Htf fs st w0 Hown3) as Hloop;
      destruct (Main.main_files s c i l0 fg fs st w0) as [s0 w5]
  end.
  cbn [snd] in Hloop.
  destruct s0 as [st|status st].
  - unfold bind, ret in Hmain.
    match type of Hmain with
    | context [Main.finish_main ?s ?i ?l0 ?fs ?st0 ?w0] =>
        pose proof (finish_main_closes l0 fs st0 w0
                      (owned_of_keeps _ _ Hloop Hown3)) as Hfin;
        destruct (Main.finish_main s i l0 fs st0 w0) as [status w6]
    end.
    cbn [snd] in Hfin. injection Hmain as _ <-.
    eapply (Hdone (with_pp _ w3)); [exact Hsys3|exact Hown3|].
    by eapply keeps_output_trans.
  - unfold ret in Hmain. injection Hmain as _ <-.
    by eapply (Hdone (with_pp _ w3)).
Qed.

End DriverFiles.

(** "-t good.lz v2.lz": two inputs are opened and closed, and that is
    all. *)
Lemma test_and_stdout_touch_no_file_witness :
  let w' := (Main.main quiet_os codecs "clzip"
               [arg "t" ""; file "good.lz"; file "v2.lz"] world0).2 in
  (closes_only world0 w' /\ delete_output_on_interrupt w' = false) /\
  syscalls w' = [Sys_close 4; Sys_close 4].
Proof.
  intros w'. split; [|vm_compute; reflexivity].
  apply (test_and_stdout_touch_no_file quiet_os codecs "clzip"
           sample_codecs_keep_files
           [arg "t" ""; file "good.lz"; file "v2.lz"] world0
           (Main.set_program_mode Main.m_test Main.initial_locals)
           [file "good.lz"; file "v2.lz"] world0).
  - reflexivity.
  - reflexivity.
  - by left.
Defined.

(** ** Interrupted runs *)

Section SignalFacts.

Variable sys : os.
Variable verbosity : Z.
Variable invocation_name : string.

(** X29. A signal ends the process with status 1, and an output file
    that the run owns is removed exactly once: the handler closes the
    descriptor if it is open, removes the file and disowns it, so that
    any later [cleanup_and_fail] leaves the files alone; when the run
    owns no output file the handler touches no file. *)
Theorem interrupted_run_removes_output sig w :
  let run := signal_handler sys verbosity invocation_name sig w in
  run.1 = Exit 1 /\
  delete_output_on_interrupt run.2 = false /\
  output_filename run.2 = output_filename w /\
  syscalls run.2 =
    syscalls w ++
    (if delete_output_on_interrupt w then
       (if 0 <=? outfd w then [Sys_close (outfd w)] else []) ++
       [Sys_remove (output_filename w)]
     else []) /\
  (forall (A : Type) retval,
     files_of (cleanup_and_fail (A := A) sys verbosity invocation_name retval
                 run.2).2 = files_of run.2).
Proof.
  cbv zeta.
  destruct (signal_handler sys verbosity invocation_name sig w) as [r w']
    eqn:Hrun.
  cbn [fst snd]. unfold signal_handler in Hrun. unfold bind in Hrun.
  pose proof (show_error_files sys verbosity invocation_name
                "Control-C or similar caught, quitting." 0 false w) as Hfiles.
  destruct (show_error _ _ _ _ _ _ w) as [[] w1]. cbn [snd] in Hfiles.
  unfold files_of in Hfiles. injection Hfiles as Hname Hfd Hown Hsys.
  pose proof (cleanup_and_fail_name sys verbosity invocation_name
                (A := unit) 1 w1) as Hname2.
  destruct (cleanup_and_fail_run sys invocation_name (A := unit) verbosity 1
              w1) as (w2 & Hfail & Hclean).
  rewrite Hfail in *. injection Hrun as <- <-. cbn [snd] in Hname2.
  rewrite Hown in Hclean.
  assert (delete_output_on_interrupt w2 = false) as Hflag.
  { destruct (delete_output_on_interrupt w); [by destruct Hclean|].
    by subst w2. }
  split; [done|]. split; [done|]. split; [congruence|]. split.
  - destruct (delete_output_on_interrupt w).
    + destruct Hclean as [-> _]. by rewrite Hsys, Hfd, Hname.
    + subst w2. by rewrite app_nil_r.
  - intros A retval.
    by rewrite (cleanup_and_fail_not_owned sys verbosity invocation_name
                  (A := A) retval w2 Hflag).
Qed.

End SignalFacts.

(** A signal while the first volume is being written. *)
Lemma interrupted_run_removes_output_witness :
  let run := signal_handler quiet_os 0 "clzip" 2 world1 in
  run.1 = Exit 1 /\
  syscalls run.2 = [Sys_close 3; Sys_remove "out00001.lz"] /\
  files_of (cleanup_and_fail (A := unit) quiet_os 0 "clzip" 1 run.2).2 =
    files_of run.2.
Proof.
  destruct (interrupted_run_removes_output quiet_os 0 "clzip" 2 world1)
    as (Hr & _ & _ & Hsys & Hagain).
  split; [exact Hr|]. split; [exact Hsys|]. apply Hagain.
Defined.

(** ** Members that do not decode *)

Section DecoderErrors.

Variable sys : os.
Variable L : Lzip.decls.
Variable D : decoder.
Variable verbosity : Z.
Variable invocation_name : string.
Variable cfile_size : Z.
Variable ignore_trailing loose_trailing testing : bool.

(** X30. A member that the decoder does not accept makes [decompress]
    return 2, whatever the nonzero result of the decoder is: for a
    member (the first, or one after members that decode without error)
    with a good header and a header's worth of bytes behind it, for
    which the decoder gets its memory, the only thing done after the
    decoder returns is the message, at verbosity 0 and above and for a
    result of at most 2: "File ends unexpectedly" for the result 2 and
    "Decoder error" for the others, with the position in the file, that
    is the bytes of the members before, the six bytes of the header and
    the bytes that the decoder took. *)
Theorem decoder_error_reported stream w first_member s pos w1 result
    consumed w4 :
  Rd_init D w = true ->
  at_member sys L D verbosity cfile_size ignore_trailing loose_trailing
    testing stream w first_member s pos w1 ->
  (6 < length s)%nat ->
  Lh_verify_magic (take 6 s) = true ->
  Lh_verify_version (take 6 s) = true ->
  let ds := Lzip.Lh_get_dictionary_size L (take 6 s) in
  isvalid_ds ds = true ->
  let w2 := (when ((2 <=? verbosity) || ((verbosity =? 1) && first_member))
               (Pp_show_msg verbosity None) w1).2 in
  LZd_init D ds (drop 6 s) w2 = true ->
  let w3 := (show_dprogress sys verbosity cfile_size pos true 6 w2).2 in
  LZd_decode_member D ds (drop 6 s) w3 = ((Return result, consumed), w4) ->
  result <> 0 ->
  let position :=
    pos + 6 + Z.of_nat (Nat.min consumed (length s - 6)) in
  decompress sys L D verbosity invocation_name cfile_size ignore_trailing
    loose_trailing testing stream w =
  (Some (Return 2),
   (when ((0 <=? verbosity) && (result <=? 2))
      (Pp_show_msg verbosity None ;;;
       fputs ((if result =? 2 then "File ends unexpectedly"
               else "Decoder error") +:+
              " at pos " +:+ dec position +:+ nl)) w4).2).
Proof.
  intros Hinit Hat Hlen Hmagic Hver ds Hds w2 Halloc w3 Hdec Hres position.
  rewrite (decompress_break sys L D verbosity invocation_name cfile_size
             ignore_trailing loose_trailing testing stream w first_member s
             pos w1 2
             (when ((0 <=? verbosity) && (result <=? 2))
                (Pp_show_msg verbosity None ;;;
                 fputs ((if result =? 2 then "File ends unexpectedly"
                         else "Decoder error") +:+
                        " at pos " +:+ dec position +:+ nl)) w4).2
             Hinit Hat).
  - unfold decompress_epilogue, when at 1. by rewrite andb_false_r.
  - unfold decompress_member, Rd_read_data.
    rewrite (Rd_finished_false s Hlen). unfold Lh_size.
    rewrite Hmagic, Hver. fold ds. rewrite Hds. cbn [negb].
    unfold bind at 1. fold w2.
    destruct (when _ _ w1) as [[] w2'] eqn:Hw2. cbn [snd] in w2. subst w2.
    unfold bind at 1, get at 1. rewrite Halloc. cbn [negb].
    unfold bind at 1.
    assert (length (take 6 s) = 6%nat) as Hhead
      by (rewrite length_take; lia).
    rewrite Hhead. change (Z.of_nat 6) with 6.
    destruct (show_dprogress _ _ _ _ _ _ w2') as [[] w3'] eqn:Hw3.
    cbn [snd] in w3. subst w3.
    unfold bind at 1. rewrite Hdec.
    rewrite (proj2 (Z.eqb_neq result 0) Hres). cbn [negb].
    rewrite length_drop. fold position.
    unfold bind at 1.
    by destruct (when _ _ w4) as [[] w5].
Qed.

End DecoderErrors.

(** A member cut short: the payload announces two bytes and has one. *)
Lemma decoder_error_reported_witness :
  let stream := ["L"; "Z"; "I"; "P"; x01; x0c; x02; "a"]%byte in
  let run := decompress quiet_os lzip_h stored_decoder 0 "clzip" 0 true false
               false stream world0 in
  run.1 = Some (Return 2) /\
  stderr run.2 =
    [Text "  in.lz: "; Text ("File ends unexpectedly at pos 8" +:+ nl)].
Proof.
  cbn zeta.
  rewrite (decoder_error_reported quiet_os lzip_h stored_decoder 0 "clzip" 0
             true false false
             ["L"; "Z"; "I"; "P"; x01; x0c; x02; "a"]%byte world0 true
             ["L"; "Z"; "I"; "P"; x01; x0c; x02; "a"]%byte 0 world0 2 2%nat
             (with_dprogress
                {| enabled := false; csize := 0; psize := 0; armed := false;
                   counter := 0 |} world0)).
  - split; reflexivity.
  - reflexivity.
  - cbn. auto.
  - cbn. lia.
  - reflexivity.
  - reflexivity.
  - reflexivity.
  - reflexivity.
  - reflexivity.
  - done.
Defined.
